(* ===== verification/_CoqProject ===== *)
-Q . S2P
Prelude.v
Numbers.v
XReal.v
Trig.v
Vectors.v
SphericalCoord.v
Engine.v
EngineProps.v
ViewportControl.v
UpdateProps.v
OrbitProps.v
Seam.v
InputProps.v
Store.v
LookAt.v
ZoomLimit.v
Turns.v
NotANumber.v
Refinement.v
Gesture.v
Order.v
Scenario.v
Doubles.v
