(* ===== verification/Prelude.v ===== *)
(** * ViewportControl: a verified model of an orbit-style camera controller

    The program ([src/src/ViewportControl.ts]) is a script attached to a
    camera entity.  Once per frame the engine calls [onUpdate], which
    samples the input devices (keyboard pan, wheel zoom, mouse-drag
    rotation), accumulates the input into pending deltas and then calls
    [_updateTransform], which re-reads the camera position, converts the
    camera-to-target offset to spherical coordinates, applies and clamps the
    pending deltas, converts back, writes the camera position, orients the
    camera towards the target and resets the pending deltas.

    ** Files

    - [Prelude] (this file): tactics, the hint databases and the generic
      lemmas on iterated steps that the components share.
    - [Numbers]: the interface of JavaScript numbers as the program uses
      them, a class [Number] of operations ([+ - * /], comparisons,
      [Math.max], [Math.min], [Infinity], [NaN]) and a class [MathFns] of the
      functions of [Math] ([PI], [pow], [sqrt], [sin], [cos], [acos],
      [atan2]).  Every definition that models code is written against these
      classes, so it reads like the source and can be run on any instance.
    - [XReal]: the instance the arithmetic theorems are proved for, the
      reals extended with [+Infinity], [-Infinity] and [NaN], with the
      special-value rules of IEEE 754 and exact arithmetic on finite values;
      its order, the lemmas on [Math.max]/[Math.min] and the tactics that
      decide goals over it.
    - [Trig]: the real analysis behind the spherical conversion: the angle
      [Math.atan2] and [Math.acos] read from a vector give the vector back
      through [Math.sin] and [Math.cos].
    - [Vectors]: the engine's vectors (modules [Vector3], [Vector2]) and
      orientations (module [Quaternion]), with the operations the controller
      calls, and their lemmas over [xreal].
    - [SphericalCoord]: the spherical-coordinate value the controller imports
      from [./Spherical] (module [Spherical]).  Its source is not part of the
      repository snapshot, so the record, the class [Spherical.Ops] of its
      operations and the contract [Spherical.Contract] are taken from section
      4.1 of the specification; the file also gives an implementation
      ([Spherical.spec_ops]) and proves that it meets the contract, the round
      trip between [setFromVec3] and [setToVec3] included.
    - [Engine]: the collaborators of section 6 of the specification, the
      transform of the camera entity (module [Transform]), the input manager
      and the canvas.  [EngineProps]: the lemmas on transforms over [xreal].
    - [ViewportControl]: the controller itself, translated line by line from
      the source: the direction constants (lines 4-9), the class with its
      field initialisers ([ViewportControl], [fields], lines 13-37), the
      [constructor] (lines 39-43), [onUpdate] (lines 45-111) split at the
      source's five blocks ([panDepth], [panSide], [panHeight], [wheelZoom],
      [dragRotate]), [_move] (lines 113-120) and [_updateTransform] (lines
      122-156) split at its steps ([readOffset], [addDelta], [clampAngles],
      [safePolar], [applyZoom], [clampRadius], [writeTransform],
      [resetCache]), and the frame loop [frames].
    - [UpdateProps]: the theorems on the coordinates [_updateTransform]
      leaves: what it resets, that it leaves the target and the configuration
      alone, the clamping of the angles and of the distance, the margin from
      the poles, the behaviour of limits in the wrong order and of [NaN]
      limits, the zoom law, the agreement of the clamping steps with the
      reference clamp.
    - [OrbitProps]: the theorems on the transform [_updateTransform] writes:
      the invariant [settled] of the frame loop, that [_atTheBack] is never
      set, that the camera is at the distance [_spherical.radius] from the
      target, what a call without input does to the position, and the
      coordinates the next call reads back ([coords_after_update]).
    - [Seam]: the azimuth between two calls.  Line 126 reads it again from
      the position in every call, within half a turn to either side.  With
      azimuth limits that contain the half turns or lie strictly inside them
      ([seamless_limits]) a second call without input is a fixed point
      ([updateTransform_twice]); with a finite limit beyond the half turn the
      camera can be left where the next call, without input, moves it
      ([azimuth_seam_jump]).
    - [InputProps]: the theorems on [onUpdate] and runs of frames: exactly
      when it throws, that the configuration is never assigned, that a pan
      moves the camera and the target together, the wheel law, the drag law,
      that the constructor establishes the invariant, the safety of the
      frame loop ([frames_safe]), and the polar limits over a run: from the
      constructor's world the polar angle stays between the defaults, one
      radian and [179 / 180 * PI] ([default_polar_range]).
    - [Store]: the same methods over the module-level scratch vectors of
      lines 10-11 as shared objects: a [Heap] of the two vectors and the
      world of [this], methods as heap transformers that complete or throw
      ([Method.t], with its notation), [_moveS], [_updateTransformS] and
      [onUpdateS] statement by statement, and a frame of an engine with
      several controllers ([tick]).  The functions of [ViewportControl] are
      the erasure of this model ([onUpdateS_erases], [tick_erases]); the
      file also says what a frame leaves in the scratch vectors and what
      state an exception leaves.
    - [LookAt]: where the camera looks after [_updateTransform]: the
      orientation [lookAt] leaves is a rotation that is not rolled over, with
      the target straight ahead at the distance [_spherical.radius]
      ([updateTransform_looks_at]); line 137 is what makes the frame exist;
      a pan forward moves the target along the line of sight.
    - [ZoomLimit]: runs of wheel frames.  One wheel frame scales the
      distance and clamps it ([zoom_clamp], [wheel_step]), a run iterates
      that ([wheel_run]).  Holding the wheel towards the target brings the
      camera to [minDistance] in finitely many frames and keeps it there
      ([wheel_reaches_minDistance]), holding it the other way brings it to a
      finite [maxDistance] ([wheel_reaches_maxDistance]) and beyond every
      bound under the default, infinite one ([wheel_escapes]), and zooming
      in terminates: the frames that bring the camera closer are a
      well-founded relation ([zoom_in_terminates]).
    - [Turns]: rotations of the azimuth: a horizontal drag turns the camera
      about the vertical axis through the target ([drag_rotates_about_up],
      against the reference rotation [rotateY] of [Vectors]), the drags of
      two frames add up ([drags_add]); spherical values whose azimuths
      differ by whole turns ([same_point], an equivalence that [setToVec3]
      respects), and a drag by a whole number of canvas widths, which leaves
      the camera where a frame without input leaves it
      ([drag_whole_turns]).
    - [NotANumber]: what the hypotheses on the input keep out: a drag on a
      canvas of width zero makes the position of the camera [NaN]
      ([empty_canvas_poisons]), and from a position with a [NaN] in it no
      run of frames comes back ([lost_frames]).
    - [Refinement]: the controller as the specification describes it, a
      camera on an orbit ([Orbit]: a target and an offset) that a gesture per
      frame moves, turns and scales within the limits ([orbit_step],
      [orbit_run]); the relation [refines] between worlds and orbits, and the
      simulation: a run of the program from a world that implements an orbit
      ends in a world that implements the orbit the machine reaches
      ([frames_refine]).  There the gesture of a frame is what the wheel and
      drag blocks leave pending.
    - [Gesture]: the gesture of the specification, computed from what the
      devices report in a frame ([Reading]: the wheel step, the movement of
      the pointer, the size of the canvas; [spec_gesture]) and from nothing
      of the program; the wheel and drag blocks compute it
      ([gesture_reads]), and the simulation holds under it
      ([frames_refine_spec]).
    - [Order]: the order of the blocks of [onUpdate], proved against the
      machine of [Refinement]: a frame ends where two frames end, the first
      with the keys of the frame alone, the second with the pan keys
      released ([frame_splits]).
    - [Scenario]: concrete worlds and frames: the camera at the pole, the
      camera turned across the half turn under finite azimuth limits, the
      readings of a run of frames, and the instances of the theorems at a
      camera at [(0, 0, 5)], the camera of the example of section 8 of the
      specification.
    - [Doubles]: the instance of [Number] at the binary64 numbers of the
      kernel (primitive floats), the order of these numbers and the clamp of
      lines 129-145 on them ([clampRadius_double], [clampAngles_double]); an
      implementation of the functions of [Math] (module [Libm]); and runs of
      the whole controller by [vm_compute] ([double_quarter_turn],
      [double_run], [double_throws], [double_reaches_minDistance],
      [double_empty_canvas], [double_second_call]).  The runs are
      executions of the model at one input, with
      the series of [Libm] in place of the [Math] of an engine: they show
      that the definitions run and what the idealisation of [xreal] leaves
      out, and no property of the development rests on them.

    ** Interfaces

    The controller is written against three classes: [Number] and [MathFns]
    for the numbers, and [Spherical.Ops] for the value it imports.  The
    theorems on the controller are proved against [Spherical.Contract], a
    class of laws over [xreal] with the margin [eps] of [makeSafe] as a
    parameter, and never against an implementation; [spec_ops_contract]
    discharges the contract for [Spherical.spec_ops] with [eps = 1 / 1000000].
    The contract states the facts on [setFromVec3] and [setToVec3] for the up
    axis [(0, 1, 0)], the only one the controller sets.

    ** How state and effects are modelled

    The source mutates the fields of [this] and of the entity's transform.
    The model passes both explicitly: a [World] pairs the controller record
    with the transform, and every method is a function from worlds to worlds.
    [onUpdate] can raise a [TypeError] (it reads [pointers[0].deltaPosition]
    without checking that a pointer exists), so it returns a sum.

    The module-level scratch vectors [_tempVec3] and [_targetMoveVector3] are
    shared by all instances of the class.  [ViewportControl] treats them as
    local values of the methods; [Store] justifies that.  There a method is a
    function from a heap (the two vectors and the world of [this]) to a
    completion and the heap it leaves, every read of a scratch vector is a
    read of the heap, and an exception leaves the heap as the statements
    before it made it.  Every method writes the vectors before it reads them,
    so the result of a call does not depend on what they hold, and several
    controllers called in turn on the same vectors behave as each does alone.
    The theorems on values are proved of the functions of [ViewportControl]
    and carry over by the erasure theorems.

    ** Numbers

    JavaScript numbers are IEEE 754 doubles.  The definitions do not fix a
    representation; they use the operations of [Number] and [MathFns].
    Theorems that only follow the control flow (what is reset, which branch is
    taken) are proved for every instance, hence also for doubles.  Theorems
    that need arithmetic are proved for [xreal], where finite values are real
    numbers: they describe the program up to rounding, and they keep the
    behaviour of the special values ([Infinity] as a limit, [NaN] through
    [Math.max]).  [xreal] has no signed zero, no overflow and no rounding.
    [Doubles] gives the second instance, the binary64 numbers themselves: the
    definitions run on it, and the clamps are proved on it from the
    specification of the primitive comparisons.  The functions of [Math] that
    ECMAScript leaves to the implementation are approximated there by series
    ([Libm]); the runs compare results up to [2^-40], and no theorem other
    than these runs depends on [Libm].

    ** Fuel

    The source has no loop and no recursion, so no definition that models it
    takes fuel; a run is structural in its list of frames.  The only fuel is
    in [Libm]: the number of terms of the series (24 to 40, enough for the
    remainder to be below the last digit on the reduced arguments), 64 whole
    turns in the reduction of an angle, and 1100 doublings in the scaling by
    a power of two (the range of the binary64 exponent).

    ** The invariant and the frame loop

    [ready] (in [UpdateProps]) says that the numbers [_updateTransform] reads
    are finite.  [settled] (in [OrbitProps]) adds the transform, the pending
    zoom, the up vector and limits that can be clamped to ([sound_limits]);
    [running] (in [InputProps]) adds finite speeds.  The constructor
    establishes [running], every frame whose input is usable ([sound_frame]: a
    drag comes with a pointer, a finite movement and a canvas of finite size
    that is not zero) keeps it, and after a frame the world is [bounded]: the
    coordinates are within the limits and the camera is where they say.  A run
    is a list of engine snapshots, one per frame; it needs no fuel, since
    [frames] is structural in that list and every method of the source is a
    straight line of assignments.  The hypotheses are needed: a frame whose
    canvas has width zero leads out of the invariant into a state no frame
    leaves ([lost], in [NotANumber]).

    ** What is not modelled

    The engine itself: the scene graph, the component lifecycle other than
    the constructor and the per-frame call, rendering, and the way the input
    manager fills its snapshot.  Two controllers attached to the same entity
    (they would share a transform as well as the scratch vectors).  What the
    host does with an exception: [frames] and [tick] end at the first one,
    and [onUpdateS_throws_keeps_input] says what a host that goes on would
    find.  Termination of a call is no claim of its own: the source has no
    loop and no recursion, and every definition that models it is
    structural; what terminates is the zoom under a held wheel
    ([zoom_in_terminates]).  Quaternions are replaced by the rotation they
    denote.  A parent entity is represented by its world position only; it
    does not rotate or scale.  Rounding: over [xreal] the finite values are
    real numbers, so the theorems on values hold of the program up to the
    rounding of binary64 arithmetic, and the round trip of the spherical
    conversion is exact where the program's is approximate.  Overflow: a
    finite value of [xreal] never overflows, so the invariant of
    [frames_safe] is a fact of the program only as long as no intermediate
    result leaves the range of binary64; under the default [maxDistance] a
    held wheel takes the distance beyond every bound ([wheel_escapes]), so
    also beyond that range.  For an up axis other than [(0, 1, 0)] the implementation of
    [Spherical] computes a frame ([Spherical.frame]); the contract does not
    speak of that case.

    ** Where the model of the engine is simpler than an engine

    [Spherical] is not in the repository: [setToVec3] is a function from a
    value to a vector and a flag and writes nothing back into the value;
    [set] takes its arguments in the order [(theta, phi, radius)] of the
    specification, which line 155 does not reveal (it passes three zeros);
    [makeSafe] is the clamp of the specification, under which the flag that
    line 146 stores is always off.  Line 147 passes the vector that the
    getter of [worldPosition] returns as the output of [Vector3.add];
    [writeTransform] models it as the assignment of [worldPosition], as an
    engine that observes writes to that vector behaves.
    [Transform.lookRotation] has no early return: where the direction or the
    up vector gives no frame it yields axes of length zero, and the theorems
    on the orientation carry the hypotheses that exclude it.  [tick], the
    loop of an engine over several scripts, is no code of the repository.
    [wheel_factor] is one for a wheel step of zero, where line 85 skips the
    block. *)

From Stdlib Require Import List Bool.
Import ListNotations.

(** ** Hint databases *)

(** [vc] collects the facts that close the routine side conditions of the
    controller's theorems; [vc_unfold] the definitions that proofs by
    computation unfold; [vc_rw] the equations [autorewrite] simplifies
    with; [nan_rw] the equations that carry [NaN] through the operations. *)
Create HintDb vc discriminated.
Create HintDb vc_unfold discriminated.
Create Rewrite HintDb vc_rw.
Create Rewrite HintDb nan_rw.

(** ** Tactics *)

(** Invert a hypothesis and clean up. *)
Ltac inv H := inversion H; subst; clear H.

(** Case analysis on the scrutinee of the first [match] or [if] the goal is
    stuck on, remembering the case as an equation. *)
Ltac break_match :=
  match goal with
  | |- context [match ?e with _ => _ end] =>
      lazymatch e with
      | context [match _ with _ => _ end] => fail
      | _ => let E := fresh "E" in destruct e eqn:E
      end
  end.

(** The same for a hypothesis. *)
Ltac break_match_in H :=
  match type of H with
  | context [match ?e with _ => _ end] =>
      lazymatch e with
      | context [match _ with _ => _ end] => fail
      | _ => let E := fresh "E" in destruct e eqn:E
      end
  end.

(** Split conjunctions in the goal and in the context. *)
Ltac split_all :=
  repeat match goal with
         | |- _ /\ _ => split
         | H : _ /\ _ |- _ => destruct H
         end.

(** ** Booleans *)

Lemma andb_true_l_iff (a b : bool) : a = true -> (a && b = b).
Proof. intros ->. reflexivity. Qed.

Lemma andb_false_l_iff (a b : bool) : a = false -> (a && b = false).
Proof. intros ->. reflexivity. Qed.

Lemma negb_true_eq (a : bool) : negb a = true <-> a = false.
Proof. destruct a; simpl; split; congruence. Qed.

Lemma negb_false_eq (a : bool) : negb a = false <-> a = true.
Proof. destruct a; simpl; split; congruence. Qed.

#[export] Hint Rewrite negb_true_eq negb_false_eq andb_true_iff orb_true_iff : vc_rw.

(** ** Results: a value or an exception *)

(** A method that can throw returns [Ok v] or [Throw e]. *)
Inductive result (E A : Type) : Type :=
| Ok (v : A)
| Throw (e : E).

Arguments Ok {E A} v.
Arguments Throw {E A} e.

Definition is_ok {E A} (r : result E A) : bool :=
  match r with Ok _ => true | Throw _ => false end.

Definition bind_result {E A B} (r : result E A) (k : A -> result E B) : result E B :=
  match r with
  | Ok v => k v
  | Throw e => Throw e
  end.

Definition map_result {E A B} (f : A -> B) (r : result E A) : result E B :=
  bind_result r (fun v => Ok (f v)).

Declare Scope result_scope.
Delimit Scope result_scope with result.
Notation "'let!' x ':=' r 'in' k" := (bind_result r (fun x => k))
  (at level 10, x name, r at level 100, k at level 200) : result_scope.

Lemma bind_result_ok {E A B} (v : A) (k : A -> result E B) :
  bind_result (Ok v) k = k v.
Proof. reflexivity. Qed.

Lemma bind_result_inv {E A B} (r : result E A) (k : A -> result E B) (w : B) :
  bind_result r k = Ok w -> exists v, r = Ok v /\ k v = Ok w.
Proof. destruct r; simpl; [eauto | discriminate]. Qed.

Lemma map_result_ok_inv {E A B} (f : A -> B) (r : result E A) (w : B) :
  map_result f r = Ok w -> exists v, r = Ok v /\ w = f v.
Proof.
  unfold map_result. intros H. apply bind_result_inv in H.
  destruct H as (v & -> & [= <-]). eauto.
Qed.

(** ** Iterating a step over a list of inputs *)

Section Iterate.

Context {S I E : Type}.
Variable step : S -> I -> result E S.

(** Run [step] over the inputs in order, stopping at the first exception. *)
Fixpoint iterate (s : S) (ins : list I) : result E S :=
  match ins with
  | [] => Ok s
  | i :: rest => bind_result (step s i) (fun s' => iterate s' rest)
  end.

Lemma iterate_app (s : S) (xs ys : list I) :
  iterate s (xs ++ ys) = bind_result (iterate s xs) (fun s' => iterate s' ys).
Proof.
  revert s. induction xs as [|x xs IH]; intros s; simpl; [reflexivity|].
  destruct (step s x); simpl; auto.
Qed.

(** A property that every successful step preserves holds after every
    successful run. *)
Lemma iterate_invariant (P : S -> Prop) :
  (forall s i s', P s -> step s i = Ok s' -> P s') ->
  forall ins s s', P s -> iterate s ins = Ok s' -> P s'.
Proof.
  intros Hstep. induction ins as [|i ins IH]; simpl; intros s s' Hs Hrun.
  - now inv Hrun.
  - apply bind_result_inv in Hrun. destruct Hrun as (s1 & H1 & H2). eauto.
Qed.

(** A property that every successful step establishes, whatever the state
    before, holds after every successful run of at least one step. *)
Lemma iterate_establishes (P : S -> Prop) :
  (forall s i s', step s i = Ok s' -> P s') ->
  forall ins s s', ins <> [] -> iterate s ins = Ok s' -> P s'.
Proof.
  intros Hstep ins s s' Hne Hrun.
  destruct ins as [|i ins]; [congruence|]. simpl in Hrun.
  apply bind_result_inv in Hrun. destruct Hrun as (s1 & H1 & H2).
  eapply (iterate_invariant P); eauto.
Qed.

(** When no step can fail under an invariant, no run fails. *)
Lemma iterate_total (P : S -> Prop) :
  (forall s i, P s -> exists s', step s i = Ok s' /\ P s') ->
  forall ins s, P s -> exists s', iterate s ins = Ok s' /\ P s'.
Proof.
  intros Hstep. induction ins as [|i ins IH]; simpl; intros s Hs; [eauto|].
  destruct (Hstep s i Hs) as (s1 & -> & H1). simpl. auto.
Qed.

(** The same when the steps need something of their inputs: under an
    invariant [P] and with inputs that satisfy [Q], a run does not fail, keeps
    [P], and ends in [R] when every step does and the run has a step. *)
Lemma iterate_total_on (P : S -> Prop) (Q : I -> Prop) (R : S -> Prop) :
  (forall s i, P s -> Q i -> exists s', step s i = Ok s' /\ P s' /\ R s') ->
  forall ins s, P s -> Forall Q ins ->
    exists s', iterate s ins = Ok s' /\ P s' /\ (R s \/ ins <> [] -> R s').
Proof.
  intros Hstep. induction ins as [|i ins IH]; simpl; intros s Hs Hq.
  - exists s. intuition congruence.
  - apply Forall_cons_iff in Hq. destruct Hq as [Hi Hq].
    destruct (Hstep s i Hs Hi) as (s1 & -> & HP1 & HR1).
    destruct (IH s1 HP1 Hq) as (s' & Hrun & HP & HR).
    exists s'. simpl. auto.
Qed.

End Iterate.
