(* ===== verification/Numbers.v ===== *)
(** * Numbers: the interface of JavaScript numbers

    The controller computes with the [number] type of JavaScript.  This file
    states, as two classes, the operations the program uses: [Number] holds
    the arithmetic operators, the comparisons, the constants [Infinity] and
    [NaN] and [Math.max], [Math.min], [Math.sqrt] (operations IEEE 754
    defines exactly); [MathFns] holds [Math.PI] and the functions of [Math]
    whose results ECMAScript leaves to the implementation.  The notations of
    [num_scope] let the model be written with the source's operators. *)

From Stdlib Require Import ZArith Bool.
From S2P Require Import Prelude.

(** ** The operations *)

Class Number (F : Type) : Type := {
  (** an integer literal *)
  of_Z : Z -> F;
  Infinity : F;
  NaN : F;
  (** [x + y], [x - y], [x * y], [x / y], [-x] *)
  add : F -> F -> F;
  sub : F -> F -> F;
  mul : F -> F -> F;
  div : F -> F -> F;
  neg : F -> F;
  (** [x < y] and [x === y]; both are false when an argument is [NaN] *)
  ltb : F -> F -> bool;
  eqb : F -> F -> bool;
  Math_max : F -> F -> F;
  Math_min : F -> F -> F;
  Math_sqrt : F -> F
}.

Class MathFns (F : Type) : Type := {
  Math_PI : F;
  Math_pow : F -> F -> F;
  Math_sin : F -> F;
  Math_cos : F -> F;
  Math_acos : F -> F;
  Math_atan2 : F -> F -> F
}.

(** ** Notations *)

Declare Scope num_scope.
Delimit Scope num_scope with num.

Notation "x + y" := (add x y) : num_scope.
Notation "x - y" := (sub x y) : num_scope.
Notation "x * y" := (mul x y) : num_scope.
Notation "x / y" := (div x y) : num_scope.
Notation "- x" := (neg x) : num_scope.
Notation "x <? y" := (ltb x y) : num_scope.
Notation "x >? y" := (ltb y x) : num_scope.
Notation "x === y" := (eqb x y) (at level 70, no associativity) : num_scope.
Notation "x !== y" := (negb (eqb x y)) (at level 70, no associativity) : num_scope.

Section Literals.

Context {F : Type} `{Number F}.

(** The literals of the source, built from integer literals: a decimal
    literal [n/d] denotes the number nearest to the quotient, which is what
    the division of the two integers yields. *)
Definition zero : F := of_Z 0.
Definition one : F := of_Z 1.
Definition two : F := of_Z 2.
Definition dec (n d : Z) : F := div (of_Z n) (of_Z d).

End Literals.
