(* ===== verification/XReal.v ===== *)
(** * XReal: extended reals as a model of JavaScript numbers

    [xreal] is the set of real numbers with [+Infinity], [-Infinity] and
    [NaN] added.  Finite values are computed with exactly; the special values
    follow the rules of IEEE 754 ([Infinity - Infinity] and [0 * Infinity] are
    [NaN], a comparison with [NaN] is false, [Math.max] and [Math.min] return
    [NaN] when an argument is [NaN]).  There is no signed zero: a division of
    a non-zero number by zero yields the infinity of the sign of the dividend.

    The file gives the instances of [Number] and [MathFns], the order of
    [xreal] as propositions with the lemmas that reflect the boolean tests of
    the code, the lemmas on clamping with [Math.max] and [Math.min], and the
    tactics [xreal_cases] and [xlra] that decide goals over [xreal]. *)

From Stdlib Require Import Reals Lra ZArith Bool RelationClasses.
From S2P Require Import Prelude Numbers.

Local Open Scope R_scope.

(** ** The type *)

Inductive xreal : Type :=
| Fin (r : R)
| PInf
| NInf
| XNaN.

(** ** Deciding the order of the reals *)

Definition Rltb (a b : R) : bool := if Rlt_dec a b then true else false.
Definition Rleb (a b : R) : bool := if Rle_dec a b then true else false.
Definition Reqb (a b : R) : bool := if Req_dec_T a b then true else false.

(** The sign of a real number, as a comparison with zero. *)
Definition Rsign (a : R) : comparison :=
  if Rlt_dec 0 a then Gt else if Rlt_dec a 0 then Lt else Eq.

(** The product of two signs. *)
Definition sign_mul (c d : comparison) : comparison :=
  match c, d with
  | Eq, _ | _, Eq => Eq
  | Gt, Gt | Lt, Lt => Gt
  | _, _ => Lt
  end.

(** The infinity of a sign; an undetermined sign gives [NaN]. *)
Definition inf_of (c : comparison) : xreal :=
  match c with Gt => PInf | Lt => NInf | Eq => XNaN end.

Definition xsign (x : xreal) : comparison :=
  match x with
  | Fin r => Rsign r
  | PInf => Gt
  | NInf => Lt
  | XNaN => Eq
  end.

(** ** Arithmetic *)

Definition xadd (x y : xreal) : xreal :=
  match x, y with
  | XNaN, _ | _, XNaN => XNaN
  | Fin a, Fin b => Fin (a + b)
  | PInf, NInf | NInf, PInf => XNaN
  | PInf, _ | _, PInf => PInf
  | NInf, _ | _, NInf => NInf
  end.

Definition xneg (x : xreal) : xreal :=
  match x with
  | Fin a => Fin (- a)
  | PInf => NInf
  | NInf => PInf
  | XNaN => XNaN
  end.

Definition xsub (x y : xreal) : xreal :=
  match x, y with
  | XNaN, _ | _, XNaN => XNaN
  | Fin a, Fin b => Fin (a - b)
  | PInf, PInf | NInf, NInf => XNaN
  | PInf, _ | _, NInf => PInf
  | NInf, _ | _, PInf => NInf
  end.

Definition xmul (x y : xreal) : xreal :=
  match x, y with
  | XNaN, _ | _, XNaN => XNaN
  | Fin a, Fin b => Fin (a * b)
  | _, _ => inf_of (sign_mul (xsign x) (xsign y))
  end.

Definition xdiv (x y : xreal) : xreal :=
  match x, y with
  | XNaN, _ | _, XNaN => XNaN
  | Fin a, Fin b => if Req_dec_T b 0 then inf_of (Rsign a) else Fin (a / b)
  | Fin _, _ => Fin 0
  | _, Fin b => inf_of (sign_mul (xsign x) (if Req_dec_T b 0 then Gt else Rsign b))
  | _, _ => XNaN
  end.

(** ** Comparisons *)

Definition xltb (x y : xreal) : bool :=
  match x, y with
  | XNaN, _ | _, XNaN => false
  | Fin a, Fin b => Rltb a b
  | _, NInf | PInf, _ => false
  | NInf, _ | _, PInf => true
  end.

Definition xeqb (x y : xreal) : bool :=
  match x, y with
  | Fin a, Fin b => Reqb a b
  | PInf, PInf | NInf, NInf => true
  | _, _ => false
  end.

(** ** [Math.max], [Math.min], [Math.sqrt] *)

Definition xmax (x y : xreal) : xreal :=
  match x, y with
  | XNaN, _ | _, XNaN => XNaN
  | _, _ => if xltb x y then y else x
  end.

Definition xmin (x y : xreal) : xreal :=
  match x, y with
  | XNaN, _ | _, XNaN => XNaN
  | _, _ => if xltb y x then y else x
  end.

Definition xsqrt (x : xreal) : xreal :=
  match x with
  | Fin a => if Rlt_dec a 0 then XNaN else Fin (sqrt a)
  | PInf => PInf
  | _ => XNaN
  end.

(** ** The functions of [Math] *)

Definition xsin (x : xreal) : xreal :=
  match x with Fin a => Fin (sin a) | _ => XNaN end.

Definition xcos (x : xreal) : xreal :=
  match x with Fin a => Fin (cos a) | _ => XNaN end.

Definition xacos (x : xreal) : xreal :=
  match x with
  | Fin a => if Rle_dec (-1) a then if Rle_dec a 1 then Fin (acos a) else XNaN else XNaN
  | _ => XNaN
  end.

(** [Math.atan2(y, x)] on finite arguments: the angle of the point [(x, y)],
    in [(-PI, PI]]. *)
Definition Ratan2 (y x : R) : R :=
  if Rlt_dec 0 x then atan (y / x)
  else if Rlt_dec x 0 then
         if Rlt_dec y 0 then atan (y / x) - PI else atan (y / x) + PI
  else if Rlt_dec 0 y then PI / 2
  else if Rlt_dec y 0 then - (PI / 2)
  else 0.

Definition xatan2 (y x : xreal) : xreal :=
  match y, x with
  | XNaN, _ | _, XNaN => XNaN
  | Fin b, Fin a => Fin (Ratan2 b a)
  | Fin b, PInf => Fin 0
  | Fin b, NInf => if Rlt_dec b 0 then Fin (- PI) else Fin PI
  | PInf, Fin _ => Fin (PI / 2)
  | NInf, Fin _ => Fin (- (PI / 2))
  | PInf, PInf => Fin (PI / 4)
  | PInf, NInf => Fin (3 * PI / 4)
  | NInf, PInf => Fin (- (PI / 4))
  | NInf, NInf => Fin (- (3 * PI / 4))
  end.

(** [Math.pow(b, e)].  A positive base is raised by [Rpower]; a negative
    base has a real power only for an integer exponent. *)
Definition Rpow (b e : R) : xreal :=
  if Rlt_dec 0 b then Fin (Rpower b e)
  else if Req_dec_T e 0 then Fin 1
  else if Req_dec_T b 0 then (if Rlt_dec 0 e then Fin 0 else PInf)
  else if Req_dec_T (IZR (Zfloor e)) e then Fin (powerRZ b (Zfloor e))
  else XNaN.

Definition xpow (b e : xreal) : xreal :=
  match b, e with
  | _, Fin e' =>
      if Req_dec_T e' 0 then Fin 1
      else match b with
           | Fin b' => Rpow b' e'
           | PInf => if Rlt_dec 0 e' then PInf else Fin 0
           | NInf =>
               if Rlt_dec 0 e'
               then (if Req_dec_T (IZR (Zfloor e')) e'
                     then (if Z.odd (Zfloor e') then NInf else PInf) else PInf)
               else Fin 0
           | XNaN => XNaN
           end
  | XNaN, _ | _, XNaN => XNaN
  | Fin b', PInf =>
      if Rlt_dec (Rabs b') 1 then Fin 0
      else if Rlt_dec 1 (Rabs b') then PInf else XNaN
  | Fin b', NInf =>
      if Rlt_dec (Rabs b') 1 then PInf
      else if Rlt_dec 1 (Rabs b') then Fin 0 else XNaN
  | _, PInf => PInf
  | _, NInf => Fin 0
  end.

(** ** The instances *)

#[export] Instance Number_xreal : Number xreal := {|
  of_Z z := Fin (IZR z);
  Infinity := PInf;
  NaN := XNaN;
  add := xadd;
  sub := xsub;
  mul := xmul;
  div := xdiv;
  neg := xneg;
  ltb := xltb;
  eqb := xeqb;
  Math_max := xmax;
  Math_min := xmin;
  Math_sqrt := xsqrt
|}.

#[export] Instance MathFns_xreal : MathFns xreal := {|
  Math_PI := Fin PI;
  Math_pow := xpow;
  Math_sin := xsin;
  Math_cos := xcos;
  Math_acos := xacos;
  Math_atan2 := xatan2
|}.

(** ** The order, as propositions *)

Definition is_nan (x : xreal) : bool :=
  match x with XNaN => true | _ => false end.

Definition finite (x : xreal) : Prop :=
  match x with Fin _ => True | _ => False end.

Definition xle (x y : xreal) : Prop :=
  match x, y with
  | XNaN, _ | _, XNaN => False
  | Fin a, Fin b => a <= b
  | NInf, _ | _, PInf => True
  | _, _ => False
  end.

Definition xlt (x y : xreal) : Prop :=
  match x, y with
  | XNaN, _ | _, XNaN => False
  | Fin a, Fin b => a < b
  | _, NInf | PInf, _ => False
  | NInf, _ | _, PInf => True
  end.

Declare Scope xreal_scope.
Delimit Scope xreal_scope with xreal.
Bind Scope xreal_scope with xreal.

Notation "x <= y" := (xle x y) : xreal_scope.
Notation "x < y" := (xlt x y) : xreal_scope.
Notation "x <= y <= z" := (xle x y /\ xle y z) : xreal_scope.
Notation "x < y < z" := (xlt x y /\ xlt y z) : xreal_scope.

(** The value of a finite number; [0] for the special values. *)
Definition real_of (x : xreal) : R :=
  match x with Fin r => r | _ => 0 end.

(** ** Tactics *)

(** Case analysis on every [xreal] of the context. *)
Ltac xreal_cases :=
  repeat match goal with x : xreal |- _ => destruct x end.

(** Case analysis on the decisions over [R] that occur in the goal or in a
    hypothesis. *)
Ltac Rdecide :=
  repeat match goal with
         | |- context [Rlt_dec ?a ?b] => destruct (Rlt_dec a b)
         | |- context [Rle_dec ?a ?b] => destruct (Rle_dec a b)
         | |- context [Req_dec_T ?a ?b] => destruct (Req_dec_T a b)
         | H : context [Rlt_dec ?a ?b] |- _ => destruct (Rlt_dec a b)
         | H : context [Rle_dec ?a ?b] |- _ => destruct (Rle_dec a b)
         | H : context [Req_dec_T ?a ?b] |- _ => destruct (Req_dec_T a b)
         end.

(** Unfold the operations of [xreal] at constructors, decide the tests on
    [R] and close what linear arithmetic, congruence or propositional
    reasoning closes. *)
Ltac xsimpl :=
  repeat (progress (cbn in *; unfold Rltb, Rleb, Reqb, Rsign in *; Rdecide)).

Ltac xlra :=
  xsimpl; intros;
  try solve [ reflexivity | discriminate | contradiction | tauto | lra
            | congruence | f_equal; lra
            | intuition (try discriminate; try congruence; try lra) ].

(** ** Reflection of the boolean tests *)

Lemma Rltb_lt (a b : R) : Rltb a b = true <-> a < b.
Proof. unfold Rltb. destruct (Rlt_dec a b); split; auto; discriminate. Qed.

Lemma Rltb_ge (a b : R) : Rltb a b = false <-> b <= a.
Proof. unfold Rltb. destruct (Rlt_dec a b); split; auto; try discriminate; lra. Qed.

Lemma Reqb_eq (a b : R) : Reqb a b = true <-> a = b.
Proof. unfold Reqb. destruct (Req_dec_T a b); split; auto; discriminate. Qed.

Lemma Reqb_neq (a b : R) : Reqb a b = false <-> a <> b.
Proof. unfold Reqb. destruct (Req_dec_T a b); split; auto; try discriminate; tauto. Qed.

Lemma xltb_lt (x y : xreal) : xltb x y = true <-> (x < y)%xreal.
Proof. xreal_cases; xlra. Qed.

Lemma xltb_ge (x y : xreal) :
  is_nan x = false -> is_nan y = false -> xltb x y = false <-> (y <= x)%xreal.
Proof. xreal_cases; xlra. Qed.

Lemma xeqb_eq (x y : xreal) : xeqb x y = true <-> x = y /\ is_nan x = false.
Proof. xreal_cases; xlra. Qed.

Lemma xeqb_neq_fin (a b : R) : xeqb (Fin a) (Fin b) = false <-> a <> b.
Proof. xlra. Qed.

(** ** The order *)

Lemma xle_refl (x : xreal) : is_nan x = false -> (x <= x)%xreal.
Proof. xreal_cases; xlra. Qed.

Lemma xle_trans (x y z : xreal) : (x <= y -> y <= z -> x <= z)%xreal.
Proof. xreal_cases; xlra. Qed.

Lemma xlt_trans (x y z : xreal) : (x < y -> y < z -> x < z)%xreal.
Proof. xreal_cases; xlra. Qed.

Lemma xlt_le (x y : xreal) : (x < y -> x <= y)%xreal.
Proof. xreal_cases; xlra. Qed.

Lemma xle_lt_trans (x y z : xreal) : (x <= y -> y < z -> x < z)%xreal.
Proof. xreal_cases; xlra. Qed.

Lemma xlt_le_trans (x y z : xreal) : (x < y -> y <= z -> x < z)%xreal.
Proof. xreal_cases; xlra. Qed.

Lemma xle_antisym (x y : xreal) : (x <= y -> y <= x -> x = y)%xreal.
Proof. xreal_cases; xsimpl; intros; try contradiction; auto; f_equal; lra. Qed.

Lemma xlt_irrefl (x : xreal) : ~ (x < x)%xreal.
Proof. xreal_cases; xlra. Qed.

Lemma xle_not_nan_l (x y : xreal) : (x <= y)%xreal -> is_nan x = false.
Proof. xreal_cases; xlra. Qed.

Lemma xle_not_nan_r (x y : xreal) : (x <= y)%xreal -> is_nan y = false.
Proof. xreal_cases; xlra. Qed.

Lemma xle_total (x y : xreal) :
  is_nan x = false -> is_nan y = false -> (x <= y \/ y < x)%xreal.
Proof. xreal_cases; xsimpl; intros; try discriminate; auto; lra. Qed.

Lemma xle_fin (a b : R) : (Fin a <= Fin b)%xreal <-> a <= b.
Proof. reflexivity. Qed.

Lemma xlt_fin (a b : R) : (Fin a < Fin b)%xreal <-> a < b.
Proof. reflexivity. Qed.

Lemma xle_PInf (x : xreal) : is_nan x = false -> (x <= PInf)%xreal.
Proof. xreal_cases; xlra. Qed.

Lemma xle_NInf (x : xreal) : is_nan x = false -> (NInf <= x)%xreal.
Proof. xreal_cases; xlra. Qed.

Lemma finite_not_nan (x : xreal) : finite x -> is_nan x = false.
Proof. xreal_cases; xlra. Qed.

Lemma finite_Fin (x : xreal) : finite x -> x = Fin (real_of x).
Proof. xreal_cases; xlra. Qed.

#[export] Instance xle_Transitive : Transitive xle := xle_trans.
#[export] Instance xlt_Transitive : Transitive xlt := xlt_trans.

#[export] Hint Resolve xle_refl xlt_le xle_PInf xle_NInf finite_not_nan
  xle_not_nan_l xle_not_nan_r : vc.

(** ** [Math.max] and [Math.min] *)

Lemma xmax_nan_l (y : xreal) : xmax XNaN y = XNaN.
Proof. reflexivity. Qed.

Lemma xmax_nan_r (x : xreal) : xmax x XNaN = XNaN.
Proof. destruct x; reflexivity. Qed.

Lemma xmin_nan_l (y : xreal) : xmin XNaN y = XNaN.
Proof. reflexivity. Qed.

Lemma xmin_nan_r (x : xreal) : xmin x XNaN = XNaN.
Proof. destruct x; reflexivity. Qed.

(** [NaN] on the right of an operation (on the left it computes). *)
Lemma xadd_nan_r (x : xreal) : xadd x XNaN = XNaN.
Proof. destruct x; reflexivity. Qed.

Lemma xsub_nan_r (x : xreal) : xsub x XNaN = XNaN.
Proof. destruct x; reflexivity. Qed.

Lemma xmul_nan_r (x : xreal) : xmul x XNaN = XNaN.
Proof. destruct x; reflexivity. Qed.

#[export] Hint Rewrite xadd_nan_r xsub_nan_r xmul_nan_r xmax_nan_r xmin_nan_r : nan_rw.

(** The quotient of a number other than zero by zero is an infinity. *)
Lemma xdiv_zero (a : R) : a <> 0 -> xdiv (Fin a) (Fin 0) = PInf \/ xdiv (Fin a) (Fin 0) = NInf.
Proof.
  intros Ha. unfold xdiv, Rsign. destruct (Req_dec_T 0 0); [|contradiction].
  repeat destruct (Rlt_dec _ _); cbn; auto. lra.
Qed.

(** An infinity times a number other than zero is an infinity. *)
Lemma xmul_inf_fin (i : xreal) (v : R) :
  i = PInf \/ i = NInf -> v <> 0 -> xmul i (Fin v) = PInf \/ xmul i (Fin v) = NInf.
Proof.
  intros [-> | ->] Hv; unfold xmul, xsign, Rsign;
    repeat destruct (Rlt_dec _ _); cbn; auto; lra.
Qed.

Lemma xmax_spec (x y : xreal) :
  is_nan x = false -> is_nan y = false ->
  ((x <= y)%xreal /\ xmax x y = y) \/ ((y <= x)%xreal /\ xmax x y = x).
Proof. xreal_cases; xsimpl; intros; try discriminate; intuition lra. Qed.

Lemma xmin_spec (x y : xreal) :
  is_nan x = false -> is_nan y = false ->
  ((x <= y)%xreal /\ xmin x y = x) \/ ((y <= x)%xreal /\ xmin x y = y).
Proof. xreal_cases; xsimpl; intros; try discriminate; intuition lra. Qed.

Lemma xmax_not_nan (x y : xreal) :
  is_nan (xmax x y) = false <-> is_nan x = false /\ is_nan y = false.
Proof. xreal_cases; xlra. Qed.

Lemma xmin_not_nan (x y : xreal) :
  is_nan (xmin x y) = false <-> is_nan x = false /\ is_nan y = false.
Proof. xreal_cases; xlra. Qed.

Lemma xmax_fin (a b : R) : xmax (Fin a) (Fin b) = Fin (Rmax a b).
Proof. unfold Rmax. xsimpl; try reflexivity; try (f_equal; lra); lra. Qed.

Lemma xmin_fin (a b : R) : xmin (Fin a) (Fin b) = Fin (Rmin a b).
Proof. unfold Rmin. xsimpl; try reflexivity; try (f_equal; lra); lra. Qed.

(** ** Clamping: [Math.max(lo, Math.min(hi, x))]

    The controller clamps a value to an interval by this composition.  The
    lemmas below give its value in every case: inside the interval, below,
    above, with the bounds in the wrong order, and on [NaN]. *)

Lemma xclamp_bounds (lo hi x : xreal) :
  (lo <= hi)%xreal -> is_nan x = false ->
  (lo <= xmax lo (xmin hi x) <= hi)%xreal.
Proof. xreal_cases; xlra. Qed.

Lemma xclamp_id (lo hi x : xreal) :
  (lo <= x <= hi)%xreal -> xmax lo (xmin hi x) = x.
Proof. xreal_cases; xlra. Qed.

Lemma xclamp_low (lo hi x : xreal) :
  (lo <= hi)%xreal -> (x <= lo)%xreal -> xmax lo (xmin hi x) = lo.
Proof. xreal_cases; xlra. Qed.

Lemma xclamp_high (lo hi x : xreal) :
  (lo <= hi)%xreal -> (hi <= x)%xreal -> xmax lo (xmin hi x) = hi.
Proof. xreal_cases; xlra. Qed.

(** With the bounds in the wrong order the composition returns the lower
    bound, whatever the value. *)
Lemma xclamp_inverted (lo hi x : xreal) :
  (hi < lo)%xreal -> is_nan x = false -> xmax lo (xmin hi x) = lo.
Proof. xreal_cases; xlra. Qed.

Lemma xclamp_nan_value (lo hi : xreal) : xmax lo (xmin hi XNaN) = XNaN.
Proof. rewrite xmin_nan_r. apply xmax_nan_r. Qed.

Lemma xclamp_not_nan (lo hi x : xreal) :
  is_nan (xmax lo (xmin hi x)) = false <->
  is_nan lo = false /\ is_nan hi = false /\ is_nan x = false.
Proof. rewrite xmax_not_nan, xmin_not_nan. tauto. Qed.

Lemma xclamp_finite (lo hi x : xreal) :
  (lo <= hi)%xreal -> lo <> PInf -> hi <> NInf -> finite x ->
  finite (xmax lo (xmin hi x)).
Proof. xreal_cases; xlra. Qed.

(** The result is one of the three arguments. *)
Lemma xclamp_cases (lo hi x : xreal) :
  is_nan lo = false -> is_nan hi = false -> is_nan x = false ->
  xmax lo (xmin hi x) = lo \/ xmax lo (xmin hi x) = hi \/ xmax lo (xmin hi x) = x.
Proof. xreal_cases; xsimpl; intros; try discriminate; auto. Qed.

Lemma xclamp_idempotent (lo hi x : xreal) :
  xmax lo (xmin hi (xmax lo (xmin hi x))) = xmax lo (xmin hi x).
Proof. xreal_cases; xlra. Qed.

(** Clamping to [[a, b]] a value that is already in [[lo, hi]] keeps it in
    [[lo, hi]] when the two intervals meet. *)
Lemma xclamp_within (a b : R) (lo hi x : xreal) :
  (a <= b)%R -> (Fin a <= hi)%xreal -> (lo <= Fin b)%xreal ->
  (lo <= x <= hi)%xreal ->
  (lo <= xmax (Fin a) (xmin (Fin b) x) <= hi)%xreal.
Proof. xreal_cases; xlra. Qed.

(** The reference clamp: the value when it is between the bounds, the bound
    it passes otherwise. *)
Definition clamp_ref (lo hi x : xreal) : xreal :=
  if xltb x lo then lo else if xltb hi x then hi else x.

(** With bounds in order, [Math.max(lo, Math.min(hi, x))] is the reference
    clamp of every number. *)
Lemma xclamp_ref (lo hi x : xreal) :
  (lo <= hi)%xreal -> is_nan x = false -> xmax lo (xmin hi x) = clamp_ref lo hi x.
Proof. unfold clamp_ref. xreal_cases; xlra. Qed.

#[export] Hint Resolve xclamp_bounds xclamp_finite : vc.

(** ** Arithmetic on finite values *)

Lemma finite_xadd (x y : xreal) : finite x -> finite y -> finite (xadd x y).
Proof. xreal_cases; xlra. Qed.

Lemma finite_xsub (x y : xreal) : finite x -> finite y -> finite (xsub x y).
Proof. xreal_cases; xlra. Qed.

Lemma finite_xmul (x y : xreal) : finite x -> finite y -> finite (xmul x y).
Proof. xreal_cases; xlra. Qed.

Lemma finite_xneg (x : xreal) : finite x -> finite (xneg x).
Proof. xreal_cases; xlra. Qed.

Lemma finite_xdiv (x y : xreal) :
  finite x -> finite y -> y <> Fin 0 -> finite (xdiv x y).
Proof.
  destruct x as [a| | |], y as [b| | |]; try contradiction. intros _ _ Hy.
  cbn. destruct (Req_dec_T b 0) as [->|]; [congruence | exact I].
Qed.

Lemma finite_inv (x : xreal) : finite x -> exists r, x = Fin r.
Proof. destruct x; try contradiction. eauto. Qed.

Lemma finite_of_real (r : R) : finite (Fin r).
Proof. exact I. Qed.

#[export] Hint Resolve finite_xadd finite_xsub finite_xmul finite_xneg
  finite_of_real : vc.

(** Destruct the finite numbers of the context into their values. *)
Ltac finite_cases :=
  repeat match goal with
         | H : finite ?x |- _ =>
             let r := fresh "r" in
             let E := fresh "E" in
             destruct (finite_inv x H) as [r E]; clear H;
             try rewrite E in *; try subst x
         end.

(** ** [Math.pow] on a positive base *)

(** A value between two finite values is finite. *)
Lemma xle_between_fin (a b : R) (x : xreal) :
  (Fin a <= x <= Fin b)%xreal -> exists r, x = Fin r /\ a <= r <= b.
Proof. destruct x as [r| | |]; cbn; intros [H1 H2]; try contradiction. eauto. Qed.

Lemma xadd_0_r (x : xreal) : finite x -> xadd x (Fin 0) = x.
Proof. destruct x; try contradiction. intros _. cbn. f_equal. lra. Qed.

(** The clamp to [[-Infinity, Infinity]] keeps every number. *)
Lemma xclamp_free (x : xreal) : is_nan x = false -> xmax NInf (xmin PInf x) = x.
Proof. destruct x; try discriminate; reflexivity. Qed.

(** A lower limit that is at least a number, and at most the upper limit,
    leaves room for a finite clamp. *)
Lemma xclamp_finite_above (a : R) (lo hi x : xreal) :
  (Fin a <= lo)%xreal -> (lo <= hi)%xreal -> lo <> PInf -> finite x ->
  exists r, xmax lo (xmin hi x) = Fin r /\ a <= r.
Proof.
  intros Ha Hlim Hlo Hx.
  assert (Hf : finite (xmax lo (xmin hi x))).
  { apply xclamp_finite; try assumption. intros ->. now destruct lo. }
  destruct (finite_inv _ Hf) as [r Hr]. exists r. split; [assumption|].
  destruct (xclamp_bounds lo hi x Hlim (finite_not_nan x Hx)) as [H1 _].
  rewrite Hr in H1. apply xle_fin. exact (xle_trans _ _ _ Ha H1).
Qed.

(** A finite value clamped above a finite limit: at least the limit, and
    not above the value unless the limit is. *)
Lemma xclamp_fin_below (lo x : R) (hi : xreal) :
  (Fin lo <= hi)%xreal ->
  exists r, xmax (Fin lo) (xmin hi (Fin x)) = Fin r /\ lo <= r <= Rmax lo x.
Proof.
  destruct hi as [h| | |]; try contradiction; intros Hle.
  - apply xle_fin in Hle. rewrite xmin_fin, xmax_fin. eexists. split; [reflexivity|].
    unfold Rmax, Rmin. repeat destruct (Rle_dec _ _); lra.
  - change (xmin PInf (Fin x)) with (Fin x). rewrite xmax_fin. eexists.
    split; [reflexivity|]. unfold Rmax. destruct (Rle_dec _ _); lra.
Qed.

(** A decimal literal is the quotient of its digits and its power of ten. *)
Lemma dec_xreal (n d : Z) : IZR d <> 0 -> dec n d = Fin (IZR n / IZR d).
Proof. intros Hd. unfold dec. cbn. now destruct (Req_dec_T (IZR d) 0). Qed.

Lemma xpow_pos (b e : R) : 0 < b -> xpow (Fin b) (Fin e) = Fin (Rpower b e).
Proof.
  intros Hb. unfold xpow, Rpow.
  destruct (Req_dec_T e 0) as [->|He].
  - rewrite Rpower_O by assumption. reflexivity.
  - destruct (Rlt_dec 0 b); [reflexivity | contradiction].
Qed.

Lemma Rpower_pos (b e : R) : 0 < Rpower b e.
Proof. unfold Rpower. apply exp_pos. Qed.

(** A base below one raised to a positive power is below one. *)
Lemma Rpower_lt_1 (b e : R) : 0 < b < 1 -> 0 < e -> Rpower b e < 1.
Proof.
  intros [Hb0 Hb1] He. unfold Rpower.
  rewrite <- exp_0. apply exp_increasing.
  assert (ln b < 0) by (rewrite <- ln_1; now apply ln_increasing).
  nra.
Qed.
