(* ===== verification/Trig.v ===== *)
(** * Trig: the real analysis behind the spherical conversion

    [Spherical.setFromVec3] reads a polar angle with [Math.acos] and an
    azimuth with [Math.atan2]; [Spherical.setToVec3] turns them back with
    [Math.sin] and [Math.cos].  This file proves, over the reals, that the two
    directions are inverse to each other:

    - [Ratan2_sin], [Ratan2_cos]: the angle [Math.atan2] returns for a point
      has the point's direction;
    - [polar_sin], [polar_cos]: the same for the polar angle;
    - [sphere_norm]: the vector of a radius and two angles has the radius as
      its length;
    - [Ratan2_bound]: the azimuth read is in [(-PI, PI]]. *)

From Stdlib Require Import Reals Lra ZArith.
From S2P Require Import Prelude XReal.

Local Open Scope R_scope.

(** ** Square roots of sums of squares *)

Lemma sumsq2_nonneg (x z : R) : 0 <= x * x + z * z.
Proof. nra. Qed.

Lemma sumsq3_nonneg (x y z : R) : 0 <= x * x + y * y + z * z.
Proof. nra. Qed.

#[export] Hint Resolve sumsq2_nonneg sumsq3_nonneg sqrt_pos : vc.

(** The hypotenuse, from the slope and one side. *)
Lemma hyp_scale (x z : R) :
  0 < z -> sqrt (x * x + z * z) = sqrt (1 + (x / z)²) * z.
Proof.
  intros Hz. apply sqrt_lem_1; [nra | |].
  - apply Rmult_le_pos; [apply sqrt_pos | lra].
  - transitivity (sqrt (1 + (x / z)²) * sqrt (1 + (x / z)²) * (z * z)); [ring|].
    rewrite sqrt_sqrt by (unfold Rsqr; nra). unfold Rsqr. field. lra.
Qed.

Lemma slope_norm_pos (t : R) : 0 < sqrt (1 + t²).
Proof. apply sqrt_lt_R0. unfold Rsqr. nra. Qed.

(** The direction of [atan (x / z)] for a point on the right. *)
Lemma atan_sin_right (x z : R) :
  0 < z -> sqrt (x * x + z * z) * sin (atan (x / z)) = x.
Proof.
  intros Hz. rewrite hyp_scale, sin_atan by assumption.
  pose proof (slope_norm_pos (x / z)). field. split; lra.
Qed.

Lemma atan_cos_right (x z : R) :
  0 < z -> sqrt (x * x + z * z) * cos (atan (x / z)) = z.
Proof.
  intros Hz. rewrite hyp_scale, cos_atan by assumption.
  pose proof (slope_norm_pos (x / z)). field. lra.
Qed.

(** On the left, the same angle points the opposite way. *)
Lemma atan_sin_left (x z : R) :
  z < 0 -> sqrt (x * x + z * z) * sin (atan (x / z)) = - x.
Proof.
  intros Hz.
  replace (x * x + z * z) with (- x * - x + - z * - z) by ring.
  replace (x / z) with (- x / - z) by (field; lra).
  apply atan_sin_right. lra.
Qed.

Lemma atan_cos_left (x z : R) :
  z < 0 -> sqrt (x * x + z * z) * cos (atan (x / z)) = - z.
Proof.
  intros Hz.
  replace (x * x + z * z) with (- x * - x + - z * - z) by ring.
  replace (x / z) with (- x / - z) by (field; lra).
  apply atan_cos_right. lra.
Qed.

Lemma sin_sub_PI (a : R) : sin (a - PI) = - sin a.
Proof. rewrite sin_minus, cos_PI, sin_PI. ring. Qed.

Lemma cos_sub_PI (a : R) : cos (a - PI) = - cos a.
Proof. rewrite cos_minus, cos_PI, sin_PI. ring. Qed.

Lemma sin_neg_PI2 : sin (- (PI / 2)) = -1.
Proof. rewrite sin_neg, sin_PI2. reflexivity. Qed.

Lemma cos_neg_PI2 : cos (- (PI / 2)) = 0.
Proof. rewrite cos_neg, cos_PI2. reflexivity. Qed.

Lemma sqrt_sq_axis (x : R) : 0 <= x -> sqrt (x * x + 0 * 0) = x.
Proof. intros Hx. replace (x * x + 0 * 0) with (x * x) by ring. now apply sqrt_square. Qed.

Lemma sqrt_sq_axis_neg (x : R) : x <= 0 -> sqrt (x * x + 0 * 0) = - x.
Proof.
  intros Hx. replace (x * x + 0 * 0) with (- x * - x) by ring.
  apply sqrt_square. lra.
Qed.

(** ** Whole turns *)

Lemma whole_turns (k : Z) :
  exists n : nat, 2 * PI * IZR k = 2 * INR n * PI \/ 2 * PI * IZR k = - (2 * INR n * PI).
Proof.
  destruct (Z_le_gt_dec 0 k) as [Hk|Hk].
  - exists (Z.to_nat k). left. rewrite INR_IZR_INZ, Z2Nat.id by assumption. ring.
  - exists (Z.to_nat (- k)). right.
    rewrite INR_IZR_INZ, Z2Nat.id, opp_IZR by (apply Z.opp_nonneg_nonpos, Z.lt_le_incl, Z.gt_lt, Hk).
    ring.
Qed.

Lemma sin_turns (t : R) (k : Z) : sin (t + 2 * PI * IZR k) = sin t.
Proof.
  destruct (whole_turns k) as [n [-> | ->]]; [apply sin_period|].
  rewrite <- (sin_period (t + - (2 * INR n * PI)) n). f_equal. ring.
Qed.

Lemma cos_turns (t : R) (k : Z) : cos (t + 2 * PI * IZR k) = cos t.
Proof.
  destruct (whole_turns k) as [n [-> | ->]]; [apply cos_period|].
  rewrite <- (cos_period (t + - (2 * INR n * PI)) n). f_equal. ring.
Qed.

(** Strictly inside a whole turn the cosine is below one. *)
Lemma cos_lt_1 (d : R) : 0 < d < 2 * PI -> cos d < 1.
Proof.
  intros [H0 H2]. pose proof PI_RGT_0 as Hpi.
  destruct (Rle_lt_dec d PI) as [Hd|Hd].
  - rewrite <- cos_0. apply cos_decreasing_1; lra.
  - rewrite <- cos_2PI. apply cos_increasing_1; lra.
Qed.

(** ** The azimuth *)

(** Case analysis on the branches of [Ratan2 x z], with the branch
    conditions as hypotheses. *)
Ltac Ratan2_cases x z :=
  unfold Ratan2;
  destruct (Rlt_dec 0 z) as [Hz|Hz];
    [|destruct (Rlt_dec z 0) as [Hz'|Hz'];
      [destruct (Rlt_dec x 0) as [Hx|Hx]
      |assert (z = 0) by lra; subst z;
       destruct (Rlt_dec 0 x) as [Hx|Hx];
         [|destruct (Rlt_dec x 0) as [Hx'|Hx']; [|assert (x = 0) by lra; subst x]]]].

Lemma Ratan2_sin (x z : R) : sqrt (x * x + z * z) * sin (Ratan2 x z) = x.
Proof.
  Ratan2_cases x z.
  - now apply atan_sin_right.
  - rewrite sin_sub_PI, Ropp_mult_distr_r_reverse, atan_sin_left by assumption. ring.
  - rewrite neg_sin, Ropp_mult_distr_r_reverse, atan_sin_left by assumption. ring.
  - rewrite sin_PI2, sqrt_sq_axis by lra. ring.
  - rewrite sin_neg_PI2, sqrt_sq_axis_neg by lra. ring.
  - rewrite sin_0. ring.
Qed.

Lemma Ratan2_cos (x z : R) : sqrt (x * x + z * z) * cos (Ratan2 x z) = z.
Proof.
  Ratan2_cases x z.
  - now apply atan_cos_right.
  - rewrite cos_sub_PI, Ropp_mult_distr_r_reverse, atan_cos_left by assumption. ring.
  - rewrite neg_cos, Ropp_mult_distr_r_reverse, atan_cos_left by assumption. ring.
  - rewrite cos_PI2. ring.
  - rewrite cos_neg_PI2. ring.
  - rewrite sqrt_sq_axis by lra. ring.
Qed.

Lemma atan_pos (t : R) : 0 < t -> 0 < atan t.
Proof. intros Ht. rewrite <- atan_0. now apply atan_increasing. Qed.

Lemma atan_nonpos (t : R) : t <= 0 -> atan t <= 0.
Proof.
  intros [Ht| ->]; [|rewrite atan_0; lra].
  left. rewrite <- atan_0. now apply atan_increasing.
Qed.

Lemma Ratan2_bound (x z : R) : - PI < Ratan2 x z <= PI.
Proof.
  pose proof PI_RGT_0.
  Ratan2_cases x z; try pose proof (atan_bound (x / z)); try lra.
  - assert (0 < atan (x / z)); [|lra].
    apply atan_pos. replace (x / z) with (- x * / - z) by (field; lra).
    apply Rmult_lt_0_compat; [lra | apply Rinv_0_lt_compat; lra].
  - assert (atan (x / z) <= 0); [|lra].
    apply atan_nonpos. replace (x / z) with (- (x * / - z)) by (field; lra).
    assert (0 <= x * / - z); [|lra].
    apply Rmult_le_pos; [lra | left; apply Rinv_0_lt_compat; lra].
Qed.

(** ** The polar angle *)

Section Polar.

Variables x y z : R.
Let r := sqrt (x * x + y * y + z * z).
Hypothesis r_pos : 0 < r.

Lemma norm_sq : r * r = x * x + y * y + z * z.
Proof. apply sqrt_sqrt. nra. Qed.

Lemma ratio_bound : -1 <= y / r <= 1.
Proof.
  pose proof norm_sq as Hs.
  assert (Hy : y * y <= r * r) by nra.
  assert (- r <= y <= r) by (split; nra).
  split.
  - apply Rmult_le_reg_r with r; [assumption|]. unfold Rdiv.
    rewrite Rmult_assoc, Rinv_l by lra. lra.
  - apply Rmult_le_reg_r with r; [assumption|]. unfold Rdiv.
    rewrite Rmult_assoc, Rinv_l by lra. lra.
Qed.

Lemma polar_cos : r * cos (acos (y / r)) = y.
Proof. rewrite cos_acos by apply ratio_bound. field. lra. Qed.

Lemma polar_sin : r * sin (acos (y / r)) = sqrt (x * x + z * z).
Proof.
  rewrite sin_acos by apply ratio_bound. symmetry.
  pose proof norm_sq as Hs. pose proof ratio_bound as Hb.
  assert (Hc : 0 <= 1 - (y / r)²).
  { unfold Rsqr. nra. }
  apply sqrt_lem_1; [nra | |].
  - apply Rmult_le_pos; [lra | apply sqrt_pos].
  - transitivity (r * r * (sqrt (1 - (y / r)²) * sqrt (1 - (y / r)²))); [ring|].
    rewrite sqrt_sqrt by assumption. unfold Rsqr.
    transitivity (r * r - y * y); [field; lra | lra].
Qed.

End Polar.

(** ** A vector, its angles, and the vector of the angles *)

(** Read in front: the polar angle is [acos (y / r)], the azimuth the angle
    of [(x, z)]. *)
Lemma sphere_front (x y z : R) :
  let r := sqrt (x * x + y * y + z * z) in
  0 < r ->
  sin (acos (y / r)) * r * sin (Ratan2 x z) = x /\
  r * cos (acos (y / r)) = y /\
  sin (acos (y / r)) * r * cos (Ratan2 x z) = z.
Proof.
  intros r Hr. pose proof (polar_sin x y z Hr) as Hs. fold r in Hs.
  rewrite (Rmult_comm (sin _) r), Hs.
  split_all; [apply Ratan2_sin | now apply polar_cos | apply Ratan2_cos].
Qed.

(** Read at the back: the polar angle is stored as [2 PI - acos (y / r)]
    and the azimuth is turned by half a turn; the vector is the same. *)
Lemma sphere_back (x y z : R) :
  let r := sqrt (x * x + y * y + z * z) in
  0 < r ->
  sin (2 * PI - acos (y / r)) * r * sin (Ratan2 (- x) (- z)) = x /\
  r * cos (2 * PI - acos (y / r)) = y /\
  sin (2 * PI - acos (y / r)) * r * cos (Ratan2 (- x) (- z)) = z.
Proof.
  intros r Hr. pose proof (polar_sin x y z Hr) as Hs. fold r in Hs.
  pose proof (Ratan2_sin (- x) (- z)) as H1. pose proof (Ratan2_cos (- x) (- z)) as H2.
  replace (- x * - x + - z * - z) with (x * x + z * z) in H1, H2 by ring.
  rewrite sin_minus, cos_minus, sin_2PI, cos_2PI.
  split_all.
  - transitivity (- (r * sin (acos (y / r)) * sin (Ratan2 (- x) (- z)))); [ring|].
    rewrite Hs, H1. ring.
  - transitivity (r * cos (acos (y / r))); [ring | now apply polar_cos].
  - transitivity (- (r * sin (acos (y / r)) * cos (Ratan2 (- x) (- z)))); [ring|].
    rewrite Hs, H2. ring.
Qed.

(** ** The way back *)

(** The vector of a radius and two angles has the radius as its length. *)
Lemma sphere_norm (r p t : R) :
  0 <= r ->
  sqrt ((sin p * r * sin t) * (sin p * r * sin t) + (r * cos p) * (r * cos p)
        + (sin p * r * cos t) * (sin p * r * cos t)) = r.
Proof.
  intros Hr. apply sqrt_lem_1; [nra | assumption |].
  pose proof (sin2_cos2 p) as Hp. pose proof (sin2_cos2 t) as Ht.
  unfold Rsqr in Hp, Ht.
  transitivity (r * r * (sin p * sin p * (sin t * sin t + cos t * cos t) + cos p * cos p));
    [|ring].
  rewrite Ht. replace (sin p * sin p * 1 + cos p * cos p) with 1 by lra. ring.
Qed.

(** The polar angle read back from such a vector is the angle it was built
    from. *)
Lemma polar_back (r p : R) :
  0 < r -> 0 <= p <= PI -> acos (r * cos p / r) = p.
Proof.
  intros Hr Hp. replace (r * cos p / r) with (cos p) by (field; lra).
  now apply acos_cos.
Qed.
