(* ===== verification/Vectors.v ===== *)
(** * Vectors: the engine's vectors and rotations

    The controller computes with the engine's [Vector3] and [Vector2] and
    reads the camera's orientation as a quaternion.  The engine is not part
    of the repository; this file models the operations the controller calls,
    from section 6 of the specification: component-wise addition and
    subtraction, scaling, and the transformation of a local vector into world
    space by an orientation.  An orientation is represented by the rotation it
    denotes, the images of the three coordinate axes ([Quaternion.t]).

    The definitions are generic in the number type; the lemmas of the second
    half are proved for [xreal]. *)

From Stdlib Require Import Reals Lra ZArith.
From S2P Require Import Prelude Numbers XReal.

Local Open Scope num_scope.

(** ** Two-dimensional vectors *)

Module Vector2.

Record t (F : Type) : Type := mk { x : F; y : F }.

Arguments mk {F} x y.
Arguments x {F} _.
Arguments y {F} _.

End Vector2.

(** ** Three-dimensional vectors *)

Module Vector3.

Record t (F : Type) : Type := mk { x : F; y : F; z : F }.

Arguments mk {F} x y z.
Arguments x {F} _.
Arguments y {F} _.
Arguments z {F} _.

Section Ops.

Context {F : Type} `{Number F}.

(** [new Vector3()] *)
Definition zero : t F := mk zero zero zero.

(** [Vector3.add(left, right, out)] and [left.add(right)] *)
Definition add (a b : t F) : t F :=
  mk (x a + x b) (y a + y b) (z a + z b).

(** [Vector3.subtract(left, right, out)] *)
Definition subtract (a b : t F) : t F :=
  mk (x a - x b) (y a - y b) (z a - z b).

(** [v.scale(s)] *)
Definition scale (v : t F) (s : F) : t F :=
  mk (x v * s) (y v * s) (z v * s).

(** [Vector3.dot(left, right)] *)
Definition dot (a b : t F) : F :=
  x a * x b + y a * y b + z a * z b.

(** [Vector3.cross(left, right, out)] *)
Definition cross (a b : t F) : t F :=
  mk (y a * z b - z a * y b) (z a * x b - x a * z b) (x a * y b - y a * x b).

(** [v.length()] *)
Definition length (v : t F) : F :=
  Math_sqrt (x v * x v + y v * y v + z v * z v).

(** [v.normalize()]: a vector of length zero is left as it is. *)
Definition normalize (v : t F) : t F :=
  let len := length v in
  if len >? Numbers.zero then scale v (one / len) else v.

End Ops.

End Vector3.

(** ** Orientations *)

Module Quaternion.

(** The rotation an orientation denotes: the images of the local x, y and z
    axes. *)
Record t (F : Type) : Type := mk { ex : Vector3.t F; ey : Vector3.t F; ez : Vector3.t F }.

Arguments mk {F} ex ey ez.
Arguments ex {F} _.
Arguments ey {F} _.
Arguments ez {F} _.

Section Ops.

Context {F : Type} `{Number F}.

(** The orientation of a new transform: the axes are mapped to themselves. *)
Definition identity : t F :=
  mk (Vector3.mk one zero zero) (Vector3.mk zero one zero) (Vector3.mk zero zero one).

(** [Vector3.transformByQuat(v, q, out)]: the local vector [v] in world
    space. *)
Definition transformByQuat (v : Vector3.t F) (q : t F) : Vector3.t F :=
  Vector3.add
    (Vector3.add (Vector3.scale (ex q) (Vector3.x v)) (Vector3.scale (ey q) (Vector3.y v)))
    (Vector3.scale (ez q) (Vector3.z v)).

End Ops.

End Quaternion.

(** ** Lemmas over the extended reals *)

Local Open Scope R_scope.

(** A vector of finite components. *)
Definition vfin (a b c : R) : Vector3.t xreal := Vector3.mk (Fin a) (Fin b) (Fin c).

Definition vfinite (v : Vector3.t xreal) : Prop :=
  finite (Vector3.x v) /\ finite (Vector3.y v) /\ finite (Vector3.z v).

Lemma vfinite_vfin (a b c : R) : vfinite (vfin a b c).
Proof. repeat split. Qed.

Lemma vfinite_inv (v : Vector3.t xreal) :
  vfinite v -> exists a b c, v = vfin a b c.
Proof.
  destruct v as [[a| | |] [b| | |] [c| | |]]; intros (Hx & Hy & Hz);
    try contradiction. now exists a, b, c.
Qed.

(** Destruct the finite vectors of the context into their components. *)
Ltac vfinite_cases :=
  repeat match goal with
         | H : vfinite ?v |- _ =>
             let a := fresh "a" in let b := fresh "b" in let c := fresh "c" in
             apply vfinite_inv in H; destruct H as (a & b & c & ->)
         end.

Lemma vec3_eq {F : Type} (a b : Vector3.t F) :
  Vector3.x a = Vector3.x b -> Vector3.y a = Vector3.y b -> Vector3.z a = Vector3.z b ->
  a = b.
Proof. destruct a, b; simpl; congruence. Qed.

Lemma vfin_eq (a b c a' b' c' : R) :
  a = a' -> b = b' -> c = c' -> vfin a b c = vfin a' b' c'.
Proof. congruence. Qed.

Lemma add_vfin (a b c a' b' c' : R) :
  Vector3.add (vfin a b c) (vfin a' b' c') = vfin (a + a') (b + b') (c + c').
Proof. reflexivity. Qed.

Lemma subtract_vfin (a b c a' b' c' : R) :
  Vector3.subtract (vfin a b c) (vfin a' b' c') = vfin (a - a') (b - b') (c - c').
Proof. reflexivity. Qed.

Lemma scale_vfin (a b c s : R) :
  Vector3.scale (vfin a b c) (Fin s) = vfin (a * s) (b * s) (c * s).
Proof. reflexivity. Qed.

Lemma length_vfin (a b c : R) :
  Vector3.length (vfin a b c) = Fin (sqrt (a * a + b * b + c * c)).
Proof.
  unfold Vector3.length, vfin. cbn.
  destruct (Rlt_dec (a * a + b * b + c * c) 0); [nra | reflexivity].
Qed.

Lemma dot_vfin (a b c a' b' c' : R) :
  Vector3.dot (vfin a b c) (vfin a' b' c') = Fin (a * a' + b * b' + c * c').
Proof. reflexivity. Qed.

Lemma cross_vfin (a b c a' b' c' : R) :
  Vector3.cross (vfin a b c) (vfin a' b' c') =
  vfin (b * c' - c * b') (c * a' - a * c') (a * b' - b * a').
Proof. reflexivity. Qed.

(** Normalising a vector of length one changes nothing. *)
Lemma normalize_unit (a b c : R) :
  a * a + b * b + c * c = 1 -> Vector3.normalize (vfin a b c) = vfin a b c.
Proof.
  intros Hu. unfold Vector3.normalize. rewrite length_vfin, Hu, sqrt_1.
  xsimpl; try lra. apply vfin_eq; lra.
Qed.

#[export] Hint Rewrite add_vfin subtract_vfin scale_vfin length_vfin
  dot_vfin cross_vfin : vc_rw.
#[export] Hint Resolve vfinite_vfin : vc.

(** Adding the same displacement to two points leaves their difference
    unchanged. *)
Lemma subtract_add_same (p q d : Vector3.t xreal) :
  vfinite p -> vfinite q -> vfinite d ->
  Vector3.subtract (Vector3.add p d) (Vector3.add q d) = Vector3.subtract p q.
Proof.
  intros Hp Hq Hd. vfinite_cases. autorewrite with vc_rw.
  apply vfin_eq; lra.
Qed.

Lemma add_subtract_cancel (p q : Vector3.t xreal) :
  vfinite p -> vfinite q ->
  Vector3.add q (Vector3.subtract p q) = p.
Proof.
  intros Hp Hq. vfinite_cases. autorewrite with vc_rw. apply vfin_eq; lra.
Qed.

Lemma subtract_add_cancel (p q : Vector3.t xreal) :
  vfinite p -> vfinite q ->
  Vector3.subtract (Vector3.add q p) q = p.
Proof.
  intros Hp Hq. vfinite_cases. autorewrite with vc_rw. apply vfin_eq; lra.
Qed.

Lemma add_subtract_same (p q : Vector3.t xreal) :
  vfinite p -> vfinite q ->
  Vector3.subtract (Vector3.add p q) q = p.
Proof.
  intros Hp Hq. vfinite_cases. autorewrite with vc_rw. apply vfin_eq; lra.
Qed.

Lemma subtract_zero_r (p : Vector3.t xreal) :
  vfinite p -> Vector3.subtract p Vector3.zero = p.
Proof.
  intros Hp. vfinite_cases. change (Vector3.zero (F := xreal)) with (vfin 0 0 0).
  rewrite subtract_vfin. apply vfin_eq; lra.
Qed.

Lemma add_zero_l (p : Vector3.t xreal) :
  vfinite p -> Vector3.add Vector3.zero p = p.
Proof.
  intros Hp. vfinite_cases. change (Vector3.zero (F := xreal)) with (vfin 0 0 0).
  rewrite add_vfin. apply vfin_eq; lra.
Qed.

Lemma scale_one (p : Vector3.t xreal) : vfinite p -> Vector3.scale p one = p.
Proof.
  intros Hp. vfinite_cases. change (one (F := xreal)) with (Fin 1).
  rewrite scale_vfin. apply vfin_eq; lra.
Qed.

Lemma vfinite_add (p q : Vector3.t xreal) :
  vfinite p -> vfinite q -> vfinite (Vector3.add p q).
Proof. intros Hp Hq. vfinite_cases. apply vfinite_vfin. Qed.

Lemma vfinite_subtract (p q : Vector3.t xreal) :
  vfinite p -> vfinite q -> vfinite (Vector3.subtract p q).
Proof. intros Hp Hq. vfinite_cases. apply vfinite_vfin. Qed.

Lemma vfinite_scale (p : Vector3.t xreal) (s : xreal) :
  vfinite p -> finite s -> vfinite (Vector3.scale p s).
Proof.
  intros Hp Hs. vfinite_cases. destruct s; try contradiction. apply vfinite_vfin.
Qed.

Lemma vfinite_cross (p q : Vector3.t xreal) :
  vfinite p -> vfinite q -> vfinite (Vector3.cross p q).
Proof. intros Hp Hq. vfinite_cases. apply vfinite_vfin. Qed.

(** The components of a normalised vector: the vector itself when its
    length is zero. *)
Lemma normalize_vfin (a b c : R) :
  Vector3.normalize (vfin a b c) =
  if Rlt_dec 0 (sqrt (a * a + b * b + c * c))
  then vfin (a * (1 / sqrt (a * a + b * b + c * c)))
            (b * (1 / sqrt (a * a + b * b + c * c)))
            (c * (1 / sqrt (a * a + b * b + c * c)))
  else vfin a b c.
Proof.
  unfold Vector3.normalize. rewrite length_vfin. cbn. unfold Rltb.
  destruct (Rlt_dec 0 _); [|reflexivity].
  destruct (Req_dec_T _ 0); [lra | reflexivity].
Qed.

Lemma vfinite_normalize (p : Vector3.t xreal) :
  vfinite p -> vfinite (Vector3.normalize p).
Proof.
  intros Hp. vfinite_cases. rewrite normalize_vfin.
  destruct (Rlt_dec 0 _); apply vfinite_vfin.
Qed.

#[export] Hint Resolve vfinite_add vfinite_subtract vfinite_scale
  vfinite_cross vfinite_normalize : vc.

(** A rotation of finite axes. *)
Definition qfinite (q : Quaternion.t xreal) : Prop :=
  vfinite (Quaternion.ex q) /\ vfinite (Quaternion.ey q) /\ vfinite (Quaternion.ez q).

Lemma vfinite_transformByQuat (v : Vector3.t xreal) (q : Quaternion.t xreal) :
  vfinite v -> qfinite q -> vfinite (Quaternion.transformByQuat v q).
Proof.
  intros Hv (Hx & Hy & Hz). unfold Quaternion.transformByQuat.
  destruct Hv as (H1 & H2 & H3). auto 10 with vc.
Qed.

Lemma qfinite_identity : qfinite Quaternion.identity.
Proof. repeat split. Qed.

#[export] Hint Resolve vfinite_transformByQuat qfinite_identity : vc.

(** The identity orientation maps a local vector to itself. *)
Lemma transformByQuat_identity (v : Vector3.t xreal) :
  vfinite v -> Quaternion.transformByQuat v Quaternion.identity = v.
Proof.
  intros Hv. vfinite_cases. unfold Quaternion.transformByQuat, Quaternion.identity.
  cbn. apply vfin_eq; lra.
Qed.

(** ** Rotation about the vertical axis *)

(** The vector turned by the angle [d] about the y axis, from the z axis
    towards the x axis: the reference the theorems on dragging compare the
    camera's movement with.  The lemmas say that it is a rotation: it leaves
    the y coordinate and the length alone, turning by zero is the identity,
    and turning twice is turning by the sum. *)
Definition rotateY (d : R) (v : Vector3.t xreal) : Vector3.t xreal :=
  Vector3.mk
    (xadd (xmul (Vector3.x v) (Fin (cos d))) (xmul (Vector3.z v) (Fin (sin d))))
    (Vector3.y v)
    (xsub (xmul (Vector3.z v) (Fin (cos d))) (xmul (Vector3.x v) (Fin (sin d)))).

Lemma rotateY_vfin (d a b c : R) :
  rotateY d (vfin a b c) = vfin (a * cos d + c * sin d) b (c * cos d - a * sin d).
Proof. reflexivity. Qed.

Lemma vfinite_rotateY (d : R) (v : Vector3.t xreal) : vfinite v -> vfinite (rotateY d v).
Proof. intros Hv. vfinite_cases. apply vfinite_vfin. Qed.

#[export] Hint Resolve vfinite_rotateY : vc.

Lemma rotateY_0 (v : Vector3.t xreal) : vfinite v -> rotateY 0 v = v.
Proof.
  intros Hv. vfinite_cases. rewrite rotateY_vfin, cos_0, sin_0. apply vfin_eq; lra.
Qed.

(** Turning twice is turning by the sum. *)
Lemma rotateY_add (d1 d2 : R) (v : Vector3.t xreal) :
  vfinite v -> rotateY d2 (rotateY d1 v) = rotateY (d1 + d2) v.
Proof.
  intros Hv. vfinite_cases. rewrite !rotateY_vfin, cos_plus, sin_plus.
  apply vfin_eq; ring.
Qed.

(** A rotation keeps the length. *)
Lemma rotateY_length (d : R) (v : Vector3.t xreal) :
  vfinite v -> Vector3.length (rotateY d v) = Vector3.length v.
Proof.
  intros Hv. vfinite_cases. rewrite rotateY_vfin, !length_vfin. do 2 f_equal.
  pose proof (sin2_cos2 d) as Hd. unfold Rsqr in Hd.
  transitivity (a * a * (sin d * sin d + cos d * cos d) + b * b
                + c * c * (sin d * sin d + cos d * cos d)); [ring|].
  rewrite Hd. ring.
Qed.

(** A rotation that leaves a vector off the axis where it is, is a rotation
    by whole turns. *)
Lemma rotateY_fixed (d a b c : R) :
  0 < a * a + c * c -> rotateY d (vfin a b c) = vfin a b c -> cos d = 1.
Proof.
  intros Hac. rewrite rotateY_vfin. intros [= Hx Hz].
  assert (H : (a * a + c * c) * (cos d - 1) = 0).
  { transitivity (a * (a * cos d + c * sin d - a) + c * (c * cos d - a * sin d - c));
      [ring | rewrite Hx, Hz; ring]. }
  apply Rmult_integral in H. lra.
Qed.
