(* ===== verification/SphericalCoord.v ===== *)
(** * SphericalCoord: the spherical-coordinate value of the controller

    The controller imports [Spherical] from [./Spherical]; that file is not
    part of the repository snapshot.  This file takes the value and its
    operations from section 4.1 of the specification:

    - [Spherical.t], the record of [radius], [phi], [theta] and the up axis;
    - [Spherical.Ops], the class of the operations the controller calls
      ([new Spherical()], [setYAxis], [setFromVec3], [makeSafe], [setToVec3],
      [set]); the controller is written against this class;
    - [Spherical.Contract], what section 4.1 promises of these operations,
      stated over the extended reals; the controller's theorems use the
      contract and nothing else of an implementation;
    - [Spherical.spec_ops], an implementation by the usual formulas, and the
      proof that it meets the contract.

    Where the specification leaves a choice, the implementation takes the one
    that its round-trip guarantee needs: with [atBack] the polar angle is
    stored as [2 PI - phi] and the azimuth turned by half a turn, which
    denotes the same offset and lets [setToVec3] recover the flag as the sign
    of [sin phi]. *)

From Stdlib Require Import Reals Lra ZArith.
From S2P Require Import Prelude Numbers XReal Trig Vectors.

Local Open Scope bool_scope.
Local Open Scope num_scope.

(** The up axis the controller uses. *)
Definition upY : Vector3.t xreal := vfin 0 1 0.

Module Spherical.

(** ** The value *)

Record t (F : Type) : Type := mk {
  radius : F;
  phi : F;
  theta : F;
  yAxis : Vector3.t F
}.

Arguments mk {F} radius phi theta yAxis.
Arguments radius {F} _.
Arguments phi {F} _.
Arguments theta {F} _.
Arguments yAxis {F} _.

(** Assignments to the public fields, as the controller performs them. *)
Definition set_radius {F} (s : t F) (v : F) : t F :=
  mk v (phi s) (theta s) (yAxis s).

Definition set_phi {F} (s : t F) (v : F) : t F :=
  mk (radius s) v (theta s) (yAxis s).

Definition set_theta {F} (s : t F) (v : F) : t F :=
  mk (radius s) (phi s) v (yAxis s).

(** ** The operations, as an interface *)

Class Ops (F : Type) : Type := {
  (** [new Spherical()] *)
  create : t F;
  (** [s.setYAxis(up)] *)
  setYAxis : t F -> Vector3.t F -> t F;
  (** [s.setFromVec3(offset, atBack)] *)
  setFromVec3 : t F -> Vector3.t F -> bool -> t F;
  (** [s.makeSafe()] *)
  makeSafe : t F -> t F;
  (** [s.setToVec3(out)]: the vector written to [out] and the flag returned *)
  setToVec3 : t F -> Vector3.t F * bool;
  (** [s.set(theta, phi, radius)] *)
  set : t F -> F -> F -> F -> t F
}.

(** ** An implementation *)

Section Impl.

Context {F : Type} `{Number F} `{MathFns F}.

(** The margin kept from the poles. *)
Definition ESP : F := dec 1 1000000.

(** The frame of an up axis: the up axis normalised, and two axes
    perpendicular to it.  For the up axis [(0, 1, 0)] it is the identity. *)
Definition frame (up : Vector3.t F) : Quaternion.t F :=
  let yA := Vector3.normalize up in
  let e :=
    if (Vector3.x yA === one) && (Vector3.y yA === zero) && (Vector3.z yA === zero)
    then Vector3.mk zero one zero
    else Vector3.mk one zero zero in
  let zA := Vector3.normalize (Vector3.cross e yA) in
  let xA := Vector3.cross yA zA in
  Quaternion.mk xA yA zA.

(** The coordinates of a world vector in a frame. *)
Definition toLocal (q : Quaternion.t F) (v : Vector3.t F) : Vector3.t F :=
  Vector3.mk (Vector3.dot v (Quaternion.ex q))
             (Vector3.dot v (Quaternion.ey q))
             (Vector3.dot v (Quaternion.ez q)).

Definition impl_create : t F :=
  mk one zero zero (Vector3.mk zero one zero).

Definition impl_setYAxis (s : t F) (up : Vector3.t F) : t F :=
  mk (radius s) (phi s) (theta s) up.

Definition impl_set (s : t F) (th ph r : F) : t F :=
  mk r ph th (yAxis s).

Definition impl_setFromVec3 (s : t F) (offset : Vector3.t F) (atBack : bool) : t F :=
  let v := toLocal (frame (yAxis s)) offset in
  let r := Vector3.length v in
  if r === zero then mk r zero zero (yAxis s)
  else
    let c := Math_max (- one) (Math_min one (Vector3.y v / r)) in
    if atBack
    then mk r (two * Math_PI - Math_acos c)
              (Math_atan2 (- Vector3.x v) (- Vector3.z v)) (yAxis s)
    else mk r (Math_acos c) (Math_atan2 (Vector3.x v) (Vector3.z v)) (yAxis s).

Definition impl_makeSafe (s : t F) : t F :=
  set_phi s (Math_max ESP (Math_min (Math_PI - ESP) (phi s))).

Definition impl_setToVec3 (s : t F) : Vector3.t F * bool :=
  let sinPhiRadius := Math_sin (phi s) * radius s in
  let v := Vector3.mk (sinPhiRadius * Math_sin (theta s))
                      (radius s * Math_cos (phi s))
                      (sinPhiRadius * Math_cos (theta s)) in
  (Quaternion.transformByQuat v (frame (yAxis s)), Math_sin (phi s) <? zero).

Definition spec_ops : Ops F := {|
  create := impl_create;
  setYAxis := impl_setYAxis;
  setFromVec3 := impl_setFromVec3;
  makeSafe := impl_makeSafe;
  setToVec3 := impl_setToVec3;
  set := impl_set
|}.

End Impl.

(** ** The contract *)

(** What section 4.1 of the specification promises, over the extended
    reals.  [eps] is the margin [makeSafe] keeps from the poles. *)
Class Contract (ops : Ops xreal) (eps : R) : Prop := {
  eps_pos : (0 < eps)%R;
  eps_small : (eps < PI / 2)%R;
  (** a new value has no rotation in it *)
  create_theta : theta create = Fin 0;
  create_phi : phi create = Fin 0;
  (** [setYAxis] stores the axis and nothing else *)
  setYAxis_spec : forall s up, setYAxis s up = mk (radius s) (phi s) (theta s) up;
  (** [set] assigns the three fields *)
  set_spec : forall s th ph r, set s th ph r = mk r ph th (yAxis s);
  (** [makeSafe] changes [phi] only, and puts it in [[eps, PI - eps]] *)
  makeSafe_spec : forall s,
    makeSafe s = set_phi s (xmax (Fin eps) (xmin (Fin (PI - eps)) (phi s)));
  (** [setFromVec3] keeps the axis and reads the length of the offset *)
  setFromVec3_yAxis : forall s v b, yAxis (setFromVec3 s v b) = yAxis s;
  (** and overwrites the three coordinates: the result depends on the value
      it is called on through the axis only *)
  setFromVec3_ext : forall s s' v b,
    yAxis s = yAxis s' -> setFromVec3 s v b = setFromVec3 s' v b;
  setFromVec3_radius : forall s v b,
    yAxis s = upY -> vfinite v ->
    radius (setFromVec3 s v b) = Vector3.length v;
  (** the angles of a finite offset are finite *)
  setFromVec3_finite : forall s v b,
    yAxis s = upY -> vfinite v ->
    finite (theta (setFromVec3 s v b)) /\ finite (phi (setFromVec3 s v b));
  (** the azimuth read is at most half a turn *)
  setFromVec3_theta_range : forall s v b,
    yAxis s = upY -> vfinite v ->
    (Fin (- PI) <= theta (setFromVec3 s v b) <= Fin PI)%xreal;
  (** [setToVec3] of a finite value is a finite vector, as long as the
      radius *)
  setToVec3_finite : forall s,
    yAxis s = upY -> finite (radius s) -> finite (phi s) -> finite (theta s) ->
    vfinite (fst (setToVec3 s));
  setToVec3_length : forall s r,
    yAxis s = upY -> radius s = Fin r -> (0 <= r)%R ->
    finite (phi s) -> finite (theta s) ->
    Vector3.length (fst (setToVec3 s)) = Fin r;
  (** strictly between the poles the flag is off *)
  setToVec3_front : forall s,
    (Fin 0 < phi s < Fin PI)%xreal -> snd (setToVec3 s) = false;
  (** the vector does not change when the azimuth is turned by whole
      turns *)
  setToVec3_turns : forall s (k : Z),
    setToVec3 (set_theta s (xadd (theta s) (Fin (2 * PI * IZR k)))) = setToVec3 s;
  (** turning the azimuth turns the vector about the up axis *)
  setToVec3_rotate : forall s (d : R),
    yAxis s = upY -> finite (radius s) -> finite (phi s) -> finite (theta s) ->
    fst (setToVec3 (set_theta s (xadd (theta s) (Fin d)))) = rotateY d (fst (setToVec3 s));
  (** strictly between the poles the vector is off the up axis *)
  setToVec3_off_axis : forall s r p,
    yAxis s = upY -> radius s = Fin r -> (0 < r)%R ->
    phi s = Fin p -> (0 < p < PI)%R -> finite (theta s) ->
    exists a b c, fst (setToVec3 s) = vfin a b c /\ (0 < a * a + c * c)%R;
  (** the round trip: reading a vector and writing it back *)
  roundtrip : forall s v b,
    yAxis s = upY -> vfinite v -> fst (setToVec3 (setFromVec3 s v b)) = v;
  (** the polar angle of a value is read back from its vector *)
  back_phi : forall s0 s r p,
    yAxis s0 = upY -> yAxis s = upY ->
    radius s = Fin r -> (0 < r)%R -> phi s = Fin p -> (0 <= p <= PI)%R ->
    finite (theta s) ->
    phi (setFromVec3 s0 (fst (setToVec3 s)) false) = Fin p
}.

End Spherical.

(** ** What follows from the contract *)

Local Open Scope R_scope.

Section ContractFacts.

Context {ops : Spherical.Ops xreal} {eps : R} {C : Spherical.Contract ops eps}.

Lemma eps_lt_PI_minus_eps : (eps < PI - eps)%R.
Proof. pose proof Spherical.eps_small. lra. Qed.

Lemma makeSafe_radius (s : Spherical.t xreal) :
  Spherical.radius (Spherical.makeSafe s) = Spherical.radius s.
Proof. rewrite Spherical.makeSafe_spec. reflexivity. Qed.

Lemma makeSafe_theta (s : Spherical.t xreal) :
  Spherical.theta (Spherical.makeSafe s) = Spherical.theta s.
Proof. rewrite Spherical.makeSafe_spec. reflexivity. Qed.

Lemma makeSafe_yAxis (s : Spherical.t xreal) :
  Spherical.yAxis (Spherical.makeSafe s) = Spherical.yAxis s.
Proof. rewrite Spherical.makeSafe_spec. reflexivity. Qed.

Lemma makeSafe_phi_range (s : Spherical.t xreal) :
  is_nan (Spherical.phi s) = false ->
  (Fin eps <= Spherical.phi (Spherical.makeSafe s) <= Fin (PI - eps))%xreal.
Proof.
  intros Hn. rewrite Spherical.makeSafe_spec. cbn [Spherical.phi Spherical.set_phi].
  apply xclamp_bounds; [|assumption].
  apply xle_fin. pose proof eps_lt_PI_minus_eps. lra.
Qed.

Lemma makeSafe_id (s : Spherical.t xreal) :
  (Fin eps <= Spherical.phi s <= Fin (PI - eps))%xreal ->
  Spherical.makeSafe s = s.
Proof.
  intros Hr. rewrite Spherical.makeSafe_spec, xclamp_id by assumption.
  now destruct s.
Qed.

(** A safe polar angle is strictly between the poles. *)
Lemma makeSafe_phi_open (s : Spherical.t xreal) :
  is_nan (Spherical.phi s) = false ->
  (Fin 0 < Spherical.phi (Spherical.makeSafe s) < Fin PI)%xreal.
Proof.
  intros Hn. destruct (makeSafe_phi_range s Hn) as [H1 H2].
  pose proof Spherical.eps_pos. split.
  - eapply xlt_le_trans; [|exact H1]. now apply xlt_fin.
  - eapply xle_lt_trans; [exact H2|]. apply xlt_fin. lra.
Qed.

(** Off the poles, two azimuths less than a whole turn apart give two
    different vectors. *)
Lemma setToVec3_turn_moves (r p t t' : R) :
  0 < r -> 0 < p < PI -> 0 < t - t' < 2 * PI ->
  fst (Spherical.setToVec3 (Spherical.mk (Fin r) (Fin p) (Fin t) upY))
  <> fst (Spherical.setToVec3 (Spherical.mk (Fin r) (Fin p) (Fin t') upY)).
Proof.
  intros Hr Hp Hd Heq.
  destruct (Spherical.setToVec3_off_axis (Spherical.mk (Fin r) (Fin p) (Fin t') upY) r p)
    as (a & b & c & E & Hac); try reflexivity; try exact I; try assumption.
  pose proof (Spherical.setToVec3_rotate (Spherical.mk (Fin r) (Fin p) (Fin t') upY)
                (t - t') eq_refl I I I) as Hrot.
  unfold Spherical.set_theta in Hrot.
  cbn [Spherical.theta Spherical.radius Spherical.phi Spherical.yAxis xadd] in Hrot.
  replace (t' + (t - t')) with t in Hrot by lra.
  rewrite Hrot, E in Heq. apply rotateY_fixed in Heq; [|assumption].
  pose proof (cos_lt_1 _ Hd). lra.
Qed.

(** So off the poles a vector has one azimuth within less than a whole
    turn. *)
Lemma setToVec3_azimuth_unique (r p t t' : R) :
  0 < r -> 0 < p < PI -> - (2 * PI) < t - t' < 2 * PI ->
  fst (Spherical.setToVec3 (Spherical.mk (Fin r) (Fin p) (Fin t) upY))
  = fst (Spherical.setToVec3 (Spherical.mk (Fin r) (Fin p) (Fin t') upY)) ->
  t = t'.
Proof.
  intros Hr Hp Hd Heq. destruct (Rtotal_order t t') as [H|[H|H]]; [|assumption|].
  - exfalso. apply (setToVec3_turn_moves r p t' t Hr Hp); [lra | now symmetry].
  - exfalso. apply (setToVec3_turn_moves r p t t' Hr Hp); [lra | assumption].
Qed.

End ContractFacts.

(** ** The implementation meets the contract *)

Lemma ESP_xreal : Spherical.ESP = Fin (1 / 1000000).
Proof.
  unfold Spherical.ESP, dec. cbn.
  destruct (Req_dec_T 1000000 0); [lra | reflexivity].
Qed.

Lemma sub_PI_ESP : (Math_PI - Spherical.ESP)%num = Fin (PI - 1 / 1000000).
Proof. rewrite ESP_xreal. reflexivity. Qed.

(** The frame of the controller's up axis is the identity. *)
Lemma frame_upY : Spherical.frame upY = Quaternion.identity.
Proof.
  unfold Spherical.frame, upY. rewrite normalize_unit by lra.
  replace ((Vector3.x (vfin 0 1 0) === one) && (Vector3.y (vfin 0 1 0) === zero)
           && (Vector3.z (vfin 0 1 0) === zero)) with false by (xsimpl; lra).
  change (Vector3.mk (F := xreal) one zero zero) with (vfin 1 0 0).
  rewrite cross_vfin.
  replace (vfin (0 * 0 - 0 * 1) (0 * 0 - 1 * 0) (1 * 1 - 0 * 0)) with (vfin 0 0 1)
    by (apply vfin_eq; lra).
  rewrite normalize_unit by lra. rewrite cross_vfin.
  unfold Quaternion.identity. f_equal; apply vfin_eq; cbn; lra.
Qed.

Lemma toLocal_identity (v : Vector3.t xreal) :
  vfinite v -> Spherical.toLocal Quaternion.identity v = v.
Proof.
  intros Hv. vfinite_cases. unfold Spherical.toLocal, Quaternion.identity.
  cbn. apply vfin_eq; lra.
Qed.

Lemma impl_setFromVec3_radius (s : Spherical.t xreal) (v : Vector3.t xreal) (b : bool) :
  Spherical.yAxis s = upY -> vfinite v ->
  Spherical.radius (Spherical.impl_setFromVec3 s v b) = Vector3.length v.
Proof.
  intros Hy Hv. unfold Spherical.impl_setFromVec3.
  rewrite Hy, frame_upY, toLocal_identity by assumption.
  repeat break_match; reflexivity.
Qed.

Lemma impl_setFromVec3_finite (s : Spherical.t xreal) (v : Vector3.t xreal) (b : bool) :
  Spherical.yAxis s = upY -> vfinite v ->
  finite (Spherical.theta (Spherical.impl_setFromVec3 s v b)) /\
  finite (Spherical.phi (Spherical.impl_setFromVec3 s v b)).
Proof.
  intros Hy Hv. unfold Spherical.impl_setFromVec3.
  rewrite Hy, frame_upY, toLocal_identity by assumption.
  vfinite_cases. rewrite length_vfin. destruct b; xlra.
Qed.

(** *** The two conversions on finite values *)

Lemma xacos_fin (c : R) : -1 <= c <= 1 -> xacos (Fin c) = Fin (acos c).
Proof. intros [H1 H2]. cbn. repeat break_match; try reflexivity; contradiction. Qed.

Lemma xdiv_fin (a b : R) : b <> 0 -> xdiv (Fin a) (Fin b) = Fin (a / b).
Proof. intros Hb. cbn. now destruct (Req_dec_T b 0). Qed.

(** The cosine the polar angle is read from, clamped as the code clamps it. *)
Lemma clamped_cosine (x y z : R) :
  0 < sqrt (x * x + y * y + z * z) ->
  (Math_acos (Math_max (- one) (Math_min one (Fin y / Fin (sqrt (x * x + y * y + z * z)))))
  = Fin (acos (y / sqrt (x * x + y * y + z * z))))%num.
Proof.
  intros Hr. pose proof (ratio_bound x y z Hr) as Hb.
  change (Fin y / Fin ?r)%num with (xdiv (Fin y) (Fin r)).
  rewrite xdiv_fin by lra.
  change (Math_max (- one) (Math_min one ?c))%num with (xmax (Fin (- 1)) (xmin (Fin 1) c)).
  rewrite xclamp_id by (split; apply xle_fin; lra).
  now apply xacos_fin.
Qed.

Lemma impl_setFromVec3_fin (s : Spherical.t xreal) (x y z : R) (b : bool) :
  Spherical.yAxis s = upY ->
  0 < sqrt (x * x + y * y + z * z) ->
  Spherical.impl_setFromVec3 s (vfin x y z) b =
  let r := sqrt (x * x + y * y + z * z) in
  if b
  then Spherical.mk (Fin r) (Fin (2 * PI - acos (y / r))) (Fin (Ratan2 (- x) (- z))) upY
  else Spherical.mk (Fin r) (Fin (acos (y / r))) (Fin (Ratan2 x z)) upY.
Proof.
  intros Hy Hr. unfold Spherical.impl_setFromVec3.
  rewrite Hy, frame_upY, toLocal_identity, length_vfin by apply vfinite_vfin.
  replace (Fin (sqrt (x * x + y * y + z * z)) === zero)%num with false
    by (symmetry; apply Reqb_neq; lra).
  cbn [Vector3.x Vector3.y Vector3.z vfin].
  rewrite clamped_cosine by assumption. now destruct b.
Qed.

Lemma impl_setFromVec3_origin (s : Spherical.t xreal) (x y z : R) (b : bool) :
  Spherical.yAxis s = upY ->
  sqrt (x * x + y * y + z * z) = 0 ->
  Spherical.impl_setFromVec3 s (vfin x y z) b = Spherical.mk (Fin 0) (Fin 0) (Fin 0) upY.
Proof.
  intros Hy Hr. unfold Spherical.impl_setFromVec3.
  rewrite Hy, frame_upY, toLocal_identity, length_vfin, Hr by apply vfinite_vfin.
  replace (Fin 0 === zero)%num with true by (symmetry; now apply Reqb_eq).
  reflexivity.
Qed.

Lemma impl_setFromVec3_theta_range (s : Spherical.t xreal) (v : Vector3.t xreal)
    (back : bool) :
  Spherical.yAxis s = upY -> vfinite v ->
  (Fin (- PI) <= Spherical.theta (Spherical.impl_setFromVec3 s v back) <= Fin PI)%xreal.
Proof.
  intros Hy Hv. vfinite_cases. rename a into x, b into y, c into z.
  destruct (Rle_lt_or_eq_dec _ _ (sqrt_pos (x * x + y * y + z * z))) as [Hr|Hr].
  - rewrite impl_setFromVec3_fin by assumption.
    destruct back; cbv zeta; cbn [Spherical.theta];
      [pose proof (Ratan2_bound (- x) (- z)) | pose proof (Ratan2_bound x z)];
      split; apply xle_fin; lra.
  - symmetry in Hr. rewrite impl_setFromVec3_origin by assumption.
    pose proof PI_RGT_0. split; apply xle_fin; lra.
Qed.

Lemma impl_setToVec3_fin (r p t : R) :
  Spherical.impl_setToVec3 (Spherical.mk (Fin r) (Fin p) (Fin t) upY)
  = (vfin (sin p * r * sin t) (r * cos p) (sin p * r * cos t), Rltb (sin p) 0).
Proof.
  unfold Spherical.impl_setToVec3. cbn [Spherical.yAxis].
  rewrite frame_upY. f_equal.
  apply (transformByQuat_identity (vfin (sin p * r * sin t) (r * cos p) (sin p * r * cos t))).
  apply vfinite_vfin.
Qed.

(** A finite value with the controller's up axis, as a record of reals. *)
Lemma spherical_fin_inv (s : Spherical.t xreal) :
  Spherical.yAxis s = upY ->
  finite (Spherical.radius s) -> finite (Spherical.phi s) -> finite (Spherical.theta s) ->
  exists r p t, s = Spherical.mk (Fin r) (Fin p) (Fin t) upY.
Proof.
  destruct s as [r p t ax]. cbn. intros -> Hr Hp Ht. finite_cases. eauto.
Qed.

(** *** Setting from a vector and back *)

Lemma impl_roundtrip_fin (s : Spherical.t xreal) (x y z : R) (back : bool) :
  Spherical.yAxis s = upY ->
  fst (Spherical.impl_setToVec3 (Spherical.impl_setFromVec3 s (vfin x y z) back))
  = vfin x y z.
Proof.
  intros Hy.
  destruct (Rle_lt_or_eq_dec _ _ (sqrt_pos (x * x + y * y + z * z))) as [Hr|Hr].
  - rewrite impl_setFromVec3_fin by assumption.
    destruct back; cbv zeta; rewrite impl_setToVec3_fin; cbn [fst].
    + destruct (sphere_back x y z Hr) as (H1 & H2 & H3). now apply vfin_eq.
    + destruct (sphere_front x y z Hr) as (H1 & H2 & H3). now apply vfin_eq.
  - symmetry in Hr. rewrite impl_setFromVec3_origin by assumption.
    rewrite impl_setToVec3_fin. cbn [fst]. apply sqrt_eq_0 in Hr; [|nra].
    rewrite sin_0. apply vfin_eq; nra.
Qed.

Lemma impl_roundtrip (s : Spherical.t xreal) (v : Vector3.t xreal) (back : bool) :
  Spherical.yAxis s = upY -> vfinite v ->
  fst (Spherical.impl_setToVec3 (Spherical.impl_setFromVec3 s v back)) = v.
Proof. intros Hy Hv. vfinite_cases. now apply impl_roundtrip_fin. Qed.

(** The flag returned for a value strictly between the poles. *)
Lemma impl_setToVec3_front (s : Spherical.t xreal) :
  (Fin 0 < Spherical.phi s < Fin PI)%xreal ->
  snd (Spherical.impl_setToVec3 s) = false.
Proof.
  destruct s as [r p t ax]. cbn [Spherical.phi]. intros [H0 H1].
  destruct p as [p| | |]; try contradiction.
  apply xlt_fin in H0. apply xlt_fin in H1.
  unfold Spherical.impl_setToVec3. cbn [snd Spherical.phi].
  apply Rltb_ge. left. now apply sin_gt_0.
Qed.

Lemma impl_setToVec3_finite (s : Spherical.t xreal) :
  Spherical.yAxis s = upY ->
  finite (Spherical.radius s) -> finite (Spherical.phi s) -> finite (Spherical.theta s) ->
  vfinite (fst (Spherical.impl_setToVec3 s)).
Proof.
  intros Hy Hr Hp Ht.
  destruct (spherical_fin_inv s Hy Hr Hp Ht) as (r & p & t & ->).
  rewrite impl_setToVec3_fin. apply vfinite_vfin.
Qed.

Lemma impl_setToVec3_length (r p t : R) :
  0 <= r ->
  Vector3.length (fst (Spherical.impl_setToVec3 (Spherical.mk (Fin r) (Fin p) (Fin t) upY)))
  = Fin r.
Proof.
  intros Hr. rewrite impl_setToVec3_fin. cbn [fst].
  rewrite length_vfin. f_equal. now apply sphere_norm.
Qed.

(** Whole turns of the azimuth do not change the vector. *)
Lemma impl_setToVec3_turns (s : Spherical.t xreal) (k : Z) :
  Spherical.impl_setToVec3
    (Spherical.set_theta s (xadd (Spherical.theta s) (Fin (2 * PI * IZR k))))
  = Spherical.impl_setToVec3 s.
Proof.
  destruct s as [r p [t| | |] ax]; try reflexivity.
  unfold Spherical.impl_setToVec3.
  cbn [Spherical.set_theta Spherical.theta Spherical.phi Spherical.radius Spherical.yAxis
       xadd Math_sin Math_cos MathFns_xreal xsin xcos].
  now rewrite sin_turns, cos_turns.
Qed.

(** Adding to the azimuth turns the vector about the y axis. *)
Lemma impl_setToVec3_rotate (r p t d : R) :
  fst (Spherical.impl_setToVec3 (Spherical.mk (Fin r) (Fin p) (Fin (t + d)) upY))
  = rotateY d (fst (Spherical.impl_setToVec3 (Spherical.mk (Fin r) (Fin p) (Fin t) upY))).
Proof.
  rewrite !impl_setToVec3_fin. cbn [fst]. rewrite rotateY_vfin, sin_plus, cos_plus.
  apply vfin_eq; ring.
Qed.

(** Strictly between the poles the vector has a horizontal part. *)
Lemma impl_setToVec3_off_axis (r p t : R) :
  0 < r -> 0 < p < PI ->
  exists a b c,
    fst (Spherical.impl_setToVec3 (Spherical.mk (Fin r) (Fin p) (Fin t) upY)) = vfin a b c /\
    0 < a * a + c * c.
Proof.
  intros Hr Hp. rewrite impl_setToVec3_fin. cbn [fst].
  eexists _, _, _. split; [reflexivity|].
  pose proof (sin_gt_0 p (proj1 Hp) (proj2 Hp)) as Hs.
  pose proof (sin2_cos2 t) as Ht. unfold Rsqr in Ht.
  replace (sin p * r * sin t * (sin p * r * sin t) + sin p * r * cos t * (sin p * r * cos t))
    with ((sin p * r) * (sin p * r) * (sin t * sin t + cos t * cos t)) by ring.
  rewrite Ht, Rmult_1_r.
  assert (0 < sin p * r) by now apply Rmult_lt_0_compat.
  now apply Rmult_lt_0_compat.
Qed.

(** Reading back the vector of a value gives its polar angle again. *)
Lemma impl_back_phi (s0 : Spherical.t xreal) (r p t : R) :
  Spherical.yAxis s0 = upY -> 0 < r -> 0 <= p <= PI ->
  Spherical.phi
    (Spherical.impl_setFromVec3 s0
       (fst (Spherical.impl_setToVec3 (Spherical.mk (Fin r) (Fin p) (Fin t) upY))) false)
  = Fin p.
Proof.
  intros Hy Hr Hp. rewrite impl_setToVec3_fin. cbn [fst].
  assert (Hn : sqrt ((sin p * r * sin t) * (sin p * r * sin t) + (r * cos p) * (r * cos p)
                     + (sin p * r * cos t) * (sin p * r * cos t)) = r)
    by (apply sphere_norm; lra).
  rewrite impl_setFromVec3_fin by (try assumption; rewrite Hn; assumption).
  cbv zeta. cbn [Spherical.phi]. rewrite Hn. f_equal. now apply polar_back.
Qed.

#[export] Instance spec_ops_contract :
  Spherical.Contract Spherical.spec_ops (1 / 1000000).
Proof.
  constructor.
  - lra.
  - pose proof PI2_1. lra.
  - reflexivity.
  - reflexivity.
  - reflexivity.
  - reflexivity.
  - intros s. cbn. unfold Spherical.impl_makeSafe.
    now rewrite sub_PI_ESP, ESP_xreal.
  - intros s v b. cbn. unfold Spherical.impl_setFromVec3.
    repeat break_match; reflexivity.
  - intros s s' v b Hy. cbn. unfold Spherical.impl_setFromVec3. now rewrite Hy.
  - intros s v b. apply impl_setFromVec3_radius.
  - intros s v b. apply impl_setFromVec3_finite.
  - intros s v b. apply impl_setFromVec3_theta_range.
  - apply impl_setToVec3_finite.
  - intros s r Hy Hr Hr0 Hp Ht.
    destruct (spherical_fin_inv s Hy) as (r' & p & t & ->);
      [rewrite Hr; exact I | assumption | assumption |].
    cbn in Hr. inv Hr. now apply impl_setToVec3_length.
  - apply impl_setToVec3_front.
  - apply impl_setToVec3_turns.
  - intros s d Hy Hr Hp Ht.
    destruct (spherical_fin_inv s Hy Hr Hp Ht) as (r & p & t & ->).
    apply impl_setToVec3_rotate.
  - intros s r p Hy Hr Hr0 Hp Hp0 Ht.
    destruct (spherical_fin_inv s Hy) as (r' & p' & t & ->);
      [rewrite Hr; exact I | rewrite Hp; exact I | assumption |].
    cbn in Hr, Hp. inv Hr. inv Hp. now apply impl_setToVec3_off_axis.
  - intros s v b. apply impl_roundtrip.
  - intros s0 s r p Hy0 Hy Hr Hr0 Hp Hp0 Ht.
    destruct (spherical_fin_inv s Hy) as (r' & p' & t & ->);
      [rewrite Hr; exact I | rewrite Hp; exact I | assumption |].
    cbn in Hr, Hp. inv Hr. inv Hp. now apply impl_back_phi.
Qed.
