(* ===== verification/Engine.v ===== *)
(** * Engine: the collaborators of the controller

    The controller is a script of a game engine.  It reads an input manager
    and the canvas, and it reads and writes the transform of the entity it is
    attached to.  None of them is part of the repository; this file models
    them at the interface section 6 of the specification describes:

    - [Keys], [PointerButton], [Pointer], [InputManager]: the snapshot of the
      input devices for one frame, with [isKeyHeldDown] and
      [isPointerHeldDown];
    - [Canvas]: the size of the viewport in pixels;
    - [Transform]: the position and orientation of an entity, with the
      world position as a derived, writable property, [translate] and
      [lookAt].  The entity may have a parent; of the parent only its world
      position is kept, its rotation and scale are the identity. *)

From stdpp Require Import base decidable countable gmap.
From S2P Require Import Prelude Numbers Vectors.

Local Open Scope num_scope.

(** ** Keys and buttons *)

(** The keys the controller asks for, and any other key by its code. *)
Inductive Keys : Type :=
| AltLeft
| KeyS
| KeyW
| KeyA
| KeyD
| KeyQ
| KeyE
| OtherKey (code : nat).

Inductive PointerButton : Type :=
| Primary
| Secondary
| Auxiliary
| OtherButton (code : nat).

#[export] Instance Keys_eq_dec : EqDecision Keys.
Proof. solve_decision. Defined.

#[export] Instance PointerButton_eq_dec : EqDecision PointerButton.
Proof. solve_decision. Defined.

Definition Keys_code (k : Keys) : nat :=
  match k with
  | AltLeft => 0 | KeyS => 1 | KeyW => 2 | KeyA => 3 | KeyD => 4
  | KeyQ => 5 | KeyE => 6 | OtherKey n => 7 + n
  end.

Definition Keys_of_code (n : nat) : Keys :=
  match n with
  | 0 => AltLeft | 1 => KeyS | 2 => KeyW | 3 => KeyA | 4 => KeyD
  | 5 => KeyQ | 6 => KeyE | S (S (S (S (S (S (S m)))))) => OtherKey m
  end.

Definition PointerButton_code (b : PointerButton) : nat :=
  match b with
  | Primary => 0 | Secondary => 1 | Auxiliary => 2 | OtherButton n => 3 + n
  end.

Definition PointerButton_of_code (n : nat) : PointerButton :=
  match n with
  | 0 => Primary | 1 => Secondary | 2 => Auxiliary | S (S (S m)) => OtherButton m
  end.

#[export] Instance Keys_countable : Countable Keys.
Proof. by apply (inj_countable' Keys_code Keys_of_code); intros []. Defined.

#[export] Instance PointerButton_countable : Countable PointerButton.
Proof.
  by apply (inj_countable' PointerButton_code PointerButton_of_code); intros [].
Defined.

(** ** The input manager *)

(** An active pointer: its movement since the last frame, in pixels. *)
Record Pointer (F : Type) : Type := mkPointer {
  deltaPosition : Vector2.t F
}.

Arguments mkPointer {F} deltaPosition.
Arguments deltaPosition {F} _.

(** The snapshot of one frame. *)
Record InputManager (F : Type) : Type := mkInput {
  heldKeys : gset Keys;
  heldButtons : gset PointerButton;
  pointers : list (Pointer F);
  (** [null] when the wheel did not move *)
  wheelDelta : option (Vector3.t F)
}.

Arguments mkInput {F} heldKeys heldButtons pointers wheelDelta.
Arguments heldKeys {F} _.
Arguments heldButtons {F} _.
Arguments pointers {F} _.
Arguments wheelDelta {F} _.

Definition isKeyHeldDown {F} (inp : InputManager F) (k : Keys) : bool :=
  bool_decide (k ∈ heldKeys inp).

Definition isPointerHeldDown {F} (inp : InputManager F) (b : PointerButton) : bool :=
  bool_decide (b ∈ heldButtons inp).

(** The snapshot of a frame without input. *)
Definition noInput {F} : InputManager F := mkInput ∅ ∅ [] None.

(** The snapshot of a frame in which the listed keys and buttons are
    held. *)
Definition held {F} (keys : list Keys) (buttons : list PointerButton)
    (ps : list (Pointer F)) (wheel : option (Vector3.t F)) : InputManager F :=
  mkInput (list_to_set keys) (list_to_set buttons) ps wheel.

(** ** The canvas *)

Record Canvas (F : Type) : Type := mkCanvas {
  width : F;
  height : F
}.

Arguments mkCanvas {F} width height.
Arguments width {F} _.
Arguments height {F} _.

(** What a script reaches through [this.engine]. *)
Record Engine (F : Type) : Type := mkEngine {
  inputManager : InputManager F;
  canvas : Canvas F
}.

Arguments mkEngine {F} inputManager canvas.
Arguments inputManager {F} _.
Arguments canvas {F} _.

(** ** Transforms *)

Module Transform.

Record t (F : Type) : Type := mk {
  (** the position relative to the parent *)
  position : Vector3.t F;
  (** the orientation *)
  rotationQuaternion : Quaternion.t F;
  (** the world position of the parent; the origin for an entity without
      parent *)
  parentPosition : Vector3.t F
}.

Arguments mk {F} position rotationQuaternion parentPosition.
Arguments position {F} _.
Arguments rotationQuaternion {F} _.
Arguments parentPosition {F} _.

Section Ops.

Context {F : Type} `{Number F}.

(** [transform.worldPosition] *)
Definition worldPosition (tr : t F) : Vector3.t F :=
  Vector3.add (parentPosition tr) (position tr).

(** [transform.worldPosition = w] *)
Definition set_worldPosition (tr : t F) (w : Vector3.t F) : t F :=
  mk (Vector3.subtract w (parentPosition tr)) (rotationQuaternion tr) (parentPosition tr).

(** [transform.worldRotationQuaternion]: the parent does not rotate. *)
Definition worldRotationQuaternion (tr : t F) : Quaternion.t F :=
  rotationQuaternion tr.

(** [transform.translate(v)]: move by [v], given in the entity's own
    axes. *)
Definition translate (tr : t F) (v : Vector3.t F) : t F :=
  mk (Vector3.add (position tr) (Quaternion.transformByQuat v (rotationQuaternion tr)))
     (rotationQuaternion tr) (parentPosition tr).

(** The orientation whose backward axis points from [target] to [eye], with
    [up] as the roll reference. *)
Definition lookRotation (eye target up : Vector3.t F) : Quaternion.t F :=
  let zA := Vector3.normalize (Vector3.subtract eye target) in
  let xA := Vector3.normalize (Vector3.cross up zA) in
  let yA := Vector3.cross zA xA in
  Quaternion.mk xA yA zA.

(** [transform.lookAt(target, up)] *)
Definition lookAt (tr : t F) (target up : Vector3.t F) : t F :=
  mk (position tr) (lookRotation (worldPosition tr) target up) (parentPosition tr).

(** The transform of a new entity without parent. *)
Definition create : t F :=
  mk Vector3.zero Quaternion.identity Vector3.zero.

End Ops.

End Transform.

(** ** Facts on the input manager *)

Section InputFacts.

Context {F : Type}.
Implicit Types (inp : InputManager F) (k : Keys) (b : PointerButton).

Lemma isKeyHeldDown_true inp k : isKeyHeldDown inp k = true <-> k ∈ heldKeys inp.
Proof. unfold isKeyHeldDown. by rewrite bool_decide_eq_true. Qed.

Lemma isKeyHeldDown_false inp k : isKeyHeldDown inp k = false <-> k ∉ heldKeys inp.
Proof. unfold isKeyHeldDown. by rewrite bool_decide_eq_false. Qed.

Lemma isPointerHeldDown_true inp b :
  isPointerHeldDown inp b = true <-> b ∈ heldButtons inp.
Proof. unfold isPointerHeldDown. by rewrite bool_decide_eq_true. Qed.

Lemma isPointerHeldDown_false inp b :
  isPointerHeldDown inp b = false <-> b ∉ heldButtons inp.
Proof. unfold isPointerHeldDown. by rewrite bool_decide_eq_false. Qed.

Lemma noInput_key k : isKeyHeldDown (@noInput F) k = false.
Proof. apply isKeyHeldDown_false. set_solver. Qed.

Lemma noInput_button b : isPointerHeldDown (@noInput F) b = false.
Proof. apply isPointerHeldDown_false. set_solver. Qed.

(** Whether a key of a listed snapshot is held is decided on the list. *)
Lemma isKeyHeldDown_held keys buttons (ps : list (Pointer F)) wheel k :
  isKeyHeldDown (held keys buttons ps wheel) k = bool_decide (k ∈ keys).
Proof. unfold isKeyHeldDown, held. cbn. apply bool_decide_ext. set_solver. Qed.

Lemma isPointerHeldDown_held keys buttons (ps : list (Pointer F)) wheel b :
  isPointerHeldDown (held keys buttons ps wheel) b = bool_decide (b ∈ buttons).
Proof. unfold isPointerHeldDown, held. cbn. apply bool_decide_ext. set_solver. Qed.

(** *** Parts of a snapshot *)

(** The keys of a snapshot alone: no button is held, no pointer is active
    and the wheel has not moved. *)
Definition keysOnly inp : InputManager F := mkInput (heldKeys inp) ∅ [] None.

(** The snapshot with the six pan keys released. *)
Definition panKeysUp inp : InputManager F :=
  mkInput (heldKeys inp ∖ {[KeyS; KeyW; KeyA; KeyD; KeyQ; KeyE]})
    (heldButtons inp) (pointers inp) (wheelDelta inp).

Lemma keysOnly_button inp b : isPointerHeldDown (keysOnly inp) b = false.
Proof. apply isPointerHeldDown_false. set_solver. Qed.

Lemma panKeysUp_alt inp :
  isKeyHeldDown (panKeysUp inp) AltLeft = isKeyHeldDown inp AltLeft.
Proof.
  unfold isKeyHeldDown. apply bool_decide_ext. cbn.
  rewrite elem_of_difference, !elem_of_union, !elem_of_singleton. intuition discriminate.
Qed.

Lemma panKeysUp_released inp :
  Forall (fun k => isKeyHeldDown (panKeysUp inp) k = false)
    [KeyS; KeyW; KeyA; KeyD; KeyQ; KeyE].
Proof.
  repeat constructor; apply isKeyHeldDown_false; cbn;
    rewrite elem_of_difference, !elem_of_union, !elem_of_singleton; intuition congruence.
Qed.

End InputFacts.

#[export] Hint Rewrite @noInput_key @noInput_button : vc_rw.
