(* ===== verification/ViewportControl.v ===== *)
(** * ViewportControl: the controller

    The translation of [src/src/ViewportControl.ts].  The class becomes the
    record [ViewportControl]; [this] and the transform of [this.entity], the
    two objects the methods mutate, are paired in a [World], and a method is a
    function on worlds.  The input manager and the canvas are read through
    the engine ([Engine.Engine]), which is an argument of [onUpdate].

    [onUpdate] is the composition of the five blocks of the source (three pan
    blocks, the wheel block, the drag block) and [_updateTransform];
    [_updateTransform] is the composition of its steps, in the order of the
    source.  The drag block reads [pointers[0].deltaPosition]; on an empty
    pointer list that read throws, so the block and [onUpdate] return a
    [result]. *)

From Stdlib Require Import List Bool ZArith.
From S2P Require Import Prelude Numbers Vectors SphericalCoord Engine.
Import ListNotations.

Local Open Scope bool_scope.
Local Open Scope num_scope.

(** ** The class *)

(** A reference to the canvas.  The engine has one canvas; the field
    [canvas] of the controller is an alias of it, so a read through the field
    sees the canvas as it is in the current frame. *)
Inductive CanvasRef : Type :=
| EngineCanvas.

Definition deref {F} (e : Engine F) (r : CanvasRef) : Canvas F :=
  match r with EngineCanvas => Engine.canvas e end.

Record ViewportControl (F : Type) : Type := mkControl {
  minPolarAngle : F;
  maxPolarAngle : F;
  minDistance : F;
  maxDistance : F;
  minAzimuthAngle : F;
  maxAzimuthAngle : F;
  rotateSpeed : F;
  zoomSpeed : F;
  _atTheBack : bool;
  _spherical : Spherical.t F;
  _sphericalDelta : Spherical.t F;
  _zoomFrag : F;
  _target : Vector3.t F;
  _up : Vector3.t F;
  _scale : F;
  canvas : CanvasRef
}.

Arguments mkControl {F}.
Arguments minPolarAngle {F} _.
Arguments maxPolarAngle {F} _.
Arguments minDistance {F} _.
Arguments maxDistance {F} _.
Arguments minAzimuthAngle {F} _.
Arguments maxAzimuthAngle {F} _.
Arguments rotateSpeed {F} _.
Arguments zoomSpeed {F} _.
Arguments _atTheBack {F} _.
Arguments _spherical {F} _.
Arguments _sphericalDelta {F} _.
Arguments _zoomFrag {F} _.
Arguments _target {F} _.
Arguments _up {F} _.
Arguments _scale {F} _.
Arguments canvas {F} _.

(** The objects a method can change: the script and the transform of its
    entity. *)
Record World (F : Type) : Type := mkWorld {
  self : ViewportControl F;
  transform : Transform.t F
}.

Arguments mkWorld {F} self transform.
Arguments self {F} _.
Arguments transform {F} _.

(** What [onUpdate] can throw. *)
Inductive Exception : Type :=
| TypeError.

(** ** Assignments to the private fields *)

Section Setters.

Context {F : Type}.
Implicit Types (c : ViewportControl F) (w : World F).

Definition with_atTheBack c (b : bool) : ViewportControl F :=
  mkControl (minPolarAngle c) (maxPolarAngle c) (minDistance c) (maxDistance c)
    (minAzimuthAngle c) (maxAzimuthAngle c) (rotateSpeed c) (zoomSpeed c)
    b (_spherical c) (_sphericalDelta c) (_zoomFrag c) (_target c) (_up c)
    (_scale c) (canvas c).

Definition with_spherical c (s : Spherical.t F) : ViewportControl F :=
  mkControl (minPolarAngle c) (maxPolarAngle c) (minDistance c) (maxDistance c)
    (minAzimuthAngle c) (maxAzimuthAngle c) (rotateSpeed c) (zoomSpeed c)
    (_atTheBack c) s (_sphericalDelta c) (_zoomFrag c) (_target c) (_up c)
    (_scale c) (canvas c).

Definition with_sphericalDelta c (s : Spherical.t F) : ViewportControl F :=
  mkControl (minPolarAngle c) (maxPolarAngle c) (minDistance c) (maxDistance c)
    (minAzimuthAngle c) (maxAzimuthAngle c) (rotateSpeed c) (zoomSpeed c)
    (_atTheBack c) (_spherical c) s (_zoomFrag c) (_target c) (_up c)
    (_scale c) (canvas c).

Definition with_zoomFrag c (v : F) : ViewportControl F :=
  mkControl (minPolarAngle c) (maxPolarAngle c) (minDistance c) (maxDistance c)
    (minAzimuthAngle c) (maxAzimuthAngle c) (rotateSpeed c) (zoomSpeed c)
    (_atTheBack c) (_spherical c) (_sphericalDelta c) v (_target c) (_up c)
    (_scale c) (canvas c).

Definition with_target c (v : Vector3.t F) : ViewportControl F :=
  mkControl (minPolarAngle c) (maxPolarAngle c) (minDistance c) (maxDistance c)
    (minAzimuthAngle c) (maxAzimuthAngle c) (rotateSpeed c) (zoomSpeed c)
    (_atTheBack c) (_spherical c) (_sphericalDelta c) (_zoomFrag c) v (_up c)
    (_scale c) (canvas c).

Definition with_scale c (v : F) : ViewportControl F :=
  mkControl (minPolarAngle c) (maxPolarAngle c) (minDistance c) (maxDistance c)
    (minAzimuthAngle c) (maxAzimuthAngle c) (rotateSpeed c) (zoomSpeed c)
    (_atTheBack c) (_spherical c) (_sphericalDelta c) (_zoomFrag c) (_target c)
    (_up c) v (canvas c).

(** Apply a change to the script of a world, or to its transform. *)
Definition on_self (f : ViewportControl F -> ViewportControl F) w : World F :=
  mkWorld (f (self w)) (transform w).

Definition on_transform (f : Transform.t F -> Transform.t F) w : World F :=
  mkWorld (self w) (f (transform w)).

End Setters.

Section Controller.

Context {F : Type} `{Number F} `{MathFns F} `{Spherical.Ops F}.
Implicit Types (c : ViewportControl F) (w : World F) (e : Engine F).

(** ** The direction constants (lines 4-9) *)

Definition forwardVec3 : Vector3.t F := Vector3.mk zero zero (- dec 1 10).
Definition backwardVec3 : Vector3.t F := Vector3.mk zero zero (dec 1 10).
Definition leftVec3 : Vector3.t F := Vector3.mk (- dec 1 10) zero zero.
Definition rightVec3 : Vector3.t F := Vector3.mk (dec 1 10) zero zero.
Definition upVec3 : Vector3.t F := Vector3.mk zero (- dec 1 10) zero.
Definition downVec3 : Vector3.t F := Vector3.mk zero (dec 1 10) zero.

(** ** The field initialisers and the constructor (lines 14-43) *)

(** The fields as their initialisers leave them, before the body of the
    constructor runs. *)
Definition fields : ViewportControl F := {|
  minPolarAngle := one;
  maxPolarAngle := (of_Z 179 / of_Z 180) * Math_PI;
  minDistance := dec 1 10;
  maxDistance := Infinity;
  minAzimuthAngle := - Infinity;
  maxAzimuthAngle := Infinity;
  rotateSpeed := one;
  zoomSpeed := one;
  _atTheBack := false;
  _spherical := Spherical.create;
  _sphericalDelta := Spherical.create;
  _zoomFrag := zero;
  _target := Vector3.zero;
  _up := Vector3.mk zero one zero;
  _scale := one;
  canvas := EngineCanvas
|}.

(** [new ViewportControl(entity)]: the script attached to the entity whose
    transform is [tr]. *)
Definition constructor (tr : Transform.t F) : World F :=
  let this := fields in
  let this := with_spherical this (Spherical.setYAxis (_spherical this) (_up this)) in
  mkWorld this tr.

(** ** [_move] (lines 113-120) *)

Definition _move (vec : Vector3.t F) w : World F :=
  let entityTransform := Transform.translate (transform w) vec in
  let _targetMoveVector3 :=
    Quaternion.transformByQuat vec (Transform.worldRotationQuaternion entityTransform) in
  mkWorld (with_target (self w) (Vector3.add (_target (self w)) _targetMoveVector3))
          entityTransform.

(** ** The blocks of [onUpdate] *)

(** Lines 48-58: S moves backward, otherwise W moves forward. *)
Definition panDepth e w : World F :=
  let inputManager := inputManager e in
  if isKeyHeldDown inputManager AltLeft && isKeyHeldDown inputManager KeyS
  then _move backwardVec3 w
  else if isKeyHeldDown inputManager AltLeft && isKeyHeldDown inputManager KeyW
  then _move forwardVec3 w
  else w.

(** Lines 60-70: A moves left, otherwise D moves right. *)
Definition panSide e w : World F :=
  let inputManager := inputManager e in
  if isKeyHeldDown inputManager AltLeft && isKeyHeldDown inputManager KeyA
  then _move leftVec3 w
  else if isKeyHeldDown inputManager AltLeft && isKeyHeldDown inputManager KeyD
  then _move rightVec3 w
  else w.

(** Lines 72-82: Q moves by [upVec3], otherwise E moves by [downVec3]. *)
Definition panHeight e w : World F :=
  let inputManager := inputManager e in
  if isKeyHeldDown inputManager AltLeft && isKeyHeldDown inputManager KeyQ
  then _move upVec3 w
  else if isKeyHeldDown inputManager AltLeft && isKeyHeldDown inputManager KeyE
  then _move downVec3 w
  else w.

(** Lines 84-92: the wheel divides or multiplies the pending scale. *)
Definition wheelZoom e c : ViewportControl F :=
  match wheelDelta (inputManager e) with
  | Some wheelDelta =>
      if Vector3.y wheelDelta !== zero then
        let delta := Vector3.y wheelDelta in
        if delta >? zero
        then with_scale c (_scale c / Math_pow (dec 95 100) (zoomSpeed c))
        else if delta <? zero
        then with_scale c (_scale c * Math_pow (dec 95 100) (zoomSpeed c))
        else c
      else c
  | None => c
  end.

(** Lines 94-108: a drag with Alt and the primary button held subtracts
    from the pending rotation.  [pointers[0]] of an empty list is
    [undefined], and reading its [deltaPosition] throws. *)
Definition dragRotate e c : result Exception (ViewportControl F) :=
  let inputManager := inputManager e in
  if isKeyHeldDown inputManager AltLeft && isPointerHeldDown inputManager Primary
  then
    match pointers inputManager with
    | [] => Throw TypeError
    | pointer0 :: _ =>
        let deltaPosition := deltaPosition pointer0 in
        let radianLeft :=
          ((two * Math_PI * Vector2.x deltaPosition) / width (deref e (canvas c)))
          * rotateSpeed c in
        let c :=
          with_sphericalDelta c
            (Spherical.set_theta (_sphericalDelta c)
               (Spherical.theta (_sphericalDelta c) - radianLeft)) in
        let radianUp :=
          ((two * Math_PI * Vector2.y deltaPosition) / height (deref e (canvas c)))
          * rotateSpeed c in
        Ok (with_sphericalDelta c
              (Spherical.set_phi (_sphericalDelta c)
                 (Spherical.phi (_sphericalDelta c) - radianUp)))
    end
  else Ok c.

(** ** The steps of [_updateTransform] *)

(** Lines 125-126: read the offset of the camera from the target. *)
Definition readOffset w : ViewportControl F :=
  let c := self w in
  let _tempVec3 := Vector3.subtract (Transform.position (transform w)) (_target c) in
  with_spherical c (Spherical.setFromVec3 (_spherical c) _tempVec3 (_atTheBack c)).

(** Lines 127-128: add the pending rotation. *)
Definition addDelta c : ViewportControl F :=
  let s := _spherical c in
  let s := Spherical.set_theta s (Spherical.theta s + Spherical.theta (_sphericalDelta c)) in
  let s := Spherical.set_phi s (Spherical.phi s + Spherical.phi (_sphericalDelta c)) in
  with_spherical c s.

(** Lines 129-136: clamp the two angles to the configured limits. *)
Definition clampAngles c : ViewportControl F :=
  let s := _spherical c in
  let s :=
    Spherical.set_theta s
      (Math_max (minAzimuthAngle c) (Math_min (maxAzimuthAngle c) (Spherical.theta s))) in
  let s :=
    Spherical.set_phi s
      (Math_max (minPolarAngle c) (Math_min (maxPolarAngle c) (Spherical.phi s))) in
  with_spherical c s.

(** Line 137: keep the polar angle off the poles. *)
Definition safePolar c : ViewportControl F :=
  with_spherical c (Spherical.makeSafe (_spherical c)).

(** Lines 138-141: turn the pending scale into a change of the radius. *)
Definition applyZoom c : ViewportControl F :=
  let c :=
    if _scale c !== one
    then with_zoomFrag c (Spherical.radius (_spherical c) * (_scale c - one))
    else c in
  with_spherical c
    (Spherical.set_radius (_spherical c) (Spherical.radius (_spherical c) + _zoomFrag c)).

(** Lines 142-145: clamp the radius to the configured distances. *)
Definition clampRadius c : ViewportControl F :=
  let s := _spherical c in
  with_spherical c
    (Spherical.set_radius s
       (Math_max (minDistance c) (Math_min (maxDistance c) (Spherical.radius s)))).

(** Lines 146-151: convert back, place the camera and turn it to the
    target. *)
Definition writeTransform w : World F :=
  let c := self w in
  let '(_tempVec3, atTheBack) := Spherical.setToVec3 (_spherical c) in
  let c := with_atTheBack c atTheBack in
  let cameraTransform :=
    Transform.set_worldPosition (transform w) (Vector3.add (_target c) _tempVec3) in
  let cameraTransform :=
    Transform.lookAt cameraTransform (_target c)
      (Vector3.scale (_up c) (if _atTheBack c then - one else one)) in
  mkWorld c cameraTransform.

(** Lines 152-155: reset the pending input. *)
Definition resetCache c : ViewportControl F :=
  let c := with_zoomFrag c zero in
  let c := with_scale c one in
  with_sphericalDelta c (Spherical.set (_sphericalDelta c) zero zero zero).

(** ** [_updateTransform] (lines 122-156) *)

Definition _updateTransform w : World F :=
  let c := readOffset w in
  let c := addDelta c in
  let c := clampAngles c in
  let c := safePolar c in
  let c := applyZoom c in
  let c := clampRadius c in
  let w := writeTransform (mkWorld c (transform w)) in
  on_self resetCache w.

(** ** [onUpdate] (lines 45-111) *)

Definition onUpdate e w : result Exception (World F) :=
  let w := panDepth e w in
  let w := panSide e w in
  let w := panHeight e w in
  let w := on_self (wheelZoom e) w in
  (let! c := dragRotate e (self w) in
   Ok (_updateTransform (mkWorld c (transform w))))%result.

(** ** The frame loop *)

(** The engine calls [onUpdate] once per frame; a run is the sequence of
    the engine states of its frames. *)
Definition frames (w : World F) (es : list (Engine F)) : result Exception (World F) :=
  iterate (fun w e => onUpdate e w) w es.

End Controller.
