(* ===== verification/UpdateProps.v ===== *)
(** * UpdateProps: what [_updateTransform] does

    The first section holds for every number type and every implementation
    of [Spherical]: what the method resets, what it leaves alone, and where
    the values it writes come from.  The second section is over the extended
    reals and uses the contract of [Spherical]: the clamping of the two
    angles and of the distance, the value the clamp takes when the limits are
    in the wrong order, the zoom law, and the script as the constructor
    leaves it.  The file ends with the instances of its theorems at a camera
    at [(0, 0, 5)]. *)

From Stdlib Require Import Reals Lra List Bool.
From S2P Require Import Prelude Numbers XReal Vectors SphericalCoord Engine ViewportControl.

Local Open Scope bool_scope.

(** ** For every number type *)

Section Structure.

Context {F : Type} `{Number F} `{MathFns F} `{Spherical.Ops F}.
Implicit Types (c : ViewportControl F) (w : World F).

(** The script as lines 125-145 leave it, before the transform is
    written. *)
Definition prepared w : ViewportControl F :=
  clampRadius (applyZoom (safePolar (clampAngles (addDelta (readOffset w))))).

(** The configuration of a script: the fields no method assigns. *)
Definition config c : F * F * F * F * F * F * F * F * Vector3.t F * CanvasRef :=
  (minPolarAngle c, maxPolarAngle c, minDistance c, maxDistance c,
   minAzimuthAngle c, maxAzimuthAngle c, rotateSpeed c, zoomSpeed c, _up c, canvas c).

Arguments prepared : simpl never.

Lemma updateTransform_unfold w :
  _updateTransform w =
  on_self resetCache (writeTransform (mkWorld (prepared w) (transform w))).
Proof. reflexivity. Qed.

Lemma self_writeTransform w :
  self (writeTransform w) =
  with_atTheBack (self w) (snd (Spherical.setToVec3 (_spherical (self w)))).
Proof. unfold writeTransform. now destruct (Spherical.setToVec3 _). Qed.

Lemma transform_writeTransform w :
  transform (writeTransform w) =
  let out := Spherical.setToVec3 (_spherical (self w)) in
  Transform.lookAt
    (Transform.set_worldPosition (transform w)
       (Vector3.add (_target (self w)) (fst out)))
    (_target (self w))
    (Vector3.scale (_up (self w)) (if snd out then neg one else one)).
Proof. unfold writeTransform. now destruct (Spherical.setToVec3 _). Qed.

Lemma self_updateTransform w :
  self (_updateTransform w) =
  resetCache (with_atTheBack (prepared w)
                (snd (Spherical.setToVec3 (_spherical (prepared w))))).
Proof. rewrite updateTransform_unfold. cbn. now rewrite self_writeTransform. Qed.

(** The steps before the write assign [_spherical] and [_zoomFrag] only. *)
Lemma prepared_config w : config (prepared w) = config (self w).
Proof.
  unfold prepared, clampRadius, applyZoom, safePolar, clampAngles, addDelta, readOffset.
  cbn. now destruct (negb _).
Qed.

Lemma prepared_target w : _target (prepared w) = _target (self w).
Proof.
  unfold prepared, clampRadius, applyZoom, safePolar, clampAngles, addDelta, readOffset.
  cbn. now destruct (negb _).
Qed.

Lemma prepared_sphericalDelta w : _sphericalDelta (prepared w) = _sphericalDelta (self w).
Proof.
  unfold prepared, clampRadius, applyZoom, safePolar, clampAngles, addDelta, readOffset.
  cbn. now destruct (negb _).
Qed.

Lemma updateTransform_zoomFrag w : _zoomFrag (self (_updateTransform w)) = zero.
Proof. now rewrite self_updateTransform. Qed.

Lemma updateTransform_scale w : _scale (self (_updateTransform w)) = one.
Proof. now rewrite self_updateTransform. Qed.

Lemma updateTransform_sphericalDelta w :
  _sphericalDelta (self (_updateTransform w)) =
  Spherical.set (_sphericalDelta (self w)) zero zero zero.
Proof. rewrite self_updateTransform. cbn. now rewrite prepared_sphericalDelta. Qed.

Lemma updateTransform_target w :
  _target (self (_updateTransform w)) = _target (self w).
Proof. rewrite self_updateTransform. cbn. apply prepared_target. Qed.

Lemma updateTransform_config w :
  config (self (_updateTransform w)) = config (self w).
Proof. rewrite self_updateTransform, <- (prepared_config w). reflexivity. Qed.

(** Two scripts of the same configuration have the same up vector. *)
Lemma config_up c c' : config c = config c' -> _up c = _up c'.
Proof. intros E. exact (f_equal (fun t => snd (fst t)) E). Qed.

Lemma config_speeds c c' :
  config c = config c' -> rotateSpeed c = rotateSpeed c' /\ zoomSpeed c = zoomSpeed c'.
Proof.
  intros E. split.
  - exact (f_equal (fun t => snd (fst (fst (fst t)))) E).
  - exact (f_equal (fun t => snd (fst (fst t))) E).
Qed.

Lemma config_distances c c' :
  config c = config c' ->
  minDistance c = minDistance c' /\ maxDistance c = maxDistance c'.
Proof.
  intros E. split.
  - exact (f_equal (fun t => snd (fst (fst (fst (fst (fst (fst (fst t)))))))) E).
  - exact (f_equal (fun t => snd (fst (fst (fst (fst (fst (fst t))))))) E).
Qed.

Lemma config_angles c c' :
  config c = config c' ->
  minAzimuthAngle c = minAzimuthAngle c' /\ maxAzimuthAngle c = maxAzimuthAngle c' /\
  minPolarAngle c = minPolarAngle c' /\ maxPolarAngle c = maxPolarAngle c'.
Proof. unfold config. intros E. now inv E. Qed.

(** C8. [_updateTransform] consumes the pending input: afterwards the zoom
    fragment is 0, the scale is 1 and the rotation accumulator is what
    [set(0, 0, 0)] makes of it. *)
Theorem updateTransform_resets w :
  _zoomFrag (self (_updateTransform w)) = zero /\
  _scale (self (_updateTransform w)) = one /\
  _sphericalDelta (self (_updateTransform w)) =
    Spherical.set (_sphericalDelta (self w)) zero zero zero.
Proof.
  split_all;
    [apply updateTransform_zoomFrag | apply updateTransform_scale
    | apply updateTransform_sphericalDelta].
Qed.

(** [_updateTransform] changes neither the target nor the
    configuration (the limits, the speeds, the up vector, the canvas). *)
Theorem updateTransform_keeps_target_and_config w :
  _target (self (_updateTransform w)) = _target (self w) /\
  config (self (_updateTransform w)) = config (self w).
Proof. split; [apply updateTransform_target | apply updateTransform_config]. Qed.

(** The spherical coordinates the method leaves in [_spherical] are the
    clamped ones, and the flag it stores is the one [setToVec3] returned for
    them. *)
Lemma updateTransform_spherical w :
  _spherical (self (_updateTransform w)) = _spherical (prepared w).
Proof. rewrite self_updateTransform. reflexivity. Qed.

Lemma updateTransform_atTheBack w :
  _atTheBack (self (_updateTransform w)) =
  snd (Spherical.setToVec3 (_spherical (prepared w))).
Proof. rewrite self_updateTransform. reflexivity. Qed.

(** The local position the method writes: the target plus the offset
    [setToVec3] reconstructs, taken relative to the parent. *)
Lemma updateTransform_position w :
  Transform.position (transform (_updateTransform w)) =
  Vector3.subtract
    (Vector3.add (_target (self w)) (fst (Spherical.setToVec3 (_spherical (prepared w)))))
    (Transform.parentPosition (transform w)).
Proof.
  rewrite updateTransform_unfold. cbn. rewrite transform_writeTransform. cbn.
  now rewrite prepared_target.
Qed.

(** The transform the method leaves (lines 146-151). *)
Lemma transform_updateTransform w :
  transform (_updateTransform w) =
  let out := Spherical.setToVec3 (_spherical (prepared w)) in
  Transform.lookAt
    (Transform.set_worldPosition (transform w) (Vector3.add (_target (self w)) (fst out)))
    (_target (self w))
    (Vector3.scale (_up (self w)) (if snd out then neg one else one)).
Proof.
  rewrite updateTransform_unfold. cbn [transform on_self].
  rewrite transform_writeTransform. cbn [self transform].
  now rewrite prepared_target, (config_up _ _ (prepared_config w)).
Qed.

Lemma updateTransform_parentPosition w :
  Transform.parentPosition (transform (_updateTransform w)) =
  Transform.parentPosition (transform w).
Proof.
  rewrite updateTransform_unfold. cbn. now rewrite transform_writeTransform.
Qed.

End Structure.

#[global] Arguments prepared : simpl never.

(** ** Over the extended reals *)

Local Open Scope R_scope.

Section Bounds.

Context {ops : Spherical.Ops xreal} {eps : R} {C : Spherical.Contract ops eps}.
Implicit Types (c : ViewportControl xreal) (w : World xreal).

(** The inputs of [_updateTransform] are finite: the camera position, the
    target and the pending rotation; and the up axis of [_spherical] is the
    one the constructor set. *)
Definition ready w : Prop :=
  vfinite (Transform.position (transform w)) /\
  vfinite (_target (self w)) /\
  Spherical.yAxis (_spherical (self w)) = upY /\
  finite (Spherical.theta (_sphericalDelta (self w))) /\
  finite (Spherical.phi (_sphericalDelta (self w))).

(** The spherical coordinates read from the transform (lines 125-126). *)
Lemma readOffset_finite w :
  ready w ->
  finite (Spherical.theta (_spherical (readOffset w))) /\
  finite (Spherical.phi (_spherical (readOffset w))) /\
  finite (Spherical.radius (_spherical (readOffset w))).
Proof.
  intros (Hp & Ht & Hy & _). unfold readOffset. cbn.
  assert (Hv : vfinite (Vector3.subtract (Transform.position (transform w))
                          (_target (self w)))) by auto with vc.
  destruct (Spherical.setFromVec3_finite (_spherical (self w)) _ (_atTheBack (self w)) Hy Hv)
    as [H1 H2].
  rewrite Spherical.setFromVec3_radius by assumption.
  repeat split; try assumption.
  apply vfinite_inv in Hv. destruct Hv as (a & b & d & ->).
  now rewrite length_vfin.
Qed.

(** The three coordinates after lines 127-145, as clamps of the coordinates
    read. *)
Lemma prepared_theta w :
  Spherical.theta (_spherical (prepared w)) =
  xmax (minAzimuthAngle (self w))
    (xmin (maxAzimuthAngle (self w))
       (xadd (Spherical.theta (_spherical (readOffset w)))
          (Spherical.theta (_sphericalDelta (self w))))).
Proof.
  unfold prepared, clampRadius, applyZoom, safePolar, clampAngles, addDelta.
  cbn. destruct (negb _); cbn; now rewrite makeSafe_theta.
Qed.

Lemma prepared_phi w :
  Spherical.phi (_spherical (prepared w)) =
  xmax (Fin eps)
    (xmin (Fin (PI - eps))
       (xmax (minPolarAngle (self w))
          (xmin (maxPolarAngle (self w))
             (xadd (Spherical.phi (_spherical (readOffset w)))
                (Spherical.phi (_sphericalDelta (self w))))))).
Proof.
  unfold prepared, clampRadius, applyZoom, safePolar, clampAngles, addDelta.
  cbn. destruct (negb _); cbn; now rewrite Spherical.makeSafe_spec.
Qed.

Lemma prepared_radius w :
  Spherical.radius (_spherical (prepared w)) =
  let r := Spherical.radius (_spherical (readOffset w)) in
  xmax (minDistance (self w))
    (xmin (maxDistance (self w))
       (xadd r (if xeqb (_scale (self w)) (Fin 1)
                then _zoomFrag (self w)
                else xmul r (xsub (_scale (self w)) (Fin 1))))).
Proof.
  unfold prepared, clampRadius, applyZoom, safePolar, clampAngles, addDelta.
  cbn. destruct (xeqb _ _); cbn; now rewrite makeSafe_radius.
Qed.

Lemma prepared_theta_in_limits w :
  ready w ->
  (minAzimuthAngle (self w) <= maxAzimuthAngle (self w))%xreal ->
  (minAzimuthAngle (self w) <= Spherical.theta (_spherical (prepared w))
     <= maxAzimuthAngle (self w))%xreal.
Proof.
  intros Hr Hlim. rewrite prepared_theta.
  apply xclamp_bounds; [assumption|].
  destruct (readOffset_finite w Hr) as (Ht & _). destruct Hr as (_ & _ & _ & Hd & _).
  auto with vc.
Qed.

(** C10. After [_updateTransform] the azimuth is within the configured
    limits, whatever rotation was pending, when the limits are in order. *)
Theorem updateTransform_theta_in_limits w :
  ready w ->
  (minAzimuthAngle (self w) <= maxAzimuthAngle (self w))%xreal ->
  (minAzimuthAngle (self w)
     <= Spherical.theta (_spherical (self (_updateTransform w)))
     <= maxAzimuthAngle (self w))%xreal.
Proof. rewrite updateTransform_spherical. apply prepared_theta_in_limits. Qed.

Lemma readOffset_radius w :
  ready w ->
  Spherical.radius (_spherical (readOffset w)) =
  Vector3.length (Vector3.subtract (Transform.position (transform w)) (_target (self w))).
Proof.
  intros (Hp & Ht & Hy & _). unfold readOffset. cbn.
  apply Spherical.setFromVec3_radius; auto with vc.
Qed.

Lemma phi_sum_not_nan w :
  ready w ->
  is_nan (xadd (Spherical.phi (_spherical (readOffset w)))
            (Spherical.phi (_sphericalDelta (self w)))) = false.
Proof.
  intros Hr. destruct (readOffset_finite w Hr) as (_ & Hp & _).
  destruct Hr as (_ & _ & _ & _ & Hd). auto with vc.
Qed.

(** The polar angle after line 137 keeps the margin from both poles. *)
Lemma prepared_phi_safe w :
  ready w ->
  is_nan (minPolarAngle (self w)) = false ->
  is_nan (maxPolarAngle (self w)) = false ->
  (Fin eps <= Spherical.phi (_spherical (prepared w)) <= Fin (PI - eps))%xreal.
Proof.
  intros Hr Hmin Hmax. rewrite prepared_phi.
  apply xclamp_bounds.
  - apply xle_fin. pose proof (eps_lt_PI_minus_eps (eps := eps)). lra.
  - apply xclamp_not_nan. auto using phi_sum_not_nan.
Qed.

(** It stays within polar limits that are in order and meet the safe
    interval. *)
Lemma prepared_phi_in_limits w :
  ready w ->
  (minPolarAngle (self w) <= maxPolarAngle (self w))%xreal ->
  (Fin eps <= maxPolarAngle (self w))%xreal ->
  (minPolarAngle (self w) <= Fin (PI - eps))%xreal ->
  (minPolarAngle (self w) <= Spherical.phi (_spherical (prepared w))
     <= maxPolarAngle (self w))%xreal.
Proof.
  intros Hr Hlim Hlo Hhi. rewrite prepared_phi.
  apply xclamp_within; try assumption.
  - pose proof (eps_lt_PI_minus_eps (eps := eps)). lra.
  - apply xclamp_bounds; auto using phi_sum_not_nan.
Qed.

(** C7. After [_updateTransform] the polar angle keeps the margin [eps]
    from both poles, whatever the configured limits are, as long as they are
    numbers. *)
Theorem updateTransform_phi_safe w :
  ready w ->
  is_nan (minPolarAngle (self w)) = false ->
  is_nan (maxPolarAngle (self w)) = false ->
  (Fin eps <= Spherical.phi (_spherical (self (_updateTransform w)))
     <= Fin (PI - eps))%xreal.
Proof. rewrite updateTransform_spherical. apply prepared_phi_safe. Qed.

(** C17. After [_updateTransform] the polar angle is within the configured
    limits when they are in order and their interval meets the safe
    interval [[eps, PI - eps]]. *)
Theorem updateTransform_phi_in_limits w :
  ready w ->
  (minPolarAngle (self w) <= maxPolarAngle (self w))%xreal ->
  (Fin eps <= maxPolarAngle (self w))%xreal ->
  (minPolarAngle (self w) <= Fin (PI - eps))%xreal ->
  (minPolarAngle (self w)
     <= Spherical.phi (_spherical (self (_updateTransform w)))
     <= maxPolarAngle (self w))%xreal.
Proof. rewrite updateTransform_spherical. apply prepared_phi_in_limits. Qed.

(** The radius before the clamp of lines 142-145. *)
Definition zoomed (r scale zoomFrag : xreal) : xreal :=
  xadd r (if xeqb scale (Fin 1) then zoomFrag else xmul r (xsub scale (Fin 1))).

Lemma zoomed_finite (r scale zoomFrag : xreal) :
  finite r -> finite scale -> finite zoomFrag -> finite (zoomed r scale zoomFrag).
Proof. intros. unfold zoomed. destruct (xeqb _ _); auto with vc. Qed.

(** With a pending scale the radius is multiplied by it. *)
Lemma zoomed_scale (r s : R) (zoomFrag : xreal) :
  s <> 1 -> zoomed (Fin r) (Fin s) zoomFrag = Fin (r * s).
Proof. intros Hs. unfold zoomed. xsimpl; try lra. f_equal. lra. Qed.

Lemma zoomed_idle (r : R) : zoomed (Fin r) (Fin 1) (Fin 0) = Fin r.
Proof. unfold zoomed. xsimpl; try lra. f_equal. lra. Qed.

Lemma updateTransform_radius w :
  Spherical.radius (_spherical (self (_updateTransform w))) =
  xmax (minDistance (self w))
    (xmin (maxDistance (self w))
       (zoomed (Spherical.radius (_spherical (readOffset w)))
          (_scale (self w)) (_zoomFrag (self w)))).
Proof. rewrite updateTransform_spherical. apply prepared_radius. Qed.

Lemma prepared_radius_in_limits w :
  ready w -> finite (_scale (self w)) -> finite (_zoomFrag (self w)) ->
  (minDistance (self w) <= maxDistance (self w))%xreal ->
  (minDistance (self w) <= Spherical.radius (_spherical (prepared w))
     <= maxDistance (self w))%xreal.
Proof.
  intros Hr Hs Hz Hlim. rewrite prepared_radius.
  apply xclamp_bounds; [assumption|].
  destruct (readOffset_finite w Hr) as (_ & _ & Hrad).
  apply finite_not_nan. now apply zoomed_finite.
Qed.

(** C6. After [_updateTransform] the distance stored in [_spherical] is
    between [minDistance] and [maxDistance], whatever zoom was pending, when
    the limits are in order.  The world is [ready]: the camera position, the
    target and the pending rotation are finite and the up axis of
    [_spherical] is the one the constructor sets; the pending scale and zoom
    fragment are finite. *)
Theorem updateTransform_radius_in_limits w :
  ready w -> finite (_scale (self w)) -> finite (_zoomFrag (self w)) ->
  (minDistance (self w) <= maxDistance (self w))%xreal ->
  (minDistance (self w)
     <= Spherical.radius (_spherical (self (_updateTransform w)))
     <= maxDistance (self w))%xreal.
Proof. rewrite updateTransform_spherical. apply prepared_radius_in_limits. Qed.

(** C39. With the distance limits in the wrong order the clamp returns
    [minDistance], whatever the camera distance and the zoom are. *)
Theorem updateTransform_inverted_distance w :
  ready w -> finite (_scale (self w)) -> finite (_zoomFrag (self w)) ->
  (maxDistance (self w) < minDistance (self w))%xreal ->
  Spherical.radius (_spherical (self (_updateTransform w))) = minDistance (self w).
Proof.
  intros Hr Hs Hz Hlim. rewrite updateTransform_radius.
  apply xclamp_inverted; [assumption|].
  destruct (readOffset_finite w Hr) as (_ & _ & Hrad).
  auto using zoomed_finite with vc.
Qed.

(** The zoom law: with a pending scale [s] other than 1 the radius
    becomes the clamp of the camera distance multiplied by [s]. *)
Theorem updateTransform_zoom w (r s : R) :
  ready w ->
  Vector3.length (Vector3.subtract (Transform.position (transform w)) (_target (self w)))
    = Fin r ->
  _scale (self w) = Fin s -> s <> 1 ->
  Spherical.radius (_spherical (self (_updateTransform w))) =
  xmax (minDistance (self w)) (xmin (maxDistance (self w)) (Fin (r * s))).
Proof.
  intros Hr Hlen Hs Hne.
  now rewrite updateTransform_radius, readOffset_radius, Hlen, Hs, zoomed_scale.
Qed.

(** Without pending zoom the radius is the clamp of the camera distance. *)
Theorem updateTransform_no_zoom w (r : R) :
  ready w ->
  Vector3.length (Vector3.subtract (Transform.position (transform w)) (_target (self w)))
    = Fin r ->
  _scale (self w) = Fin 1 -> _zoomFrag (self w) = Fin 0 ->
  Spherical.radius (_spherical (self (_updateTransform w))) =
  xmax (minDistance (self w)) (xmin (maxDistance (self w)) (Fin r)).
Proof.
  intros Hr Hlen Hs Hz.
  now rewrite updateTransform_radius, readOffset_radius, Hlen, Hs, Hz, zoomed_idle.
Qed.

(** C40. A limit that is [NaN] is not rejected: it makes the coordinate it
    bounds [NaN]. *)
Theorem updateTransform_nan_limit w :
  is_nan (minDistance (self w)) || is_nan (maxDistance (self w)) = true ->
  Spherical.radius (_spherical (self (_updateTransform w))) = XNaN.
Proof.
  intros Hn. rewrite updateTransform_radius.
  destruct (minDistance (self w)), (maxDistance (self w)); try discriminate;
    cbn; rewrite ?xmax_nan_r; reflexivity.
Qed.

(** The two clamping steps compute the reference clamp: with limits
    in order, lines 129-136 and 142-145 leave each coordinate as it is when it
    is within its limits and put it on the limit it passes otherwise. *)
Theorem clamp_steps_reference c :
  let s := _spherical c in
  (minAzimuthAngle c <= maxAzimuthAngle c)%xreal ->
  (minPolarAngle c <= maxPolarAngle c)%xreal ->
  (minDistance c <= maxDistance c)%xreal ->
  is_nan (Spherical.theta s) = false -> is_nan (Spherical.phi s) = false ->
  is_nan (Spherical.radius s) = false ->
  Spherical.theta (_spherical (clampAngles c))
    = clamp_ref (minAzimuthAngle c) (maxAzimuthAngle c) (Spherical.theta s) /\
  Spherical.phi (_spherical (clampAngles c))
    = clamp_ref (minPolarAngle c) (maxPolarAngle c) (Spherical.phi s) /\
  Spherical.radius (_spherical (clampRadius c))
    = clamp_ref (minDistance c) (maxDistance c) (Spherical.radius s).
Proof.
  intros s Ha Hp Hd Ht Hph Hr. unfold clampAngles, clampRadius.
  cbn [_spherical with_spherical Spherical.theta Spherical.phi Spherical.radius
       Spherical.set_theta Spherical.set_phi Spherical.set_radius].
  split_all; now apply xclamp_ref.
Qed.

(** *** The script as the constructor leaves it *)

(** The default polar limits: 1 radian and 179 degrees. *)
Lemma default_polar_limits :
  minPolarAngle fields = Fin 1 /\ maxPolarAngle fields = Fin (179 / 180 * PI).
Proof. split; [reflexivity|]. cbn. destruct (Req_dec_T 180 0); [lra | reflexivity]. Qed.

Lemma default_distance_limits :
  minDistance fields = Fin (1 / 10) /\ maxDistance fields = PInf.
Proof. split; [|reflexivity]. cbn. destruct (Req_dec_T 10 0); [lra | reflexivity]. Qed.

Lemma self_constructor (tr : Transform.t xreal) :
  self (constructor tr) =
  with_spherical fields (Spherical.mk (Spherical.radius Spherical.create)
                           (Spherical.phi Spherical.create)
                           (Spherical.theta Spherical.create) upY).
Proof. unfold constructor. cbn [self]. now rewrite Spherical.setYAxis_spec. Qed.

Lemma ready_constructor (tr : Transform.t xreal) :
  vfinite (Transform.position tr) -> ready (constructor tr).
Proof.
  intros Hp. unfold ready. rewrite self_constructor.
  cbn [transform constructor with_spherical fields _target _spherical _sphericalDelta
       Spherical.yAxis].
  rewrite Spherical.create_theta, Spherical.create_phi.
  split; [exact Hp | repeat split].
Qed.

End Bounds.

(** ** A concrete world

    The script as the constructor leaves it, attached to an entity without
    parent placed at [(0, 0, 5)], with the implementation of [Spherical] of
    [SphericalCoord]. *)

#[local] Existing Instance Spherical.spec_ops.

Definition camera_at (a b c : R) : World xreal :=
  constructor (Transform.mk (vfin a b c) Quaternion.identity Vector3.zero).

Lemma ready_camera_at (a b c : R) : ready (camera_at a b c).
Proof. repeat split. Qed.

(** The same world after the host has assigned the two distance limits, or
    after a wheel step has left a pending scale. *)
Definition with_distances (lo hi : xreal) (w : World xreal) : World xreal :=
  let c := self w in
  mkWorld
    (mkControl (minPolarAngle c) (maxPolarAngle c) lo hi
       (minAzimuthAngle c) (maxAzimuthAngle c) (rotateSpeed c) (zoomSpeed c)
       (_atTheBack c) (_spherical c) (_sphericalDelta c) (_zoomFrag c) (_target c)
       (_up c) (_scale c) (canvas c))
    (transform w).

Definition with_pending_scale (s : xreal) (w : World xreal) : World xreal :=
  on_self (fun c => with_scale c s) w.

Lemma ready_with_distances lo hi w : ready w -> ready (with_distances lo hi w).
Proof. intros H. exact H. Qed.

Lemma ready_with_pending_scale s w : ready w -> ready (with_pending_scale s w).
Proof. intros H. exact H. Qed.

Lemma length_camera_at_005 :
  Vector3.length
    (Vector3.subtract (Transform.position (transform (camera_at 0 0 5)))
       (_target (self (camera_at 0 0 5)))) = Fin 5.
Proof.
  cbn [camera_at constructor transform self Transform.position _target with_spherical fields].
  change (Vector3.zero (F := xreal)) with (vfin 0 0 0).
  rewrite subtract_vfin, length_vfin. f_equal.
  replace ((0 - 0) * (0 - 0) + (0 - 0) * (0 - 0) + (5 - 0) * (5 - 0)) with (5 * 5) by lra.
  apply sqrt_square. lra.
Qed.

Lemma updateTransform_theta_in_limits_witness :
  (minAzimuthAngle (self (camera_at 0 0 5))
     <= Spherical.theta (_spherical (self (_updateTransform (camera_at 0 0 5))))
     <= maxAzimuthAngle (self (camera_at 0 0 5)))%xreal.
Proof.
  apply (updateTransform_theta_in_limits (C := spec_ops_contract)).
  - apply ready_camera_at.
  - exact I.
Defined.

Lemma updateTransform_phi_safe_witness :
  (Fin (1 / 1000000)
     <= Spherical.phi (_spherical (self (_updateTransform (camera_at 0 0 5))))
     <= Fin (PI - 1 / 1000000))%xreal.
Proof.
  apply (updateTransform_phi_safe (C := spec_ops_contract)).
  - apply ready_camera_at.
  - reflexivity.
  - change (self (camera_at 0 0 5)) with
      (with_spherical fields (Spherical.setYAxis (_spherical fields) (_up fields))).
    cbn [maxPolarAngle with_spherical].
    now rewrite (proj2 default_polar_limits).
Defined.

Lemma updateTransform_phi_in_limits_witness :
  (Fin 1
     <= Spherical.phi (_spherical (self (_updateTransform (camera_at 0 0 5))))
     <= Fin (179 / 180 * PI))%xreal.
Proof.
  destruct default_polar_limits as [Hmin Hmax].
  rewrite <- Hmin, <- Hmax.
  apply (updateTransform_phi_in_limits (C := spec_ops_contract) (camera_at 0 0 5)).
  - apply ready_camera_at.
  - cbn [camera_at constructor self with_spherical minPolarAngle maxPolarAngle].
    rewrite Hmin, Hmax. apply xle_fin. pose proof PI2_1. lra.
  - cbn [camera_at constructor self with_spherical minPolarAngle maxPolarAngle].
    rewrite Hmax. apply xle_fin. pose proof PI2_1. lra.
  - cbn [camera_at constructor self with_spherical minPolarAngle maxPolarAngle].
    rewrite Hmin. apply xle_fin. pose proof PI2_1. lra.
Defined.

Lemma updateTransform_radius_in_limits_witness :
  (Fin (1 / 10)
     <= Spherical.radius (_spherical (self (_updateTransform (camera_at 0 0 5))))
     <= PInf)%xreal.
Proof.
  destruct default_distance_limits as [Hmin Hmax].
  rewrite <- Hmin, <- Hmax.
  apply (updateTransform_radius_in_limits (C := spec_ops_contract) (camera_at 0 0 5)).
  - apply ready_camera_at.
  - exact I.
  - exact I.
  - cbn [camera_at constructor self with_spherical minDistance maxDistance].
    now rewrite Hmin, Hmax.
Defined.

Lemma updateTransform_inverted_distance_witness :
  Spherical.radius
    (_spherical (self (_updateTransform (with_distances (Fin 10) (Fin 2) (camera_at 0 0 5)))))
  = Fin 10.
Proof.
  apply (updateTransform_inverted_distance (C := spec_ops_contract)
           (with_distances (Fin 10) (Fin 2) (camera_at 0 0 5))).
  - apply ready_with_distances, ready_camera_at.
  - exact I.
  - exact I.
  - apply xlt_fin. lra.
Defined.

Lemma updateTransform_zoom_witness :
  Spherical.radius
    (_spherical (self (_updateTransform (with_pending_scale (Fin 2) (camera_at 0 0 5)))))
  = Fin 10.
Proof.
  rewrite (updateTransform_zoom (C := spec_ops_contract)
             (with_pending_scale (Fin 2) (camera_at 0 0 5)) 5 2).
  - cbn [with_pending_scale on_self self minDistance maxDistance with_scale].
    change (self (camera_at 0 0 5)) with
      (with_spherical (fields (F := xreal))
         (Spherical.setYAxis (_spherical fields) (_up fields))).
    cbn [minDistance maxDistance with_spherical].
    destruct default_distance_limits as [-> ->].
    rewrite xclamp_id; [f_equal; lra | split; [apply xle_fin; lra | exact I]].
  - apply ready_with_pending_scale, ready_camera_at.
  - apply length_camera_at_005.
  - reflexivity.
  - lra.
Defined.

Lemma updateTransform_no_zoom_witness :
  Spherical.radius (_spherical (self (_updateTransform (camera_at 0 0 5)))) = Fin 5.
Proof.
  rewrite (updateTransform_no_zoom (C := spec_ops_contract) (camera_at 0 0 5) 5).
  - change (self (camera_at 0 0 5)) with
      (with_spherical (fields (F := xreal))
         (Spherical.setYAxis (_spherical fields) (_up fields))).
    cbn [minDistance maxDistance with_spherical].
    destruct default_distance_limits as [-> ->].
    apply xclamp_id. split; [apply xle_fin; lra | exact I].
  - apply ready_camera_at.
  - apply length_camera_at_005.
  - reflexivity.
  - reflexivity.
Defined.

Lemma updateTransform_nan_limit_witness :
  Spherical.radius
    (_spherical (self (_updateTransform (with_distances XNaN PInf (camera_at 0 0 5)))))
  = XNaN.
Proof.
  apply (updateTransform_nan_limit (C := spec_ops_contract)
           (with_distances XNaN PInf (camera_at 0 0 5))).
  reflexivity.
Defined.
