(* ===== verification/OrbitProps.v ===== *)
(** * OrbitProps: the camera on its orbit

    What [_updateTransform] does to the transform, over the extended reals
    and under the contract of [Spherical]:

    - [settled], the invariant of the frame loop: every number the method
      reads is finite and the limits are usable; [_updateTransform] keeps it;
    - the flag [_atTheBack] is never set, because line 137 keeps the polar
      angle strictly between the poles;
    - the camera is written at the distance [_spherical.radius] from the
      target;
    - without pending input and with the coordinates inside the limits the
      method writes the position it read, as a world position;
    - what a second call without input reads and writes: the distance and
      the polar angle of the first call, and an azimuth of at most half a
      turn; with limits that contain the half turns the second call writes
      the offset the first call wrote ([Seam] has the theorem and the limits
      for which it fails). *)

From Stdlib Require Import Reals Lra List Bool.
From S2P Require Import Prelude Numbers XReal Vectors SphericalCoord Engine EngineProps.
From S2P Require Import ViewportControl UpdateProps.

Local Open Scope bool_scope.
Local Open Scope R_scope.

(** ** The invariant *)

(** Limits [_updateTransform] can clamp to: the ones of each pair are
    numbers in order, the azimuth limits leave room for a finite angle, and
    the least distance is a number that is not negative. *)
Definition sound_limits (c : ViewportControl xreal) : Prop :=
  (minAzimuthAngle c <= maxAzimuthAngle c)%xreal /\
  minAzimuthAngle c <> PInf /\ maxAzimuthAngle c <> NInf /\
  is_nan (minPolarAngle c) = false /\ is_nan (maxPolarAngle c) = false /\
  (Fin 0 <= minDistance c)%xreal /\ (minDistance c <= maxDistance c)%xreal /\
  minDistance c <> PInf.

(** A world [_updateTransform] can run on. *)
Definition settled (w : World xreal) : Prop :=
  ready w /\ tfinite (transform w) /\
  finite (_scale (self w)) /\ finite (_zoomFrag (self w)) /\
  _up (self w) = upY /\ sound_limits (self w).

(** No input is pending. *)
Definition idle (c : ViewportControl xreal) : Prop :=
  Spherical.theta (_sphericalDelta c) = Fin 0 /\
  Spherical.phi (_sphericalDelta c) = Fin 0 /\
  _scale c = Fin 1 /\ _zoomFrag c = Fin 0.

Lemma settled_ready w : settled w -> ready w.
Proof. now intros (H & _). Qed.

Lemma settled_tfinite w : settled w -> tfinite (transform w).
Proof. now intros (_ & H & _). Qed.

Lemma settled_target w : settled w -> vfinite (_target (self w)).
Proof. now intros ((_ & H & _) & _). Qed.

Lemma settled_limits w : settled w -> sound_limits (self w).
Proof. now intros (_ & _ & _ & _ & _ & H). Qed.

Lemma settled_up w : settled w -> _up (self w) = upY.
Proof. now intros (_ & _ & _ & _ & H & _). Qed.

Lemma settled_polar w :
  settled w ->
  is_nan (minPolarAngle (self w)) = false /\ is_nan (maxPolarAngle (self w)) = false.
Proof. now intros (_ & _ & _ & _ & _ & _ & _ & _ & H1 & H2 & _). Qed.

#[export] Hint Resolve settled_ready settled_tfinite settled_target settled_limits : vc.

Lemma sound_limits_config (c c' : ViewportControl xreal) :
  config c = config c' -> sound_limits c -> sound_limits c'.
Proof. unfold config, sound_limits. intros E. now inv E. Qed.

Lemma spherical_eq {F : Type} (s s' : Spherical.t F) :
  Spherical.radius s = Spherical.radius s' -> Spherical.phi s = Spherical.phi s' ->
  Spherical.theta s = Spherical.theta s' -> Spherical.yAxis s = Spherical.yAxis s' ->
  s = s'.
Proof. destruct s, s'. cbn. congruence. Qed.

Section Orbit.

Context {ops : Spherical.Ops xreal} {eps : R} {C : Spherical.Contract ops eps}.
Implicit Types (c : ViewportControl xreal) (w : World xreal).

(** ** The coordinates [_updateTransform] writes *)

Lemma readOffset_spherical w :
  _spherical (readOffset w) =
  Spherical.setFromVec3 (_spherical (self w))
    (Vector3.subtract (Transform.position (transform w)) (_target (self w)))
    (_atTheBack (self w)).
Proof. reflexivity. Qed.

Lemma readOffset_yAxis w :
  Spherical.yAxis (_spherical (readOffset w)) = Spherical.yAxis (_spherical (self w)).
Proof. rewrite readOffset_spherical. apply Spherical.setFromVec3_yAxis. Qed.

Lemma prepared_yAxis w :
  Spherical.yAxis (_spherical (prepared w)) = Spherical.yAxis (_spherical (self w)).
Proof.
  rewrite <- readOffset_yAxis.
  unfold prepared, clampRadius, applyZoom, safePolar, clampAngles, addDelta.
  cbn. destruct (negb _); cbn; now rewrite makeSafe_yAxis.
Qed.

(** The coordinates lines 127-145 leave, from the coordinates read. *)
Lemma prepared_spherical w :
  _spherical (prepared w) =
  let s := _spherical (readOffset w) in
  let d := _sphericalDelta (self w) in
  Spherical.mk
    (xmax (minDistance (self w))
       (xmin (maxDistance (self w))
          (zoomed (Spherical.radius s) (_scale (self w)) (_zoomFrag (self w)))))
    (xmax (Fin eps)
       (xmin (Fin (PI - eps))
          (xmax (minPolarAngle (self w))
             (xmin (maxPolarAngle (self w)) (xadd (Spherical.phi s) (Spherical.phi d))))))
    (xmax (minAzimuthAngle (self w))
       (xmin (maxAzimuthAngle (self w)) (xadd (Spherical.theta s) (Spherical.theta d))))
    (Spherical.yAxis (_spherical (self w))).
Proof.
  apply spherical_eq; cbv zeta;
    cbn [Spherical.radius Spherical.phi Spherical.theta Spherical.yAxis].
  - apply prepared_radius.
  - apply prepared_phi.
  - apply prepared_theta.
  - apply prepared_yAxis.
Qed.

(** The clamped coordinates are finite: a radius that is not negative, a
    polar angle in the safe interval, an azimuth. *)
Lemma prepared_fin w :
  settled w ->
  exists r p t,
    _spherical (prepared w) = Spherical.mk (Fin r) (Fin p) (Fin t) upY /\
    0 <= r /\ eps <= p <= PI - eps.
Proof.
  intros (Hr & _ & Hs & Hz & _ & Haz & Haz1 & Haz2 & Hp1 & Hp2 & Hd0 & Hd & Hd1).
  destruct (readOffset_finite w Hr) as (Ht & Hp & Hrad).
  destruct (xclamp_finite_above 0 _ _ _ Hd0 Hd Hd1 (zoomed_finite _ _ _ Hrad Hs Hz))
    as (r & Er & Hr0).
  destruct (xle_between_fin _ _ _ (prepared_phi_safe w Hr Hp1 Hp2)) as (p & Ep & Hp0).
  assert (Hth : finite (Spherical.theta (_spherical (prepared w)))).
  { rewrite prepared_theta. apply xclamp_finite; try assumption.
    destruct Hr as (_ & _ & _ & Hd' & _). auto with vc. }
  destruct (finite_inv _ Hth) as [t Et].
  exists r, p, t. split; [|auto].
  apply spherical_eq; cbn [Spherical.radius Spherical.phi Spherical.theta Spherical.yAxis].
  - rewrite prepared_radius. exact Er.
  - exact Ep.
  - exact Et.
  - rewrite prepared_yAxis. apply Hr.
Qed.

Lemma prepared_offset_finite w :
  settled w -> vfinite (fst (Spherical.setToVec3 (_spherical (prepared w)))).
Proof.
  intros Hs. destruct (prepared_fin w Hs) as (r & p & t & -> & _).
  now apply Spherical.setToVec3_finite.
Qed.

Lemma prepared_front w :
  ready w ->
  is_nan (minPolarAngle (self w)) = false -> is_nan (maxPolarAngle (self w)) = false ->
  snd (Spherical.setToVec3 (_spherical (prepared w))) = false.
Proof.
  intros Hr H1 H2. apply Spherical.setToVec3_front.
  destruct (xle_between_fin _ _ _ (prepared_phi_safe w Hr H1 H2)) as (p & -> & Hp).
  pose proof (Spherical.eps_pos (eps := eps)). split; apply xlt_fin; lra.
Qed.

(** The world position written (line 147). *)
Lemma updateTransform_worldPosition w :
  settled w ->
  Transform.worldPosition (transform (_updateTransform w)) =
  Vector3.add (_target (self w)) (fst (Spherical.setToVec3 (_spherical (prepared w)))).
Proof.
  intros Hs. rewrite updateTransform_unfold. cbn [transform on_self].
  rewrite transform_writeTransform. cbv zeta. rewrite worldPosition_lookAt.
  cbn [self transform]. rewrite prepared_target.
  apply worldPosition_set; auto using prepared_offset_finite with vc.
Qed.

(** The transform written for an entity without a displaced parent: the
    camera at the target plus the offset, turned to the target with the up
    axis as it is. *)
Lemma updateTransform_root w :
  settled w -> Transform.parentPosition (transform w) = Vector3.zero ->
  transform (_updateTransform w) =
  let x := Vector3.add (_target (self w))
             (fst (Spherical.setToVec3 (_spherical (prepared w)))) in
  Transform.mk x (Transform.lookRotation x (_target (self w)) upY) Vector3.zero.
Proof.
  intros Hs Hz. destruct (settled_polar w Hs) as [Hp1 Hp2].
  assert (Hx : vfinite (Vector3.add (_target (self w))
                          (fst (Spherical.setToVec3 (_spherical (prepared w))))))
    by auto using prepared_offset_finite with vc.
  rewrite transform_updateTransform. cbv zeta.
  rewrite prepared_front, (settled_up w Hs) by auto with vc.
  unfold Transform.lookAt, Transform.set_worldPosition, Transform.worldPosition.
  cbn [Transform.position Transform.rotationQuaternion Transform.parentPosition].
  rewrite Hz, subtract_zero_r, add_zero_l, scale_one by (auto; apply vfinite_vfin).
  reflexivity.
Qed.

(** ** [_updateTransform] keeps the invariant *)

Lemma updateTransform_tfinite w : settled w -> tfinite (transform (_updateTransform w)).
Proof.
  intros Hs. rewrite updateTransform_unfold. cbn [transform on_self].
  rewrite transform_writeTransform. cbv zeta. cbn [self transform].
  rewrite prepared_target.
  rewrite (config_up _ _ (prepared_config w)), (settled_up w Hs).
  apply tfinite_lookAt; auto using prepared_offset_finite with vc.
  apply vfinite_scale; [apply vfinite_vfin | now destruct (snd _)].
Qed.

Lemma updateTransform_idle w : idle (self (_updateTransform w)).
Proof.
  unfold idle.
  rewrite updateTransform_sphericalDelta, updateTransform_scale, updateTransform_zoomFrag.
  rewrite Spherical.set_spec. now repeat split.
Qed.

(** [_updateTransform] leaves every number of the world finite, the up axis
    and the limits as they were, and nothing pending. *)
Lemma updateTransform_settled w :
  settled w -> settled (_updateTransform w) /\ idle (self (_updateTransform w)).
Proof.
  intros Hs. split; [|apply updateTransform_idle].
  pose proof (updateTransform_idle w) as (Hdt & Hdp & Hsc & Hzf).
  pose proof (updateTransform_tfinite w Hs) as Ht.
  unfold settled, ready. rewrite Hdt, Hdp, Hsc, Hzf, updateTransform_target.
  rewrite updateTransform_spherical, prepared_yAxis.
  rewrite (config_up _ _ (updateTransform_config w)).
  split_all; auto with vc; try exact I; try apply Hs.
  apply (sound_limits_config (self w)); auto using updateTransform_config with vc.
Qed.

(** ** The constructor establishes the invariant *)

Lemma sound_limits_fields : sound_limits fields.
Proof.
  destruct default_polar_limits as [E1 E2]. destruct default_distance_limits as [E3 E4].
  unfold sound_limits. rewrite E1, E2, E3, E4.
  cbn [minAzimuthAngle maxAzimuthAngle fields].
  repeat split; try discriminate; try exact I. apply xle_fin. lra.
Qed.

Lemma settled_constructor (tr : Transform.t xreal) :
  tfinite tr -> settled (constructor tr).
Proof.
  intros Ht. unfold settled. rewrite self_constructor.
  split; [apply ready_constructor; auto with vc|].
  split_all; auto; try exact I; try reflexivity.
  apply sound_limits_fields.
Qed.

Lemma idle_constructor (tr : Transform.t xreal) : idle (self (constructor tr)).
Proof.
  unfold idle. rewrite self_constructor.
  cbn [with_spherical _sphericalDelta _scale _zoomFrag fields].
  now rewrite Spherical.create_theta, Spherical.create_phi.
Qed.

(** ** The flag and the distance *)

(** C20. [_atTheBack] is never set: line 137 keeps the polar angle strictly
    between the poles, where [setToVec3] returns [false]; so line 150 never
    turns the up vector over. *)
Theorem updateTransform_front w :
  ready w ->
  is_nan (minPolarAngle (self w)) = false -> is_nan (maxPolarAngle (self w)) = false ->
  _atTheBack (self (_updateTransform w)) = false.
Proof. rewrite updateTransform_atTheBack. apply prepared_front. Qed.

(** The offset written has the clamped radius as its length. *)
Lemma prepared_offset_length w :
  settled w ->
  Vector3.length (fst (Spherical.setToVec3 (_spherical (prepared w))))
  = Spherical.radius (_spherical (prepared w)).
Proof.
  intros Hs. destruct (prepared_fin w Hs) as (r & p & t & -> & Hr & _).
  now apply Spherical.setToVec3_length.
Qed.

(** The offset of the camera from the target after the call. *)
Lemma updateTransform_offset w :
  settled w ->
  Vector3.subtract (Transform.worldPosition (transform (_updateTransform w)))
    (_target (self (_updateTransform w)))
  = fst (Spherical.setToVec3 (_spherical (prepared w))).
Proof.
  intros Hs.
  rewrite updateTransform_worldPosition, updateTransform_target by assumption.
  apply subtract_add_cancel; auto using prepared_offset_finite with vc.
Qed.

(** C19. The camera is written at the distance [_spherical.radius] from the
    target: the clamp of the distance is a clamp of the camera. *)
Theorem updateTransform_distance w :
  settled w ->
  Vector3.length
    (Vector3.subtract (Transform.worldPosition (transform (_updateTransform w)))
       (_target (self (_updateTransform w))))
  = Spherical.radius (_spherical (self (_updateTransform w))).
Proof.
  intros Hs.
  now rewrite updateTransform_offset, updateTransform_spherical, prepared_offset_length.
Qed.

(** ** The state after a call *)

(** The coordinates are within the azimuth limits, the safe polar interval
    and the distance limits of a script. *)
Definition in_limits c (s : Spherical.t xreal) : Prop :=
  (minAzimuthAngle c <= Spherical.theta s <= maxAzimuthAngle c)%xreal /\
  (Fin eps <= Spherical.phi s <= Fin (PI - eps))%xreal /\
  (minDistance c <= Spherical.radius s <= maxDistance c)%xreal.

(** What holds of a world after [_updateTransform]: the coordinates are
    within the limits, the flag is off, and the camera is at the distance
    [_spherical.radius] from the target. *)
Definition bounded w : Prop :=
  in_limits (self w) (_spherical (self w)) /\
  _atTheBack (self w) = false /\
  Vector3.length
    (Vector3.subtract (Transform.worldPosition (transform w)) (_target (self w)))
  = Spherical.radius (_spherical (self w)).

Lemma in_limits_config c c' s : config c = config c' -> in_limits c s -> in_limits c' s.
Proof. unfold config, in_limits. intros E. now inv E. Qed.

Lemma prepared_in_limits w : settled w -> in_limits (self w) (_spherical (prepared w)).
Proof.
  intros Hs. destruct (settled_polar w Hs) as [Hp1 Hp2].
  destruct Hs as (Hr & _ & Hsc & Hz & _ & Haz & _ & _ & _ & _ & _ & Hd & _).
  split; [|split].
  - now apply prepared_theta_in_limits.
  - now apply prepared_phi_safe.
  - now apply prepared_radius_in_limits.
Qed.

Lemma updateTransform_bounded w : settled w -> bounded (_updateTransform w).
Proof.
  intros Hs. destruct (settled_polar w Hs) as [Hp1 Hp2]. unfold bounded.
  rewrite updateTransform_offset, updateTransform_spherical, updateTransform_atTheBack
    by assumption.
  split_all.
  - apply (in_limits_config (self w)); [symmetry; apply updateTransform_config|].
    now apply prepared_in_limits.
  - apply prepared_front; auto with vc.
  - now apply prepared_offset_length.
Qed.

(** ** Without input *)

(** The coordinates read are inside every limit. *)
Definition within_limits c (s : Spherical.t xreal) : Prop :=
  (minAzimuthAngle c <= Spherical.theta s <= maxAzimuthAngle c)%xreal /\
  (minPolarAngle c <= Spherical.phi s <= maxPolarAngle c)%xreal /\
  (Fin eps <= Spherical.phi s <= Fin (PI - eps))%xreal /\
  (minDistance c <= Spherical.radius s <= maxDistance c)%xreal.

(** Then lines 127-145 change nothing. *)
Lemma prepared_idle w :
  ready w -> idle (self w) -> within_limits (self w) (_spherical (readOffset w)) ->
  _spherical (prepared w) = _spherical (readOffset w).
Proof.
  intros Hr (Hdt & Hdp & Hsc & Hzf) (Ht & Hp & Hp' & Hd).
  destruct (readOffset_finite w Hr) as (Hft & Hfp & Hfr).
  apply spherical_eq.
  - rewrite prepared_radius. cbv zeta. rewrite Hsc, Hzf.
    destruct (finite_inv _ Hfr) as [r Er]. rewrite Er in *.
    change (xadd (Fin r) _) with (zoomed (Fin r) (Fin 1) (Fin 0)).
    rewrite zoomed_idle. now apply xclamp_id.
  - rewrite prepared_phi, Hdp, xadd_0_r by assumption.
    now rewrite (xclamp_id (minPolarAngle _)), xclamp_id.
  - rewrite prepared_theta, Hdt, xadd_0_r by assumption. now apply xclamp_id.
  - now rewrite prepared_yAxis, readOffset_yAxis.
Qed.

(** So the offset written is the offset read. *)
Lemma idle_offset w :
  settled w -> idle (self w) ->
  within_limits (self w) (_spherical (readOffset w)) ->
  fst (Spherical.setToVec3 (_spherical (prepared w))) =
  Vector3.subtract (Transform.position (transform w)) (_target (self w)).
Proof.
  intros Hs Hi Hw. rewrite prepared_idle, readOffset_spherical by auto with vc.
  apply Spherical.roundtrip; [apply Hs | auto 6 with vc].
Qed.

Lemma idle_worldPosition w :
  settled w -> idle (self w) ->
  within_limits (self w) (_spherical (readOffset w)) ->
  Transform.worldPosition (transform (_updateTransform w)) =
  Transform.position (transform w).
Proof.
  intros Hs Hi Hw. rewrite updateTransform_worldPosition, idle_offset by assumption.
  apply add_subtract_cancel; auto with vc.
Qed.

(** C29. Without pending input and with the camera inside the limits,
    [_updateTransform] moves the camera by the world position of the
    entity's parent: line 125 reads the local position, line 147 writes the
    world position.  Only for an entity without a displaced parent the camera
    stays where it is. *)
Theorem updateTransform_idle_position w :
  settled w -> idle (self w) ->
  within_limits (self w) (_spherical (readOffset w)) ->
  Transform.position (transform (_updateTransform w)) =
  Vector3.subtract (Transform.position (transform w))
    (Transform.parentPosition (transform w)).
Proof.
  intros Hs Hi Hw. rewrite updateTransform_position, idle_offset by assumption.
  now rewrite add_subtract_cancel by auto with vc.
Qed.

(** ** A second call without input *)

(** Limits that leave room for the polar angle and the distance the camera
    is written at: the polar limits are in order and meet the safe interval,
    and the least distance is positive. *)
Definition upright_limits c : Prop :=
  (minPolarAngle c <= maxPolarAngle c)%xreal /\
  (Fin eps <= maxPolarAngle c)%xreal /\ (minPolarAngle c <= Fin (PI - eps))%xreal /\
  (Fin 0 < minDistance c)%xreal.

(** Limits that leave room for every direction the camera can be read in:
    the azimuth limits contain the half turn to either side, in which
    [setFromVec3] reads the azimuth, and the other limits leave room. *)
Definition roomy_limits c : Prop :=
  (minAzimuthAngle c <= Fin (- PI))%xreal /\ (Fin PI <= maxAzimuthAngle c)%xreal /\
  upright_limits c.

Lemma roomy_upright c : roomy_limits c -> upright_limits c.
Proof. now intros (_ & _ & H). Qed.

(** The default limits leave room. *)
Lemma roomy_limits_fields : roomy_limits fields.
Proof.
  destruct default_polar_limits as [E1 E2]. destruct default_distance_limits as [E3 E4].
  unfold roomy_limits, upright_limits. rewrite E1, E2, E3.
  cbn [minAzimuthAngle maxAzimuthAngle fields].
  pose proof PI2_1. pose proof (Spherical.eps_pos (eps := eps)).
  pose proof (Spherical.eps_small (eps := eps)).
  repeat split; try exact I; try (apply xle_fin; lra). apply xlt_fin. lra.
Qed.

Lemma roomy_constructor (tr : Transform.t xreal) : roomy_limits (self (constructor tr)).
Proof. rewrite self_constructor. apply roomy_limits_fields. Qed.

Lemma within_limits_config c c' s :
  config c = config c' -> within_limits c s -> within_limits c' s.
Proof. unfold config, within_limits. intros E. now inv E. Qed.

(** What the next call reads: the coordinates of the offset this call
    wrote. *)
Lemma readOffset_after_update w :
  settled w -> Transform.parentPosition (transform w) = Vector3.zero ->
  _spherical (readOffset (_updateTransform w)) =
  Spherical.setFromVec3 (_spherical (prepared w))
    (fst (Spherical.setToVec3 (_spherical (prepared w)))) false.
Proof.
  intros Hs Hz. destruct (settled_polar w Hs) as [Hp1 Hp2].
  rewrite readOffset_spherical, updateTransform_spherical, updateTransform_target.
  rewrite updateTransform_atTheBack, prepared_front by auto with vc.
  f_equal.
  rewrite <- worldPosition_root.
  - rewrite updateTransform_worldPosition by assumption.
    apply subtract_add_cancel; auto using prepared_offset_finite with vc.
  - apply tfinite_position. now apply updateTransform_tfinite.
  - now rewrite updateTransform_parentPosition.
Qed.

(** The coordinates written, and the coordinates the next call reads from
    the position: the same distance and polar angle, within their limits,
    and an azimuth of at most half a turn to either side, whatever the
    azimuth written was. *)
Lemma coords_after_update w :
  settled w -> upright_limits (self w) ->
  Transform.parentPosition (transform w) = Vector3.zero ->
  exists r p t t',
    _spherical (prepared w) = Spherical.mk (Fin r) (Fin p) (Fin t) upY /\
    _spherical (readOffset (_updateTransform w)) = Spherical.mk (Fin r) (Fin p) (Fin t') upY /\
    0 < r /\ eps <= p <= PI - eps /\ - PI <= t' <= PI /\
    (minPolarAngle (self w) <= Fin p <= maxPolarAngle (self w))%xreal /\
    (minDistance (self w) <= Fin r <= maxDistance (self w))%xreal.
Proof.
  intros Hs (Hp1 & Hp2 & Hp3 & Hd) Hz.
  pose proof (prepared_phi_in_limits w (settled_ready w Hs) Hp1 Hp2 Hp3) as Hphi.
  pose proof (prepared_radius_in_limits w (settled_ready w Hs)) as Hrad.
  rewrite readOffset_after_update by assumption.
  destruct (prepared_fin w Hs) as (r & p & t & E & Hr & Hp). rewrite E in *.
  cbn [Spherical.radius Spherical.phi] in Hphi, Hrad.
  destruct Hrad as [Hr1 Hr2]; try apply Hs.
  assert (Hr0 : 0 < r) by (apply xlt_fin; exact (xlt_le_trans _ _ _ Hd Hr1)).
  pose proof (Spherical.setToVec3_finite (Spherical.mk (Fin r) (Fin p) (Fin t) upY)
                eq_refl I I I) as Hv.
  pose proof (eps_lt_PI_minus_eps (eps := eps)). pose proof (Spherical.eps_pos (eps := eps)).
  destruct (Spherical.setFromVec3_finite
              (Spherical.mk (Fin r) (Fin p) (Fin t) upY) _ false eq_refl Hv) as [Hft _].
  destruct (finite_inv _ Hft) as [t' Et'].
  destruct (Spherical.setFromVec3_theta_range
              (Spherical.mk (Fin r) (Fin p) (Fin t) upY) _ false eq_refl Hv) as [Ht1 Ht2].
  rewrite Et' in Ht1, Ht2. apply xle_fin in Ht1, Ht2.
  exists r, p, t, t'. split_all; try assumption; try lra; try reflexivity.
  apply spherical_eq; cbn [Spherical.radius Spherical.phi Spherical.theta Spherical.yAxis].
  - rewrite Spherical.setFromVec3_radius, (Spherical.setToVec3_length _ r)
      by (try reflexivity; try exact I; try assumption; lra).
    reflexivity.
  - apply (Spherical.back_phi _ _ r p); try reflexivity; try exact I; try assumption; lra.
  - exact Et'.
  - now rewrite Spherical.setFromVec3_yAxis.
Qed.

Lemma within_after_update w :
  settled w -> roomy_limits (self w) ->
  Transform.parentPosition (transform w) = Vector3.zero ->
  within_limits (self w) (_spherical (readOffset (_updateTransform w))).
Proof.
  intros Hs (Ha1 & Ha2 & Hu) Hz.
  destruct (coords_after_update w Hs Hu Hz)
    as (r & p & t & t' & _ & -> & _ & Hp & Ht & Hpl & Hdl).
  unfold within_limits. cbn [Spherical.radius Spherical.phi Spherical.theta].
  split_all; try assumption; try (apply xle_fin; lra).
  - apply (xle_trans _ _ _ Ha1). apply xle_fin. lra.
  - apply (xle_trans _ (Fin PI)); [apply xle_fin; lra | exact Ha2].
Qed.

(** The coordinates the next call reads are coordinates of the offset this
    call wrote. *)
Lemma offset_read_back w :
  settled w -> Transform.parentPosition (transform w) = Vector3.zero ->
  fst (Spherical.setToVec3 (_spherical (readOffset (_updateTransform w))))
  = fst (Spherical.setToVec3 (_spherical (prepared w))).
Proof.
  intros Hs Hz. rewrite readOffset_after_update by assumption.
  apply Spherical.roundtrip; [rewrite prepared_yAxis; apply Hs|].
  now apply prepared_offset_finite.
Qed.

(** So the next call without input writes the offset this call wrote. *)
Lemma offset_after_update w :
  settled w -> roomy_limits (self w) ->
  Transform.parentPosition (transform w) = Vector3.zero ->
  fst (Spherical.setToVec3 (_spherical (prepared (_updateTransform w))))
  = fst (Spherical.setToVec3 (_spherical (prepared w))).
Proof.
  intros Hs Hl Hz. destruct (updateTransform_settled w Hs) as [Hs1 Hi1].
  assert (Hw : within_limits (self (_updateTransform w))
                 (_spherical (readOffset (_updateTransform w)))).
  { apply (within_limits_config (self w)); [symmetry; apply updateTransform_config|].
    now apply within_after_update. }
  rewrite prepared_idle by auto with vc. now apply offset_read_back.
Qed.

(** Writing a world position and turning to the target twice is writing
    and turning once. *)
Lemma lookAt_set_again (tr : Transform.t xreal) (p t u : Vector3.t xreal) :
  Transform.lookAt (Transform.set_worldPosition
                      (Transform.lookAt (Transform.set_worldPosition tr p) t u) p) t u
  = Transform.lookAt (Transform.set_worldPosition tr p) t u.
Proof. reflexivity. Qed.

(** A second call that writes the offset the first call wrote leaves the
    transform (position and orientation) and the target as the first call
    left them. *)
Lemma second_call_transform w :
  settled w ->
  fst (Spherical.setToVec3 (_spherical (prepared (_updateTransform w))))
  = fst (Spherical.setToVec3 (_spherical (prepared w))) ->
  transform (_updateTransform (_updateTransform w)) = transform (_updateTransform w) /\
  _target (self (_updateTransform (_updateTransform w))) = _target (self (_updateTransform w)).
Proof.
  intros Hs Ho. split; [|apply updateTransform_target].
  destruct (updateTransform_settled w Hs) as [Hs1 Hi1].
  destruct (settled_polar w Hs) as [Hp1 Hp2]. destruct (settled_polar _ Hs1) as [Hq1 Hq2].
  rewrite (transform_updateTransform (_updateTransform w)). cbv zeta.
  rewrite prepared_front, Ho by auto with vc.
  rewrite updateTransform_target, (config_up _ _ (updateTransform_config w)).
  rewrite (transform_updateTransform w). cbv zeta.
  rewrite prepared_front by auto with vc.
  apply lookAt_set_again.
Qed.

End Orbit.

Arguments within_limits eps c s : clear implicits.
Arguments in_limits eps c s : clear implicits.
Arguments bounded eps w : clear implicits.
Arguments upright_limits eps c : clear implicits.
Arguments roomy_limits eps c : clear implicits.
