(* ===== verification/Seam.v ===== *)
(** * Seam: the azimuth between two frames

    [_updateTransform] does not keep the azimuth between two frames: line 126
    reads it again from the position of the camera, and [setFromVec3] reads
    an azimuth of at most half a turn to either side.  The clamp of lines
    129-132 compares that azimuth with [minAzimuthAngle] and
    [maxAzimuthAngle].  What a frame without input does therefore depends on
    where the limits are.

    - When the limits contain the half turns [[-PI, PI]] (the default limits
      are infinite), or lie strictly inside them, the second call writes what
      the first call wrote: the fixed point without input
      ([updateTransform_twice]).
    - When a limit lies beyond the half turn, a drag can take the camera to
      an azimuth [t] between the half turn and the limit.  The next frame
      reads the same direction a whole turn away, outside the limits, and the
      clamp puts the camera on the other limit: the camera jumps, in a frame
      without input ([azimuth_seam_jump]). *)

From Stdlib Require Import Reals Lra List Bool.
From S2P Require Import Prelude Numbers XReal Trig Vectors SphericalCoord Engine EngineProps.
From S2P Require Import ViewportControl UpdateProps OrbitProps.

Local Open Scope R_scope.

(** The host assigns the two azimuth limits (the public fields of lines 23
    and 25). *)
Definition with_azimuth (lo hi : xreal) (w : World xreal) : World xreal :=
  let c := self w in
  mkWorld
    (mkControl (minPolarAngle c) (maxPolarAngle c) (minDistance c) (maxDistance c)
       lo hi (rotateSpeed c) (zoomSpeed c)
       (_atTheBack c) (_spherical c) (_sphericalDelta c) (_zoomFrag c) (_target c)
       (_up c) (_scale c) (canvas c))
    (transform w).

(** Finite limits in order keep a world usable. *)
Lemma settled_with_azimuth (lo hi : R) (w : World xreal) :
  lo <= hi -> settled w -> settled (with_azimuth (Fin lo) (Fin hi) w).
Proof.
  intros Hle (Hr & Ht & Hs & Hz & Hu & _ & _ & _ & Hl).
  unfold settled, sound_limits.
  cbn [with_azimuth self transform minAzimuthAngle maxAzimuthAngle minPolarAngle
       maxPolarAngle minDistance maxDistance _scale _zoomFrag _up].
  split_all; try assumption; discriminate.
Qed.

(** ** The clamp of an azimuth read back *)

(** An azimuth within limits strictly inside the half turns is its own
    clamp. *)
Lemma clamp_inside (lo hi t : R) : lo <= t <= hi -> Rmax lo (Rmin hi t) = t.
Proof. intros Ht. unfold Rmax, Rmin. repeat destruct (Rle_dec _ _); lra. Qed.

(** The clamp of an angle of at most half a turn is below every angle that
    is beyond the half turn and the lower limit, by less than a whole turn
    when the limits are less than a whole turn apart. *)
Lemma clamp_below_seam (lo hi t t' : R) :
  lo <= t <= hi -> hi - lo < 2 * PI -> PI < t -> lo < t -> t' <= PI ->
  0 < t - Rmax lo (Rmin hi t') < 2 * PI.
Proof.
  intros Ht Hw Hpi Hlo Ht'. unfold Rmax, Rmin. repeat destruct (Rle_dec _ _); lra.
Qed.

(** The same on the other side. *)
Lemma clamp_above_seam (lo hi t t' : R) :
  lo <= t <= hi -> hi - lo < 2 * PI -> t < - PI -> t < hi -> - PI <= t' ->
  0 < Rmax lo (Rmin hi t') - t < 2 * PI.
Proof.
  intros Ht Hw Hpi Hhi Ht'. unfold Rmax, Rmin. repeat destruct (Rle_dec _ _); lra.
Qed.

Section Seam.

Context {ops : Spherical.Ops xreal} {eps : R} {C : Spherical.Contract ops eps}.
Implicit Types (w : World xreal) (c : ViewportControl xreal).

(** Azimuth limits strictly inside the half turns, and limits that leave
    room for the polar angle and the distance. *)
Definition narrow_limits c : Prop :=
  (Fin (- PI) < minAzimuthAngle c)%xreal /\ (maxAzimuthAngle c < Fin PI)%xreal /\
  upright_limits eps c.

(** Limits without a seam: the azimuth limits contain the half turns, or
    lie strictly inside them. *)
Definition seamless_limits c : Prop := roomy_limits eps c \/ narrow_limits c.

Lemma narrow_fin c :
  sound_limits c -> narrow_limits c ->
  exists lo hi, minAzimuthAngle c = Fin lo /\ maxAzimuthAngle c = Fin hi /\
                - PI < lo /\ hi < PI.
Proof.
  intros (_ & Hlo & Hhi & _) (H1 & H2 & _).
  destruct (minAzimuthAngle c) as [lo| | |], (maxAzimuthAngle c) as [hi| | |];
    try contradiction; try congruence.
  exists lo, hi. repeat split; now apply xlt_fin.
Qed.

(** ** The second call *)

(** The coordinates a second call without input reads and writes: the
    distance and the polar angle of the first call, an azimuth of at most half
    a turn, and its clamp. *)
Lemma coords_second_call w (lo hi : R) :
  settled w -> upright_limits eps (self w) ->
  Transform.parentPosition (transform w) = Vector3.zero ->
  minAzimuthAngle (self w) = Fin lo -> maxAzimuthAngle (self w) = Fin hi ->
  exists r p t t',
    _spherical (prepared w) = Spherical.mk (Fin r) (Fin p) (Fin t) upY /\
    _spherical (readOffset (_updateTransform w))
    = Spherical.mk (Fin r) (Fin p) (Fin t') upY /\
    _spherical (prepared (_updateTransform w))
    = Spherical.mk (Fin r) (Fin p) (Fin (Rmax lo (Rmin hi t'))) upY /\
    0 < r /\ 0 < p < PI /\ - PI <= t' <= PI /\ lo <= t <= hi.
Proof.
  intros Hs Hu Hz Hlo Hhi.
  destruct (coords_after_update w Hs Hu Hz)
    as (r & p & t & t' & E & E' & Hr & Hp & Ht' & Hpl & Hdl).
  pose proof (prepared_theta_in_limits w (settled_ready w Hs) (proj1 (settled_limits w Hs)))
    as Hin.
  rewrite E, Hlo, Hhi in Hin. cbn [Spherical.theta] in Hin.
  pose proof (Spherical.eps_pos (eps := eps)).
  exists r, p, t, t'.
  split; [exact E|]. split; [exact E'|].
  split; [|repeat split; try apply Ht'; try apply xle_fin, Hin; lra].
  destruct (updateTransform_idle w) as (Hdt & Hdp & Hsc & Hzf).
  destruct (config_angles _ _ (updateTransform_config w)) as (Ea1 & Ea2 & Ep1 & Ep2).
  destruct (config_distances _ _ (updateTransform_config w)) as (Ed1 & Ed2).
  rewrite prepared_spherical, E'. cbv zeta.
  cbn [Spherical.radius Spherical.phi Spherical.theta].
  rewrite Hdt, Hdp, Hsc, Hzf, Ea1, Ea2, Ep1, Ep2, Ed1, Ed2, Hlo, Hhi, zoomed_idle.
  rewrite !xadd_0_r by exact I.
  rewrite (xclamp_id (minDistance _)), (xclamp_id (minPolarAngle _)), xclamp_id
    by (try assumption; split; apply xle_fin; lra).
  rewrite xmin_fin, xmax_fin, updateTransform_spherical, E. reflexivity.
Qed.

(** With azimuth limits strictly inside the half turns the second call
    reads the azimuth the first call wrote, and writes the coordinates the
    first call wrote. *)
Lemma second_call_narrow w :
  settled w -> narrow_limits (self w) ->
  Transform.parentPosition (transform w) = Vector3.zero ->
  _spherical (prepared (_updateTransform w)) = _spherical (prepared w).
Proof.
  intros Hs Hn Hz.
  destruct (narrow_fin _ (settled_limits w Hs) Hn) as (lo & hi & Hlo & Hhi & H1 & H2).
  destruct Hn as (_ & _ & Hu).
  destruct (coords_second_call w lo hi Hs Hu Hz Hlo Hhi)
    as (r & p & t & t' & E & Er & E' & Hr & Hp & Ht' & Ht).
  pose proof (offset_read_back w Hs Hz) as Ho. rewrite Er, E in Ho.
  pose proof PI_RGT_0.
  apply (setToVec3_azimuth_unique r p t' t Hr Hp) in Ho; [|lra].
  rewrite E', E, Ho, clamp_inside by assumption. reflexivity.
Qed.

(** C4. The fixed point without input: after one call of
    [_updateTransform], a further call leaves the transform (position and
    orientation) and the target as they are, for an entity without a
    displaced parent and limits without a seam: azimuth limits that contain
    the half turns or lie strictly inside them, polar limits that meet the
    safe interval, and a positive least distance. *)
Theorem updateTransform_twice w :
  settled w -> seamless_limits (self w) ->
  Transform.parentPosition (transform w) = Vector3.zero ->
  transform (_updateTransform (_updateTransform w)) = transform (_updateTransform w) /\
  _target (self (_updateTransform (_updateTransform w))) = _target (self (_updateTransform w)).
Proof.
  intros Hs [Hl|Hl] Hz; apply second_call_transform; try assumption.
  - now apply offset_after_update.
  - now rewrite second_call_narrow.
Qed.

(** ** Across the seam *)

(** When the second call writes the camera where the first call wrote it,
    it writes the same offset. *)
Lemma offset_of_position w :
  settled w -> Transform.parentPosition (transform w) = Vector3.zero ->
  Transform.position (transform (_updateTransform (_updateTransform w)))
  = Transform.position (transform (_updateTransform w)) ->
  fst (Spherical.setToVec3 (_spherical (prepared (_updateTransform w))))
  = fst (Spherical.setToVec3 (_spherical (prepared w))).
Proof.
  intros Hs Hz Heq. destruct (updateTransform_settled w Hs) as [Hs1 _].
  rewrite <- (updateTransform_offset w Hs), <- (updateTransform_offset _ Hs1).
  pose proof (tfinite_position _ (updateTransform_tfinite w Hs)).
  pose proof (tfinite_position _ (updateTransform_tfinite _ Hs1)).
  rewrite !worldPosition_root, Heq, !updateTransform_target
    by (rewrite ?updateTransform_parentPosition; assumption).
  reflexivity.
Qed.

(** C12. The fixed point without input fails across the seam: when the
    azimuth limits are finite and less than a whole turn apart, and a call of
    [_updateTransform] has left the camera at an azimuth beyond half a turn
    (and off the limit on that side), the next call, without any input, writes
    the camera at another position. *)
Theorem azimuth_seam_jump w (lo hi t : R) :
  settled w -> upright_limits eps (self w) ->
  Transform.parentPosition (transform w) = Vector3.zero ->
  minAzimuthAngle (self w) = Fin lo -> maxAzimuthAngle (self w) = Fin hi ->
  hi - lo < 2 * PI ->
  Spherical.theta (_spherical (self (_updateTransform w))) = Fin t ->
  (PI < t /\ lo < t) \/ (t < - PI /\ t < hi) ->
  Transform.position (transform (_updateTransform (_updateTransform w)))
  <> Transform.position (transform (_updateTransform w)).
Proof.
  intros Hs Hu Hz Hlo Hhi Hw Ht Hside Heq.
  destruct (coords_second_call w lo hi Hs Hu Hz Hlo Hhi)
    as (r & p & t0 & t' & E & _ & E' & Hr & Hp & Ht' & Hin).
  rewrite updateTransform_spherical, E in Ht. injection Ht as ->.
  apply (offset_of_position w Hs Hz) in Heq. rewrite E, E' in Heq.
  destruct Hside as [[H1 H2]|[H1 H2]].
  - apply (setToVec3_turn_moves r p t (Rmax lo (Rmin hi t')) Hr Hp); [|now symmetry].
    apply clamp_below_seam; lra.
  - apply (setToVec3_turn_moves r p (Rmax lo (Rmin hi t')) t Hr Hp); [|assumption].
    apply clamp_above_seam; lra.
Qed.

End Seam.

Arguments narrow_limits eps c : clear implicits.
Arguments seamless_limits eps c : clear implicits.
