(* ===== verification/InputProps.v ===== *)
(** * InputProps: what [onUpdate] does with the input of a frame

    The first section holds for every number type: when [onUpdate] throws,
    what it does without the modifier key, and that no block assigns a
    configuration field.  The second section is over the extended reals: a
    pan moves the camera and the target together, the wheel scales the
    distance, a drag turns the camera, the constructor establishes the
    invariant [running], and a run of frames with usable input keeps it. *)

From Stdlib Require Import Reals Lra List Bool.
From S2P Require Import Prelude Numbers XReal Vectors SphericalCoord Engine EngineProps.
From S2P Require Import ViewportControl UpdateProps OrbitProps.
Import ListNotations.

Local Open Scope bool_scope.

(** ** For every number type *)

Section Blocks.

Context {F : Type} `{Number F} `{MathFns F} `{Spherical.Ops F}.
Implicit Types (c : ViewportControl F) (w : World F) (e : Engine F).

(** The modifier key is held; the modifier key and the primary button are
    held. *)
Definition alt e : bool := isKeyHeldDown (inputManager e) AltLeft.

Definition dragging e : bool := alt e && isPointerHeldDown (inputManager e) Primary.

(** The three pan blocks, one after the other (lines 48-82). *)
Definition pan e w : World F := panHeight e (panSide e (panDepth e w)).

Lemma onUpdate_unfold e w :
  onUpdate e w =
  bind_result (dragRotate e (wheelZoom e (self (pan e w))))
    (fun c => Ok (_updateTransform (mkWorld c (transform (pan e w))))).
Proof. reflexivity. Qed.

Lemma pan_without_alt e w : alt e = false -> pan e w = w.
Proof. unfold pan, panHeight, panSide, panDepth, alt. now intros ->. Qed.

Lemma dragRotate_idle e c : dragging e = false -> dragRotate e c = Ok c.
Proof. unfold dragRotate, dragging, alt. now intros ->. Qed.

Lemma dragRotate_throws e c :
  dragRotate e c = Throw TypeError <->
  dragging e = true /\ pointers (inputManager e) = [].
Proof.
  unfold dragRotate, dragging, alt.
  destruct (_ && _), (pointers (inputManager e)); intuition congruence.
Qed.

(** C9. [onUpdate] throws exactly when the modifier key and the primary
    button are held while the list of pointers is empty: line 99 reads
    [pointers[0].deltaPosition]. *)
Theorem onUpdate_throws e w :
  onUpdate e w = Throw TypeError <->
  isKeyHeldDown (inputManager e) AltLeft = true /\
  isPointerHeldDown (inputManager e) Primary = true /\
  pointers (inputManager e) = [].
Proof.
  rewrite onUpdate_unfold.
  pose proof (dragRotate_throws e (wheelZoom e (self (pan e w)))) as Hd.
  unfold dragging, alt in Hd. rewrite andb_true_iff in Hd.
  destruct (dragRotate e _) as [c|[]]; cbn; intuition congruence.
Qed.

(** Without the modifier key nothing pans and nothing turns: the frame
    applies the wheel and updates the transform. *)
Lemma onUpdate_without_alt e w :
  alt e = false ->
  onUpdate e w = Ok (_updateTransform (on_self (wheelZoom e) w)).
Proof.
  intros Ha. rewrite onUpdate_unfold, pan_without_alt, dragRotate_idle; [reflexivity| |assumption].
  unfold dragging. now rewrite Ha.
Qed.

(** A frame without input is a call of [_updateTransform]. *)
Lemma onUpdate_noInput (cv : Canvas F) w :
  onUpdate (mkEngine noInput cv) w = Ok (_updateTransform w).
Proof.
  rewrite onUpdate_without_alt by apply noInput_key.
  unfold on_self, wheelZoom. cbn. now destruct w.
Qed.

(** The pan blocks and the wheel block leave the pending rotation alone;
    the wheel and drag blocks leave the target alone. *)
Lemma move_self (v : Vector3.t F) w :
  self (_move v w) =
  with_target (self w)
    (Vector3.add (_target (self w))
       (Quaternion.transformByQuat v (Transform.rotationQuaternion (transform w)))).
Proof. reflexivity. Qed.

Lemma move_transform (v : Vector3.t F) w :
  transform (_move v w) = Transform.translate (transform w) v.
Proof. reflexivity. Qed.

(** *** The blocks as a gesture *)

(** The local vectors the pan blocks move by, in the order of the source:
    at most one for each of the three directions. *)
Definition pan_vectors e : list (Vector3.t F) :=
  (if alt e && isKeyHeldDown (inputManager e) KeyS then [backwardVec3]
   else if alt e && isKeyHeldDown (inputManager e) KeyW then [forwardVec3] else [])
  ++ (if alt e && isKeyHeldDown (inputManager e) KeyA then [leftVec3]
      else if alt e && isKeyHeldDown (inputManager e) KeyD then [rightVec3] else [])
  ++ (if alt e && isKeyHeldDown (inputManager e) KeyQ then [upVec3]
      else if alt e && isKeyHeldDown (inputManager e) KeyE then [downVec3] else []).

Lemma pan_moves e w : pan e w = fold_left (fun w' v => _move v w') (pan_vectors e) w.
Proof.
  unfold pan, panHeight, panSide, panDepth, pan_vectors, alt.
  repeat break_match; reflexivity.
Qed.

(** A sequence of moves turns each vector into world space with the
    orientation the camera has before the first of them. *)
Lemma moves_target (vs : list (Vector3.t F)) w :
  _target (self (fold_left (fun w' v => _move v w') vs w)) =
  fold_left
    (fun t v => Vector3.add t
                  (Quaternion.transformByQuat v (Transform.rotationQuaternion (transform w))))
    vs (_target (self w)).
Proof.
  revert w. induction vs as [|v vs IH]; intros w; cbn [fold_left]; [reflexivity|].
  now rewrite IH.
Qed.

Lemma moves_parent (vs : list (Vector3.t F)) w :
  Transform.parentPosition (transform (fold_left (fun w' v => _move v w') vs w)) =
  Transform.parentPosition (transform w).
Proof.
  revert w. induction vs as [|v vs IH]; intros w; cbn [fold_left]; [reflexivity|].
  now rewrite IH.
Qed.

(** The wheel block and the drag block: what a frame leaves pending. *)
Definition accumulate e c : result Exception (ViewportControl F) :=
  dragRotate e (wheelZoom e c).

(** They neither read nor assign the target. *)
Lemma accumulate_with_target e c (t : Vector3.t F) :
  accumulate e (with_target c t) = map_result (fun c' => with_target c' t) (accumulate e c).
Proof.
  unfold accumulate, dragRotate, wheelZoom, map_result.
  repeat break_match; reflexivity.
Qed.

(** *** The configuration *)

(** No block of [onUpdate] assigns a configuration field. *)
Lemma move_config (v : Vector3.t F) w : config (self (_move v w)) = config (self w).
Proof. reflexivity. Qed.

Lemma pan_config e w : config (self (pan e w)) = config (self w).
Proof. unfold pan, panHeight, panSide, panDepth. repeat break_match; reflexivity. Qed.

Lemma wheelZoom_config e c : config (wheelZoom e c) = config c.
Proof. unfold wheelZoom. repeat break_match; reflexivity. Qed.

Lemma dragRotate_config e c c' : dragRotate e c = Ok c' -> config c' = config c.
Proof.
  unfold dragRotate. repeat break_match; intros [= <-]; reflexivity.
Qed.

Lemma onUpdate_config e w w' : onUpdate e w = Ok w' -> config (self w') = config (self w).
Proof.
  rewrite onUpdate_unfold. intros Hu. apply bind_result_inv in Hu.
  destruct Hu as (c & Hd & [= <-]).
  rewrite updateTransform_config. cbn [self].
  now rewrite (dragRotate_config _ _ _ Hd), wheelZoom_config, pan_config.
Qed.

(** C32. The configuration is the host's: no run of frames changes a limit,
    a speed, the up vector or the canvas the script reads. *)
Theorem frames_keep_config w (es : list (Engine F)) w' :
  frames w es = Ok w' -> config (self w') = config (self w).
Proof.
  apply (iterate_invariant _ (fun w1 => config (self w1) = config (self w)));
    [|reflexivity].
  intros w1 e w2 Hc Hu. now rewrite (onUpdate_config _ _ _ Hu).
Qed.

End Blocks.

(** ** Over the extended reals *)

Local Open Scope R_scope.

Section Frames.

Context {ops : Spherical.Ops xreal} {eps : R} {C : Spherical.Contract ops eps}.
Implicit Types (c : ViewportControl xreal) (w : World xreal) (e : Engine xreal).

(** *** Panning *)

Lemma directions_finite :
  vfinite (forwardVec3 (F := xreal)) /\ vfinite (backwardVec3 (F := xreal)) /\
  vfinite (leftVec3 (F := xreal)) /\ vfinite (rightVec3 (F := xreal)) /\
  vfinite (upVec3 (F := xreal)) /\ vfinite (downVec3 (F := xreal)).
Proof.
  unfold forwardVec3, backwardVec3, leftVec3, rightVec3, upVec3, downVec3.
  rewrite dec_xreal by lra. repeat split.
Qed.

(** What every [_move] by a finite vector keeps, the pan blocks keep. *)
Lemma pan_ind (P : World xreal -> Prop) e w :
  (forall v w', vfinite v -> P w' -> P (_move v w')) -> P w -> P (pan e w).
Proof.
  intros Hm Hw. destruct directions_finite as (H1 & H2 & H3 & H4 & H5 & H6).
  unfold pan, panHeight, panSide, panDepth. repeat break_match; auto.
Qed.

(** Lines 113-120: the camera and the target move by the same vector, so
    the offset between them stays. *)
Lemma move_offset (v : Vector3.t xreal) w :
  tfinite (transform w) -> vfinite (_target (self w)) -> vfinite v ->
  Vector3.subtract (Transform.position (transform (_move v w))) (_target (self (_move v w)))
  = Vector3.subtract (Transform.position (transform w)) (_target (self w)).
Proof.
  intros Ht Hg Hv. rewrite move_self, move_transform. cbn.
  apply subtract_add_same; auto with vc.
Qed.

Lemma settled_move (v : Vector3.t xreal) w : vfinite v -> settled w -> settled (_move v w).
Proof.
  intros Hv (Hr & Ht & Hs & Hz & Hu & Hl). destruct Hr as (Hp & Hg & Hy & Hd1 & Hd2).
  unfold settled, ready. rewrite move_self, move_transform.
  cbn [with_target _target _spherical _sphericalDelta _scale _zoomFrag _up].
  split_all; auto with vc.
Qed.

(** What a pan keeps of a settled world: the invariant, the script apart
    from the target, and the offset of the camera from the target. *)
Definition same_orbit w w' : Prop :=
  settled w' /\
  (exists t, self w' = with_target (self w) t) /\
  Vector3.subtract (Transform.position (transform w')) (_target (self w'))
  = Vector3.subtract (Transform.position (transform w)) (_target (self w)).

Lemma same_orbit_refl w : settled w -> same_orbit w w.
Proof.
  intros Hs. split; [|split]; auto. exists (_target (self w)). now destruct (self w).
Qed.

Lemma same_orbit_move (v : Vector3.t xreal) w w' :
  vfinite v -> same_orbit w w' -> same_orbit w (_move v w').
Proof.
  intros Hv (Hs & (t & Ht) & Ho). split; [|split].
  - now apply settled_move.
  - rewrite move_self, Ht. eauto.
  - rewrite move_offset; auto with vc.
Qed.

Lemma pan_same_orbit e w : settled w -> same_orbit w (pan e w).
Proof.
  intros Hs. apply (pan_ind (same_orbit w)); auto using same_orbit_move, same_orbit_refl.
Qed.

Lemma readOffset_same_orbit w w' :
  same_orbit w w' -> _spherical (readOffset w') = _spherical (readOffset w).
Proof.
  intros (_ & (t & Ht) & Ho). rewrite !readOffset_spherical, Ho, Ht. reflexivity.
Qed.

(** A frame that only pans: no wheel, no drag. *)
Definition pan_only e : Prop :=
  wheelDelta (inputManager e) = None /\ dragging e = false.

Lemma onUpdate_pan_only e w :
  pan_only e -> onUpdate e w = Ok (_updateTransform (pan e w)).
Proof.
  intros (Hw & Hd). rewrite onUpdate_unfold, dragRotate_idle by assumption.
  unfold wheelZoom. rewrite Hw. cbn. now destruct (pan e w).
Qed.

(** C21. A frame that only pans moves the camera and the target together:
    the spherical coordinates of the camera are the ones read before the
    frame, and so is the offset of the camera from the target. *)
Theorem pan_keeps_offset e w :
  settled w -> idle (self w) ->
  within_limits eps (self w) (_spherical (readOffset w)) ->
  pan_only e ->
  exists w', onUpdate e w = Ok w' /\
    _spherical (self w') = _spherical (readOffset w) /\
    Vector3.subtract (Transform.worldPosition (transform w')) (_target (self w'))
    = Vector3.subtract (Transform.position (transform w)) (_target (self w)).
Proof.
  intros Hs Hi Hw Hp. exists (_updateTransform (pan e w)).
  pose proof (pan_same_orbit e w Hs) as Ho.
  pose proof (readOffset_same_orbit _ _ Ho) as Hr.
  destruct Ho as (Hs1 & (t & Ht) & Ho).
  assert (Hi1 : idle (self (pan e w))) by now rewrite Ht.
  assert (Hw1 : within_limits eps (self (pan e w)) (_spherical (readOffset (pan e w))))
    by now rewrite Hr, Ht.
  split_all.
  - now apply onUpdate_pan_only.
  - rewrite updateTransform_spherical, prepared_idle; auto with vc.
  - rewrite updateTransform_offset, idle_offset; auto.
Qed.

(** *** The wheel *)

(** The factor of one wheel step. *)
Lemma zoom_factor (z : R) :
  Math_pow (dec 95 100) (Fin z) = Fin (Rpower (95 / 100) z).
Proof. rewrite dec_xreal by lra. apply xpow_pos. lra. Qed.

(** The wheel block assigns [_scale] and nothing else, and a finite scale
    stays finite. *)
Lemma wheelZoom_shape e c :
  finite (_scale c) -> finite (zoomSpeed c) ->
  exists s, wheelZoom e c = with_scale c s /\ finite s.
Proof.
  intros Hs Hz. destruct (finite_inv _ Hz) as [z Ez].
  assert (Hc : c = with_scale c (_scale c)) by now destruct c.
  pose proof (Rpower_pos (95 / 100) z) as Hpos.
  unfold wheelZoom. rewrite Ez, zoom_factor.
  repeat break_match; eauto; eexists; (split; [reflexivity|]).
  - apply finite_xdiv; auto with vc. intros [= Hq]. lra.
  - auto with vc.
Qed.

(** The factor one wheel step applies to the distance (lines 85-91): the
    inverse of [0.95 ^ zoomSpeed] for a positive wheel delta,
    [0.95 ^ zoomSpeed] for a negative one, and one when the delta is zero,
    where line 85 skips the block. *)
Definition wheel_factor (d z : R) : R :=
  if Rlt_dec 0 d then / Rpower (95 / 100) z
  else if Rlt_dec d 0 then Rpower (95 / 100) z
  else 1.

Lemma wheelZoom_scale e c (wd : Vector3.t xreal) (d z s : R) :
  wheelDelta (inputManager e) = Some wd -> Vector3.y wd = Fin d ->
  zoomSpeed c = Fin z -> _scale c = Fin s ->
  wheelZoom e c = with_scale c (Fin (s * wheel_factor d z)).
Proof.
  intros Hw Hy Hz Hs. pose proof (Rpower_pos (95 / 100) z) as Hpos.
  assert (Hc : c = with_scale c (Fin (s * 1)))
    by (rewrite Rmult_1_r, <- Hs; now destruct c).
  unfold wheelZoom, wheel_factor. rewrite Hw, Hy, Hz, Hs, zoom_factor.
  xsimpl; try lra; try reflexivity; exact Hc.
Qed.

(** A positive wheel delta enlarges the distance, a negative one
    shortens it. *)
Lemma wheel_factor_direction (d z : R) :
  0 < z -> (0 < d -> 1 < wheel_factor d z) /\ (d < 0 -> 0 < wheel_factor d z < 1).
Proof.
  intros Hz. pose proof (Rpower_pos (95 / 100) z) as Hpos.
  assert (Hlt : Rpower (95 / 100) z < 1) by (apply Rpower_lt_1; lra).
  unfold wheel_factor. destruct (Rlt_dec 0 d), (Rlt_dec d 0); split; intros; try lra;
    rewrite <- Rinv_1; apply Rinv_lt_contravar; lra.
Qed.
(** The frame of a wheel step without the modifier key: what [onUpdate]
    returns and the radius it leaves. *)
Lemma wheel_frame e w (wd : Vector3.t xreal) (d z r : R) :
  settled w -> alt e = false ->
  wheelDelta (inputManager e) = Some wd -> Vector3.y wd = Fin d -> d <> 0 ->
  zoomSpeed (self w) = Fin z -> 0 < z -> _scale (self w) = Fin 1 ->
  Vector3.length (Vector3.subtract (Transform.position (transform w)) (_target (self w)))
    = Fin r ->
  onUpdate e w = Ok (_updateTransform (on_self (wheelZoom e) w)) /\
  Spherical.radius (_spherical (self (_updateTransform (on_self (wheelZoom e) w)))) =
    xmax (minDistance (self w)) (xmin (maxDistance (self w)) (Fin (r * wheel_factor d z))).
Proof.
  intros Hs Ha Hw Hy Hd Hz Hz0 Hsc Hlen.
  destruct (wheel_factor_direction d z Hz0) as [Hup Hdown].
  split; [now apply onUpdate_without_alt|].
  unfold on_self. rewrite (wheelZoom_scale e (self w) wd d z 1) by assumption.
  rewrite updateTransform_radius, readOffset_radius by apply Hs.
  cbn [self transform with_scale _target _scale minDistance maxDistance _zoomFrag].
  rewrite Hlen, zoomed_scale, Rmult_1_l; [reflexivity|].
  destruct (Rlt_dec 0 d) as [Hd0|Hd0]; [specialize (Hup Hd0) | assert (d < 0) by lra]; lra.
Qed.

(** C26. The wheel law: a frame with a wheel step (and without the modifier
    key) multiplies the distance of the camera by [wheel_factor], before the
    clamp to the distance limits.  A positive wheel delta moves the camera
    away from the target, a negative one towards it. *)
Theorem wheel_scales_distance e w (wd : Vector3.t xreal) (d z r : R) :
  settled w -> alt e = false ->
  wheelDelta (inputManager e) = Some wd -> Vector3.y wd = Fin d -> d <> 0 ->
  zoomSpeed (self w) = Fin z -> 0 < z -> _scale (self w) = Fin 1 ->
  Vector3.length (Vector3.subtract (Transform.position (transform w)) (_target (self w)))
    = Fin r -> 0 < r ->
  exists w', onUpdate e w = Ok w' /\
    Spherical.radius (_spherical (self w')) =
      xmax (minDistance (self w)) (xmin (maxDistance (self w)) (Fin (r * wheel_factor d z))) /\
    (0 < d -> r < r * wheel_factor d z) /\
    (d < 0 -> r * wheel_factor d z < r).
Proof.
  intros Hs Ha Hw Hy Hd Hz Hz0 Hsc Hlen Hr.
  destruct (wheel_factor_direction d z Hz0) as [Hup Hdown].
  destruct (wheel_frame e w wd d z r) as [Hrun Hrad]; try assumption.
  eexists. split_all; [exact Hrun | exact Hrad | |].
  - intros Hd0. specialize (Hup Hd0). nra.
  - intros Hd0. specialize (Hdown Hd0). nra.
Qed.

(** *** The drag *)

(** A frame the drag block can use: when the modifier key and the primary
    button are held there is a pointer, its movement is finite, and the
    canvas has a finite size that is not zero. *)
Definition sound_frame e : Prop :=
  dragging e = true ->
  exists p rest, pointers (inputManager e) = p :: rest /\
    finite (Vector2.x (deltaPosition p)) /\ finite (Vector2.y (deltaPosition p)) /\
    finite (width (Engine.canvas e)) /\ width (Engine.canvas e) <> Fin 0 /\
    finite (height (Engine.canvas e)) /\ height (Engine.canvas e) <> Fin 0.

Lemma sound_frame_not_dragging e : dragging e = false -> sound_frame e.
Proof. unfold sound_frame. congruence. Qed.

(** The angle of a movement of [d] pixels on a canvas of [size] pixels. *)
Lemma drag_angle_finite (d size speed : xreal) :
  finite d -> finite size -> size <> Fin 0 -> finite speed ->
  finite (xmul (xdiv (xmul (xmul (Fin 2) (Fin PI)) d) size) speed).
Proof. intros. apply finite_xmul; [apply finite_xdiv|]; auto with vc. Qed.

(** The drag block assigns the two angles of [_sphericalDelta] and nothing
    else, and finite angles stay finite. *)
Lemma dragRotate_shape e c :
  sound_frame e -> finite (rotateSpeed c) ->
  finite (Spherical.theta (_sphericalDelta c)) -> finite (Spherical.phi (_sphericalDelta c)) ->
  exists t p,
    dragRotate e c =
      Ok (with_sphericalDelta c
            (Spherical.set_phi (Spherical.set_theta (_sphericalDelta c) t) p)) /\
    finite t /\ finite p.
Proof.
  intros Hf Hsp Ht Hp. unfold dragRotate. cbv zeta.
  change (isKeyHeldDown (inputManager e) AltLeft
          && isPointerHeldDown (inputManager e) Primary) with (dragging e).
  destruct (dragging e) eqn:Hd.
  - destruct (Hf Hd) as (p0 & rest & -> & Hx & Hy & Hw & Hw0 & Hh & Hh0).
    eexists _, _. split; [reflexivity|].
    cbn [with_sphericalDelta _sphericalDelta rotateSpeed canvas Spherical.set_theta
         Spherical.phi Spherical.theta].
    destruct (canvas c). cbn [deref].
    split; (apply finite_xsub; [assumption | now apply drag_angle_finite]).
  - exists (Spherical.theta (_sphericalDelta c)), (Spherical.phi (_sphericalDelta c)).
    split; [|auto]. f_equal. destruct c as [? ? ? ? ? ? ? ? ? ? d ? ? ? ? ?]. now destruct d.
Qed.

(** The angles a drag leaves pending: the movement in pixels over the size
    of the canvas, as a part of a whole turn, times the speed. *)
Lemma dragRotate_delta e c (p : Pointer xreal) (rest : list (Pointer xreal))
    (dx dy cw ch v t0 p0 : R) :
  dragging e = true -> pointers (inputManager e) = p :: rest ->
  deltaPosition p = Vector2.mk (Fin dx) (Fin dy) ->
  Engine.canvas e = mkCanvas (Fin cw) (Fin ch) -> cw <> 0 -> ch <> 0 ->
  rotateSpeed c = Fin v ->
  Spherical.theta (_sphericalDelta c) = Fin t0 -> Spherical.phi (_sphericalDelta c) = Fin p0 ->
  dragRotate e c =
  Ok (with_sphericalDelta c
        (Spherical.set_phi
           (Spherical.set_theta (_sphericalDelta c) (Fin (t0 - 2 * PI * dx / cw * v)))
           (Fin (p0 - 2 * PI * dy / ch * v)))).
Proof.
  intros Hd Hp Hdp Hc Hw Hh Hv Ht0 Hp0. unfold dragRotate. cbv zeta.
  change (isKeyHeldDown (inputManager e) AltLeft
          && isPointerHeldDown (inputManager e) Primary) with (dragging e).
  rewrite Hd, Hp, Hdp.
  cbn [with_sphericalDelta _sphericalDelta rotateSpeed canvas Spherical.set_theta
       Spherical.phi Spherical.theta Vector2.x Vector2.y].
  destruct (canvas c). cbn [deref]. rewrite Hc, Hv, Ht0, Hp0. cbn [width height].
  change (two * Math_PI * Fin ?a / Fin ?b * Fin v)%num
    with (xmul (xdiv (Fin (2 * PI * a)) (Fin b)) (Fin v)).
  now rewrite !xdiv_fin by assumption.
Qed.

(** No pan key is held. *)
Definition pan_keys_up e : Prop :=
  Forall (fun k => isKeyHeldDown (inputManager e) k = false)
    [KeyS; KeyW; KeyA; KeyD; KeyQ; KeyE].

Lemma pan_keys_up_idle e w : pan_keys_up e -> pan e w = w.
Proof.
  intros Hk. repeat (apply Forall_cons_iff in Hk; destruct Hk as [? Hk]).
  unfold pan, panHeight, panSide, panDepth.
  repeat match goal with H : isKeyHeldDown _ _ = false |- _ => rewrite H; clear H end.
  now rewrite !andb_false_r.
Qed.

(** C22. The drag law: a frame in which the pointer moves by [(dx, dy)]
    pixels with the modifier key and the primary button held turns the camera
    by [dx / width] of a whole turn to the left and by [dy / height] of a
    whole turn up, times [rotateSpeed], before the angles are clamped. *)
Theorem drag_turns_camera e w (p : Pointer xreal) (rest : list (Pointer xreal))
    (dx dy cw ch v th ph : R) :
  settled w -> idle (self w) ->
  dragging e = true -> pan_keys_up e -> wheelDelta (inputManager e) = None ->
  pointers (inputManager e) = p :: rest ->
  deltaPosition p = Vector2.mk (Fin dx) (Fin dy) ->
  Engine.canvas e = mkCanvas (Fin cw) (Fin ch) -> cw <> 0 -> ch <> 0 ->
  rotateSpeed (self w) = Fin v ->
  Spherical.theta (_spherical (readOffset w)) = Fin th ->
  Spherical.phi (_spherical (readOffset w)) = Fin ph ->
  exists w', onUpdate e w = Ok w' /\
    Spherical.theta (_spherical (self w')) =
      xmax (minAzimuthAngle (self w))
        (xmin (maxAzimuthAngle (self w)) (Fin (th - 2 * PI * dx / cw * v))) /\
    Spherical.phi (_spherical (self w')) =
      xmax (Fin eps)
        (xmin (Fin (PI - eps))
           (xmax (minPolarAngle (self w))
              (xmin (maxPolarAngle (self w)) (Fin (ph - 2 * PI * dy / ch * v))))).
Proof.
  intros Hs (Hdt & Hdp & _) Hd Hk Hw Hp Hpd Hc Hcw Hch Hv Hth Hph.
  eexists. rewrite onUpdate_unfold, pan_keys_up_idle by assumption.
  unfold wheelZoom at 1. rewrite Hw.
  rewrite (dragRotate_delta e (self w) p rest dx dy cw ch v 0 0) by assumption.
  split; [reflexivity|].
  rewrite updateTransform_spherical, prepared_theta, prepared_phi.
  change (_spherical (readOffset (mkWorld (with_sphericalDelta (self w) ?d) (transform w))))
    with (_spherical (readOffset w)).
  rewrite Hth, Hph.
  cbn [self with_sphericalDelta _sphericalDelta Spherical.set_phi Spherical.set_theta
       Spherical.theta Spherical.phi minAzimuthAngle maxAzimuthAngle minPolarAngle
       maxPolarAngle xadd].
  now replace (th + (0 - 2 * PI * dx / cw * v)) with (th - 2 * PI * dx / cw * v) by lra;
    replace (ph + (0 - 2 * PI * dy / ch * v)) with (ph - 2 * PI * dy / ch * v) by lra.
Qed.

(** *** The invariant of the frame loop *)

(** A world [onUpdate] can run on: settled, with finite speeds. *)
Definition running w : Prop :=
  settled w /\ finite (rotateSpeed (self w)) /\ finite (zoomSpeed (self w)).

Lemma running_config w w' :
  config (self w') = config (self w) -> settled w' -> running w -> running w'.
Proof.
  intros E Hs (_ & H1 & H2). destruct (config_speeds _ _ E) as [E1 E2].
  unfold running. rewrite E1, E2. auto.
Qed.

Lemma settled_with_scale c tr (s : xreal) :
  settled (mkWorld c tr) -> finite s -> settled (mkWorld (with_scale c s) tr).
Proof.
  unfold settled, ready. cbn [self transform with_scale _target _spherical
    _sphericalDelta _scale _zoomFrag _up].
  intros (Hr & Ht & _ & Hz & Hu & Hl) Hs. split_all; auto.
Qed.

Lemma settled_with_delta c tr (t p : xreal) :
  settled (mkWorld c tr) -> finite t -> finite p ->
  settled (mkWorld (with_sphericalDelta c
                      (Spherical.set_phi (Spherical.set_theta (_sphericalDelta c) t) p)) tr).
Proof.
  unfold settled, ready. cbn [self transform with_sphericalDelta _target _spherical
    _sphericalDelta _scale _zoomFrag _up Spherical.set_phi Spherical.set_theta
    Spherical.theta Spherical.phi].
  intros (Hr & Htr & Hs & Hz & Hu & Hl) Ht Hp. split_all; auto.
Qed.

(** What the wheel and drag blocks leave pending in a usable frame: a
    finite scale and a finite rotation. *)
Definition pending_input c (s t p : xreal) : ViewportControl xreal :=
  with_sphericalDelta (with_scale c s)
    (Spherical.set_phi (Spherical.set_theta (_sphericalDelta c) t) p).

Lemma accumulate_shape e c :
  sound_frame e -> finite (_scale c) -> finite (zoomSpeed c) -> finite (rotateSpeed c) ->
  finite (Spherical.theta (_sphericalDelta c)) -> finite (Spherical.phi (_sphericalDelta c)) ->
  exists s t p, accumulate e c = Ok (pending_input c s t p) /\
                finite s /\ finite t /\ finite p.
Proof.
  intros Hf Hsc Hz Hr Ht Hp. unfold accumulate.
  destruct (wheelZoom_shape e c Hsc Hz) as (s & -> & Hs).
  destruct (dragRotate_shape e (with_scale c s) Hf Hr Ht Hp) as (t & p & -> & Ht' & Hp').
  exists s, t, p. auto.
Qed.

(** The world the blocks of lines 48-108 hand to [_updateTransform]: the
    pan applied, a scale and a rotation pending. *)
Definition handed e w (s t p : xreal) : World xreal :=
  mkWorld (with_target (pending_input (self w) s t p) (_target (self (pan e w))))
    (transform (pan e w)).

(** It is settled when the world was and what is pending is finite. *)
Lemma settled_handed e w (s t p : xreal) :
  settled w -> finite s -> finite t -> finite p -> settled (handed e w s t p).
Proof.
  intros Hs Hfs Hft Hfp.
  destruct (pan_same_orbit e w Hs) as (Hs1 & (g & Hg) & _).
  assert (Hw1 : pan e w = mkWorld (with_target (self w) g) (transform (pan e w)))
    by (rewrite <- Hg; now destruct (pan e w)).
  unfold handed. rewrite Hg. cbn [with_target _target]. rewrite Hw1 in Hs1.
  apply (settled_with_delta (with_scale (with_target (self w) g) s)); auto.
  now apply settled_with_scale.
Qed.

Lemma onUpdate_step e w :
  running w -> sound_frame e ->
  exists s t p,
    accumulate e (self w) = Ok (pending_input (self w) s t p) /\
    onUpdate e w = Ok (_updateTransform (handed e w s t p)) /\
    settled (handed e w s t p).
Proof.
  intros (Hs & Hrs & Hzs) Hf.
  destruct (accumulate_shape e (self w)) as (s & t & p & Ha & Hfs & Hft & Hfp);
    try assumption; try apply Hs.
  exists s, t, p. split; [exact Ha|]. split; [|now apply settled_handed].
  destruct (pan_same_orbit e w Hs) as (_ & (g & Hg) & _).
  unfold handed. rewrite Hg. cbn [with_target _target].
  rewrite onUpdate_unfold.
  change (dragRotate e (wheelZoom e ?c)) with (accumulate e c).
  now rewrite Hg, accumulate_with_target, Ha.
Qed.

Lemma onUpdate_running e w :
  running w -> sound_frame e ->
  exists w', onUpdate e w = Ok w' /\ running w' /\ (idle (self w') /\ bounded eps w').
Proof.
  intros Hr Hf. destruct (onUpdate_step e w Hr Hf) as (s & t & p & _ & -> & Hs0).
  destruct (updateTransform_settled _ Hs0) as [Hs1 Hi1].
  eexists. split; [reflexivity|]. split_all; auto using updateTransform_bounded.
  apply (running_config w); auto. now rewrite updateTransform_config.
Qed.

Lemma running_constructor (tr : Transform.t xreal) :
  tfinite tr -> running (constructor tr).
Proof.
  intros Ht. split; [now apply settled_constructor|].
  rewrite self_constructor. repeat split.
Qed.

(** C33. The constructor establishes the invariant: a script attached to
    an entity with a finite transform can run, has nothing pending, and its
    default limits leave room for every direction. *)
Theorem constructor_establishes (tr : Transform.t xreal) :
  tfinite tr ->
  running (constructor tr) /\ idle (self (constructor tr)) /\
  roomy_limits eps (self (constructor tr)).
Proof.
  intros Ht.
  split_all; [now apply running_constructor | apply idle_constructor | apply roomy_constructor].
Qed.

(** *** The polar limits over a run *)




(** C1. The frame loop is safe: from a settled world, every run of frames
    with usable input completes without an exception and ends in a settled
    world; after at least one frame nothing is pending, the azimuth and the
    distance are within their limits, the polar angle keeps its margin from
    the poles, the flag [_atTheBack] is off, and the camera is at the distance
    [_spherical.radius] from the target. *)
Theorem frames_safe w (es : list (Engine xreal)) :
  running w -> Forall sound_frame es ->
  exists w', frames w es = Ok w' /\ running w' /\
    (es <> [] -> idle (self w') /\ bounded eps w').
Proof.
  intros Hr Hf.
  destruct (iterate_total_on (fun w e => onUpdate e w) running sound_frame
              (fun w' => idle (self w') /\ bounded eps w')
              (fun w1 e => onUpdate_running e w1) es w Hr Hf) as (w' & Hrun & Hr' & Hb).
  exists w'. auto.
Qed.

End Frames.

Arguments running w : clear implicits.
