(* ===== verification/Store.v ===== *)
(** * Store: the scratch vectors of the module as shared state

    [src/src/ViewportControl.ts] allocates two vectors at module level,
    [_tempVec3] and [_targetMoveVector3] (lines 10-11), and every instance of
    the class writes its intermediate results into them.  [ViewportControl]
    treats them as local values of the methods.  This file models them as
    what they are, objects that all instances share, and shows that the
    treatment is sound.

    A [Heap] holds the scratch vectors and the world of the instance a method
    is called on.  A method is a [Method.t]: a function from the heap to a
    completion ([Ok] or [Throw]) and the heap it leaves.  An exception does
    not undo the statements before it, so the heap a throwing call leaves is
    part of its result.  [_moveS], [_updateTransformS] and [onUpdateS] are
    the methods of the class written statement by statement in the notation
    of the monad: each read of a scratch vector is a read of the heap.

    [tick] is one frame of an engine with several controllers: it calls
    [onUpdateS] on each of them in turn, on the same scratch vectors.

    The theorems say what a call leaves in the heap ([moveS_run],
    [updateTransformS_run], [onUpdateS_scratch],
    [onUpdateS_throws_keeps_input]) and that the scratch vectors carry
    nothing from one call to the next: the store model erases to the
    functions of [ViewportControl] ([onUpdateS_erases], [tick_erases]).  They
    hold for every instance of the number classes. *)

From Stdlib Require Import List Bool.
From S2P Require Import Prelude Numbers Vectors SphericalCoord Engine ViewportControl.
From S2P Require Import UpdateProps InputProps.
Import ListNotations.

Local Open Scope bool_scope.
Local Open Scope num_scope.

(** ** The heap *)

(** The module-level vectors of lines 10-11. *)
Record Scratch (F : Type) : Type := mkScratch {
  _tempVec3 : Vector3.t F;
  _targetMoveVector3 : Vector3.t F
}.

Arguments mkScratch {F} _tempVec3 _targetMoveVector3.
Arguments _tempVec3 {F} _.
Arguments _targetMoveVector3 {F} _.

(** What a method call can reach: the scratch vectors of the module and the
    world of [this]. *)
Record Heap (F : Type) : Type := mkHeap {
  scratch : Scratch F;
  this : World F
}.

Arguments mkHeap {F} scratch this.
Arguments scratch {F} _.
Arguments this {F} _.

Section Assignments.

Context {F : Type}.
Implicit Types (h : Heap F) (v : Vector3.t F).

Definition set_tempVec3 v h : Heap F :=
  mkHeap (mkScratch v (_targetMoveVector3 (scratch h))) (this h).

Definition set_targetMoveVector3 v h : Heap F :=
  mkHeap (mkScratch (_tempVec3 (scratch h)) v) (this h).

Definition on_this (f : World F -> World F) h : Heap F :=
  mkHeap (scratch h) (f (this h)).

End Assignments.

(** ** Methods *)

Module Method.

(** A method: the completion and the heap it leaves. *)
Definition t (F A : Type) : Type := Heap F -> result Exception A * Heap F.

Section Monad.

Context {F : Type}.

Definition ret {A} (a : A) : t F A := fun h => (Ok a, h).

Definition bind {A B} (m : t F A) (k : A -> t F B) : t F B :=
  fun h =>
    match m h with
    | (Ok a, h') => k a h'
    | (Throw x, h') => (Throw x, h')
    end.

(** A computation that does not touch the heap. *)
Definition lift {A} (r : result Exception A) : t F A := fun h => (r, h).

Definition read {A} (f : Heap F -> A) : t F A := fun h => (Ok (f h), h).

Definition write (f : Heap F -> Heap F) : t F unit := fun h => (Ok tt, f h).

End Monad.

End Method.

Declare Scope method_scope.
Delimit Scope method_scope with method.
Notation "'let*' x ':=' m 'in' k" := (Method.bind m (fun x => k))
  (at level 10, x name, m at level 100, k at level 200) : method_scope.
Notation "m ';;' k" := (Method.bind m (fun _ => k))
  (at level 100, k at level 200, right associativity) : method_scope.

(** What a caller that holds no reference to the scratch vectors sees of a
    call: the world of [this], or the exception. *)
Definition erase {F A} (r : result Exception A * Heap F) : result Exception (World F) :=
  map_result (fun _ => this (snd r)) (fst r).

(** Apply [f] to every element in order, stopping at the first exception. *)
Fixpoint each {E A B} (f : A -> result E B) (l : list A) : result E (list B) :=
  match l with
  | [] => Ok []
  | a :: rest =>
      (let! b := f a in
       let! bs := each f rest in
       Ok (b :: bs))%result
  end.

Section Methods.

Context {F : Type} `{Number F} `{MathFns F} `{Spherical.Ops F}.
Implicit Types (h : Heap F) (w : World F) (e : Engine F) (g : Scratch F).

Import Method.
Local Open Scope method_scope.

(** The scratch vectors as the module creates them (lines 10-11). *)
Definition module_scratch : Scratch F := mkScratch Vector3.zero Vector3.zero.

(** ** [_move] (lines 113-120) *)

Definition _moveS (vec : Vector3.t F) : Method.t F unit :=
  write (on_this (on_transform (fun entityTransform =>
    Transform.translate entityTransform vec))) ;;
  let* q := read (fun h => Transform.worldRotationQuaternion (transform (this h))) in
  write (set_targetMoveVector3 (Quaternion.transformByQuat vec q)) ;;
  let* moved := read (fun h => _targetMoveVector3 (scratch h)) in
  write (on_this (on_self (fun c => with_target c (Vector3.add (_target c) moved)))).

(** ** [_updateTransform] (lines 122-156) *)

Definition _updateTransformS : Method.t F unit :=
  let* position := read (fun h => Transform.position (transform (this h))) in
  let* target := read (fun h => _target (self (this h))) in
  write (set_tempVec3 (Vector3.subtract position target)) ;;
  let* offset := read (fun h => _tempVec3 (scratch h)) in
  write (on_this (on_self (fun c =>
    with_spherical c (Spherical.setFromVec3 (_spherical c) offset (_atTheBack c))))) ;;
  write (on_this (on_self addDelta)) ;;
  write (on_this (on_self clampAngles)) ;;
  write (on_this (on_self safePolar)) ;;
  write (on_this (on_self applyZoom)) ;;
  write (on_this (on_self clampRadius)) ;;
  let* out := read (fun h => Spherical.setToVec3 (_spherical (self (this h)))) in
  write (set_tempVec3 (fst out)) ;;
  write (on_this (on_self (fun c => with_atTheBack c (snd out)))) ;;
  let* offset := read (fun h => _tempVec3 (scratch h)) in
  write (on_this (on_transform (fun cameraTransform =>
    Transform.set_worldPosition cameraTransform (Vector3.add target offset)))) ;;
  let* c := read (fun h => self (this h)) in
  write (set_tempVec3 (Vector3.scale (_up c) (if _atTheBack c then - one else one))) ;;
  let* up := read (fun h => _tempVec3 (scratch h)) in
  write (on_this (on_transform (fun cameraTransform =>
    Transform.lookAt cameraTransform target up))) ;;
  write (on_this (on_self resetCache)).

(** ** [onUpdate] (lines 45-111) *)

(** One pan block (lines 48-58, 60-70, 72-82): with Alt held, the first key
    moves by the first vector, otherwise the second key by the second. *)
Definition panS e (k1 : Keys) (v1 : Vector3.t F) (k2 : Keys) (v2 : Vector3.t F)
    : Method.t F unit :=
  let inputManager := inputManager e in
  if isKeyHeldDown inputManager AltLeft && isKeyHeldDown inputManager k1
  then _moveS v1
  else if isKeyHeldDown inputManager AltLeft && isKeyHeldDown inputManager k2
  then _moveS v2
  else ret tt.

Definition onUpdateS e : Method.t F unit :=
  panS e KeyS backwardVec3 KeyW forwardVec3 ;;
  panS e KeyA leftVec3 KeyD rightVec3 ;;
  panS e KeyQ upVec3 KeyE downVec3 ;;
  write (on_this (on_self (wheelZoom e))) ;;
  let* c := read (fun h => self (this h)) in
  let* c := lift (dragRotate e c) in
  write (on_this (on_self (fun _ => c))) ;;
  _updateTransformS.

(** ** A frame of an engine with several controllers *)

(** The engine calls [onUpdate] on every script of the scene, in order; an
    exception ends the frame.  The scripts share the scratch vectors and the
    input; each has a transform of its own. *)
Fixpoint tick e g (scripts : list (World F))
    : result Exception unit * (Scratch F * list (World F)) :=
  match scripts with
  | [] => (Ok tt, (g, []))
  | w :: rest =>
      match onUpdateS e (mkHeap g w) with
      | (Ok _, h) =>
          let '(r, (g', rest')) := tick e (scratch h) rest in
          (r, (g', this h :: rest'))
      | (Throw x, h) => (Throw x, (scratch h, this h :: rest))
      end
  end.

(** What the engine sees of a frame: the scripts, or the exception. *)
Definition erase_tick (r : result Exception unit * (Scratch F * list (World F)))
    : result Exception (list (World F)) :=
  map_result (fun _ => snd (snd r)) (fst r).

(** * Theorems *)

(** ** What the calls leave in the heap *)

Lemma moveS_run (vec : Vector3.t F) g w :
  _moveS vec (mkHeap g w)
  = (Ok tt,
     mkHeap
       (mkScratch (_tempVec3 g)
          (Quaternion.transformByQuat vec
             (Transform.worldRotationQuaternion (Transform.translate (transform w) vec))))
       (_move vec w)).
Proof. reflexivity. Qed.

(** The three pan blocks in sequence complete and leave [_tempVec3]
    alone. *)
Lemma pans_run e g w (k : unit -> Method.t F unit) :
  exists moved,
    (panS e KeyS backwardVec3 KeyW forwardVec3 ;;
     panS e KeyA leftVec3 KeyD rightVec3 ;;
     panS e KeyQ upVec3 KeyE downVec3 ;;
     k tt) (mkHeap g w)
    = k tt (mkHeap (mkScratch (_tempVec3 g) moved) (pan e w)).
Proof.
  unfold pan, panHeight, panSide, panDepth, panS. cbv zeta. destruct g as [t m].
  repeat break_match; eexists; reflexivity.
Qed.

(** [_updateTransform] completes, leaves in [_tempVec3] the up vector as it
    was given to [lookAt], and leaves [_targetMoveVector3] alone. *)
Lemma updateTransformS_run g w :
  _updateTransformS (mkHeap g w)
  = (Ok tt,
     mkHeap
       (mkScratch
          (Vector3.scale (_up (self w))
             (if _atTheBack (self (_updateTransform w)) then - one else one))
          (_targetMoveVector3 g))
       (_updateTransform w)).
Proof.
  transitivity
    (let c := prepared w in
     let out := Spherical.setToVec3 (_spherical c) in
     let up := Vector3.scale (_up c) (if snd out then - one else one) in
     (Ok tt : result Exception unit,
      mkHeap (mkScratch up (_targetMoveVector3 g))
        (mkWorld (resetCache (with_atTheBack c (snd out)))
           (Transform.lookAt
              (Transform.set_worldPosition (transform w)
                 (Vector3.add (_target (self w)) (fst out)))
              (_target (self w)) up)))); [reflexivity|].
  cbv zeta. rewrite updateTransform_unfold. unfold on_self.
  rewrite self_writeTransform, transform_writeTransform. cbn [self transform]. cbv zeta.
  now rewrite prepared_target, (config_up _ _ (prepared_config w)).
Qed.

(** The frame after the pan blocks. *)
Lemma onUpdateS_unfold e g w :
  exists moved,
    onUpdateS e (mkHeap g w)
    = match dragRotate e (wheelZoom e (self (pan e w))) with
      | Ok c =>
          _updateTransformS
            (mkHeap (mkScratch (_tempVec3 g) moved) (mkWorld c (transform (pan e w))))
      | Throw x =>
          (Throw x,
           mkHeap (mkScratch (_tempVec3 g) moved) (on_self (wheelZoom e) (pan e w)))
      end.
Proof.
  unfold onUpdateS.
  destruct (pans_run e g w (fun _ =>
    write (on_this (on_self (wheelZoom e))) ;;
    let* c := read (fun h => self (this h)) in
    let* c := lift (dragRotate e c) in
    write (on_this (on_self (fun _ => c))) ;;
    _updateTransformS)) as (m & ->).
  exists m. cbv [bind write read lift]. cbn [this on_this scratch on_self self transform].
  now destruct (dragRotate e _).
Qed.

(** ** The store model and the functions of [ViewportControl] *)

(** C15. The scratch vectors carry nothing into a call: whatever they hold
    when [onUpdate] is called, the call completes or throws as the function
    [onUpdate] of [ViewportControl] says, and leaves the world that function
    returns. *)
Theorem onUpdateS_erases e g w : erase (onUpdateS e (mkHeap g w)) = onUpdate e w.
Proof.
  destruct (onUpdateS_unfold e g w) as (m & ->). rewrite onUpdate_unfold.
  destruct (dragRotate e _) as [c|x]; [rewrite updateTransformS_run|]; reflexivity.
Qed.

(** C24. Controllers that share the scratch vectors do not disturb each
    other: a frame of an engine with several controllers, each called on the
    scratch vectors as the one before left them, updates every controller as
    if it were alone, and throws when one of them alone would. *)
Theorem tick_erases e g (scripts : list (World F)) :
  erase_tick (tick e g scripts) = each (onUpdate e) scripts.
Proof.
  revert g. induction scripts as [|w rest IH]; intros g; [reflexivity|].
  cbn [tick each]. destruct (onUpdateS_unfold e g w) as (m & ->).
  rewrite onUpdate_unfold. destruct (dragRotate e _) as [c|x]; [|reflexivity].
  rewrite updateTransformS_run. cbn [bind_result scratch this].
  match goal with |- context [tick e ?g1 rest] => rewrite <- (IH g1) end.
  unfold erase_tick. now destruct (tick e _ rest) as ([[]|x] & g' & rest').
Qed.

(** C36. A completed frame leaves in the shared [_tempVec3] the up vector it
    gave to [lookAt]: the vector of the script, turned over when the camera
    is at the back. *)
Theorem onUpdateS_scratch e g w w' :
  onUpdate e w = Ok w' ->
  exists moved,
    onUpdateS e (mkHeap g w)
    = (Ok tt,
       mkHeap
         (mkScratch
            (Vector3.scale (_up (self w')) (if _atTheBack (self w') then - one else one))
            moved)
         w').
Proof.
  rewrite onUpdate_unfold. destruct (onUpdateS_unfold e g w) as (m & ->).
  destruct (dragRotate e _) as [c|x]; [|discriminate]. intros [= <-].
  exists m. rewrite updateTransformS_run. do 4 f_equal.
  symmetry. apply config_up, updateTransform_config.
Qed.

(** C30. An exception does not undo the frame: when the drag block throws,
    the heap keeps what the pan blocks and the wheel block did, the pending
    scale is not reset, and the next frame without input applies it. *)
Theorem onUpdateS_throws_keeps_input e (cv : Canvas F) g w :
  dragging e = true -> pointers (inputManager e) = [] ->
  exists h,
    onUpdateS e (mkHeap g w) = (Throw TypeError, h) /\
    this h = on_self (wheelZoom e) (pan e w) /\
    erase (onUpdateS (mkEngine noInput cv) h)
    = Ok (_updateTransform (on_self (wheelZoom e) (pan e w))).
Proof.
  intros Hd Hp. destruct (onUpdateS_unfold e g w) as (m & ->).
  rewrite (proj2 (dragRotate_throws e _) (conj Hd Hp)).
  eexists. split; [reflexivity|]. split; [reflexivity|].
  destruct (onUpdateS_unfold (mkEngine noInput cv) (mkScratch (_tempVec3 g) m)
              (on_self (wheelZoom e) (pan e w))) as (m' & ->).
  rewrite <- (onUpdate_noInput cv), onUpdate_unfold.
  destruct (dragRotate _ _); [rewrite updateTransformS_run|]; reflexivity.
Qed.

End Methods.
