(* ===== verification/LookAt.v ===== *)
(** * LookAt: where the camera looks

    Line 151 of [_updateTransform] turns the camera to the target with
    [lookAt].  This file shows what that call leaves, over the extended reals
    and under the contract of [Spherical]:

    - the frame [lookAt] builds from a direction that is off the up axis is a
      rotation: three perpendicular axes of length one, right-handed, with
      the y axis pointing up ([look_frame_rotation], [look_frame_upright]);
    - line 137 keeps the offset of the camera off the up axis, so after
      [_updateTransform] the orientation is such a rotation and the target is
      straight ahead of the camera, at the distance [_spherical.radius]
      ([updateTransform_looks_at]);
    - a pan forward then moves the target along the line of sight
      ([forward_along_sight]). *)

From Stdlib Require Import Reals Lra List Bool.
From S2P Require Import Prelude Numbers XReal Trig Vectors SphericalCoord Engine EngineProps.
From S2P Require Import ViewportControl UpdateProps OrbitProps InputProps.

Local Open Scope R_scope.

(** ** Rotations *)

(** The axes of an orientation have length one and are perpendicular. *)
Definition orthonormal (q : Quaternion.t xreal) : Prop :=
  Vector3.dot (Quaternion.ex q) (Quaternion.ex q) = Fin 1 /\
  Vector3.dot (Quaternion.ey q) (Quaternion.ey q) = Fin 1 /\
  Vector3.dot (Quaternion.ez q) (Quaternion.ez q) = Fin 1 /\
  Vector3.dot (Quaternion.ex q) (Quaternion.ey q) = Fin 0 /\
  Vector3.dot (Quaternion.ey q) (Quaternion.ez q) = Fin 0 /\
  Vector3.dot (Quaternion.ez q) (Quaternion.ex q) = Fin 0.

(** An orientation is a rotation: orthonormal and right-handed. *)
Definition rotation (q : Quaternion.t xreal) : Prop :=
  orthonormal q /\
  Vector3.cross (Quaternion.ex q) (Quaternion.ey q) = Quaternion.ez q.

(** The y axis of the orientation points up: the camera is not rolled over. *)
Definition upright (q : Quaternion.t xreal) : Prop :=
  (Fin 0 < Vector3.y (Quaternion.ey q))%xreal.

(** The frame [lookAt] builds for a backward axis [(z1, z2, z3)] of length
    one and the up axis [(0, 1, 0)]. *)
Definition look_frame (z1 z2 z3 : R) : Quaternion.t xreal :=
  let k := sqrt (z1 * z1 + z3 * z3) in
  Quaternion.mk (vfin (z3 / k) 0 (- z1 / k))
                (vfin (- z1 * z2 / k) k (- z2 * z3 / k))
                (vfin z1 z2 z3).

Section Frame.

Variables z1 z2 z3 : R.
Let k := sqrt (z1 * z1 + z3 * z3).
Hypothesis off_axis : 0 < z1 * z1 + z3 * z3.

Lemma horizontal_pos : 0 < k.
Proof. now apply sqrt_lt_R0. Qed.

Lemma horizontal_sq : k * k = z1 * z1 + z3 * z3.
Proof. apply sqrt_sqrt. lra. Qed.

(** The frame as [lookRotation] computes it. *)
Lemma look_frame_steps :
  let zA := vfin z1 z2 z3 in
  let xA := Vector3.normalize (Vector3.cross upY zA) in
  Quaternion.mk xA (Vector3.cross zA xA) zA = look_frame z1 z2 z3.
Proof.
  pose proof horizontal_pos as Hk. pose proof horizontal_sq as Hkk.
  cbv zeta. unfold upY. rewrite cross_vfin, normalize_vfin.
  replace (sqrt _) with k by (unfold k; f_equal; ring).
  destruct (Rlt_dec 0 k); [|contradiction].
  rewrite cross_vfin. unfold look_frame. fold k.
  f_equal; apply vfin_eq; try (field; lra).
  transitivity ((z1 * z1 + z3 * z3) / k); [field; lra|].
  rewrite <- Hkk. field. lra.
Qed.

Lemma look_frame_upright : upright (look_frame z1 z2 z3).
Proof. apply xlt_fin. exact horizontal_pos. Qed.

Hypothesis unit_length : z1 * z1 + z2 * z2 + z3 * z3 = 1.

Lemma look_frame_orthonormal : orthonormal (look_frame z1 z2 z3).
Proof.
  pose proof horizontal_pos as Hk. pose proof horizontal_sq as Hkk.
  unfold orthonormal, look_frame. fold k. cbn [Quaternion.ex Quaternion.ey Quaternion.ez].
  rewrite !dot_vfin.
  split_all; f_equal; try lra; try (field; lra).
  - transitivity ((z3 * z3 + z1 * z1) / (k * k)); [field; lra|].
    rewrite Hkk. field. lra.
  - transitivity (z2 * z2 * (z1 * z1 + z3 * z3) / (k * k) + k * k); [field; lra|].
    rewrite <- Hkk. field_simplify; lra.
  - transitivity (z2 * (k * k - (z1 * z1 + z3 * z3)) / k); [field; lra|].
    rewrite Hkk. field. lra.
Qed.

Lemma look_frame_rotation : rotation (look_frame z1 z2 z3).
Proof.
  pose proof horizontal_pos as Hk. pose proof horizontal_sq as Hkk.
  split; [apply look_frame_orthonormal|].
  unfold look_frame. fold k. cbn [Quaternion.ex Quaternion.ey Quaternion.ez].
  rewrite cross_vfin. apply vfin_eq; try (field; lra).
  transitivity (z2 * (z1 * z1 + z3 * z3) / (k * k)); [field; lra|].
  rewrite <- Hkk. field. lra.
Qed.

End Frame.

(** A vector along the local z axis, in world space. *)
Lemma forward_look_frame (z1 z2 z3 s : R) :
  Quaternion.transformByQuat (vfin 0 0 s) (look_frame z1 z2 z3)
  = vfin (z1 * s) (z2 * s) (z3 * s).
Proof.
  unfold Quaternion.transformByQuat, look_frame.
  cbn [Quaternion.ex Quaternion.ey Quaternion.ez vfin Vector3.x Vector3.y Vector3.z].
  fold (vfin 0 0 s). autorewrite with vc_rw. apply vfin_eq; unfold Rdiv; ring.
Qed.

(** ** The orientation [lookAt] computes *)

Section Direction.

Variables a b c : R.
Let r := sqrt (a * a + b * b + c * c).
Hypothesis off_axis : 0 < a * a + c * c.

Lemma direction_length_pos : 0 < r.
Proof. apply sqrt_lt_R0. nra. Qed.

Lemma direction_unit : a / r * (a / r) + b / r * (b / r) + c / r * (c / r) = 1.
Proof.
  pose proof direction_length_pos as Hr.
  assert (Hrr : r * r = a * a + b * b + c * c) by (apply sqrt_sqrt; nra).
  transitivity ((a * a + b * b + c * c) / (r * r)); [field; lra|].
  rewrite <- Hrr. field. lra.
Qed.

Lemma direction_off_axis : 0 < a / r * (a / r) + c / r * (c / r).
Proof.
  pose proof direction_length_pos as Hr.
  replace (a / r * (a / r) + c / r * (c / r)) with ((a * a + c * c) * (/ r * / r))
    by (field; lra).
  apply Rmult_lt_0_compat; [assumption|].
  apply Rmult_lt_0_compat; now apply Rinv_0_lt_compat.
Qed.

(** For an eye at the offset [(a, b, c)] from the target, the orientation is
    the frame of the direction of the offset. *)
Lemma lookRotation_off_axis (e t : Vector3.t xreal) :
  Vector3.subtract e t = vfin a b c ->
  Transform.lookRotation e t upY = look_frame (a / r) (b / r) (c / r).
Proof.
  intros E. pose proof direction_length_pos as Hr.
  unfold Transform.lookRotation. rewrite E, normalize_vfin. fold r.
  destruct (Rlt_dec 0 r); [|contradiction].
  replace (vfin (a * (1 / r)) (b * (1 / r)) (c * (1 / r)))
    with (vfin (a / r) (b / r) (c / r)) by (apply vfin_eq; field; lra).
  apply look_frame_steps, direction_off_axis.
Qed.

End Direction.

(** For an eye straight above the target there is no such frame: the cross
    product with the up axis is zero, [normalize] leaves it zero, and the x
    and y axes of the orientation come out zero. *)
Lemma lookRotation_on_axis (e t : Vector3.t xreal) (b : R) :
  Vector3.subtract e t = vfin 0 b 0 -> 0 < b ->
  Transform.lookRotation e t upY
  = Quaternion.mk (vfin 0 0 0) (vfin 0 0 0) (vfin 0 1 0).
Proof.
  intros E Hb. unfold Transform.lookRotation, upY. rewrite E, normalize_vfin.
  replace (sqrt (0 * 0 + b * b + 0 * 0)) with b
    by (symmetry; replace (0 * 0 + b * b + 0 * 0) with (b * b) by ring;
        apply sqrt_square; lra).
  destruct (Rlt_dec 0 b); [|contradiction].
  replace (vfin (0 * (1 / b)) (b * (1 / b)) (0 * (1 / b))) with (vfin 0 1 0)
    by (apply vfin_eq; field; lra).
  rewrite cross_vfin.
  replace (vfin (1 * 0 - 0 * 1) (0 * 0 - 0 * 0) (0 * 1 - 1 * 0)) with (vfin 0 0 0)
    by (apply vfin_eq; ring).
  rewrite normalize_vfin.
  replace (sqrt (0 * 0 + 0 * 0 + 0 * 0)) with 0
    by (symmetry; replace (0 * 0 + 0 * 0 + 0 * 0) with 0 by ring; apply sqrt_0).
  destruct (Rlt_dec 0 0); [lra|].
  rewrite cross_vfin. f_equal. apply vfin_eq; ring.
Qed.

(** ** The camera after [_updateTransform] *)

Section Camera.

Context {ops : Spherical.Ops xreal} {eps : R} {C : Spherical.Contract ops eps}.
Implicit Types (w : World xreal).

(** The orientation written (lines 148-151): the flag is off, so the up
    vector is passed as it is. *)
Lemma updateTransform_rotation w :
  settled w ->
  Transform.rotationQuaternion (transform (_updateTransform w)) =
  Transform.lookRotation
    (Vector3.add (_target (self w)) (fst (Spherical.setToVec3 (_spherical (prepared w)))))
    (_target (self w)) upY.
Proof.
  intros Hs. destruct (settled_polar w Hs) as [Hp1 Hp2].
  pose proof (prepared_offset_finite w Hs) as Hv.
  rewrite transform_updateTransform. cbv zeta.
  rewrite prepared_front, (settled_up w Hs) by auto with vc.
  unfold Transform.lookAt. cbn [Transform.rotationQuaternion].
  rewrite worldPosition_set, scale_one by first [apply vfinite_vfin | auto 6 with vc].
  reflexivity.
Qed.

(** With a positive least distance the offset written is off the up axis
    (line 137) and as long as the radius, which is positive (line 142). *)
Lemma prepared_offset_off_axis w :
  settled w -> (Fin 0 < minDistance (self w))%xreal ->
  exists a b c r,
    fst (Spherical.setToVec3 (_spherical (prepared w))) = vfin a b c /\
    Spherical.radius (_spherical (prepared w)) = Fin r /\
    0 < r /\ sqrt (a * a + b * b + c * c) = r /\ 0 < a * a + c * c.
Proof.
  intros Hs Hd.
  destruct (prepared_in_limits w Hs) as (_ & _ & Hr1 & _).
  destruct (prepared_fin w Hs) as (r & p & t & E & Hr & Hp). rewrite E in *.
  cbn [Spherical.radius] in Hr1.
  assert (Hr0 : 0 < r) by (apply xlt_fin; exact (xlt_le_trans _ _ _ Hd Hr1)).
  pose proof (Spherical.eps_pos (eps := eps)) as He.
  assert (Hp0 : 0 < p < PI) by lra.
  destruct (Spherical.setToVec3_off_axis (Spherical.mk (Fin r) (Fin p) (Fin t) upY) r p
              eq_refl eq_refl Hr0 eq_refl Hp0 I) as (a & b & c & Ev & Hh).
  pose proof (Spherical.setToVec3_length (Spherical.mk (Fin r) (Fin p) (Fin t) upY) r
                eq_refl eq_refl Hr I I) as Hl.
  rewrite Ev, length_vfin in Hl. injection Hl as Hl.
  exists a, b, c, r. repeat (split; [assumption || reflexivity|]). assumption.
Qed.

(** C5. After [_updateTransform], for a least distance above zero, the
    orientation of the camera is a rotation that is not rolled over, and the
    target is straight ahead: [_spherical.radius] along the forward axis
    (the opposite of the z axis of the orientation) from the camera.  Line
    137 is what makes this hold: it keeps the offset off the up axis, where
    [lookAt] has no frame to build. *)
Theorem updateTransform_looks_at w :
  settled w -> (Fin 0 < minDistance (self w))%xreal ->
  let w' := _updateTransform w in
  let q := Transform.rotationQuaternion (transform w') in
  rotation q /\ upright q /\
  Vector3.subtract (Transform.worldPosition (transform w'))
    (Vector3.scale (Quaternion.ez q) (Spherical.radius (_spherical (self w'))))
  = _target (self w').
Proof.
  intros Hs Hd. cbv zeta.
  destruct (prepared_offset_off_axis w Hs Hd) as (a & b & c & r & Ev & Er & Hr & Hn & Hh).
  rewrite updateTransform_rotation, updateTransform_worldPosition,
    updateTransform_spherical, updateTransform_target, Ev, Er by assumption.
  rewrite (lookRotation_off_axis a b c Hh)
    by (apply subtract_add_cancel; auto with vc).
  rewrite Hn. split_all.
  - apply look_frame_rotation; rewrite <- Hn;
      [now apply direction_off_axis | now apply direction_unit].
  - apply look_frame_upright. rewrite <- Hn. now apply direction_off_axis.
  - cbn [look_frame Quaternion.ez]. rewrite scale_vfin.
    replace (vfin (a / r * r) (b / r * r) (c / r * r)) with (vfin a b c)
      by (apply vfin_eq; field; lra).
    apply add_subtract_same; auto with vc.
Qed.

(** ** Panning along the line of sight *)

Lemma forwardVec3_xreal : forwardVec3 = vfin 0 0 (- (1 / 10)).
Proof. unfold forwardVec3. rewrite dec_xreal by lra. reflexivity. Qed.

(** C35. After [_updateTransform], for a least distance above zero, a pan
    forward (W with Alt, lines 53-57) moves the target a tenth of a unit
    along the line of sight: by the vector from the camera to the target,
    scaled to that length. *)
Theorem forward_along_sight w :
  settled w -> (Fin 0 < minDistance (self w))%xreal ->
  let w' := _updateTransform w in
  exists r,
    Spherical.radius (_spherical (self w')) = Fin r /\ 0 < r /\
    _target (self (_move forwardVec3 w')) =
    Vector3.add (_target (self w'))
      (Vector3.scale
         (Vector3.subtract (_target (self w')) (Transform.worldPosition (transform w')))
         (Fin (1 / 10 / r))).
Proof.
  intros Hs Hd. cbv zeta.
  destruct (prepared_offset_off_axis w Hs Hd) as (a & b & c & r & Ev & Er & Hr & Hn & Hh).
  exists r. rewrite updateTransform_spherical. split; [exact Er | split; [exact Hr|]].
  rewrite move_self. cbn [_target with_target].
  rewrite updateTransform_rotation, updateTransform_worldPosition,
    updateTransform_target, Ev by assumption.
  rewrite (lookRotation_off_axis a b c Hh)
    by (apply subtract_add_cancel; auto with vc).
  rewrite Hn, forwardVec3_xreal, forward_look_frame.
  destruct (vfinite_inv _ (settled_target w Hs)) as (t1 & t2 & t3 & ->).
  autorewrite with vc_rw. apply vfin_eq; field; lra.
Qed.

End Camera.
