(* ===== verification/ZoomLimit.v ===== *)
(** * ZoomLimit: holding the wheel

    A wheel step multiplies the distance of the camera by [0.95 ^ zoomSpeed]
    or by its inverse and clamps it (lines 84-92 and 138-145).  This file
    follows the distance over a run of such frames.

    - [zoom_clamp] is one step on the distance; a run of [n] wheel frames
      leaves the distance [n] steps lead to ([wheel_run]).
    - Towards the target the distance is at most the first distance times
      the power of the factor, so after finitely many frames it is
      [minDistance] and stays there ([wheel_reaches_minDistance]).
    - Away from the target, with a finite [maxDistance], it reaches
      [maxDistance] in the same way ([wheel_reaches_maxDistance]); with the
      default [maxDistance], which is infinite, it passes every bound
      ([wheel_escapes]).
    - Zooming in terminates: the relation "one wheel frame towards the
      target that changes the distance" is well founded from every world
      between two frames, when [minDistance] is positive
      ([zoom_in_terminates]).  With [minDistance] zero the distance would
      shrink in every frame, for ever. *)

From Stdlib Require Import Reals Lra Lia List Bool Arith.
From S2P Require Import Prelude Numbers XReal Vectors SphericalCoord Engine EngineProps.
From S2P Require Import ViewportControl UpdateProps OrbitProps InputProps.
Import ListNotations.

Local Open Scope R_scope.

(** ** Powers of a factor *)

Lemma pow_unit_interval (f : R) (n : nat) : 0 < f < 1 -> 0 <= f ^ n <= 1.
Proof.
  intros Hf. split; [apply pow_le; lra|].
  rewrite <- (pow1 n). apply pow_incr. lra.
Qed.

(** The powers of a factor below one fall below every positive bound. *)
Lemma pow_below (f r lo : R) :
  0 < f < 1 -> 0 <= r -> 0 < lo ->
  exists N, forall n, (N <= n)%nat -> r * f ^ n <= lo.
Proof.
  intros Hf Hr Hlo.
  destruct (pow_lt_1_zero f) with (y := lo / (r + 1)) as [N HN].
  - rewrite Rabs_pos_eq; lra.
  - apply Rdiv_lt_0_compat; lra.
  - exists N. intros n Hn. specialize (HN n Hn).
    destruct (pow_unit_interval f n Hf) as [H0 H1].
    rewrite Rabs_pos_eq in HN by assumption.
    assert (f ^ n * (r + 1) < lo).
    { apply Rmult_lt_reg_r with (/ (r + 1)); [apply Rinv_0_lt_compat; lra|].
      rewrite Rmult_assoc, Rinv_r by lra. unfold Rdiv in HN. lra. }
    nra.
Qed.

(** The powers of a factor above one pass every bound. *)
Lemma pow_above (g r hi : R) :
  1 < g -> 0 < r -> exists N, forall n, (N <= n)%nat -> hi <= r * g ^ n.
Proof.
  intros Hg Hr. destruct (Pow_x_infinity g) with (b := hi / r) as [N HN].
  - rewrite Rabs_pos_eq; lra.
  - exists N. intros n Hn. specialize (HN n Hn).
    rewrite Rabs_pos_eq in HN by (apply pow_le; lra).
    apply Rge_le, (Rmult_le_compat_l r) in HN; [|lra].
    replace (r * (hi / r)) with hi in HN by (field; lra). exact HN.
Qed.

(** ** The distance over wheel steps *)

(** One wheel step on the distance: the scaling by the pending factor
    (lines 139-141) and the clamp (lines 142-145). *)
Definition zoom_clamp (lo hi : xreal) (k : R) (x : xreal) : xreal :=
  xmax lo (xmin hi (xmul x (Fin k))).

(** Clamping from below before a scaling by at most one does not help. *)
Lemma Rmax_scaled (lo x k : R) :
  0 <= lo -> 0 <= k <= 1 -> Rmax lo (Rmax lo x * k) <= Rmax lo (x * k).
Proof. intros Hlo Hk. unfold Rmax. repeat destruct (Rle_dec _ _); nra. Qed.

(** Towards the target: after [n] steps the distance is at least the
    lower limit, and at most the first distance times the power of the
    factor unless the limit is. *)
Lemma zoom_in_iter (lo k r : R) (hi : xreal) (n : nat) :
  0 <= lo -> 0 <= k <= 1 -> (Fin lo <= hi)%xreal ->
  exists r', Nat.iter n (zoom_clamp (Fin lo) hi k) (Fin r) = Fin r' /\
    (lo <= r \/ n <> 0%nat -> lo <= r') /\ r' <= Rmax lo (r * k ^ n).
Proof.
  intros Hlo Hk Hle. induction n as [|n (r1 & E & _ & Hhi1)].
  - exists r. split; [reflexivity|]. split; [intros [H|H]; [assumption|contradiction]|].
    cbn [pow]. rewrite Rmult_1_r. apply Rmax_r.
  - rewrite Nat.iter_succ, E. unfold zoom_clamp at 1. cbn [xmul].
    destruct (xclamp_fin_below lo (r1 * k) hi Hle) as (r' & -> & Hb1 & Hb2).
    exists r'. split; [reflexivity|]. split; [intros _; exact Hb1|].
    pose proof (Rmax_scaled lo (r * k ^ n) k Hlo Hk) as Hs.
    replace (r * k ^ S n) with (r * k ^ n * k) by (cbn [pow]; ring).
    apply Rle_trans with (2 := Hs). apply Rle_trans with (1 := Hb2).
    apply Rle_max_compat_l. apply Rmult_le_compat_r; lra.
Qed.

(** Away from the target, between finite limits: after [n] steps the
    distance is within the limits, and at least the first distance times the
    power of the factor unless the upper limit is below that. *)
Lemma zoom_out_iter (lo hi k r : R) (n : nat) :
  0 < lo -> 1 <= k -> lo <= r <= hi ->
  exists r', Nat.iter n (zoom_clamp (Fin lo) (Fin hi) k) (Fin r) = Fin r' /\
    lo <= r' <= hi /\ Rmin hi (r * k ^ n) <= r'.
Proof.
  intros Hlo Hk Hr. induction n as [|n (r1 & E & Hb & Hlow)].
  - exists r. split; [reflexivity|]. split; [assumption|].
    cbn [pow]. rewrite Rmult_1_r. apply Rmin_r.
  - rewrite Nat.iter_succ, E. unfold zoom_clamp at 1. cbn [xmul].
    rewrite xmin_fin, xmax_fin. eexists. split; [reflexivity|].
    replace (r * k ^ S n) with (r * k ^ n * k) by (cbn [pow]; ring).
    revert Hlow. generalize (r * k ^ n). intros x.
    unfold Rmax, Rmin. repeat destruct (Rle_dec _ _); intros; split; try nra.
Qed.

(** Away from the target without an upper limit: after [n] steps the
    distance is at least the first distance times the power of the factor. *)
Lemma zoom_free_iter (lo k r : R) (n : nat) :
  0 <= k ->
  exists r', Nat.iter n (zoom_clamp (Fin lo) PInf k) (Fin r) = Fin r' /\ r * k ^ n <= r'.
Proof.
  intros Hk. induction n as [|n (r1 & E & Hlow)].
  - exists r. split; [reflexivity|]. cbn [pow]. lra.
  - rewrite Nat.iter_succ, E. unfold zoom_clamp at 1. cbn [xmul].
    change (xmin PInf (Fin ?x)) with (Fin x). rewrite xmax_fin.
    eexists. split; [reflexivity|].
    apply Rle_trans with (2 := Rmax_r _ _). cbn [pow]. nra.
Qed.

Section Zoom.

Context {ops : Spherical.Ops xreal} {eps : R} {C : Spherical.Contract ops eps}.
Implicit Types (w : World xreal) (e : Engine xreal).

(** ** Frames of the wheel *)

(** A frame of the wheel alone: the modifier key is up and the wheel has
    moved by [d]. *)
Definition wheel_only (d : R) e : Prop :=
  alt e = false /\
  exists wd, wheelDelta (inputManager e) = Some wd /\ Vector3.y wd = Fin d.

(** The distance of the camera from the target, as line 125 reads it. *)
Definition distance w : xreal :=
  Vector3.length (Vector3.subtract (Transform.position (transform w)) (_target (self w))).

(** A world between two frames with the camera at the distance [r] from the
    target. *)
Definition at_distance (r : R) w : Prop :=
  running w /\ idle (self w) /\
  Transform.parentPosition (transform w) = Vector3.zero /\
  distance w = Fin r.

Lemma wheel_only_sound (d : R) e : wheel_only d e -> sound_frame e.
Proof.
  intros [Ha _]. apply sound_frame_not_dragging. unfold dragging. now rewrite Ha.
Qed.

Lemma distance_fin w : running w -> exists r, distance w = Fin r /\ 0 <= r.
Proof.
  intros [Hs _]. unfold distance.
  assert (Hv : vfinite (Vector3.subtract (Transform.position (transform w))
                          (_target (self w)))) by auto 6 with vc.
  destruct (vfinite_inv _ Hv) as (a & b & c & ->).
  rewrite length_vfin. eexists. split; [reflexivity | apply sqrt_pos].
Qed.

Lemma at_distance_nonneg (r : R) w : at_distance r w -> 0 <= r.
Proof.
  intros (Hr & _ & _ & Hlen). destruct (distance_fin w Hr) as (r' & E & H0).
  rewrite E in Hlen. now injection Hlen as <-.
Qed.

Lemma at_distance_limits (r : R) w :
  at_distance r w -> (minDistance (self w) <= maxDistance (self w))%xreal.
Proof. intros (((_ & _ & _ & _ & _ & Hl) & _) & _). apply Hl. Qed.

(** The factor of a step towards the target. *)
Lemma wheel_factor_in (d z : R) : d < 0 -> wheel_factor d z = Rpower (95 / 100) z.
Proof.
  intros Hd. unfold wheel_factor.
  destruct (Rlt_dec 0 d), (Rlt_dec d 0); try lra; reflexivity.
Qed.

(** One frame of the wheel: the camera stays on its orbit, at the distance
    one step leads to. *)
Lemma wheel_step (d : R) e w (r z : R) :
  d <> 0 -> wheel_only d e -> at_distance r w -> zoomSpeed (self w) = Fin z -> 0 < z ->
  exists w' r',
    onUpdate e w = Ok w' /\ at_distance r' w' /\ config (self w') = config (self w) /\
    Fin r' = zoom_clamp (minDistance (self w)) (maxDistance (self w)) (wheel_factor d z)
               (Fin r).
Proof.
  intros Hd He (Hr & Hi & Hp & Hlen) Hz Hz0.
  pose proof (wheel_only_sound d e He) as Hf. destruct He as (Ha & wd & Hw & Hy).
  destruct (wheel_frame e w wd d z r) as [Hrun Hrad];
    try assumption; try apply Hr; try apply Hi.
  destruct (onUpdate_running e w Hr Hf) as (w' & Hrun' & Hr' & Hi' & Hb & _ & Hlen').
  rewrite Hrun in Hrun'. injection Hrun' as Ew. rewrite Ew in Hrun, Hrad.
  assert (Hp' : Transform.parentPosition (transform w') = Vector3.zero)
    by (rewrite <- Ew, updateTransform_parentPosition; exact Hp).
  destruct (distance_fin w' Hr') as (r' & Er & _).
  exists w', r'. split; [exact Hrun|].
  split; [exact (conj Hr' (conj Hi' (conj Hp' Er)))|].
  split; [now apply (onUpdate_config e w)|].
  unfold zoom_clamp. cbn [xmul]. rewrite <- Er, <- Hrad, <- Hlen'. unfold distance.
  rewrite worldPosition_root; [reflexivity | | exact Hp'].
  destruct Hr' as [Hs' _]. auto with vc.
Qed.

(** One frame towards the target: the camera is at least [minDistance]
    away, and not farther than the distance times the factor unless
    [minDistance] is. *)
Lemma wheel_in_step (d : R) e w (r z lo : R) :
  d < 0 -> wheel_only d e -> at_distance r w ->
  zoomSpeed (self w) = Fin z -> 0 < z -> minDistance (self w) = Fin lo ->
  exists w' r',
    onUpdate e w = Ok w' /\ at_distance r' w' /\ config (self w') = config (self w) /\
    lo <= r' <= Rmax lo (r * Rpower (95 / 100) z).
Proof.
  intros Hd He Hw Hz Hz0 Hlo.
  destruct (wheel_step d e w r z) as (w' & r' & Hrun & Hw' & Ec & Er);
    try assumption; try lra.
  exists w', r'. split_all; try assumption;
    pose proof (at_distance_limits r w Hw) as Hl;
    rewrite Hlo, wheel_factor_in in * by assumption;
    destruct (xclamp_fin_below lo (r * Rpower (95 / 100) z) _ Hl) as (r'' & E & Hb);
    unfold zoom_clamp in Er; cbn [xmul] in Er; rewrite E in Er; injection Er as ->; lra.
Qed.

(** ** Runs *)

(** A run of wheel frames leaves the camera at the distance the steps lead
    to. *)
Lemma wheel_run (d z : R) (es : list (Engine xreal)) :
  d <> 0 -> 0 < z -> Forall (wheel_only d) es ->
  forall w (r : R),
    at_distance r w -> zoomSpeed (self w) = Fin z ->
    exists w' r',
      frames w es = Ok w' /\ at_distance r' w' /\
      Fin r' = Nat.iter (length es)
                 (zoom_clamp (minDistance (self w)) (maxDistance (self w))
                    (wheel_factor d z)) (Fin r).
Proof.
  intros Hd Hz Hes. induction Hes as [|e es He Hes IH]; intros w r Hw Ez.
  - exists w, r. split; [reflexivity|]. now split.
  - destruct (wheel_step d e w r z Hd He Hw Ez Hz) as (w1 & r1 & Hrun & Hw1 & Ec & Er1).
    destruct (config_speeds _ _ Ec) as [_ Ez1].
    destruct (config_distances _ _ Ec) as [El1 Eh1].
    destruct (IH w1 r1 Hw1) as (w' & r' & Hrun' & Hw' & Er'); [congruence|].
    exists w', r'. split; [|split; [exact Hw'|]].
    + unfold frames in *. cbn [iterate]. rewrite Hrun. exact Hrun'.
    + cbn [length]. rewrite Nat.iter_succ_r, <- Er1, Er', El1, Eh1. reflexivity.
Qed.

(** C11. The camera reaches the least distance: holding the wheel towards the
    target, after finitely many frames the camera is at [minDistance] from
    the target, and it stays there for as long as the wheel is held. *)
Theorem wheel_reaches_minDistance (d : R) w (r z lo : R) :
  d < 0 -> at_distance r w ->
  zoomSpeed (self w) = Fin z -> 0 < z -> minDistance (self w) = Fin lo -> 0 < lo ->
  exists n, forall es,
    Forall (wheel_only d) es -> (n <= length es)%nat ->
    exists w', frames w es = Ok w' /\ at_distance lo w'.
Proof.
  intros Hd Hw Ez Hz El Hlo.
  assert (Hf : 0 < Rpower (95 / 100) z < 1)
    by (split; [apply Rpower_pos | apply Rpower_lt_1; lra]).
  destruct (pow_below _ r lo Hf (at_distance_nonneg r w Hw) Hlo) as [N HN].
  exists (S N). intros es Hes Hn.
  destruct (wheel_run d z es) with (w := w) (r := r) as (w' & r' & Hrun & Hw' & Er);
    try assumption; try lra.
  exists w'. split; [exact Hrun|].
  pose proof (at_distance_limits r w Hw) as Hl.
  rewrite El, wheel_factor_in in * by assumption.
  destruct (zoom_in_iter lo (Rpower (95 / 100) z) r (maxDistance (self w)) (length es))
    as (r'' & E & Hlo' & Hhi'); try assumption; try lra.
  rewrite E in Er. injection Er as ->.
  rewrite Rmax_left in Hhi' by (apply HN; lia).
  replace lo with r''; [assumption|]. apply Rle_antisym; [assumption|].
  apply Hlo'. right. lia.
Qed.

(** C27. The camera reaches the greatest distance: with a finite
    [maxDistance] and a positive [minDistance], holding the wheel away from
    the target brings the camera to [maxDistance] after finitely many frames,
    and it stays there for as long as the wheel is held. *)
Theorem wheel_reaches_maxDistance (d : R) w (r z lo hi : R) :
  0 < d -> at_distance r w ->
  zoomSpeed (self w) = Fin z -> 0 < z ->
  minDistance (self w) = Fin lo -> 0 < lo -> maxDistance (self w) = Fin hi ->
  exists n, forall es,
    Forall (wheel_only d) es -> (n <= length es)%nat ->
    exists w', frames w es = Ok w' /\ at_distance hi w'.
Proof.
  intros Hd Hw Ez Hz El Hlo Eh.
  destruct (wheel_factor_direction d z Hz) as [Hg _]. specialize (Hg Hd).
  destruct (pow_above (wheel_factor d z) lo hi Hg Hlo) as [N HN].
  pose proof (at_distance_limits r w Hw) as Hl. rewrite El, Eh in Hl.
  change (lo <= hi) in Hl.
  exists (S N). intros es Hes Hn.
  destruct (wheel_run d z es) with (w := w) (r := r) as (w' & r' & Hrun & Hw' & Er);
    try assumption; try lra.
  exists w'. split; [exact Hrun|].
  destruct es as [|e es]; [cbn in Hn; lia|]. cbn [length] in Er, Hn.
  rewrite Nat.iter_succ_r, El, Eh in Er.
  unfold zoom_clamp at 2 in Er. cbn [xmul] in Er. rewrite xmin_fin, xmax_fin in Er.
  destruct (zoom_out_iter lo hi (wheel_factor d z)
              (Rmax lo (Rmin hi (r * wheel_factor d z))) (length es))
    as (r'' & E & Hb & Hlow); try lra.
  { unfold Rmax, Rmin. repeat destruct (Rle_dec _ _); lra. }
  rewrite E in Er. injection Er as ->.
  replace hi with r''; [assumption|]. apply Rle_antisym; [lra|].
  apply Rle_trans with (2 := Hlow). apply Rmin_glb; [lra|].
  apply Rle_trans with (1 := HN (length es) ltac:(lia)).
  apply Rmult_le_compat_r; [apply pow_le; lra | apply Rmax_l].
Qed.

(** C28. The default [maxDistance] does not bound the zoom: with
    [maxDistance] infinite and the camera off the target, holding the wheel
    away from the target takes the camera beyond every distance [b] after
    finitely many frames. *)
Theorem wheel_escapes (d : R) w (r z lo b : R) :
  0 < d -> at_distance r w -> 0 < r ->
  zoomSpeed (self w) = Fin z -> 0 < z ->
  minDistance (self w) = Fin lo -> maxDistance (self w) = PInf ->
  exists n, forall es,
    Forall (wheel_only d) es -> (n <= length es)%nat ->
    exists w' r', frames w es = Ok w' /\ at_distance r' w' /\ b <= r'.
Proof.
  intros Hd Hw Hr Ez Hz El Eh.
  destruct (wheel_factor_direction d z Hz) as [Hg _]. specialize (Hg Hd).
  destruct (pow_above (wheel_factor d z) r b Hg Hr) as [N HN].
  exists N. intros es Hes Hn.
  destruct (wheel_run d z es) with (w := w) (r := r) as (w' & r' & Hrun & Hw' & Er);
    try assumption; try lra.
  exists w', r'. split; [exact Hrun|]. split; [exact Hw'|].
  rewrite El, Eh in Er.
  destruct (zoom_free_iter lo (wheel_factor d z) r (length es)) as (r'' & E & Hlow); [lra|].
  rewrite E in Er. injection Er as ->.
  apply Rle_trans with (2 := Hlow). now apply HN.
Qed.

(** ** Termination *)

(** One wheel frame by [d] that changes the distance of the camera: [w']
    is the world the frame leaves from [w]. *)
Definition zooms (d : R) (w' w : World xreal) : Prop :=
  exists e, wheel_only d e /\ onUpdate e w = Ok w' /\ distance w' <> distance w.

Section Termination.

Variables d z lo : R.
Hypothesis (Hd : d < 0) (Hz : 0 < z) (Hlo : 0 < lo).

(** A world whose distance is within [n] steps of the least distance
    admits chains of at most [n] frames that change the distance. *)
Lemma zooms_in_acc (n : nat) :
  forall w (r : R),
    at_distance r w -> zoomSpeed (self w) = Fin z -> minDistance (self w) = Fin lo ->
    lo <= r -> r * Rpower (95 / 100) z ^ n <= lo -> Acc (zooms d) w.
Proof.
  assert (Hf : 0 < Rpower (95 / 100) z < 1)
    by (split; [apply Rpower_pos | apply Rpower_lt_1; lra]).
  induction n as [|n IH]; intros w r Hw Ez El Hr Hn;
    constructor; intros w' (e & He & Hrun & Hne);
    destruct (wheel_in_step d e w r z lo Hd He Hw Ez Hz El)
      as (w1 & r1 & Hrun1 & Hw1 & Ec & Hlo1 & Hhi1);
    rewrite Hrun in Hrun1; injection Hrun1 as <-.
  - exfalso. apply Hne. destruct Hw as (_ & _ & _ & ->), Hw1 as (_ & _ & _ & ->).
    f_equal. cbn [pow] in Hn. revert Hhi1. unfold Rmax. destruct (Rle_dec _ _); nra.
  - destruct (config_speeds _ _ Ec) as [_ Ez1].
    destruct (config_distances _ _ Ec) as [El1 _].
    apply (IH w' r1); try congruence; try lra.
    pose proof (pow_unit_interval _ n Hf). cbn [pow] in Hn.
    revert Hhi1. unfold Rmax. destruct (Rle_dec _ _); nra.
Qed.

End Termination.

(** C13. Zooming in terminates: for a positive [minDistance] there is no
    infinite run of wheel frames towards the target that each change the
    distance of the camera.  The relation [zooms] is well founded from every
    world between two frames. *)
Theorem zoom_in_terminates (d : R) w (r z lo : R) :
  d < 0 -> at_distance r w ->
  zoomSpeed (self w) = Fin z -> 0 < z -> minDistance (self w) = Fin lo -> 0 < lo ->
  Acc (zooms d) w.
Proof.
  intros Hd Hw Ez Hz El Hlo.
  assert (Hf : 0 < Rpower (95 / 100) z < 1)
    by (split; [apply Rpower_pos | apply Rpower_lt_1; lra]).
  pose proof (at_distance_nonneg r w Hw) as Hr.
  destruct (pow_below _ (Rmax lo r) lo Hf) as [N HN];
    [unfold Rmax; destruct (Rle_dec _ _); lra | assumption |].
  constructor. intros w' (e & He & Hrun & _).
  destruct (wheel_in_step d e w r z lo Hd He Hw Ez Hz El)
    as (w1 & r1 & Hrun1 & Hw1 & Ec & Hlo1 & Hhi1).
  rewrite Hrun in Hrun1. injection Hrun1 as <-.
  destruct (config_speeds _ _ Ec) as [_ Ez1].
  destruct (config_distances _ _ Ec) as [El1 _].
  apply (zooms_in_acc d z lo Hd Hz Hlo N w' r1); try congruence; try lra.
  apply Rle_trans with (2 := HN N (le_n N)).
  apply Rmult_le_compat_r; [apply pow_le; lra|].
  apply Rle_trans with (1 := Hhi1). apply Rle_max_compat_l. nra.
Qed.

End Zoom.
