(* ===== verification/Turns.v ===== *)
(** * Turns: rotations of the azimuth

    A horizontal drag adds to the pending azimuth [_sphericalDelta.theta],
    and [_updateTransform] adds the pending azimuth to the azimuth it reads.
    With azimuth limits that are infinite (the default) nothing clamps the
    sum, so the camera turns about the vertical axis through the target by
    the angle of the drag ([drag_rotates_about_up], against the reference
    [rotateY] of [Vectors]), and the drags of two frames add up
    ([drags_add]).

    The azimuth is not wrapped: a drag can take it beyond a whole turn.  Two
    spherical values whose azimuths differ by whole turns denote the same
    point; the file states that equivalence ([same_point]), shows that
    [setToVec3] respects it (a [Proper] instance, from the contract), and
    concludes that a drag by a whole number of canvas widths leaves the
    camera where a frame without input leaves it ([drag_whole_turns]). *)

From Stdlib Require Import Reals Lra ZArith List Bool Morphisms RelationClasses Setoid.
From S2P Require Import Prelude Numbers XReal Trig Vectors SphericalCoord Engine EngineProps.
From S2P Require Import ViewportControl UpdateProps OrbitProps InputProps.
Import ListNotations.

Local Open Scope R_scope.

(** ** The equivalence *)

(** The same radius, polar angle and up axis, and azimuths that differ by
    whole turns. *)
Definition same_point (s s' : Spherical.t xreal) : Prop :=
  Spherical.radius s = Spherical.radius s' /\
  Spherical.phi s = Spherical.phi s' /\
  Spherical.yAxis s = Spherical.yAxis s' /\
  exists k : Z, Spherical.theta s' = xadd (Spherical.theta s) (Fin (2 * PI * IZR k)).

(** The angle a drag by [dx] pixels on a canvas [cw] pixels wide turns the
    camera by, at the rotation speed [v] (lines 100-103). *)
Definition drag_angle (dx cw v : R) : R := - (2 * PI * dx / cw * v).

Lemma xadd_no_turn (x : xreal) : xadd x (Fin (2 * PI * IZR 0)) = x.
Proof. destruct x; try reflexivity. cbn. f_equal. lra. Qed.

Lemma xadd_turn_back (x : xreal) (k : Z) :
  xadd (xadd x (Fin (2 * PI * IZR k))) (Fin (2 * PI * IZR (- k))) = x.
Proof. destruct x; try reflexivity. cbn. rewrite opp_IZR. f_equal. lra. Qed.

Lemma xadd_turn_on (x : xreal) (k k' : Z) :
  xadd (xadd x (Fin (2 * PI * IZR k))) (Fin (2 * PI * IZR k'))
  = xadd x (Fin (2 * PI * IZR (k + k'))).
Proof. destruct x; try reflexivity. cbn. rewrite plus_IZR. f_equal. lra. Qed.

#[export] Instance same_point_Equivalence : Equivalence same_point.
Proof.
  split.
  - intros s. repeat split. exists 0%Z. now rewrite xadd_no_turn.
  - intros s s' (Hr & Hp & Hy & k & Ht). repeat split; try congruence.
    exists (- k)%Z. now rewrite Ht, xadd_turn_back.
  - intros s s' s'' (Hr & Hp & Hy & k & Ht) (Hr' & Hp' & Hy' & k' & Ht').
    repeat split; try congruence.
    exists (k + k')%Z. now rewrite Ht', Ht, xadd_turn_on.
Qed.

(** A value and the value turned by whole turns are the same point. *)
Lemma same_point_turn (s : Spherical.t xreal) (k : Z) :
  same_point s
    (Spherical.set_theta s (xadd (Spherical.theta s) (Fin (2 * PI * IZR k)))).
Proof. repeat split. now exists k. Qed.

(** The angles of two drags add up. *)
Lemma drag_angle_add (dx1 dx2 cw v : R) :
  cw <> 0 -> drag_angle dx1 cw v + drag_angle dx2 cw v = drag_angle (dx1 + dx2) cw v.
Proof. intros Hcw. unfold drag_angle. field. assumption. Qed.

(** A drag by [k] canvas widths at speed 1 is [k] whole turns back. *)
Lemma drag_angle_widths (k : Z) (cw : R) :
  cw <> 0 -> drag_angle (IZR k * cw) cw 1 = 2 * PI * IZR (- k).
Proof. intros Hcw. unfold drag_angle. rewrite opp_IZR. field. assumption. Qed.

Section Turns.

Context {ops : Spherical.Ops xreal} {eps : R} {C : Spherical.Contract ops eps}.
Implicit Types (w : World xreal) (e : Engine xreal) (c : ViewportControl xreal).

(** [setToVec3] gives equivalent values the same vector and the same
    flag. *)
#[export] Instance setToVec3_Proper : Proper (same_point ==> eq) Spherical.setToVec3.
Proof.
  intros s s' (Hr & Hp & Hy & k & Ht).
  rewrite <- (Spherical.setToVec3_turns s k). f_equal.
  apply spherical_eq; cbn [Spherical.set_theta Spherical.radius Spherical.phi
                           Spherical.theta Spherical.yAxis]; congruence.
Qed.

(** ** A pending rotation *)

(** The world with [d] added to the pending azimuth. *)
Definition swung (d : R) w : World xreal :=
  on_self (fun c =>
    with_sphericalDelta c
      (Spherical.set_theta (_sphericalDelta c)
         (xadd (Spherical.theta (_sphericalDelta c)) (Fin d)))) w.

(** The world with [k] whole turns added to the pending azimuth. *)
Definition turned_by (k : Z) w : World xreal := swung (2 * PI * IZR k) w.

(** The azimuth is not limited (the default). *)
Definition free_azimuth c : Prop :=
  minAzimuthAngle c = NInf /\ maxAzimuthAngle c = PInf.

(** A frame of a horizontal drag alone: the modifier key and the primary
    button are held, no pan key is, the wheel has not moved, and the first
    pointer has moved by [dx] pixels along x on a canvas [cw] pixels wide. *)
Definition horizontal_drag (dx cw : R) e : Prop :=
  dragging e = true /\ pan_keys_up e /\ wheelDelta (inputManager e) = None /\
  exists (p : Pointer xreal) (rest : list (Pointer xreal)) (ch : R),
    pointers (inputManager e) = p :: rest /\
    deltaPosition p = Vector2.mk (Fin dx) (Fin 0) /\
    Engine.canvas e = mkCanvas (Fin cw) (Fin ch) /\ cw <> 0 /\ ch <> 0.

Lemma settled_swung (d : R) w : settled w -> settled (swung d w).
Proof.
  intros ((Hp & Ht & Hy & Hdt & Hdp) & H). split; [|exact H].
  refine (conj Hp (conj Ht (conj Hy (conj _ Hdp)))).
  cbn. destruct (Spherical.theta (_sphericalDelta (self w))); exact Hdt.
Qed.

Lemma free_azimuth_config c c' : config c = config c' -> free_azimuth c -> free_azimuth c'.
Proof. unfold config, free_azimuth. intros E. now inv E. Qed.

(** With azimuth limits that are infinite the pending rotation arrives in
    the coordinates written. *)
Lemma prepared_swung (d : R) w :
  ready w -> free_azimuth (self w) ->
  _spherical (prepared (swung d w))
  = Spherical.set_theta (_spherical (prepared w))
      (xadd (Spherical.theta (_spherical (prepared w))) (Fin d)).
Proof.
  intros Hr (Hlo & Hhi). destruct (readOffset_finite w Hr) as (Ht & _ & _).
  destruct Hr as (_ & _ & _ & Hd & _).
  rewrite !prepared_spherical. cbv zeta.
  change (_spherical (readOffset (swung d w))) with (_spherical (readOffset w)).
  unfold swung, on_self.
  cbn [self with_sphericalDelta _sphericalDelta _spherical _scale _zoomFrag
       minAzimuthAngle maxAzimuthAngle minPolarAngle maxPolarAngle minDistance maxDistance
       Spherical.set_theta Spherical.theta Spherical.phi Spherical.radius Spherical.yAxis].
  rewrite Hlo, Hhi. finite_cases. cbn [xadd]. rewrite !xclamp_free by reflexivity.
  cbn [xadd]. unfold Spherical.set_theta.
  cbn [Spherical.radius Spherical.phi Spherical.yAxis]. do 2 f_equal. ring.
Qed.

(** So the offset written is turned about the up axis. *)
Lemma offset_swung (d : R) w :
  settled w -> free_azimuth (self w) ->
  fst (Spherical.setToVec3 (_spherical (prepared (swung d w))))
  = rotateY d (fst (Spherical.setToVec3 (_spherical (prepared w)))).
Proof.
  intros Hs Hf. rewrite prepared_swung by auto with vc.
  destruct (prepared_fin w Hs) as (r & p & t & -> & _).
  now apply Spherical.setToVec3_rotate.
Qed.

(** And so is the camera, about the target. *)
Lemma updateTransform_swung (d : R) w :
  settled w -> free_azimuth (self w) ->
  Vector3.subtract (Transform.worldPosition (transform (_updateTransform (swung d w))))
    (_target (self w))
  = rotateY d
      (Vector3.subtract (Transform.worldPosition (transform (_updateTransform w)))
         (_target (self w))).
Proof.
  intros Hs Hf. pose proof (settled_swung d w Hs) as Hs'.
  rewrite !updateTransform_worldPosition by assumption.
  change (_target (self (swung d w))) with (_target (self w)).
  pose proof (prepared_offset_finite _ Hs). pose proof (prepared_offset_finite _ Hs').
  pose proof (settled_target _ Hs).
  rewrite !subtract_add_cancel by assumption.
  now apply offset_swung.
Qed.

(** Whole turns lead to coordinates of the same point. *)
Lemma prepared_turned_by (k : Z) w :
  ready w -> free_azimuth (self w) ->
  same_point (_spherical (prepared w)) (_spherical (prepared (turned_by k w))).
Proof.
  intros Hr Hf. unfold turned_by. rewrite prepared_swung by assumption.
  apply same_point_turn.
Qed.

(** So [_updateTransform] writes the same transform. *)
Lemma updateTransform_turned_by (k : Z) w :
  ready w -> free_azimuth (self w) ->
  transform (_updateTransform (turned_by k w)) = transform (_updateTransform w) /\
  _target (self (_updateTransform (turned_by k w))) = _target (self w).
Proof.
  intros Hr Hf. split; [|now rewrite updateTransform_target].
  rewrite !transform_updateTransform. cbv zeta.
  now rewrite <- (prepared_turned_by k w Hr Hf).
Qed.

(** ** The frame of a horizontal drag *)

(** For a world without pending rotation, what the drag block leaves after
    a movement that turns by the angle [- a]. *)
Lemma dragged_swung w (a b : R) :
  idle (self w) -> b = 0 ->
  mkWorld
    (with_sphericalDelta (self w)
       (Spherical.set_phi
          (Spherical.set_theta (_sphericalDelta (self w)) (Fin (0 - a)))
          (Fin (0 - b))))
    (transform w)
  = swung (- a) w.
Proof.
  intros (Hdt & Hdp & _) ->. unfold swung, on_self. do 2 f_equal.
  apply spherical_eq;
    cbn [Spherical.set_theta Spherical.set_phi Spherical.radius Spherical.phi
         Spherical.theta Spherical.yAxis]; try reflexivity.
  - rewrite Hdp. f_equal; lra.
  - rewrite Hdt. cbn [xadd]. f_equal; lra.
Qed.

(** The frame is a call of [_updateTransform] with the angle of the drag
    pending. *)
Lemma horizontal_drag_frame e w (dx cw v : R) :
  horizontal_drag dx cw e -> idle (self w) -> rotateSpeed (self w) = Fin v ->
  onUpdate e w = Ok (_updateTransform (swung (drag_angle dx cw v) w)).
Proof.
  intros (Hd & Hk & Hw & p & rest & ch & Hp & Hpd & Hc & Hcw & Hch) Hi Hv.
  pose proof Hi as (Hdt & Hdp & _).
  rewrite onUpdate_unfold, pan_keys_up_idle by assumption.
  unfold wheelZoom at 1. rewrite Hw.
  rewrite (dragRotate_delta e (self w) p rest dx 0 cw ch v 0 0) by assumption.
  cbn [bind_result]. do 2 f_equal. apply dragged_swung; [assumption|].
  field; assumption.
Qed.

(** C14. A horizontal drag turns the camera about the vertical axis through
    the target: with azimuth limits that are infinite, the offset of the
    camera from the target after the frame is the offset a frame without
    input leaves, turned by [dx / width] of a whole turn times
    [rotateSpeed]; the target stays. *)
Theorem drag_rotates_about_up e w (dx cw v : R) :
  settled w -> idle (self w) -> free_azimuth (self w) ->
  rotateSpeed (self w) = Fin v -> horizontal_drag dx cw e ->
  exists w', onUpdate e w = Ok w' /\
    _target (self w') = _target (self w) /\
    Vector3.subtract (Transform.worldPosition (transform w')) (_target (self w))
    = rotateY (drag_angle dx cw v)
        (Vector3.subtract (Transform.worldPosition (transform (_updateTransform w)))
           (_target (self w))).
Proof.
  intros Hs Hi Hf Hv Hd. eexists.
  split; [apply (horizontal_drag_frame e w dx cw v); assumption|].
  split; [exact (updateTransform_target (swung (drag_angle dx cw v) w))|].
  now apply updateTransform_swung.
Qed.

(** The world a horizontal drag leaves can be dragged again. *)
Lemma swung_update_again (d : R) w (v : R) :
  settled w -> roomy_limits eps (self w) -> free_azimuth (self w) ->
  Transform.parentPosition (transform w) = Vector3.zero ->
  rotateSpeed (self w) = Fin v ->
  let w1 := _updateTransform (swung d w) in
  settled w1 /\ idle (self w1) /\ free_azimuth (self w1) /\
  Transform.parentPosition (transform w1) = Vector3.zero /\
  rotateSpeed (self w1) = Fin v /\ _target (self w1) = _target (self w) /\
  fst (Spherical.setToVec3 (_spherical (prepared w1)))
  = rotateY d (fst (Spherical.setToVec3 (_spherical (prepared w)))).
Proof.
  intros Hs Hl Hf Hz Hv. cbv zeta. pose proof (settled_swung d w Hs) as Hs'.
  destruct (updateTransform_settled _ Hs') as [Hs1 Hi1].
  pose proof (updateTransform_config (swung d w)) as Hc.
  split_all; try assumption.
  - now apply (free_azimuth_config (self w)).
  - rewrite updateTransform_parentPosition. exact Hz.
  - rewrite (proj1 (config_speeds _ _ Hc)). exact Hv.
  - exact (updateTransform_target (swung d w)).
  - rewrite offset_after_update by assumption. now apply offset_swung.
Qed.

(** C23. The drags of two frames add up: two horizontal drags in two frames
    leave the transform (position and orientation) and the target that one
    drag by the sum of the two movements leaves, for azimuth limits that are
    infinite, limits that leave room and an entity without a displaced
    parent. *)
Theorem drags_add e1 e2 e12 w (dx1 dx2 cw v : R) :
  settled w -> idle (self w) -> roomy_limits eps (self w) -> free_azimuth (self w) ->
  Transform.parentPosition (transform w) = Vector3.zero ->
  rotateSpeed (self w) = Fin v ->
  horizontal_drag dx1 cw e1 -> horizontal_drag dx2 cw e2 ->
  horizontal_drag (dx1 + dx2) cw e12 ->
  exists w2 w12,
    frames w [e1; e2] = Ok w2 /\ frames w [e12] = Ok w12 /\
    transform w2 = transform w12 /\ _target (self w2) = _target (self w12).
Proof.
  intros Hs Hi Hl Hf Hz Hv H1 H2 H12.
  assert (Hcw : cw <> 0) by (destruct H1 as (_ & _ & _ & p & r & ch & _ & _ & _ & Hcw & _);
                              exact Hcw).
  destruct (swung_update_again (drag_angle dx1 cw v) w v Hs Hl Hf Hz Hv)
    as (Hs1 & Hi1 & Hf1 & Hz1 & Hv1 & Ht1 & Ho1).
  unfold frames. cbn [iterate].
  rewrite (horizontal_drag_frame e1 w dx1 cw v), (horizontal_drag_frame e12 w (dx1 + dx2) cw v)
    by assumption.
  cbn [bind_result]. rewrite (horizontal_drag_frame e2 _ dx2 cw v) by assumption.
  eexists _, _. split; [reflexivity|]. split; [reflexivity|].
  rewrite !updateTransform_target. split; [|exact Ht1].
  rewrite !updateTransform_root by (try apply settled_swung; assumption). cbv zeta.
  change (_target (self (swung ?d ?x))) with (_target (self x)).
  pose proof (prepared_offset_finite w Hs).
  rewrite !offset_swung, Ho1, Ht1, rotateY_add, drag_angle_add by assumption.
  reflexivity.
Qed.

(** ** The drag by whole canvas widths *)

(** C25. A drag by a whole number of canvas widths turns the camera by whole
    turns: with the default speed and azimuth limits the frame leaves the
    transform and the target as a frame without input leaves them. *)
Theorem drag_whole_turns e w (p : Pointer xreal) (rest : list (Pointer xreal))
    (cw ch : R) (k : Z) :
  settled w -> idle (self w) ->
  dragging e = true -> pan_keys_up e -> wheelDelta (inputManager e) = None ->
  pointers (inputManager e) = p :: rest ->
  deltaPosition p = Vector2.mk (Fin (IZR k * cw)) (Fin 0) ->
  Engine.canvas e = mkCanvas (Fin cw) (Fin ch) -> cw <> 0 -> ch <> 0 ->
  rotateSpeed (self w) = Fin 1 ->
  minAzimuthAngle (self w) = NInf -> maxAzimuthAngle (self w) = PInf ->
  exists w', onUpdate e w = Ok w' /\
    transform w' = transform (_updateTransform w) /\
    _target (self w') = _target (self w).
Proof.
  intros Hs Hi Hd Hk Hw Hp Hpd Hc Hcw Hch Hv Hlo Hhi.
  assert (Hh : horizontal_drag (IZR k * cw) cw e)
    by (repeat split; try assumption; now exists p, rest, ch).
  eexists. rewrite (horizontal_drag_frame e w (IZR k * cw) cw 1) by assumption.
  split; [reflexivity|]. rewrite drag_angle_widths by assumption.
  apply (updateTransform_turned_by (- k)); [auto with vc | now split].
Qed.

End Turns.
