(* ===== verification/NotANumber.v ===== *)
(** * NotANumber: a camera that has lost its place

    The theorems of [InputProps] ask of a frame that its canvas has a size
    that is not zero.  This file shows what the hypothesis keeps out.  Line
    101 divides by [this.canvas.width]; on a canvas of width zero a drag
    makes the pending azimuth infinite, [Math.sin] and [Math.cos] of the
    azimuth are [NaN], and the position [_updateTransform] writes is [NaN]
    ([empty_canvas_poisons]).  Nothing in the code brings a number back: the
    next call of [_updateTransform] reads a distance of [NaN] from the
    position, [Math.max] and [Math.min] pass it through the clamps, and the
    position written is [NaN] again, whatever the input and the limits are
    ([lost_frames]).

    The contract of [Spherical] speaks of finite values only, so the
    theorems of this file are about the implementation of [SphericalCoord]
    ([Spherical.spec_ops]), over the extended reals. *)

From Stdlib Require Import Reals Lra List Bool.
From S2P Require Import Prelude Numbers XReal Vectors SphericalCoord Engine EngineProps.
From S2P Require Import ViewportControl UpdateProps OrbitProps InputProps.
Import ListNotations.

Local Open Scope R_scope.

#[local] Existing Instance Spherical.spec_ops.

(** The vector without a number in it. *)
Definition vnan : Vector3.t xreal := Vector3.mk XNaN XNaN XNaN.

(** The camera has lost its place: the first coordinate of its position is
    [NaN]. *)
Definition lost (w : World xreal) : Prop :=
  Vector3.x (Transform.position (transform w)) = XNaN.

(** ** [NaN] through the vectors *)

Lemma add_vnan_r (p : Vector3.t xreal) : Vector3.add p vnan = vnan.
Proof. unfold Vector3.add, vnan. cbn. now autorewrite with nan_rw. Qed.

Lemma transformByQuat_vnan (q : Quaternion.t xreal) :
  Quaternion.transformByQuat vnan q = vnan.
Proof.
  unfold Quaternion.transformByQuat, Vector3.add, Vector3.scale, vnan. cbn.
  now autorewrite with nan_rw.
Qed.

(** A vector whose first coordinate is [NaN], in world space. *)
Lemma transformByQuat_nan_x (v : Vector3.t xreal) (q : Quaternion.t xreal) :
  Vector3.x v = XNaN -> Vector3.x (Quaternion.transformByQuat v q) = XNaN.
Proof.
  intros Hv. unfold Quaternion.transformByQuat, Vector3.add, Vector3.scale. cbn.
  rewrite Hv. now autorewrite with nan_rw.
Qed.

(** ** [NaN] through the spherical coordinates *)

(** The distance read from an offset with a [NaN] in it is [NaN]. *)
Lemma setFromVec3_lost (s : Spherical.t xreal) (v : Vector3.t xreal) (b : bool) :
  Vector3.x v = XNaN -> Spherical.radius (Spherical.impl_setFromVec3 s v b) = XNaN.
Proof.
  destruct v as [x y z]. cbn [Vector3.x]. intros ->.
  unfold Spherical.impl_setFromVec3. generalize (Spherical.frame (Spherical.yAxis s)).
  intros q. cbn. now destruct b.
Qed.

(** The offset of a distance [NaN] is [NaN]. *)
Lemma setToVec3_lost (s : Spherical.t xreal) :
  Spherical.radius s = XNaN -> fst (Spherical.impl_setToVec3 s) = vnan.
Proof.
  intros Hr. unfold Spherical.impl_setToVec3. cbn [fst]. rewrite Hr.
  cbn [Math_sin Math_cos MathFns_xreal mul Number_xreal].
  autorewrite with nan_rw. cbn [xmul]. apply transformByQuat_vnan.
Qed.

(** The offset of an infinite azimuth has a [NaN] in it. *)
Lemma setToVec3_infinite_theta (s : Spherical.t xreal) :
  Spherical.theta s = PInf \/ Spherical.theta s = NInf ->
  Vector3.x (fst (Spherical.impl_setToVec3 s)) = XNaN.
Proof.
  intros Ht. unfold Spherical.impl_setToVec3. cbn [fst].
  apply transformByQuat_nan_x. cbn [Vector3.x Math_sin MathFns_xreal mul Number_xreal].
  destruct Ht as [-> | ->]; cbn [xsin]; apply xmul_nan_r.
Qed.

Section Lost.

Implicit Types (w : World xreal) (e : Engine xreal) (c : ViewportControl xreal).

(** ** [_updateTransform] on a lost camera *)

Lemma readOffset_lost w :
  lost w -> Spherical.radius (_spherical (readOffset w)) = XNaN.
Proof.
  intros Hw. rewrite readOffset_spherical.
  apply setFromVec3_lost. unfold Vector3.subtract. cbn [Vector3.x]. now rewrite Hw.
Qed.

Lemma updateTransform_lost w :
  lost w -> Transform.position (transform (_updateTransform w)) = vnan.
Proof.
  intros Hw. rewrite updateTransform_position.
  change (Spherical.setToVec3 ?s) with (Spherical.impl_setToVec3 s).
  rewrite setToVec3_lost, add_vnan_r; [reflexivity|].
  rewrite (prepared_radius (C := spec_ops_contract)). cbv zeta.
  rewrite readOffset_lost by assumption. cbn [xadd]. now autorewrite with nan_rw.
Qed.

(** ** The blocks of [onUpdate] on a lost camera *)

Lemma move_lost (vec : Vector3.t xreal) w : lost w -> lost (_move vec w).
Proof.
  unfold lost, _move, Transform.translate, Vector3.add. cbn. now intros ->.
Qed.

Lemma pan_lost e w : lost w -> lost (pan e w).
Proof.
  intros Hw. unfold pan, panHeight, panSide, panDepth. cbv zeta.
  repeat break_match; auto using move_lost.
Qed.

(** A frame that returns leaves a lost camera without a position. *)
Lemma onUpdate_lost e w w' :
  lost w -> onUpdate e w = Ok w' -> Transform.position (transform w') = vnan.
Proof.
  intros Hw. rewrite onUpdate_unfold. intros H.
  apply bind_result_inv in H. destruct H as (c & _ & [= <-]).
  apply updateTransform_lost, (pan_lost e w Hw).
Qed.

(** No run of frames finds the place again. *)
Lemma lost_frames (es : list (Engine xreal)) w w' :
  lost w -> frames w es = Ok w' -> lost w'.
Proof.
  apply (iterate_invariant (fun w e => onUpdate e w) lost).
  intros s e s' Hs Hrun. unfold lost. now rewrite (onUpdate_lost e s s' Hs Hrun).
Qed.

(** ** How the place is lost *)

(** The drag block on a canvas of width zero: the pending azimuth becomes
    infinite. *)
Lemma dragRotate_empty_canvas e c (p : Pointer xreal) (rest : list (Pointer xreal))
    (dx dy ch v : R) :
  dragging e = true -> pointers (inputManager e) = p :: rest ->
  deltaPosition p = Vector2.mk (Fin dx) (Fin dy) -> dx <> 0 ->
  Engine.canvas e = mkCanvas (Fin 0) (Fin ch) ->
  rotateSpeed c = Fin v -> v <> 0 ->
  Spherical.theta (_sphericalDelta c) = Fin 0 ->
  exists i ph,
    (i = PInf \/ i = NInf) /\
    dragRotate e c
    = Ok (with_sphericalDelta c
            (Spherical.set_phi (Spherical.set_theta (_sphericalDelta c) i) ph)).
Proof.
  intros Hd Hp Hpd Hdx Hc Hv Hv0 Ht0. unfold dragRotate. cbv zeta.
  change (isKeyHeldDown (inputManager e) AltLeft
          && isPointerHeldDown (inputManager e) Primary) with (dragging e).
  rewrite Hd, Hp, Hpd.
  cbn [with_sphericalDelta _sphericalDelta rotateSpeed canvas Spherical.set_theta
       Spherical.set_phi Spherical.theta Vector2.x Vector2.y].
  destruct (canvas c). cbn [deref]. rewrite Hc, Hv, Ht0. cbn [width height].
  change (two * Math_PI * Fin dx / Fin 0 * Fin v)%num
    with (xmul (xdiv (Fin (2 * PI * dx)) (Fin 0)) (Fin v)).
  assert (Ha : 2 * PI * dx <> 0) by (pose proof PI_RGT_0; nra).
  eexists _, _. split; [|reflexivity].
  destruct (xmul_inf_fin _ v (xdiv_zero _ Ha) Hv0) as [-> | ->]; cbn; auto.
Qed.

(** C31. A drag on a canvas of width zero takes the camera's place for good:
    line 101 divides by the width, the pending azimuth becomes infinite, the
    position [_updateTransform] writes has a [NaN] in it, and after every
    later run of frames, whatever their input, it still has. *)
Theorem empty_canvas_poisons e w (p : Pointer xreal) (rest : list (Pointer xreal))
    (dx dy ch v : R) :
  settled w -> idle (self w) ->
  minAzimuthAngle (self w) = NInf -> maxAzimuthAngle (self w) = PInf ->
  rotateSpeed (self w) = Fin v -> v <> 0 ->
  dragging e = true -> pan_keys_up e -> wheelDelta (inputManager e) = None ->
  pointers (inputManager e) = p :: rest ->
  deltaPosition p = Vector2.mk (Fin dx) (Fin dy) -> dx <> 0 ->
  Engine.canvas e = mkCanvas (Fin 0) (Fin ch) ->
  exists w', onUpdate e w = Ok w' /\
    forall es w'', frames w' es = Ok w'' -> lost w''.
Proof.
  intros Hs (Hdt & _) Hlo Hhi Hv Hv0 Hd Hk Hw Hp Hpd Hdx Hc.
  destruct (dragRotate_empty_canvas e (self w) p rest dx dy ch v)
    as (i & ph & Hi & Hdrag); try assumption.
  destruct (readOffset_finite (C := spec_ops_contract) w (settled_ready w Hs))
    as (Ht & _ & _).
  eexists. rewrite onUpdate_unfold, pan_keys_up_idle by assumption.
  unfold wheelZoom at 1. rewrite Hw, Hdrag. split; [reflexivity|].
  intros es w''. apply lost_frames. unfold lost.
  rewrite updateTransform_position. unfold Vector3.subtract, Vector3.add.
  cbn [Vector3.x self transform].
  change (Spherical.setToVec3 ?s) with (Spherical.impl_setToVec3 s).
  rewrite setToVec3_infinite_theta; [now autorewrite with nan_rw|].
  rewrite (prepared_theta (C := spec_ops_contract)).
  cbn [self with_sphericalDelta minAzimuthAngle maxAzimuthAngle _sphericalDelta
       Spherical.set_phi Spherical.set_theta Spherical.theta].
  rewrite Hlo, Hhi.
  change (_spherical (readOffset (mkWorld ?c (transform w))))
    with (_spherical (readOffset w)).
  finite_cases. destruct Hi as [-> | ->]; cbn; auto.
Qed.

End Lost.
