(* ===== verification/Refinement.v ===== *)
(** * Refinement: the controller implements an orbit

    The specification describes the controller as a camera on an orbit: a
    target, an offset of the camera from the target, and once per frame a
    gesture (a pan, a zoom factor, a rotation) that moves the target and
    turns and scales the offset within the limits.  This file states that
    machine ([Orbit], [Gesture], [orbit_step]) and proves that [onUpdate]
    implements it: a simulation between the worlds of the program and the
    states of the machine ([refines]).

    The machine has no counterpart of the private fields [_spherical],
    [_sphericalDelta], [_scale], [_zoomFrag] and [_atTheBack], nor of the
    orientation of the transform: the simulation shows that between two
    frames they are determined by the target and the offset. *)

From Stdlib Require Import Reals Lra List Bool.
From S2P Require Import Prelude Numbers XReal Vectors SphericalCoord Engine EngineProps.
From S2P Require Import ViewportControl UpdateProps OrbitProps InputProps.
Import ListNotations.

Local Open Scope bool_scope.
Local Open Scope R_scope.

(** ** The abstract machine *)

(** A camera on its orbit: the point it looks at and where it is, seen from
    that point. *)
Record Orbit : Type := mkOrbit {
  o_target : Vector3.t xreal;
  o_offset : Vector3.t xreal
}.

(** The input of one frame: the vectors to pan by, in the axes of the
    camera; the factor to scale the distance by; the angles to turn by. *)
Record Gesture : Type := mkGesture {
  g_pan : list (Vector3.t xreal);
  g_scale : xreal;
  g_dtheta : xreal;
  g_dphi : xreal
}.

Record Limits : Type := mkLimits {
  azimuth_lo : xreal;
  azimuth_hi : xreal;
  polar_lo : xreal;
  polar_hi : xreal;
  distance_lo : xreal;
  distance_hi : xreal
}.

(** Where the camera of an orbit is, and how it is turned: towards the
    target, with the up axis as the roll reference. *)
Definition o_position (a : Orbit) : Vector3.t xreal :=
  Vector3.add (o_target a) (o_offset a).

Definition o_rotation (a : Orbit) : Quaternion.t xreal :=
  Transform.lookRotation (o_position a) (o_target a) upY.

(** The limits of a script. *)
Definition limits_of (c : ViewportControl xreal) : Limits :=
  mkLimits (minAzimuthAngle c) (maxAzimuthAngle c) (minPolarAngle c) (maxPolarAngle c)
    (minDistance c) (maxDistance c).

Section Machine.

Context {ops : Spherical.Ops xreal} {eps : R} {C : Spherical.Contract ops eps}.

(** A spherical value with the up axis of the controller. *)
Definition blank : Spherical.t xreal := Spherical.mk (Fin 1) (Fin 0) (Fin 0) upY.

(** The coordinates of an offset after a gesture: turned, scaled, and
    clamped to the limits and to the safe polar interval. *)
Definition orbit_coords (l : Limits) (g : Gesture) (v : Vector3.t xreal) : Spherical.t xreal :=
  let s := Spherical.setFromVec3 blank v false in
  Spherical.mk
    (xmax (distance_lo l)
       (xmin (distance_hi l) (zoomed (Spherical.radius s) (g_scale g) (Fin 0))))
    (xmax (Fin eps)
       (xmin (Fin (PI - eps))
          (xmax (polar_lo l) (xmin (polar_hi l) (xadd (Spherical.phi s) (g_dphi g))))))
    (xmax (azimuth_lo l) (xmin (azimuth_hi l) (xadd (Spherical.theta s) (g_dtheta g))))
    upY.

(** One frame of the machine: the target moves by the pan, turned into
    world space by the orientation of the camera; the offset becomes the
    vector of the new coordinates. *)
Definition orbit_step (l : Limits) (g : Gesture) (a : Orbit) : Orbit :=
  mkOrbit
    (fold_left
       (fun t v => Vector3.add t (Quaternion.transformByQuat v (o_rotation a)))
       (g_pan g) (o_target a))
    (fst (Spherical.setToVec3 (orbit_coords l g (o_offset a)))).

(** ** From the program to the machine *)

(** The gesture of a frame: the pan vectors of the keys held, and what the
    wheel and drag blocks leave pending. *)
Definition gesture (e : Engine xreal) (c : ViewportControl xreal) : Gesture :=
  let c' := match accumulate e c with Ok c' => c' | Throw _ => c end in
  mkGesture (pan_vectors e) (_scale c')
    (Spherical.theta (_sphericalDelta c')) (Spherical.phi (_sphericalDelta c')).

(** A world implements an orbit between two frames: it can run, nothing is
    pending, the entity has no displaced parent, and the target, the position
    and the orientation are the ones of the orbit. *)
Definition refines (a : Orbit) (w : World xreal) : Prop :=
  running w /\ idle (self w) /\ _atTheBack (self w) = false /\
  Transform.parentPosition (transform w) = Vector3.zero /\
  vfinite (o_offset a) /\
  _target (self w) = o_target a /\
  Transform.position (transform w) = o_position a /\
  Transform.rotationQuaternion (transform w) = o_rotation a.

(** The orbit a world is on. *)
Definition orbit_of (w : World xreal) : Orbit :=
  mkOrbit (_target (self w))
    (Vector3.subtract (Transform.position (transform w)) (_target (self w))).

(** ** The simulation *)

Implicit Types (a : Orbit) (w : World xreal) (e : Engine xreal).

Lemma refines_settled a w : refines a w -> settled w.
Proof. now intros ((H & _) & _). Qed.

(** The offset the program reads is the offset of the orbit. *)
Lemma refines_offset a w :
  refines a w ->
  Vector3.subtract (Transform.position (transform w)) (_target (self w)) = o_offset a.
Proof.
  intros (Hr & _ & _ & _ & Hv & Ht & Hp & _). rewrite Hp, Ht. unfold o_position.
  apply subtract_add_cancel; [assumption|]. rewrite <- Ht. destruct Hr. auto with vc.
Qed.

(** The coordinates the program reads are the coordinates of that offset. *)
Lemma readOffset_refines a w :
  refines a w ->
  _spherical (readOffset w) = Spherical.setFromVec3 blank (o_offset a) false.
Proof.
  intros Hr. rewrite readOffset_spherical, (refines_offset a w Hr).
  destruct Hr as ((Hs & _) & _ & -> & _). apply Spherical.setFromVec3_ext, Hs.
Qed.

(** An orbit determines what a host sees of the worlds that implement it:
    the transform of the camera and the target. *)
Lemma refines_unique a w w' :
  refines a w -> refines a w' ->
  transform w' = transform w /\ _target (self w') = _target (self w).
Proof.
  intros (_ & _ & _ & Hz & _ & Ht & Hp & Hq) (_ & _ & _ & Hz' & _ & Ht' & Hp' & Hq').
  split; [|congruence].
  destruct (transform w), (transform w'). cbn in *. congruence.
Qed.

(** What [_updateTransform] reads after the blocks of [onUpdate]: the pan
    has moved the camera and the target together. *)
Lemma readOffset_handed a w e (s t p : xreal) :
  refines a w ->
  _spherical (readOffset (handed e w s t p)) =
  Spherical.setFromVec3 blank (o_offset a) false.
Proof.
  intros Hr. pose proof (refines_settled a w Hr) as Hs.
  destruct (pan_same_orbit e w Hs) as (_ & _ & Ho).
  rewrite readOffset_spherical. unfold handed.
  cbn [self transform with_target pending_input with_sphericalDelta with_scale
       _target _spherical _atTheBack].
  rewrite Ho, (refines_offset a w Hr).
  destruct Hr as (_ & _ & -> & _). apply Spherical.setFromVec3_ext. apply Hs.
Qed.

(** So the coordinates it writes are the coordinates of the machine. *)
Lemma prepared_handed a w e (s t p : xreal) :
  refines a w ->
  _spherical (prepared (handed e w s t p)) =
  orbit_coords (limits_of (self w)) (mkGesture (pan_vectors e) s t p) (o_offset a).
Proof.
  intros Hr. rewrite prepared_spherical, (readOffset_handed a) by assumption.
  destruct Hr as ((Hs & _) & (_ & _ & _ & Hz) & _).
  unfold handed, orbit_coords, limits_of. cbv zeta.
  cbn [self with_target pending_input with_sphericalDelta with_scale _spherical
       _sphericalDelta _scale _zoomFrag minAzimuthAngle maxAzimuthAngle minPolarAngle
       maxPolarAngle minDistance maxDistance Spherical.set_phi Spherical.set_theta
       Spherical.theta Spherical.phi azimuth_lo azimuth_hi polar_lo polar_hi
       distance_lo distance_hi g_scale g_dtheta g_dphi].
  rewrite Hz. f_equal. apply Hs.
Qed.

(** The target after the pan blocks is the target of the machine. *)
Lemma target_handed a w e (s t p : xreal) :
  refines a w ->
  _target (self (handed e w s t p)) =
  fold_left (fun t v => Vector3.add t (Quaternion.transformByQuat v (o_rotation a)))
    (pan_vectors e) (o_target a).
Proof.
  intros (_ & _ & _ & _ & _ & Ht & _ & Hq). unfold handed.
  cbn [self with_target _target]. now rewrite pan_moves, moves_target, Ht, Hq.
Qed.

Lemma parent_handed w e (s t p : xreal) :
  Transform.parentPosition (transform (handed e w s t p)) =
  Transform.parentPosition (transform w).
Proof. unfold handed. cbn [transform]. now rewrite pan_moves, moves_parent. Qed.

(** After [_updateTransform] a world without a displaced parent is on the
    orbit of its target and of the offset written. *)
Lemma refines_updateTransform w :
  running w -> Transform.parentPosition (transform w) = Vector3.zero ->
  refines
    (mkOrbit (_target (self w)) (fst (Spherical.setToVec3 (_spherical (prepared w)))))
    (_updateTransform w).
Proof.
  intros Hr Hz. pose proof Hr as (Hs & _).
  destruct (settled_polar w Hs) as [Hp1 Hp2].
  destruct (updateTransform_settled w Hs) as [Hs1 Hi1].
  unfold refines, o_rotation, o_position. cbn [o_target o_offset].
  rewrite updateTransform_root, updateTransform_atTheBack, updateTransform_target
    by assumption.
  cbv zeta. cbn [Transform.position Transform.rotationQuaternion Transform.parentPosition].
  split; [|split; [|split; [|split; [|split; [|split; [|split]]]]]];
    try reflexivity; try assumption.
  - apply (running_config w); [apply updateTransform_config | assumption | assumption].
  - apply prepared_front; auto with vc.
  - now apply prepared_offset_finite.
Qed.

(** One frame: when a world implements an orbit and the input of the frame
    is usable, [onUpdate] returns, and the world it returns implements the
    orbit the machine steps to under the gesture of the frame. *)
Lemma onUpdate_refines a w e :
  refines a w -> sound_frame e ->
  exists w', onUpdate e w = Ok w' /\
             refines (orbit_step (limits_of (self w)) (gesture e (self w)) a) w'.
Proof.
  intros Hr Hf. pose proof Hr as (Hrun & _ & _ & Hz & _).
  destruct (onUpdate_step e w Hrun Hf) as (s & t & p & Ha & -> & Hs0).
  eexists. split; [reflexivity|].
  unfold orbit_step, gesture. rewrite Ha. cbv zeta.
  change (_scale (pending_input (self w) s t p)) with s.
  change (Spherical.theta (_sphericalDelta (pending_input (self w) s t p))) with t.
  change (Spherical.phi (_sphericalDelta (pending_input (self w) s t p))) with p.
  cbn [g_pan]. rewrite <- (prepared_handed a w e s t p), <- (target_handed a w e s t p)
    by assumption.
  apply refines_updateTransform; [|now rewrite parent_handed].
  apply (running_config w); auto.
Qed.

(** *** Runs *)

(** The gesture and the limits are read from the configuration: two scripts
    of the same configuration with nothing pending see the same gesture in a
    frame. *)
Lemma limits_config (c c' : ViewportControl xreal) :
  config c = config c' -> limits_of c = limits_of c'.
Proof. unfold config, limits_of. intros Hc. now inv Hc. Qed.

Lemma gesture_config e (c c' : ViewportControl xreal) :
  config c = config c' -> idle c -> idle c' -> gesture e c = gesture e c'.
Proof.
  intros Hc (Ht & Hp & Hs & _) (Ht' & Hp' & Hs' & _).
  destruct (config_speeds _ _ Hc) as [Er Ez].
  unfold gesture, accumulate, wheelZoom, dragRotate. cbv zeta.
  repeat break_match;
    cbn [with_scale with_sphericalDelta _scale _sphericalDelta rotateSpeed canvas
         Spherical.set_theta Spherical.set_phi Spherical.theta Spherical.phi];
    rewrite ?Ht, ?Hp, ?Hs, ?Ht', ?Hp', ?Hs', ?Er, ?Ez;
    destruct (canvas c), (canvas c'); reflexivity.
Qed.

(** A run of the machine under the gestures of a list of frames. *)
Definition orbit_run (c : ViewportControl xreal) (es : list (Engine xreal)) (a : Orbit) :
    Orbit :=
  fold_left (fun a e => orbit_step (limits_of c) (gesture e c) a) es a.

Lemma orbit_run_config (c c' : ViewportControl xreal) es a :
  config c = config c' -> idle c -> idle c' -> orbit_run c es a = orbit_run c' es a.
Proof.
  intros Hc Hi Hi'. revert a. unfold orbit_run.
  induction es as [|e es IH]; intros a; cbn [fold_left]; [reflexivity|].
  now rewrite IH, (limits_config _ _ Hc), (gesture_config e _ _ Hc Hi Hi').
Qed.

(** C2. The refinement: from a world that implements an orbit, every run
    of frames with usable input returns, and the world it returns implements
    the orbit the machine reaches under the gestures of the frames.  The
    target, the position and the orientation of the camera after the run are
    those of the machine; the private fields of the script play no part. *)
Theorem frames_refine a w (es : list (Engine xreal)) :
  refines a w -> Forall sound_frame es ->
  exists w', frames w es = Ok w' /\ refines (orbit_run (self w) es a) w'.
Proof.
  revert a w. induction es as [|e es IH]; intros a w Hr Hf.
  - exists w. now split.
  - apply Forall_cons_iff in Hf. destruct Hf as [He Hf].
    destruct (onUpdate_refines a w e Hr He) as (w1 & Hu & Hr1).
    destruct (IH _ w1 Hr1 Hf) as (w' & Hrun & Hr').
    exists w'. split.
    + unfold frames in *. cbn [iterate]. now rewrite Hu.
    + change (orbit_run (self w) (e :: es) a)
        with (orbit_run (self w) es (orbit_step (limits_of (self w)) (gesture e (self w)) a)).
      rewrite (orbit_run_config (self w) (self w1)); [assumption| |apply Hr|apply Hr1].
      symmetry. now apply (onUpdate_config e).
Qed.

(** After [_updateTransform] a world is on the orbit of its own target and
    position. *)
Lemma orbit_of_updateTransform w :
  running w -> Transform.parentPosition (transform w) = Vector3.zero ->
  refines (orbit_of (_updateTransform w)) (_updateTransform w).
Proof.
  intros Hr Hz. pose proof (refines_updateTransform w Hr Hz) as Hu.
  unfold orbit_of. rewrite (refines_offset _ _ Hu). cbn [o_offset].
  now rewrite updateTransform_target.
Qed.

(** C34. One frame puts a world on an orbit: from a world that can run,
    on an entity without a displaced parent, a frame with usable input
    returns a world that implements the orbit of its own target and
    position. *)
Theorem onUpdate_establishes_orbit w e :
  running w -> Transform.parentPosition (transform w) = Vector3.zero ->
  sound_frame e ->
  exists w', onUpdate e w = Ok w' /\ refines (orbit_of w') w'.
Proof.
  intros Hr Hz Hf. destruct (onUpdate_step e w Hr Hf) as (s & t & p & _ & -> & Hs0).
  eexists. split; [reflexivity|].
  apply orbit_of_updateTransform; [|now rewrite parent_handed].
  apply (running_config w); auto.
Qed.

End Machine.

Arguments orbit_coords {ops} eps l g v.
Arguments orbit_step {ops} eps l g a.
Arguments orbit_run {ops} eps c es a.
