(* ===== verification/Gesture.v ===== *)
(** * Gesture: the input of a frame as the specification reads it

    The machine of [Refinement] takes a gesture per frame.  There the
    gesture of a frame is what the wheel and drag blocks of the program leave
    pending ([gesture]), so the simulation says nothing about those blocks.
    This file gives the gesture the specification describes (section 4.2,
    step 1), computed from what the input devices report and from nothing of
    the program:

    - the wheel step [d], if the wheel has moved: the distance is scaled by
      [1 / 0.95 ^ zoomSpeed] for a positive step and by [0.95 ^ zoomSpeed]
      for a negative one ([wheel_factor]);
    - the movement [(dx, dy)] of the first pointer in pixels, if the modifier
      key and the primary button are held: the camera turns by
      [- 2 PI dx / width * rotateSpeed] about the up axis and by
      [- 2 PI dy / height * rotateSpeed] towards the pole ([drag_angle]).

    [reads] ties a snapshot of the engine to such a reading, and
    [frames_refine_spec] is the simulation under the gestures of the
    readings: a wheel block with the directions swapped, or a drag block
    that divides by the wrong side of the canvas, does not implement the
    machine. *)

From Stdlib Require Import Reals Lra List Bool.
From S2P Require Import Prelude Numbers XReal Vectors SphericalCoord Engine EngineProps.
From S2P Require Import ViewportControl UpdateProps OrbitProps InputProps Turns Refinement.
Import ListNotations.

Local Open Scope R_scope.

(** ** Readings *)

(** What the devices report in a frame: the wheel step, if the wheel has
    moved; the movement of the first pointer, if a drag is on; the size of
    the canvas. *)
Record Reading : Type := mkReading {
  r_wheel : option R;
  r_drag : option (R * R);
  r_width : R;
  r_height : R
}.

Implicit Types (e : Engine xreal) (i : Reading) (c : ViewportControl xreal).

(** The snapshot [e] reports the reading [i]. *)
Definition reads e i : Prop :=
  match r_wheel i with
  | Some d => exists wd, wheelDelta (inputManager e) = Some wd /\ Vector3.y wd = Fin d
  | None => wheelDelta (inputManager e) = None
  end /\
  match r_drag i with
  | Some (dx, dy) =>
      dragging e = true /\
      exists p rest, pointers (inputManager e) = p :: rest /\
                     deltaPosition p = Vector2.mk (Fin dx) (Fin dy)
  | None => dragging e = false
  end /\
  Engine.canvas e = mkCanvas (Fin (r_width i)) (Fin (r_height i)) /\
  r_width i <> 0 /\ r_height i <> 0.

(** The factor and the two angles of a reading, at the speeds [z] and
    [v]. *)
Definition reading_scale i (z : R) : R :=
  match r_wheel i with Some d => wheel_factor d z | None => 1 end.

Definition reading_dtheta i (v : R) : R :=
  match r_drag i with Some (dx, _) => drag_angle dx (r_width i) v | None => 0 end.

Definition reading_dphi i (v : R) : R :=
  match r_drag i with Some (_, dy) => drag_angle dy (r_height i) v | None => 0 end.

(** The gesture of the specification. *)
Definition spec_gesture (pans : list (Vector3.t xreal)) i (z v : R) : Gesture :=
  mkGesture pans (Fin (reading_scale i z)) (Fin (reading_dtheta i v))
    (Fin (reading_dphi i v)).

(** A frame that reports a reading is usable. *)
Lemma reads_sound e i : reads e i -> sound_frame e.
Proof.
  intros (_ & Hd & Hc & Hw & Hh) Hon. destruct (r_drag i) as [[dx dy]|]; [|congruence].
  destruct Hd as (_ & p & rest & Hp & Hdp). exists p, rest.
  rewrite Hp, Hdp, Hc. cbn [Vector2.x Vector2.y width height].
  repeat split; congruence.
Qed.

(** ** The blocks compute the gesture *)

Section Blocks.

Context {ops : Spherical.Ops xreal}.

(** The wheel block leaves the factor of the reading pending. *)
Lemma wheelZoom_reads e c i (z : R) :
  reads e i -> _scale c = Fin 1 -> zoomSpeed c = Fin z ->
  wheelZoom e c = with_scale c (Fin (reading_scale i z)).
Proof.
  intros (Hw & _) Hs Hz. unfold reading_scale. destruct (r_wheel i) as [d|].
  - destruct Hw as (wd & Hw & Hy).
    rewrite (wheelZoom_scale e c wd d z 1), Rmult_1_l by assumption. reflexivity.
  - unfold wheelZoom. rewrite Hw, <- Hs. now destruct c.
Qed.

(** The drag block leaves the angles of the reading pending. *)
Lemma dragRotate_reads e c i (v : R) :
  reads e i -> rotateSpeed c = Fin v ->
  Spherical.theta (_sphericalDelta c) = Fin 0 -> Spherical.phi (_sphericalDelta c) = Fin 0 ->
  dragRotate e c =
  Ok (with_sphericalDelta c
        (Spherical.set_phi
           (Spherical.set_theta (_sphericalDelta c) (Fin (reading_dtheta i v)))
           (Fin (reading_dphi i v)))).
Proof.
  intros (_ & Hd & Hc & Hw & Hh) Hv Ht Hp. unfold reading_dtheta, reading_dphi.
  destruct (r_drag i) as [[dx dy]|].
  - destruct Hd as (Hon & p & rest & Hps & Hdp).
    rewrite (dragRotate_delta e c p rest dx dy (r_width i) (r_height i) v 0 0)
      by assumption.
    unfold drag_angle. now rewrite !Rminus_0_l.
  - rewrite dragRotate_idle by assumption. f_equal.
    destruct c as [? ? ? ? ? ? ? ? ? ? d ? ? ? ? ?]. cbn in Ht, Hp |- *.
    destruct d. cbn in Ht, Hp |- *. now rewrite Ht, Hp.
Qed.

(** So the gesture the program hands to [_updateTransform] is the gesture
    of the specification. *)
Lemma gesture_reads e c i (z v : R) :
  idle c -> zoomSpeed c = Fin z -> rotateSpeed c = Fin v -> reads e i ->
  gesture e c = spec_gesture (pan_vectors e) i z v.
Proof.
  intros (Ht & Hp & Hs & _) Hz Hv Hr. unfold gesture, accumulate.
  rewrite (wheelZoom_reads e c i z), (dragRotate_reads e _ i v) by assumption.
  reflexivity.
Qed.

End Blocks.

(** ** The simulation under the gestures of the specification *)

Section Simulation.

Context {ops : Spherical.Ops xreal} {eps : R} {C : Spherical.Contract ops eps}.
Implicit Types (a : Orbit) (w : World xreal).

(** A run of the machine under the gestures of a list of frames and their
    readings, at the speeds [z] and [v]. *)
Definition spec_run (l : Limits) (z v : R) (fs : list (Engine xreal * Reading)) a : Orbit :=
  fold_left
    (fun a f => orbit_step eps l (spec_gesture (pan_vectors (fst f)) (snd f) z v) a) fs a.

(** One frame. *)
Lemma onUpdate_refines_spec a w e i (z v : R) :
  refines a w -> zoomSpeed (self w) = Fin z -> rotateSpeed (self w) = Fin v ->
  reads e i ->
  exists w', onUpdate e w = Ok w' /\ config (self w') = config (self w) /\
    refines (orbit_step eps (limits_of (self w)) (spec_gesture (pan_vectors e) i z v) a) w'.
Proof.
  intros Hr Hz Hv Hi.
  destruct (onUpdate_refines a w e Hr (reads_sound e i Hi)) as (w' & Hu & Hr').
  rewrite (gesture_reads e (self w) i z v) in Hr' by (try assumption; apply Hr).
  exists w'. split; [exact Hu|]. split; [exact (onUpdate_config e w w' Hu) | exact Hr'].
Qed.

(** C3. The controller implements the orbit machine under the gestures of
    the specification.  From a world that implements an orbit, every run of
    frames that report readings returns, and the world it returns implements
    the orbit the machine reaches when each frame pans by the vectors of its
    keys, scales the distance by the factor of its wheel step and turns the
    camera by the angles of its drag. *)
Theorem frames_refine_spec a w (fs : list (Engine xreal * Reading)) (z v : R) :
  refines a w -> zoomSpeed (self w) = Fin z -> rotateSpeed (self w) = Fin v ->
  Forall (fun f => reads (fst f) (snd f)) fs ->
  exists w', frames w (map fst fs) = Ok w' /\
             refines (spec_run (limits_of (self w)) z v fs a) w'.
Proof.
  intros Hr Hz Hv Hfs. revert a w Hr Hz Hv.
  induction Hfs as [|[e i] fs Hi Hfs IH]; intros a w Hr Hz Hv.
  - exists w. now split.
  - destruct (onUpdate_refines_spec a w e i z v Hr Hz Hv Hi) as (w1 & Hu & Hc & Hr1).
    destruct (config_speeds _ _ Hc) as [Ev Ez].
    destruct (IH _ w1 Hr1) as (w' & Hrun & Hr'); [congruence..|].
    exists w'. split.
    + unfold frames in *. cbn [map fst iterate]. now rewrite Hu.
    + rewrite (limits_config _ _ Hc) in Hr'. exact Hr'.
Qed.

End Simulation.

Arguments spec_run {ops} eps l z v fs a.
