(* ===== verification/Order.v ===== *)
(** * Order: one frame as two

    [onUpdate] runs its blocks in the order of the source: the pan keys
    (lines 48-82) move the target and the camera, the wheel (lines 84-92) and
    the drag (lines 94-108) leave a scale and a rotation pending, and one
    call of [_updateTransform] (line 110) applies them to the offset the pan
    has left.  This file shows that the order within a frame is the order of
    two frames: from a world at rest on its orbit, a frame ends where two
    frames end, the first with the keys of the frame alone
    ([keys_frame]), the second with everything but the pan keys
    ([rest_frame]).  The proof is against the orbit machine of [Refinement]:
    the private fields of the script play no part in it. *)

From Stdlib Require Import Reals Lra List Bool.
From S2P Require Import Prelude Numbers XReal Vectors SphericalCoord Engine EngineProps.
From S2P Require Import ViewportControl UpdateProps OrbitProps InputProps Refinement.
Import ListNotations.

Local Open Scope bool_scope.
Local Open Scope R_scope.

(** ** The two parts of a frame *)

(** The frame with the keys alone, and the frame with the pan keys
    released, on the same canvas. *)
Definition keys_frame {F} (e : Engine F) : Engine F :=
  mkEngine (keysOnly (inputManager e)) (Engine.canvas e).

Definition rest_frame {F} (e : Engine F) : Engine F :=
  mkEngine (panKeysUp (inputManager e)) (Engine.canvas e).

Section Parts.

Context {F : Type} `{Number F} `{MathFns F} `{Spherical.Ops F}.
Implicit Types (e : Engine F) (c : ViewportControl F).

(** The keys alone pan as the frame does, and do nothing else. *)
Lemma pan_vectors_keys e : pan_vectors (keys_frame e) = pan_vectors e.
Proof. reflexivity. Qed.

Lemma dragging_keys e : dragging (keys_frame e) = false.
Proof.
  unfold dragging, keys_frame. cbn [inputManager].
  now rewrite keysOnly_button, andb_false_r.
Qed.

Lemma accumulate_keys e c : accumulate (keys_frame e) c = Ok c.
Proof.
  unfold accumulate. rewrite dragRotate_idle by apply dragging_keys.
  unfold wheelZoom. cbn. now destruct c.
Qed.

(** The rest does not pan, and leaves pending what the frame does. *)
Lemma alt_rest e : alt (rest_frame e) = alt e.
Proof. unfold alt, rest_frame. cbn [inputManager]. apply panKeysUp_alt. Qed.

Lemma pan_vectors_rest e : pan_vectors (rest_frame e) = [].
Proof.
  pose proof (panKeysUp_released (inputManager e)) as Hk.
  repeat (apply Forall_cons_iff in Hk; destruct Hk as [? Hk]).
  unfold pan_vectors, rest_frame. cbn [inputManager].
  repeat match goal with E : isKeyHeldDown _ _ = false |- _ => rewrite E; clear E end.
  now rewrite !andb_false_r.
Qed.

Lemma dragging_rest e : dragging (rest_frame e) = dragging e.
Proof. unfold dragging. now rewrite alt_rest. Qed.

Lemma accumulate_rest e c : accumulate (rest_frame e) c = accumulate e c.
Proof.
  unfold accumulate, dragRotate. cbv zeta.
  change (isKeyHeldDown (inputManager ?x) AltLeft && isPointerHeldDown (inputManager ?x) Primary)
    with (dragging x).
  now rewrite dragging_rest.
Qed.

End Parts.

Section Order.

Context {ops : Spherical.Ops xreal} {eps : R} {C : Spherical.Contract ops eps}.
Implicit Types (a : Orbit) (w : World xreal) (e : Engine xreal).

(** Both parts are usable when the frame is. *)
Lemma sound_keys_frame e : sound_frame (keys_frame e).
Proof. apply sound_frame_not_dragging, dragging_keys. Qed.

Lemma sound_rest_frame e : sound_frame e -> sound_frame (rest_frame e).
Proof. unfold sound_frame. rewrite dragging_rest. exact (fun H => H). Qed.

(** *** The gestures of the parts *)

Lemma gesture_keys e (c : ViewportControl xreal) :
  idle c -> gesture (keys_frame e) c = mkGesture (pan_vectors e) (Fin 1) (Fin 0) (Fin 0).
Proof.
  intros (Ht & Hp & Hs & _). unfold gesture.
  now rewrite accumulate_keys, pan_vectors_keys, Ht, Hp, Hs.
Qed.

Lemma gesture_rest e (c : ViewportControl xreal) :
  gesture (rest_frame e) c =
  mkGesture [] (g_scale (gesture e c)) (g_dtheta (gesture e c)) (g_dphi (gesture e c)).
Proof. unfold gesture. now rewrite accumulate_rest, pan_vectors_rest. Qed.

(** *** The machine *)

(** The machine takes a gesture in two steps, the pan first, when the pan
    alone leaves the offset as it is. *)
Lemma orbit_step_splits (l : Limits) (g : Gesture) a :
  fst (Spherical.setToVec3
         (orbit_coords eps l (mkGesture (g_pan g) (Fin 1) (Fin 0) (Fin 0)) (o_offset a)))
  = o_offset a ->
  orbit_step eps l (mkGesture [] (g_scale g) (g_dtheta g) (g_dphi g))
    (orbit_step eps l (mkGesture (g_pan g) (Fin 1) (Fin 0) (Fin 0)) a)
  = orbit_step eps l g a.
Proof.
  intros Ho. unfold orbit_step. cbn [g_pan o_target o_offset fold_left]. now rewrite Ho.
Qed.

(** It does for the orbit of a world whose coordinates are within the
    limits. *)
Lemma orbit_at_rest a w e :
  refines a w -> within_limits eps (self w) (_spherical (readOffset w)) ->
  fst (Spherical.setToVec3
         (orbit_coords eps (limits_of (self w))
            (mkGesture (pan_vectors e) (Fin 1) (Fin 0) (Fin 0)) (o_offset a)))
  = o_offset a.
Proof.
  intros Hr Hw. pose proof Hr as ((Hs & _) & (_ & _ & _ & Hz) & _ & _ & Hv & _).
  assert (Hh : settled (handed e w (Fin 1) (Fin 0) (Fin 0)))
    by (apply settled_handed; [assumption|exact I..]).
  rewrite (readOffset_refines a w Hr) in Hw.
  rewrite <- (prepared_handed a w e) by assumption.
  rewrite prepared_idle.
  - rewrite (readOffset_handed a) by assumption. now apply Spherical.roundtrip.
  - apply settled_ready, Hh.
  - repeat split; try reflexivity. exact Hz.
  - rewrite (readOffset_handed a) by assumption. exact Hw.
Qed.

(** C16. The order of a frame is the order of two frames.  From a world at
    rest on its orbit, with coordinates within the limits, a frame with usable
    input ends where two frames end: the first with the keys of the frame and
    nothing else, the second with the pan keys released and the modifier, the
    wheel and the pointer as in the frame.  The camera has the same position
    and orientation, and looks at the same target. *)
Theorem frame_splits a w e :
  refines a w -> within_limits eps (self w) (_spherical (readOffset w)) ->
  sound_frame e ->
  exists w' w'',
    onUpdate e w = Ok w' /\ frames w [keys_frame e; rest_frame e] = Ok w'' /\
    transform w'' = transform w' /\ _target (self w'') = _target (self w').
Proof.
  intros Hr Hw Hf.
  destruct (onUpdate_refines a w e Hr Hf) as (w' & Hu & Hr').
  destruct (onUpdate_refines a w (keys_frame e) Hr (sound_keys_frame e)) as (w1 & Hu1 & Hr1).
  destruct (onUpdate_refines _ w1 (rest_frame e) Hr1 (sound_rest_frame e Hf))
    as (w2 & Hu2 & Hr2).
  exists w', w2. split; [exact Hu|].
  split; [unfold frames; cbn [iterate]; rewrite Hu1; cbn [bind_result]; now rewrite Hu2|].
  apply (refines_unique _ _ _ Hr').
  pose proof (onUpdate_config _ _ _ Hu1) as Hc.
  rewrite (limits_config _ _ Hc), (gesture_config (rest_frame e) _ _ Hc),
    gesture_rest, (gesture_keys e (self w)) in Hr2 by (apply Hr || apply Hr1).
  change (pan_vectors e) with (g_pan (gesture e (self w))) in Hr2.
  rewrite orbit_step_splits in Hr2 by now apply orbit_at_rest.
  exact Hr2.
Qed.

End Order.
