(* ===== verification/Scenario.v ===== *)
(** * Scenario: the theorems at concrete worlds

    The script as the constructor leaves it, with the implementation of
    [Spherical] of [SphericalCoord], attached to an entity at [(0, 0, 5)],
    the camera of the example of section 8 of the specification: frames
    with concrete input, the camera written at the pole, the camera turned
    across the half turn under finite azimuth limits, the readings of a run
    of frames, and the instances of the theorems of [OrbitProps], [Seam],
    [InputProps], [Store], [LookAt], [ZoomLimit], [Turns], [NotANumber],
    [Refinement], [Gesture] and [Order] at these worlds. *)

From Stdlib Require Import Reals Lra List Bool.
From S2P Require Import Prelude Numbers XReal Trig Vectors SphericalCoord Engine EngineProps.
From S2P Require Import ViewportControl UpdateProps OrbitProps Seam InputProps LookAt ZoomLimit.
From S2P Require Import Store Turns NotANumber Refinement Gesture Order.
Import ListNotations.

Local Open Scope R_scope.

#[local] Existing Instance Spherical.spec_ops.

(** The margin of the implementation. *)
Definition margin : R := 1 / 1000000.

(** ** The worlds *)

(** The camera at [(a, b, c)] below a parent at [(px, py, pz)]. *)
Definition camera_under (a b c px py pz : R) : World xreal :=
  constructor (Transform.mk (vfin a b c) Quaternion.identity (vfin px py pz)).

Lemma tfinite_placed (a b c px py pz : R) :
  tfinite (Transform.mk (vfin a b c) Quaternion.identity (vfin px py pz)).
Proof. repeat split. Qed.

Lemma settled_camera (a b c px py pz : R) : settled (camera_under a b c px py pz).
Proof. apply settled_constructor, tfinite_placed. Qed.

Lemma running_camera (a b c px py pz : R) : running (camera_under a b c px py pz).
Proof. apply running_constructor, tfinite_placed. Qed.

Lemma idle_camera (a b c px py pz : R) : idle (self (camera_under a b c px py pz)).
Proof. apply idle_constructor. Qed.

(** ** The camera on the z axis *)

(** The coordinates of a point on the positive z axis: a quarter turn from
    the pole, no azimuth. *)
Lemma setFromVec3_on_z (s : Spherical.t xreal) (d : R) :
  Spherical.yAxis s = upY -> 0 < d ->
  Spherical.impl_setFromVec3 s (vfin 0 0 d) false
  = Spherical.mk (Fin d) (Fin (PI / 2)) (Fin 0) upY.
Proof.
  intros Hy Hd.
  assert (Hn : sqrt (0 * 0 + 0 * 0 + d * d) = d).
  { replace (0 * 0 + 0 * 0 + d * d) with (d * d) by ring. apply sqrt_square. lra. }
  rewrite impl_setFromVec3_fin by (try assumption; rewrite Hn; assumption).
  cbv zeta. rewrite Hn. unfold Ratan2. destruct (Rlt_dec 0 d); [|contradiction].
  unfold Rdiv at 1 2. rewrite !Rmult_0_l, acos_0, atan_0. reflexivity.
Qed.

Lemma readOffset_camera (px py pz : R) :
  _spherical (readOffset (camera_under 0 0 5 px py pz))
  = Spherical.mk (Fin 5) (Fin (PI / 2)) (Fin 0) upY.
Proof.
  rewrite readOffset_spherical.
  change (Spherical.setFromVec3 ?s ?v ?b) with (Spherical.impl_setFromVec3 s v b).
  replace (Vector3.subtract _ _) with (vfin 0 0 5) by (apply vfin_eq; lra).
  apply setFromVec3_on_z; [reflexivity | lra].
Qed.

Lemma within_limits_camera (px py pz : R) :
  within_limits margin (self (camera_under 0 0 5 px py pz))
    (_spherical (readOffset (camera_under 0 0 5 px py pz))).
Proof.
  rewrite readOffset_camera. unfold within_limits, camera_under. rewrite self_constructor.
  cbn [with_spherical minAzimuthAngle maxAzimuthAngle minPolarAngle maxPolarAngle
       minDistance maxDistance Spherical.theta Spherical.phi Spherical.radius].
  destruct (default_polar_limits (ops := Spherical.spec_ops)) as [E1 E2].
  destruct (default_distance_limits (ops := Spherical.spec_ops)) as [E3 E4].
  rewrite E1, E2, E3, E4. pose proof PI2_1. unfold margin.
  cbn [minAzimuthAngle maxAzimuthAngle fields].
  repeat split; try exact I; apply xle_fin; lra.
Qed.

Lemma polar_limits_camera (a b c px py pz : R) :
  is_nan (minPolarAngle (self (camera_under a b c px py pz))) = false /\
  is_nan (maxPolarAngle (self (camera_under a b c px py pz))) = false.
Proof. apply settled_polar, settled_camera. Qed.

Lemma length_camera (px py pz : R) :
  Vector3.length
    (Vector3.subtract (Transform.position (transform (camera_under 0 0 5 px py pz)))
       (_target (self (camera_under 0 0 5 px py pz)))) = Fin 5.
Proof. apply length_camera_at_005. Qed.

(** The limits and speeds of the camera are the defaults. *)
Lemma limits_camera (a b c px py pz : R) :
  let k := self (camera_under a b c px py pz) in
  minAzimuthAngle k = NInf /\ maxAzimuthAngle k = PInf /\
  minPolarAngle k = Fin 1 /\ maxPolarAngle k = Fin (179 / 180 * PI) /\
  minDistance k = Fin (1 / 10) /\ maxDistance k = PInf /\
  rotateSpeed k = Fin 1 /\ zoomSpeed k = Fin 1.
Proof.
  cbv zeta. unfold camera_under. rewrite self_constructor.
  destruct (default_polar_limits (ops := Spherical.spec_ops)) as [E1 E2].
  destruct (default_distance_limits (ops := Spherical.spec_ops)) as [E3 E4].
  cbn [with_spherical minAzimuthAngle maxAzimuthAngle minPolarAngle maxPolarAngle
       minDistance maxDistance rotateSpeed zoomSpeed].
  rewrite E1, E2, E3, E4. repeat split.
Qed.

(** ** Frames *)

Definition canvas0 : Canvas xreal := mkCanvas (Fin 800) (Fin 600).

(** No input; Alt with S and W; one wheel step up; a drag to the left by a
    quarter of the canvas; and the modifier and the button held without a
    pointer. *)
Definition idle_frame : Engine xreal := mkEngine noInput canvas0.

Definition pan_frame : Engine xreal :=
  mkEngine (held [AltLeft; KeyS; KeyW] [] [] None) canvas0.

Definition wheel_frame : Engine xreal :=
  mkEngine (held [] [] [] (Some (vfin 0 1 0))) canvas0.

Definition drag_frame : Engine xreal :=
  mkEngine (held [AltLeft] [Primary] [mkPointer (Vector2.mk (Fin (-200)) (Fin 0))] None)
    canvas0.

Definition broken_frame : Engine xreal :=
  mkEngine (held [AltLeft] [Primary] [] None) canvas0.

(** A drag to the right by the width of the canvas. *)
Definition turn_frame : Engine xreal :=
  mkEngine (held [AltLeft] [Primary] [mkPointer (Vector2.mk (Fin (1 * 800)) (Fin 0))] None)
    canvas0.

(** The two drags in one: to the left by a quarter of the canvas and to the
    right by its width. *)
Definition both_frame : Engine xreal :=
  mkEngine
    (held [AltLeft] [Primary] [mkPointer (Vector2.mk (Fin (-200 + 1 * 800)) (Fin 0))] None)
    canvas0.

(** The drag to the left on a canvas of width zero. *)
Definition flat_frame : Engine xreal :=
  mkEngine (held [AltLeft] [Primary] [mkPointer (Vector2.mk (Fin (-200)) (Fin 0))] None)
    (mkCanvas (Fin 0) (Fin 600)).

(** Decide which keys and buttons of a listed frame are held. *)
Ltac held_decide :=
  unfold pan_keys_up, pan_only, dragging, alt;
  cbn [inputManager idle_frame pan_frame wheel_frame drag_frame broken_frame turn_frame
       both_frame flat_frame];
  rewrite ?isKeyHeldDown_held, ?isPointerHeldDown_held, ?noInput_key, ?noInput_button;
  repeat constructor;
  rewrite ?isKeyHeldDown_held, ?isPointerHeldDown_held, ?noInput_key, ?noInput_button;
  try reflexivity.

Lemma sound_frames : Forall sound_frame [drag_frame; wheel_frame; idle_frame].
Proof.
  repeat constructor; try solve [apply sound_frame_not_dragging; held_decide].
  intros _. eexists _, _. split; [reflexivity|]. cbn.
  repeat split; intros [= E]; lra.
Qed.

(** ** The theorems at the camera on the z axis *)

Lemma updateTransform_front_witness :
  _atTheBack (self (_updateTransform (camera_under 0 0 5 0 0 0))) = false.
Proof.
  apply (updateTransform_front (C := spec_ops_contract)).
  - apply settled_ready, settled_camera.
  - apply polar_limits_camera.
  - apply polar_limits_camera.
Defined.

Lemma updateTransform_distance_witness :
  Vector3.length
    (Vector3.subtract
       (Transform.worldPosition (transform (_updateTransform (camera_under 0 0 5 0 0 0))))
       (_target (self (_updateTransform (camera_under 0 0 5 0 0 0)))))
  = Spherical.radius (_spherical (self (_updateTransform (camera_under 0 0 5 0 0 0)))).
Proof.
  apply (updateTransform_distance (C := spec_ops_contract)), settled_camera.
Defined.

(** Below a parent at [(1, 0, 0)] a call without input moves the camera
    from [(0, 0, 5)] to [(-1, 0, 5)]. *)
Lemma updateTransform_idle_position_witness :
  Transform.position (transform (_updateTransform (camera_under 0 0 5 1 0 0)))
  = vfin (-1) 0 5.
Proof.
  rewrite (updateTransform_idle_position (C := spec_ops_contract)
             (camera_under 0 0 5 1 0 0)).
  - apply vfin_eq; lra.
  - apply settled_camera.
  - apply idle_camera.
  - apply within_limits_camera.
Defined.

Lemma updateTransform_twice_witness :
  transform (_updateTransform (_updateTransform (camera_under 0 0 5 0 0 0)))
  = transform (_updateTransform (camera_under 0 0 5 0 0 0)) /\
  _target (self (_updateTransform (_updateTransform (camera_under 0 0 5 0 0 0))))
  = _target (self (_updateTransform (camera_under 0 0 5 0 0 0))).
Proof.
  apply (updateTransform_twice (C := spec_ops_contract)).
  - apply settled_camera.
  - left. apply (roomy_constructor (C := spec_ops_contract)).
  - reflexivity.
Defined.

Lemma constructor_establishes_witness :
  running (camera_under 0 0 5 0 0 0) /\ idle (self (camera_under 0 0 5 0 0 0)) /\
  roomy_limits margin (self (camera_under 0 0 5 0 0 0)).
Proof.
  apply (constructor_establishes (C := spec_ops_contract)), tfinite_placed.
Defined.

Lemma clamp_steps_reference_witness :
  let c := self (camera_under 0 0 5 0 0 0) in
  Spherical.theta (_spherical (clampAngles c))
    = clamp_ref (minAzimuthAngle c) (maxAzimuthAngle c) (Spherical.theta (_spherical c)) /\
  Spherical.phi (_spherical (clampAngles c))
    = clamp_ref (minPolarAngle c) (maxPolarAngle c) (Spherical.phi (_spherical c)) /\
  Spherical.radius (_spherical (clampRadius c))
    = clamp_ref (minDistance c) (maxDistance c) (Spherical.radius (_spherical c)).
Proof.
  destruct (limits_camera 0 0 5 0 0 0) as (E1 & E2 & E3 & E4 & E5 & E6 & _).
  cbv zeta in *. pose proof PI2_1.
  apply (clamp_steps_reference (self (camera_under 0 0 5 0 0 0)));
    rewrite ?E1, ?E2, ?E3, ?E4, ?E5, ?E6; try exact I; try reflexivity;
    apply xle_fin; lra.
Defined.

Lemma least_distance_camera (a b c px py pz : R) :
  (Fin 0 < minDistance (self (camera_under a b c px py pz)))%xreal.
Proof. apply (roomy_constructor (C := spec_ops_contract)). Qed.

Lemma updateTransform_looks_at_witness :
  let w' := _updateTransform (camera_under 0 0 5 0 0 0) in
  let q := Transform.rotationQuaternion (transform w') in
  rotation q /\ upright q /\
  Vector3.subtract (Transform.worldPosition (transform w'))
    (Vector3.scale (Quaternion.ez q) (Spherical.radius (_spherical (self w'))))
  = _target (self w').
Proof.
  apply (updateTransform_looks_at (C := spec_ops_contract)).
  - apply settled_camera.
  - apply least_distance_camera.
Defined.

Lemma forward_along_sight_witness :
  let w' := _updateTransform (camera_under 0 0 5 0 0 0) in
  exists r,
    Spherical.radius (_spherical (self w')) = Fin r /\ 0 < r /\
    _target (self (_move forwardVec3 w')) =
    Vector3.add (_target (self w'))
      (Vector3.scale
         (Vector3.subtract (_target (self w')) (Transform.worldPosition (transform w')))
         (Fin (1 / 10 / r))).
Proof.
  apply (forward_along_sight (C := spec_ops_contract)).
  - apply settled_camera.
  - apply least_distance_camera.
Defined.

(** ** The camera above the target *)

(** The coordinates line 137 excludes: the camera straight above the
    target, at the pole. *)
Definition above : World xreal :=
  on_self (fun c => with_spherical c (Spherical.mk (Fin 5) (Fin 0) (Fin 0) upY))
    (camera_under 0 5 0 0 0 0).

(** Why line 137 is there: written from coordinates at the pole, the
    camera is straight above the target, [lookAt] finds no axis perpendicular
    to the up vector and the line of sight, and the orientation it leaves has
    a zero x axis: it is no rotation. *)
Example writeTransform_at_pole :
  Transform.worldPosition (transform (writeTransform above)) = vfin 0 5 0 /\
  Quaternion.ex (Transform.rotationQuaternion (transform (writeTransform above)))
  = vfin 0 0 0 /\
  ~ orthonormal (Transform.rotationQuaternion (transform (writeTransform above))).
Proof.
  assert (E : transform (writeTransform above) =
              Transform.mk (vfin 0 5 0)
                (Quaternion.mk (vfin 0 0 0) (vfin 0 0 0) (vfin 0 1 0)) (vfin 0 0 0)).
  { rewrite transform_writeTransform. cbv zeta.
    change (Spherical.setToVec3 (_spherical (self above)))
      with (Spherical.impl_setToVec3 (Spherical.mk (Fin 5) (Fin 0) (Fin 0) upY)).
    rewrite impl_setToVec3_fin, sin_0, cos_0. cbn [fst snd].
    replace (Rltb 0 0) with false by (symmetry; apply Rltb_ge; lra).
    change (_target (self above)) with (vfin 0 0 0).
    change (_up (self above)) with upY.
    rewrite scale_one, add_vfin by apply vfinite_vfin.
    unfold Transform.lookAt. rewrite worldPosition_set by apply vfinite_vfin.
    rewrite (lookRotation_on_axis _ _ 5) by (try apply vfin_eq; lra).
    unfold Transform.set_worldPosition. cbn [Transform.position Transform.parentPosition].
    f_equal. apply vfin_eq; lra. }
  rewrite E. split; [apply vfin_eq; lra | split; [reflexivity|]].
  intros (H & _). cbn in H. injection H as H. lra.
Qed.

(** ** The theorems at concrete frames *)

Lemma onUpdate_throws_witness :
  onUpdate broken_frame (camera_under 0 0 5 0 0 0) = Throw TypeError.
Proof. apply onUpdate_throws. repeat split; held_decide. Defined.

Lemma frames_keep_config_witness :
  config (self (_updateTransform (camera_under 0 0 5 0 0 0)))
  = config (self (camera_under 0 0 5 0 0 0)).
Proof.
  apply (frames_keep_config (camera_under 0 0 5 0 0 0) [idle_frame]).
  unfold frames, idle_frame. cbn [iterate]. now rewrite onUpdate_noInput.
Defined.

Lemma pan_keeps_offset_witness :
  exists w', onUpdate pan_frame (camera_under 0 0 5 0 0 0) = Ok w' /\
    _spherical (self w') = _spherical (readOffset (camera_under 0 0 5 0 0 0)) /\
    Vector3.subtract (Transform.worldPosition (transform w')) (_target (self w'))
    = Vector3.subtract (Transform.position (transform (camera_under 0 0 5 0 0 0)))
        (_target (self (camera_under 0 0 5 0 0 0))).
Proof.
  apply (pan_keeps_offset (C := spec_ops_contract)).
  - apply settled_camera.
  - apply idle_camera.
  - apply within_limits_camera.
  - split; held_decide.
Defined.

Lemma wheel_scales_distance_witness :
  exists w', onUpdate wheel_frame (camera_under 0 0 5 0 0 0) = Ok w' /\
    Spherical.radius (_spherical (self w')) =
      xmax (minDistance (self (camera_under 0 0 5 0 0 0)))
        (xmin (maxDistance (self (camera_under 0 0 5 0 0 0)))
           (Fin (5 * wheel_factor 1 1))) /\
    (0 < 1 -> 5 < 5 * wheel_factor 1 1) /\
    (1 < 0 -> 5 * wheel_factor 1 1 < 5).
Proof.
  destruct (limits_camera 0 0 5 0 0 0) as (_ & _ & _ & _ & _ & _ & _ & Hz).
  apply (wheel_scales_distance (C := spec_ops_contract) wheel_frame
           (camera_under 0 0 5 0 0 0) (vfin 0 1 0)); try lra.
  - apply settled_camera.
  - held_decide.
  - reflexivity.
  - reflexivity.
  - exact Hz.
  - apply idle_camera.
  - apply length_camera.
Defined.

Lemma drag_turns_camera_witness :
  exists w', onUpdate drag_frame (camera_under 0 0 5 0 0 0) = Ok w' /\
    Spherical.theta (_spherical (self w')) =
      xmax (minAzimuthAngle (self (camera_under 0 0 5 0 0 0)))
        (xmin (maxAzimuthAngle (self (camera_under 0 0 5 0 0 0)))
           (Fin (0 - 2 * PI * -200 / 800 * 1))) /\
    Spherical.phi (_spherical (self w')) =
      xmax (Fin margin)
        (xmin (Fin (PI - margin))
           (xmax (minPolarAngle (self (camera_under 0 0 5 0 0 0)))
              (xmin (maxPolarAngle (self (camera_under 0 0 5 0 0 0)))
                 (Fin (PI / 2 - 2 * PI * 0 / 600 * 1))))).
Proof.
  destruct (limits_camera 0 0 5 0 0 0) as (_ & _ & _ & _ & _ & _ & Hv & _).
  apply (drag_turns_camera (C := spec_ops_contract) drag_frame (camera_under 0 0 5 0 0 0)
           (mkPointer (Vector2.mk (Fin (-200)) (Fin 0))) []); try lra.
  - apply settled_camera.
  - apply idle_camera.
  - held_decide.
  - held_decide.
  - reflexivity.
  - reflexivity.
  - reflexivity.
  - reflexivity.
  - exact Hv.
  - now rewrite readOffset_camera.
  - now rewrite readOffset_camera.
Defined.

(** ** Holding the wheel *)

Lemma at_distance_camera : at_distance 5 (camera_under 0 0 5 0 0 0).
Proof.
  split; [apply running_camera|]. split; [apply idle_camera|].
  split; [reflexivity | apply length_camera].
Qed.

(** With the defaults the wheel brings the camera from [(0, 0, 5)] to the
    distance 0.1 from the target. *)
Lemma wheel_reaches_minDistance_witness :
  exists n, forall es,
    Forall (wheel_only (-1)) es -> (n <= length es)%nat ->
    exists w', frames (camera_under 0 0 5 0 0 0) es = Ok w' /\ at_distance (1 / 10) w'.
Proof.
  destruct (limits_camera 0 0 5 0 0 0) as (_ & _ & _ & _ & Hd & _ & _ & Hz).
  apply (wheel_reaches_minDistance (C := spec_ops_contract) (-1)
           (camera_under 0 0 5 0 0 0) 5 1 (1 / 10)); try lra; try assumption.
  apply at_distance_camera.
Defined.

(** And no run of wheel frames brings it closer for ever. *)
Lemma zoom_in_terminates_witness : Acc (zooms (-1)) (camera_under 0 0 5 0 0 0).
Proof.
  destruct (limits_camera 0 0 5 0 0 0) as (_ & _ & _ & _ & Hd & _ & _ & Hz).
  apply (zoom_in_terminates (C := spec_ops_contract) (-1)
           (camera_under 0 0 5 0 0 0) 5 1 (1 / 10)); try lra; try assumption.
  apply at_distance_camera.
Defined.

(** The camera with the distance limited to [[0.1, 10]]. *)
Definition fenced : World xreal :=
  with_distances (Fin (1 / 10)) (Fin 10) (camera_under 0 0 5 0 0 0).

Lemma at_distance_fenced : at_distance 5 fenced.
Proof.
  destruct at_distance_camera as (((Hr & Ht & Hs & Hz & Hu & Hl) & Hv) & Hi & Hp & Hlen).
  destruct Hl as (Ha & Ha1 & Ha2 & Hp1 & Hp2 & _).
  repeat split; try assumption; try discriminate; apply xle_fin; lra.
Qed.

(** The wheel the other way brings the camera to the distance 10. *)
Lemma wheel_reaches_maxDistance_witness :
  exists n, forall es,
    Forall (wheel_only 1) es -> (n <= length es)%nat ->
    exists w', frames fenced es = Ok w' /\ at_distance 10 w'.
Proof.
  destruct (limits_camera 0 0 5 0 0 0) as (_ & _ & _ & _ & _ & _ & _ & Hz).
  apply (wheel_reaches_maxDistance (C := spec_ops_contract) 1 fenced 5 1 (1 / 10) 10);
    try lra; try reflexivity; try assumption.
  apply at_distance_fenced.
Defined.

(** With the default [maxDistance] it takes the camera beyond the distance
    1000, and beyond every other. *)
Lemma wheel_escapes_witness :
  exists n, forall es,
    Forall (wheel_only 1) es -> (n <= length es)%nat ->
    exists w' r',
      frames (camera_under 0 0 5 0 0 0) es = Ok w' /\ at_distance r' w' /\ 1000 <= r'.
Proof.
  destruct (limits_camera 0 0 5 0 0 0) as (_ & _ & _ & _ & Hd & Hm & _ & Hz).
  apply (wheel_escapes (C := spec_ops_contract) 1 (camera_under 0 0 5 0 0 0) 5 1 (1 / 10));
    try lra; try assumption.
  apply at_distance_camera.
Defined.

Lemma drag_whole_turns_witness :
  exists w', onUpdate turn_frame (camera_under 0 0 5 0 0 0) = Ok w' /\
    transform w' = transform (_updateTransform (camera_under 0 0 5 0 0 0)) /\
    _target (self w') = _target (self (camera_under 0 0 5 0 0 0)).
Proof.
  destruct (limits_camera 0 0 5 0 0 0) as (Hlo & Hhi & _ & _ & _ & _ & Hv & _).
  apply (drag_whole_turns (C := spec_ops_contract) turn_frame (camera_under 0 0 5 0 0 0)
           (mkPointer (Vector2.mk (Fin (1 * 800)) (Fin 0))) [] 800 600 1);
    try lra; try assumption; try reflexivity;
    first [apply settled_camera | apply idle_camera | held_decide].
Defined.

(** The three drag frames are horizontal drags on the canvas of 800
    pixels. *)
Lemma horizontal_drags :
  horizontal_drag (-200) 800 drag_frame /\ horizontal_drag (1 * 800) 800 turn_frame /\
  horizontal_drag (-200 + 1 * 800) 800 both_frame.
Proof.
  repeat split; try held_decide;
    eexists _, _, 600; repeat split; try reflexivity; lra.
Qed.

Lemma drag_rotates_about_up_witness :
  exists w', onUpdate drag_frame (camera_under 0 0 5 0 0 0) = Ok w' /\
    _target (self w') = _target (self (camera_under 0 0 5 0 0 0)) /\
    Vector3.subtract (Transform.worldPosition (transform w'))
      (_target (self (camera_under 0 0 5 0 0 0)))
    = rotateY (drag_angle (-200) 800 1)
        (Vector3.subtract
           (Transform.worldPosition (transform (_updateTransform (camera_under 0 0 5 0 0 0))))
           (_target (self (camera_under 0 0 5 0 0 0)))).
Proof.
  destruct (limits_camera 0 0 5 0 0 0) as (Hlo & Hhi & _ & _ & _ & _ & Hv & _).
  apply (drag_rotates_about_up (C := spec_ops_contract) drag_frame
           (camera_under 0 0 5 0 0 0) (-200) 800 1);
    first [apply settled_camera | apply idle_camera | now split | assumption
          | apply horizontal_drags].
Defined.

Lemma drags_add_witness :
  exists w2 w12,
    frames (camera_under 0 0 5 0 0 0) [drag_frame; turn_frame] = Ok w2 /\
    frames (camera_under 0 0 5 0 0 0) [both_frame] = Ok w12 /\
    transform w2 = transform w12 /\ _target (self w2) = _target (self w12).
Proof.
  destruct (limits_camera 0 0 5 0 0 0) as (Hlo & Hhi & _ & _ & _ & _ & Hv & _).
  apply (drags_add (C := spec_ops_contract) drag_frame turn_frame both_frame
           (camera_under 0 0 5 0 0 0) (-200) (1 * 800) 800 1);
    first [apply settled_camera | apply idle_camera | now split | assumption
          | apply horizontal_drags | apply (roomy_constructor (C := spec_ops_contract))
          | reflexivity].
Defined.

Lemma empty_canvas_poisons_witness :
  exists w', onUpdate flat_frame (camera_under 0 0 5 0 0 0) = Ok w' /\
    forall es w'', frames w' es = Ok w'' -> lost w''.
Proof.
  destruct (limits_camera 0 0 5 0 0 0) as (Hlo & Hhi & _ & _ & _ & _ & Hv & _).
  apply (empty_canvas_poisons flat_frame (camera_under 0 0 5 0 0 0)
           (mkPointer (Vector2.mk (Fin (-200)) (Fin 0))) [] (-200) 0 600 1);
    try lra; try assumption; try reflexivity;
    first [apply settled_camera | apply idle_camera | held_decide].
Defined.

(** ** The camera across the seam *)

(** The camera at [(0, 0, 5)] with the azimuth limited to three quarters of
    a turn from the z axis, and a rotation of five eighths of a turn
    pending. *)
Definition seam_camera : World xreal :=
  swung (5 * PI / 4) (with_azimuth (Fin 0) (Fin (3 * PI / 2)) (camera_under 0 0 5 0 0 0)).

(** The first call turns the camera by the five eighths. *)
Lemma theta_seam_camera :
  Spherical.theta (_spherical (self (_updateTransform seam_camera))) = Fin (5 * PI / 4).
Proof.
  rewrite updateTransform_spherical, (prepared_theta (C := spec_ops_contract)).
  change (_spherical (readOffset seam_camera))
    with (_spherical (readOffset (camera_under 0 0 5 0 0 0))).
  rewrite readOffset_camera.
  destruct (idle_camera 0 0 5 0 0 0) as (Hdt & _).
  unfold seam_camera, swung, with_azimuth, on_self.
  cbn [self with_sphericalDelta _sphericalDelta minAzimuthAngle maxAzimuthAngle
       Spherical.set_theta Spherical.theta].
  rewrite Hdt. cbn [xadd]. rewrite xmin_fin, xmax_fin. f_equal.
  pose proof PI_RGT_0. unfold Rmax, Rmin. repeat destruct (Rle_dec _ _); lra.
Qed.

(** The second call, without input, moves it. *)
Lemma azimuth_seam_jump_witness :
  Transform.position (transform (_updateTransform (_updateTransform seam_camera)))
  <> Transform.position (transform (_updateTransform seam_camera)).
Proof.
  pose proof PI_RGT_0.
  apply (azimuth_seam_jump (C := spec_ops_contract) seam_camera 0 (3 * PI / 2) (5 * PI / 4));
    try lra; try reflexivity.
  - apply settled_swung, settled_with_azimuth; [lra | apply settled_camera].
  - exact (roomy_upright _ (roomy_constructor (C := spec_ops_contract) _)).
  - apply theta_seam_camera.
Defined.

(** ** The store model at the camera *)

Lemma onUpdateS_scratch_witness :
  exists moved,
    onUpdateS idle_frame (mkHeap module_scratch (camera_under 0 0 5 0 0 0))
    = (Ok tt,
       mkHeap
         (mkScratch
            (Vector3.scale (_up (self (_updateTransform (camera_under 0 0 5 0 0 0))))
               (if _atTheBack (self (_updateTransform (camera_under 0 0 5 0 0 0)))
                then neg one else one))
            moved)
         (_updateTransform (camera_under 0 0 5 0 0 0))).
Proof. apply onUpdateS_scratch, onUpdate_noInput. Defined.

Lemma onUpdateS_throws_keeps_input_witness :
  exists h,
    onUpdateS broken_frame (mkHeap module_scratch (camera_under 0 0 5 0 0 0))
    = (Throw TypeError, h) /\
    this h = on_self (wheelZoom broken_frame) (pan broken_frame (camera_under 0 0 5 0 0 0)) /\
    erase (onUpdateS (mkEngine noInput canvas0) h)
    = Ok (_updateTransform
            (on_self (wheelZoom broken_frame)
               (pan broken_frame (camera_under 0 0 5 0 0 0)))).
Proof. apply onUpdateS_throws_keeps_input; [held_decide | reflexivity]. Defined.

Lemma onUpdate_establishes_orbit_witness :
  exists w', onUpdate drag_frame (camera_under 0 0 5 0 0 0) = Ok w' /\
             refines (orbit_of w') w'.
Proof.
  apply (onUpdate_establishes_orbit (C := spec_ops_contract)).
  - apply running_camera.
  - reflexivity.
  - exact (Forall_inv sound_frames).
Defined.

Lemma frames_refine_witness :
  exists w',
    frames (_updateTransform (camera_under 0 0 5 0 0 0)) [drag_frame; wheel_frame; idle_frame]
    = Ok w' /\
    refines
      (orbit_run margin (self (_updateTransform (camera_under 0 0 5 0 0 0)))
         [drag_frame; wheel_frame; idle_frame]
         (orbit_of (_updateTransform (camera_under 0 0 5 0 0 0))))
      w'.
Proof.
  apply (frames_refine (C := spec_ops_contract)).
  - apply (orbit_of_updateTransform (C := spec_ops_contract));
      [apply running_camera | reflexivity].
  - apply sound_frames.
Defined.

Lemma frames_safe_witness :
  exists w', frames (camera_under 0 0 5 0 0 0) [drag_frame; wheel_frame; idle_frame] = Ok w' /\
    running w' /\
    ([drag_frame; wheel_frame; idle_frame] <> [] -> idle (self w') /\ bounded margin w').
Proof.
  apply (frames_safe (C := spec_ops_contract)).
  - apply running_camera.
  - apply sound_frames.
Defined.

(** ** One frame as two *)

(** The modifier, the key W and a drag to the left by a quarter of the
    canvas, in one frame. *)
Definition busy_frame : Engine xreal :=
  mkEngine
    (held [AltLeft; KeyW] [Primary] [mkPointer (Vector2.mk (Fin (-200)) (Fin 0))] None)
    canvas0.

Lemma frame_splits_witness :
  exists w' w'',
    onUpdate busy_frame (_updateTransform (camera_under 0 0 5 0 0 0)) = Ok w' /\
    frames (_updateTransform (camera_under 0 0 5 0 0 0))
      [keys_frame busy_frame; rest_frame busy_frame] = Ok w'' /\
    transform w'' = transform w' /\ _target (self w'') = _target (self w').
Proof.
  apply (frame_splits (C := spec_ops_contract)
           (orbit_of (_updateTransform (camera_under 0 0 5 0 0 0)))).
  - apply (orbit_of_updateTransform (C := spec_ops_contract));
      [apply running_camera | reflexivity].
  - apply (within_limits_config (self (camera_under 0 0 5 0 0 0)));
      [symmetry; apply updateTransform_config|].
    apply (within_after_update (C := spec_ops_contract));
      [apply settled_camera | apply (roomy_constructor (C := spec_ops_contract)) | reflexivity].
  - intros _. eexists _, _. split; [reflexivity|]. cbn.
    repeat split; intros [= E]; lra.
Defined.

(** ** The default polar limits *)


(** ** The gestures of the specification *)

(** The frames of the run with what the devices report in them: a drag to
    the left by a quarter of the canvas, one wheel step up, nothing. *)
Definition readings : list (Engine xreal * Reading) :=
  [(drag_frame, mkReading None (Some (-200, 0)) 800 600);
   (wheel_frame, mkReading (Some 1) None 800 600);
   (idle_frame, mkReading None None 800 600)].

Lemma reads_readings : Forall (fun f => reads (fst f) (snd f)) readings.
Proof.
  repeat constructor; cbn [fst snd r_wheel r_drag r_width r_height]; try lra;
    try solve [held_decide]; eexists; try eexists; split; reflexivity.
Qed.

Lemma speeds_after_update :
  zoomSpeed (self (_updateTransform (camera_under 0 0 5 0 0 0))) = Fin 1 /\
  rotateSpeed (self (_updateTransform (camera_under 0 0 5 0 0 0))) = Fin 1.
Proof.
  destruct (limits_camera 0 0 5 0 0 0) as (_ & _ & _ & _ & _ & _ & Hv & Hz).
  destruct (config_speeds _ _ (updateTransform_config (camera_under 0 0 5 0 0 0))) as [Ev Ez].
  split; congruence.
Qed.

Lemma frames_refine_spec_witness :
  exists w',
    frames (_updateTransform (camera_under 0 0 5 0 0 0)) (map fst readings) = Ok w' /\
    refines
      (spec_run margin (limits_of (self (_updateTransform (camera_under 0 0 5 0 0 0)))) 1 1
         readings (orbit_of (_updateTransform (camera_under 0 0 5 0 0 0))))
      w'.
Proof.
  apply (frames_refine_spec (C := spec_ops_contract)).
  - apply (orbit_of_updateTransform (C := spec_ops_contract));
      [apply running_camera | reflexivity].
  - apply speeds_after_update.
  - apply speeds_after_update.
  - apply reads_readings.
Defined.
