(* ===== verification/Doubles.v ===== *)
(** * Doubles: the controller on binary64 numbers

    The numbers of JavaScript are the binary64 numbers of IEEE 754.  This
    file gives the instance of [Number] at the primitive floats of the
    kernel, which are these numbers with their rounding; with it every
    definition of the controller runs ([vm_compute]) on the numbers the
    program runs on.

    - [double_of_Z], [double_max], [double_min], [double_Number]: the
      operations.  [Math.max] and [Math.min] return [NaN] when an argument is
      [NaN] and order [-0] below [+0], as ECMAScript says.
    - [number], [dle]: being a number (not [NaN]) and the order [<=], with
      the facts on the order that the clamp needs, proved from the
      specification of the primitive comparisons.
    - [double_clamp] and the theorems on [clampRadius] and [clampAngles]:
      with limits that are numbers in order, the clamp of lines 129-145
      leaves a number within the limits, infinities and signed zeros
      included.
    - [Libm], [double_MathFns]: an implementation of the functions of
      [Math] that ECMAScript leaves to the implementation, by series.
    - The runs: the controller evaluated on a camera and frames given as
      numbers, through [onUpdate] and [frames]. *)

From Stdlib Require Import Floats ZArith Bool List.
From Stdlib Require Uint63.
From S2P Require Import Prelude Numbers Vectors SphericalCoord Engine ViewportControl.

(** ** The operations *)

(** An integer literal.  The conversion is exact up to [2^53]. *)
Definition double_of_Z (z : Z) : float :=
  match z with
  | Z0 => PrimFloat.zero
  | Zpos _ => PrimFloat.of_uint63 (Uint63.of_Z z)
  | Zneg p => PrimFloat.opp (PrimFloat.of_uint63 (Uint63.of_Z (Zpos p)))
  end.

(** [Math.max(a, b)]: [NaN] if an argument is; of two zeros, [+0]. *)
Definition double_max (a b : float) : float :=
  if PrimFloat.is_nan a then a
  else if PrimFloat.is_nan b then b
  else if PrimFloat.ltb a b then b
  else if PrimFloat.ltb b a then a
  else if PrimFloat.get_sign a then b else a.

(** [Math.min(a, b)]: [NaN] if an argument is; of two zeros, [-0]. *)
Definition double_min (a b : float) : float :=
  if PrimFloat.is_nan a then a
  else if PrimFloat.is_nan b then b
  else if PrimFloat.ltb a b then a
  else if PrimFloat.ltb b a then b
  else if PrimFloat.get_sign a then a else b.

#[export] Instance double_Number : Number float := {|
  of_Z := double_of_Z;
  Infinity := PrimFloat.infinity;
  NaN := PrimFloat.nan;
  add := PrimFloat.add;
  sub := PrimFloat.sub;
  mul := PrimFloat.mul;
  div := PrimFloat.div;
  neg := PrimFloat.opp;
  ltb := PrimFloat.ltb;
  eqb := PrimFloat.eqb;
  Math_max := double_max;
  Math_min := double_min;
  Math_sqrt := PrimFloat.sqrt
|}.

(** ** The functions of [Math]

    ECMAScript gives [Math.PI] as a number and leaves [Math.pow],
    [Math.sin], [Math.cos], [Math.acos] and [Math.atan2] to the
    implementation, as approximations.  [Libm] is one such implementation,
    by power series after argument reduction; its results differ from those
    of a browser in the last digits.  It is there to run the model: the
    runs at the end of this file depend on it, the theorems on the clamps do
    not. *)

Module Libm.

Local Open Scope float_scope.

Definition PI : float := 0x1.921fb54442d18p+1.
Definition LN2 : float := 0x1.62e42fefa39efp-1.

(** The factor [1 - x2 / (k (k + 1)) (1 - x2 / ((k + 2) (k + 3)) (...))] of
    the series of the sine ([k = 2], times [x]) and of the cosine
    ([k = 1]), summed from the small terms. *)
Fixpoint alternating (fuel : nat) (k x2 : float) : float :=
  match fuel with
  | O => 1
  | S fuel => 1 - x2 / (k * (k + 1)) * alternating fuel (k + 2) x2
  end.

(** An angle brought into [[-PI, PI]] by whole turns. *)
Fixpoint wrap (fuel : nat) (x : float) : float :=
  match fuel with
  | O => x
  | S fuel =>
      if PI <? x then wrap fuel (x - 2 * PI)
      else if x <? - PI then wrap fuel (x + 2 * PI) else x
  end.

(** [Math.sin] and [Math.cos]: of an infinity the result is [NaN]. *)
Definition sin (x : float) : float :=
  if is_infinity x then nan
  else let x := wrap 64 x in x * alternating 24 2 (x * x).

Definition cos (x : float) : float :=
  if is_infinity x then nan
  else let x := wrap 64 x in alternating 24 1 (x * x).

(** The factor [1 / k + sign x2 (1 / (k + 2) + sign x2 (...))] of the series
    of the arc tangent ([sign = -1]) and of its hyperbolic counterpart
    ([sign = 1]). *)
Fixpoint odd_series (fuel : nat) (sign k x2 : float) : float :=
  match fuel with
  | O => 1 / k
  | S fuel => 1 / k + sign * x2 * odd_series fuel sign (k + 2) x2
  end.

Definition atan_small (t : float) : float := t * odd_series 40 (-1) 1 (t * t).

Definition atanh_small (u : float) : float := u * odd_series 40 1 1 (u * u).

(** The tangent of half the angle. *)
Definition half_angle (t : float) : float := t / (1 + sqrt (1 + t * t)).

Definition atan_nonneg (t : float) : float :=
  if 1 <? t then PI / 2 - 4 * atan_small (half_angle (half_angle (1 / t)))
  else 4 * atan_small (half_angle (half_angle t)).

Definition atan (t : float) : float :=
  if t <? 0 then - atan_nonneg (- t) else atan_nonneg t.

(** [Math.atan2(y, x)]. *)
Definition atan2 (y x : float) : float :=
  if 0 <? x then atan (y / x)
  else if x <? 0 then (if y <? 0 then atan (y / x) - PI else atan (y / x) + PI)
  else if 0 <? y then PI / 2
  else if y <? 0 then - (PI / 2) else y + x.

Definition acos (c : float) : float := atan2 (sqrt (1 - c * c)) c.

(** The logarithm of a positive number, from its mantissa and exponent. *)
Definition ln (x : float) : float :=
  let (m, e) := Z.frexp x in
  double_of_Z e * LN2 + 2 * atanh_small ((m - 1) / (m + 1)).

(** The nearest integer, for a number below [2^51] in size. *)
Definition nearest (t : float) : float := (t + 0x1.8p+52) - 0x1.8p+52.

(** [acc * 2^n] for an integer [n]. *)
Fixpoint scale2 (fuel : nat) (n acc : float) : float :=
  match fuel with
  | O => acc
  | S fuel =>
      if 1 <=? n then scale2 fuel (n - 1) (acc * 2)
      else if n <=? -1 then scale2 fuel (n + 1) (acc / 2) else acc
  end.

(** [1 + y / k (1 + y / (k + 1) (...))]. *)
Fixpoint exp_series (fuel : nat) (k y : float) : float :=
  match fuel with
  | O => 1
  | S fuel => 1 + y / k * exp_series fuel (k + 1) y
  end.

Definition exp (y : float) : float :=
  if y =? infinity then infinity
  else if y =? neg_infinity then 0
  else
    let n := nearest (y / LN2) in
    scale2 1100 n (exp_series 25 1 (y - n * LN2)).

Definition pow (b e : float) : float :=
  if e =? 0 then 1
  else if 0 <? b then exp (e * ln b)
  else if b =? 0 then (if 0 <? e then 0 else infinity) else nan.

End Libm.

#[export] Instance double_MathFns : MathFns float := {|
  Math_PI := Libm.PI;
  Math_pow := Libm.pow;
  Math_sin := Libm.sin;
  Math_cos := Libm.cos;
  Math_acos := Libm.acos;
  Math_atan2 := Libm.atan2
|}.

(** ** The order *)

(** A number: anything but [NaN]. *)
Definition number (x : float) : Prop := PrimFloat.is_nan x = false.

(** [x <= y]. *)
Definition dle (x y : float) : Prop := PrimFloat.leb x y = true.

(** *** The comparison of the specification *)

Lemma SFcompare_number (a b : spec_float) :
  a <> S754_nan -> b <> S754_nan -> exists c, SFcompare a b = Some c.
Proof. destruct a, b; cbn; intros Ha Hb; try congruence; eauto. Qed.

Lemma SFcompare_antisym (a b : spec_float) :
  SFcompare b a = option_map CompOpp (SFcompare a b).
Proof.
  destruct a as [s| s| |s m e], b as [s'| s'| |s' m' e']; cbn;
    try destruct s; try destruct s'; try reflexivity;
    rewrite (Z.compare_antisym e e');
    pose proof (Pos.compare_cont_antisym m m' Eq) as H; cbn in H; rewrite <- H;
    now destruct (Z.compare e e'), (Pos.compare_cont Eq m m').
Qed.

Lemma SFcompare_refl (a : spec_float) : a <> S754_nan -> SFcompare a a = Some Eq.
Proof.
  destruct a as [s| s| |s m e]; cbn; intros Ha; try congruence;
    destruct s; try reflexivity;
    now rewrite Z.compare_refl, Pos.compare_cont_refl.
Qed.

(** *** The comparisons of the numbers *)

Lemma number_spec (x : float) : number x -> Prim2SF x <> S754_nan.
Proof.
  unfold number, Prim2SF. intros ->.
  destruct (PrimFloat.is_zero x); [discriminate|].
  destruct (PrimFloat.is_infinity x); [discriminate|].
  destruct (Z.frexp x). destruct (shr_fexp _ _ _ _ _). now destruct (shr_m _).
Qed.

Lemma dle_refl (x : float) : number x -> dle x x.
Proof.
  intros Hx. unfold dle. rewrite FloatAxioms.leb_spec. unfold SFleb.
  now rewrite SFcompare_refl by now apply number_spec.
Qed.

Lemma dlt_dle (x y : float) : PrimFloat.ltb x y = true -> dle x y.
Proof.
  unfold dle. rewrite FloatAxioms.ltb_spec, FloatAxioms.leb_spec. unfold SFltb, SFleb.
  destruct (SFcompare _ _) as [[]|]; congruence.
Qed.

(** Two numbers are comparable. *)
Lemma dle_total (x y : float) :
  number x -> number y -> PrimFloat.ltb x y = false -> dle y x.
Proof.
  intros Hx Hy. unfold dle. rewrite FloatAxioms.ltb_spec, FloatAxioms.leb_spec.
  unfold SFltb, SFleb. rewrite (SFcompare_antisym (Prim2SF x) (Prim2SF y)).
  destruct (SFcompare_number _ _ (number_spec x Hx) (number_spec y Hy)) as [c ->].
  now destruct c.
Qed.

#[export] Hint Resolve dle_refl dlt_dle dle_total : vc.

(** ** The clamp *)

(** [Math.max] and [Math.min] of two numbers return one of them. *)
Lemma double_min_cases (a b : float) :
  number a -> number b ->
  (double_min a b = a /\ dle a b) \/ (double_min a b = b /\ dle b a).
Proof.
  unfold number, double_min. intros Ha Hb. rewrite Ha, Hb.
  destruct (PrimFloat.ltb a b) eqn:E1; [auto with vc|].
  destruct (PrimFloat.ltb b a) eqn:E2; [auto with vc|].
  destruct (PrimFloat.get_sign a); auto with vc.
Qed.

Lemma double_max_cases (a b : float) :
  number a -> number b ->
  (double_max a b = a /\ dle b a) \/ (double_max a b = b /\ dle a b).
Proof.
  unfold number, double_max. intros Ha Hb. rewrite Ha, Hb.
  destruct (PrimFloat.ltb a b) eqn:E1; [auto with vc|].
  destruct (PrimFloat.ltb b a) eqn:E2; [auto with vc|].
  destruct (PrimFloat.get_sign a); auto with vc.
Qed.

(** A limit that is [NaN] makes the result [NaN]. *)
Lemma double_max_nan (a b : float) :
  PrimFloat.is_nan a = true -> PrimFloat.is_nan (double_max a b) = true.
Proof. intros H. unfold double_max. rewrite H. exact H. Qed.

(** The composition of lines 129-145 on numbers: the result is a number
    between the limits. *)
Lemma double_clamp (lo hi x : float) :
  number lo -> number hi -> number x -> dle lo hi ->
  number (double_max lo (double_min hi x)) /\
  dle lo (double_max lo (double_min hi x)) /\
  dle (double_max lo (double_min hi x)) hi.
Proof.
  intros Hlo Hhi Hx Hle.
  destruct (double_min_cases hi x Hhi Hx) as [[-> Hm]|[-> Hm]];
    [destruct (double_max_cases lo hi Hlo Hhi) as [[-> Hr]|[-> Hr]]
    |destruct (double_max_cases lo x Hlo Hx) as [[-> Hr]|[-> Hr]]];
    auto with vc.
Qed.

(** ** The clamps of [_updateTransform] on doubles *)

Section Clamps.

Context {ops : Spherical.Ops float}.
Implicit Types (c : ViewportControl float).

(** C37. Lines 142-145 on doubles: for limits that are numbers in order and a
    radius that is a number, the radius written is a number between
    [minDistance] and [maxDistance]. *)
Theorem clampRadius_double c :
  number (minDistance c) -> number (maxDistance c) ->
  number (Spherical.radius (_spherical c)) ->
  dle (minDistance c) (maxDistance c) ->
  let r := Spherical.radius (_spherical (clampRadius c)) in
  number r /\ dle (minDistance c) r /\ dle r (maxDistance c).
Proof. intros. now apply double_clamp. Qed.

(** C38. Lines 129-136 on doubles: the same for the two angles. *)
Theorem clampAngles_double c :
  number (minAzimuthAngle c) -> number (maxAzimuthAngle c) ->
  number (minPolarAngle c) -> number (maxPolarAngle c) ->
  number (Spherical.theta (_spherical c)) -> number (Spherical.phi (_spherical c)) ->
  dle (minAzimuthAngle c) (maxAzimuthAngle c) ->
  dle (minPolarAngle c) (maxPolarAngle c) ->
  let s := _spherical (clampAngles c) in
  (number (Spherical.theta s) /\
   dle (minAzimuthAngle c) (Spherical.theta s) /\
   dle (Spherical.theta s) (maxAzimuthAngle c)) /\
  (number (Spherical.phi s) /\
   dle (minPolarAngle c) (Spherical.phi s) /\
   dle (Spherical.phi s) (maxPolarAngle c)).
Proof. intros. split; now apply double_clamp. Qed.

End Clamps.

(** ** Runs

    The controller with the implementation of [Spherical] of
    [SphericalCoord] and the functions of [Libm], on a camera at a given
    position without parent and a canvas of 800 by 600 pixels.  The results
    are compared up to [2^-40]; the last digits depend on [Libm]. *)

Import ListNotations.

#[local] Existing Instance Spherical.spec_ops.

Definition double3 (a b c : float) : Vector3.t float := Vector3.mk a b c.

Definition double_camera (a b c : float) : World float :=
  constructor (Transform.mk (double3 a b c) Quaternion.identity (double3 0 0 0)).

Definition double_canvas : Canvas float := mkCanvas 800%float 600%float.

(** No input; a drag to the left by a quarter of the canvas; one wheel step
    up; Alt with W; and the modifier and the button held without a
    pointer. *)
Definition double_idle : Engine float := mkEngine noInput double_canvas.

Definition double_drag : Engine float :=
  mkEngine (held [AltLeft] [Primary] [mkPointer (Vector2.mk (-200)%float 0%float)] None)
    double_canvas.

Definition double_wheel : Engine float :=
  mkEngine (held [] [] [] (Some (double3 0 1 0))) double_canvas.

Definition double_pan : Engine float :=
  mkEngine (held [AltLeft; KeyW] [] [] None) double_canvas.

Definition double_broken : Engine float :=
  mkEngine (held [AltLeft] [Primary] [] None) double_canvas.

Definition near (x y : float) : bool :=
  PrimFloat.ltb (PrimFloat.abs (PrimFloat.sub x y)) 0x1p-40%float.

Definition vnear (v : Vector3.t float) (a b c : float) : bool :=
  near (Vector3.x v) a && near (Vector3.y v) b && near (Vector3.z v) c.

Lemma clampRadius_double_witness :
  let c := self (double_camera 0 0 5) in
  let r := Spherical.radius (_spherical (clampRadius c)) in
  number r /\ dle (minDistance c) r /\ dle r (maxDistance c).
Proof. apply clampRadius_double; vm_compute; reflexivity. Defined.

Lemma clampAngles_double_witness :
  let c := self (double_camera 0 0 5) in
  let s := _spherical (clampAngles c) in
  (number (Spherical.theta s) /\
   dle (minAzimuthAngle c) (Spherical.theta s) /\
   dle (Spherical.theta s) (maxAzimuthAngle c)) /\
  (number (Spherical.phi s) /\
   dle (minPolarAngle c) (Spherical.phi s) /\
   dle (Spherical.phi s) (maxPolarAngle c)).
Proof. apply clampAngles_double; vm_compute; reflexivity. Defined.

(** The example of section 8 of the specification through a whole frame:
    a drag to the left by a quarter of the canvas turns the camera by a
    quarter turn, from [(0, 0, 5)] to [(5, 0, 0)], and leaves the target and
    the flag. *)
Example double_quarter_turn :
  exists w', onUpdate double_drag (double_camera 0 0 5) = Ok w' /\
    vnear (Transform.position (transform w')) 5 0 0 = true /\
    _target (self w') = double3 0 0 0 /\
    _atTheBack (self w') = false.
Proof. eexists. split; [vm_compute; reflexivity|]. vm_compute. auto. Qed.

(** Four frames: the drag, a wheel step (the distance becomes [5 / 0.95]),
    a pan forward (the target and the camera move a tenth towards where the
    camera looks, which is along the negative x axis) and a frame without
    input. *)
Example double_run :
  exists w',
    frames (double_camera 0 0 5) [double_drag; double_wheel; double_pan; double_idle]
    = Ok w' /\
    near (Spherical.radius (_spherical (self w'))) (5 / (95 / 100))%float = true /\
    vnear (_target (self w')) (- (1 / 10))%float 0 0 = true /\
    vnear (Transform.position (transform w')) (5 / (95 / 100) - 1 / 10)%float 0 0 = true /\
    _scale (self w') = 1%float /\ _zoomFrag (self w') = 0%float.
Proof. eexists. split; [vm_compute; reflexivity|]. vm_compute. auto 6. Qed.

(** The drag without a pointer throws, and ends the run. *)
Example double_throws :
  onUpdate double_broken (double_camera 0 0 5) = Throw TypeError /\
  frames (double_camera 0 0 5) [double_idle; double_broken; double_idle] = Throw TypeError.
Proof. split; vm_compute; reflexivity. Qed.

(** Eighty wheel steps towards the target bring the camera from the
    distance 5 to [minDistance], exactly: the clamp returns the limit
    itself. *)
Definition double_wheel_in : Engine float :=
  mkEngine (held [] [] [] (Some (double3 0 (-1) 0))) double_canvas.

Example double_reaches_minDistance :
  exists w', frames (double_camera 0 0 5) (repeat double_wheel_in 80) = Ok w' /\
    Spherical.radius (_spherical (self w')) = minDistance (self w') /\
    vnear (Transform.position (transform w')) 0 0 (1 / 10) = true.
Proof. eexists. split; [vm_compute; reflexivity|]. vm_compute. auto. Qed.

(** A drag on a canvas of width zero: line 101 divides by zero, and after
    the frame and four more frames the position of the camera is [NaN]. *)
Definition double_flat : Engine float :=
  mkEngine (held [AltLeft] [Primary] [mkPointer (Vector2.mk (-200)%float 0%float)] None)
    (mkCanvas 0%float 600%float).

Example double_empty_canvas :
  exists w,
    frames (double_camera 0 0 5)
      [double_flat; double_idle; double_wheel; double_pan; double_drag] = Ok w /\
    PrimFloat.is_nan (Vector3.x (Transform.position (transform w))) = true.
Proof. eexists. split; vm_compute; reflexivity. Qed.

(** On doubles the fixed point without input holds up to rounding. *)
Example double_second_call :
  let w := _updateTransform (double_camera 1 2 3) in
  vnear (Transform.position (transform w)) 1 2 3 = true /\
  vnear (Transform.position (transform (_updateTransform w))) 1 2 3 = true.
Proof. split; vm_compute; reflexivity. Qed.
